(** * TTKi multi-agent core: classifier, decomposer, plan builder, orchestrator

    A shallow embedding of the scheduling core of the TTKi repository:

    - [src/domain/value_objects.py]   enumerations, identifiers, task results,
      performance metrics;
    - [src/domain/entities.py]        [TaskEntity], [AgentEntity],
      [ExecutionPlanEntity] and their state-changing methods;
    - [src/domain/services/task_analysis_service.py]   rule-based classifier
      and request decomposer;
    - [src/domain/services/execution_planning_service.py]   plan builder;
    - [src/domain/services/agent_orchestrator.py]   agent scoring/selection,
      cycle detection and the readiness-driven execution loop.
    - [agents/base_agent.py], [agents/task_router.py],
      [agents/planner_agent.py]   the priority queue of an agent, the router
      that decomposes a request into tasks, and the planner that executes
      the tasks in one pass.

    Modelling conventions.

    - Python [float] values are exact rationals ([Q]); rounding is not
      modelled.
    - Python [str] values are [string]s of 8-bit characters; case folding,
      word characters, digits and white space follow Python on the ASCII
      range, characters above 127 are neither letters nor spaces.  Python
      folds the case of letters outside ASCII as well, so a statement that
      compares texts after folding is made for ASCII texts ([ascii_text]).
    - A method that mutates [self] and may raise is a function from the
      object to an outcome paired with the object afterwards.
    - [datetime.now()] reads a clock that is a parameter of the model; the
      external executor call and the identifier generators are parameters
      as well.
    - [execute_plan] is followed on its own: no other coroutine changes the
      plan, its tasks or the registry while it runs, and the coroutines of
      one batch run one after the other.  That is what [asyncio.gather] does
      as long as no coroutine is suspended inside the executor call, as with
      the call the file has, which raises at once ([repository_executor]);
      a statement that depends on this order is made for that call. *)

From Stdlib Require Import ZArith QArith Lqa String Ascii List Sorted Lia Relations.
From Stdlib Require DecimalString DecimalNat.
From stdpp Require Import base gmap strings list.

Open Scope string_scope.

#[local] Set Warnings "-clear-no-such-hyp".

(** ** Value objects ([value_objects.py]) *)

Inductive TaskType :=
| VISION_ANALYSIS | CODE_GENERATION | FILE_OPERATIONS | TERMINAL_COMMANDS
| BROWSER_AUTOMATION | PLANNING | TESTING | OPTIMIZATION.

(** [TaskType.value] *)
Definition task_type_value (k : TaskType) : string :=
  match k with
  | VISION_ANALYSIS => "vision_analysis"
  | CODE_GENERATION => "code_generation"
  | FILE_OPERATIONS => "file_operations"
  | TERMINAL_COMMANDS => "terminal_commands"
  | BROWSER_AUTOMATION => "browser_automation"
  | PLANNING => "planning"
  | TESTING => "testing"
  | OPTIMIZATION => "optimization"
  end.

Inductive TaskPriority := LOW | MEDIUM | HIGH | CRITICAL.

(** [TaskPriority.value] *)
Definition priority_value (p : TaskPriority) : Z :=
  match p with LOW => 1 | MEDIUM => 2 | HIGH => 3 | CRITICAL => 4 end.

Inductive TaskStatus := PENDING | RUNNING | COMPLETED | FAILED | CANCELLED.

(** [str(status)] as it appears in error messages. *)
Definition status_str (s : TaskStatus) : string :=
  match s with
  | PENDING => "TaskStatus.PENDING"
  | RUNNING => "TaskStatus.RUNNING"
  | COMPLETED => "TaskStatus.COMPLETED"
  | FAILED => "TaskStatus.FAILED"
  | CANCELLED => "TaskStatus.CANCELLED"
  end.

Definition status_eqb (a b : TaskStatus) : bool :=
  match a, b with
  | PENDING, PENDING | RUNNING, RUNNING | COMPLETED, COMPLETED
  | FAILED, FAILED | CANCELLED, CANCELLED => true
  | _, _ => false
  end.

(** [TaskId] and [AgentId] are frozen wrappers around one string, compared
    by value. *)
Abbreviation TaskId := string (only parsing).
Abbreviation AgentId := string (only parsing).

(** [TaskResult]; [data] is an opaque payload. *)
Record TaskResult := mkTaskResult {
  success : bool;
  data : option string;
  error_message : option string;
  duration : Q
}.

(** Exceptions raised by the modelled code. *)
Inductive exn :=
| ValueError (msg : string)
| IndexError (msg : string)
| ZeroDivisionError
| RecursionError
| ExecutorRaised (msg : string).

(** [str(e)] *)
Definition exn_str (e : exn) : string :=
  match e with
  | ValueError m => m
  | IndexError m => m
  | ZeroDivisionError => "float division by zero"
  | RecursionError => "maximum recursion depth exceeded"
  | ExecutorRaised m => m
  end.

Inductive res (A : Type) :=
| Ok (a : A)
| Raise (e : exn).
Arguments Ok {A} a.
Arguments Raise {A} e.

(** [dep in completed_tasks] *)
Definition id_in (x : TaskId) (l : list TaskId) : bool :=
  existsb (String.eqb x) l.

(** Python division: raises on a zero divisor. *)
Definition py_div (a b : Q) : res Q :=
  if Qeq_bool b 0 then Raise ZeroDivisionError else Ok (a / b)%Q.

(** [float(n)] for a count [n] *)
Definition nat_Q (n : nat) : Q := inject_Z (Z.of_nat n).

Definition Qltb (a b : Q) : bool := negb (Qle_bool b a).
Definition Qmax (a b : Q) : Q := if Qltb a b then b else a.
Definition Qmin (a b : Q) : Q := if Qltb b a then b else a.

(** [PerformanceMetrics] (value_objects.py 113-167) *)
Module PerformanceMetrics.

Record t := mk {
  success_rate : Q;
  average_duration : Q;
  total_tasks_completed : Q;
  error_rate : Q;
  efficiency_score : Q
}.

(** [calculate_efficiency_score] *)
Definition calculate_efficiency_score (self : t) : res Q :=
  if Qeq_bool (total_tasks_completed self) 0 then Ok 0%Q
  else
    match py_div 1 (average_duration self + 0.1) with
    | Raise e => Raise e
    | Ok q =>
        let speed_factor := Qmax 0.1 q in
        let efficiency := (success_rate self * 0.7 + speed_factor * 0.3)%Q in
        Ok (Qmin 1 efficiency)
    end.

(** [update_with_result] *)
Definition update_with_result (self : t) (r : TaskResult) : res t :=
  let new_total := (total_tasks_completed self + 1)%Q in
  let current_successes := (success_rate self * total_tasks_completed self)%Q in
  let new_successes := (current_successes + (if success r then 1 else 0))%Q in
  match py_div new_successes new_total with
  | Raise e => Raise e
  | Ok new_success_rate =>
    let current_total_duration := (average_duration self * total_tasks_completed self)%Q in
    let new_total_duration := (current_total_duration + duration r)%Q in
    match py_div new_total_duration new_total with
    | Raise e => Raise e
    | Ok new_average_duration =>
      let current_errors := (error_rate self * total_tasks_completed self)%Q in
      let new_errors := (current_errors + (if success r then 0 else 1))%Q in
      match py_div new_errors new_total with
      | Raise e => Raise e
      | Ok new_error_rate =>
        let updated_metrics :=
          mk new_success_rate new_average_duration new_total new_error_rate 0 in
        match calculate_efficiency_score updated_metrics with
        | Raise e => Raise e
        | Ok eff =>
            Ok (mk new_success_rate new_average_duration new_total new_error_rate eff)
        end
      end
    end
  end.

End PerformanceMetrics.

(** ** Entities ([entities.py]) *)

(** Fields that no modelled operation reads ([parameters], [parent_task_id],
    [created_at], [resource_usage]) are left out of the records. *)
Module TaskEntity.

Record t := mk {
  id : TaskId;
  description : string;
  task_type : TaskType;
  priority : TaskPriority;
  status : TaskStatus;
  dependencies : list TaskId;
  estimated_duration : Q;
  actual_duration : option Q;
  started_at : option Q;
  completed_at : option Q;
  assigned_agent_id : option AgentId;
  result : option string;
  error : option string
}.

(** [TaskEntity.start] (entities.py 34-41) *)
Definition start (now : Q) (agent_id : AgentId) (self : t) : res unit * t :=
  if negb (status_eqb (status self) PENDING) then
    (Raise (ValueError ("Cannot start task in status: " ++ status_str (status self))), self)
  else
    (Ok tt,
     {| id := id self; description := description self;
        task_type := task_type self; priority := priority self;
        status := RUNNING;
        dependencies := dependencies self;
        estimated_duration := estimated_duration self;
        actual_duration := actual_duration self;
        started_at := Some now;
        completed_at := completed_at self;
        assigned_agent_id := Some agent_id;
        result := result self; error := error self |}).

(** [TaskEntity.complete] (entities.py 43-51); the payload may be [None]. *)
Definition complete (now : Q) (result_ : option string) (duration_ : Q)
  (self : t) : res unit * t :=
  if negb (status_eqb (status self) RUNNING) then
    (Raise (ValueError ("Cannot complete task in status: " ++ status_str (status self))), self)
  else
    (Ok tt,
     {| id := id self; description := description self;
        task_type := task_type self; priority := priority self;
        status := COMPLETED;
        dependencies := dependencies self;
        estimated_duration := estimated_duration self;
        actual_duration := Some duration_;
        started_at := started_at self;
        completed_at := Some now;
        assigned_agent_id := assigned_agent_id self;
        result := result_; error := error self |}).

(** [TaskEntity.fail] (entities.py 53-61) *)
Definition fail (now : Q) (error_ : option string) (duration_ : Q)
  (self : t) : res unit * t :=
  if negb (status_eqb (status self) RUNNING) then
    (Raise (ValueError ("Cannot fail task in status: " ++ status_str (status self))), self)
  else
    (Ok tt,
     {| id := id self; description := description self;
        task_type := task_type self; priority := priority self;
        status := FAILED;
        dependencies := dependencies self;
        estimated_duration := estimated_duration self;
        actual_duration := Some duration_;
        started_at := started_at self;
        completed_at := Some now;
        assigned_agent_id := assigned_agent_id self;
        result := result self; error := error_ |}).

(** [TaskEntity.can_start] (entities.py 63-65) *)
Definition can_start (self : t) (completed_tasks : list TaskId) : bool :=
  forallb (fun dep => id_in dep completed_tasks) (dependencies self).

End TaskEntity.

Module AgentEntity.

Record t := mk {
  id : AgentId;
  agent_type : string;
  capabilities : list string;
  status : string;
  current_task_id : option TaskId;
  task_queue : list TaskId;
  performance_metrics : gmap string Q;
  last_activity : Q
}.

(** [AgentEntity.assign_task] (entities.py 84-91) *)
Definition assign_task (now : Q) (task_id : TaskId) (self : t) : res unit * t :=
  if negb (String.eqb (status self) "available") then
    (Raise (ValueError ("Agent " ++ id self ++ " is not available (status: "
                        ++ status self ++ ")")), self)
  else
    (Ok tt,
     {| id := id self; agent_type := agent_type self;
        capabilities := capabilities self;
        status := "busy";
        current_task_id := Some task_id;
        task_queue := task_queue self;
        performance_metrics := performance_metrics self;
        last_activity := now |}).

(** [AgentEntity.complete_task] (entities.py 93-97) *)
Definition complete_task (now : Q) (self : t) : t :=
  {| id := id self; agent_type := agent_type self;
     capabilities := capabilities self;
     status := "available";
     current_task_id := None;
     task_queue := task_queue self;
     performance_metrics := performance_metrics self;
     last_activity := now |}.

(** [AgentEntity.can_handle_task] (entities.py 109-111) *)
Definition can_handle_task (self : t) (k : TaskType) : bool :=
  existsb (String.eqb (task_type_value k)) (capabilities self).

(** [agent.performance_metrics.update({...})] *)
Definition set_performance_metrics (m : gmap string Q) (self : t) : t :=
  {| id := id self; agent_type := agent_type self;
     capabilities := capabilities self;
     status := status self;
     current_task_id := current_task_id self;
     task_queue := task_queue self;
     performance_metrics := m;
     last_activity := last_activity self |}.

(** [AgentEntity.add_to_queue] (entities.py 99-101) *)
Definition add_to_queue (task_id : TaskId) (self : t) : t :=
  {| id := id self; agent_type := agent_type self;
     capabilities := capabilities self;
     status := status self;
     current_task_id := current_task_id self;
     task_queue := (task_queue self ++ [task_id])%list;
     performance_metrics := performance_metrics self;
     last_activity := last_activity self |}.

(** [AgentEntity.get_next_queued_task] (entities.py 103-107):
    [task_queue.pop(0)], or [None] on an empty queue. *)
Definition get_next_queued_task (self : t) : option TaskId * t :=
  match task_queue self with
  | [] => (None, self)
  | first :: rest =>
      (Some first,
       {| id := id self; agent_type := agent_type self;
          capabilities := capabilities self;
          status := status self;
          current_task_id := current_task_id self;
          task_queue := rest;
          performance_metrics := performance_metrics self;
          last_activity := last_activity self |})
  end.

End AgentEntity.

Module ExecutionPlanEntity.

Record t := mk {
  id : string;
  original_request : string;
  tasks : list TaskEntity.t;
  status : string;
  estimated_total_duration : Q;
  actual_duration : option Q;
  complexity_score : Q;
  parallel_groups : list (list string);
  started_at : option Q;
  completed_at : option Q;
  success_rate : Q
}.

Definition set_tasks (ts : list TaskEntity.t) (self : t) : t :=
  {| id := id self; original_request := original_request self;
     tasks := ts;
     status := status self;
     estimated_total_duration := estimated_total_duration self;
     actual_duration := actual_duration self;
     complexity_score := complexity_score self;
     parallel_groups := parallel_groups self;
     started_at := started_at self;
     completed_at := completed_at self;
     success_rate := success_rate self |}.

(** [start_execution] (entities.py 137-143) *)
Definition start_execution (now : Q) (self : t) : res unit * t :=
  if negb (String.eqb (status self) "pending") then
    (Raise (ValueError ("Cannot start plan in status: " ++ status self)), self)
  else
    (Ok tt,
     {| id := id self; original_request := original_request self;
        tasks := tasks self;
        status := "running";
        estimated_total_duration := estimated_total_duration self;
        actual_duration := actual_duration self;
        complexity_score := complexity_score self;
        parallel_groups := parallel_groups self;
        started_at := Some now;
        completed_at := completed_at self;
        success_rate := success_rate self |}).

(** [complete_execution] (entities.py 145-153) *)
Definition complete_execution (now : Q) (success_rate_ : Q) (duration_ : Q)
  (self : t) : res unit * t :=
  if negb (String.eqb (status self) "running") then
    (Raise (ValueError ("Cannot complete plan in status: " ++ status self)), self)
  else
    (Ok tt,
     {| id := id self; original_request := original_request self;
        tasks := tasks self;
        status := "completed";
        estimated_total_duration := estimated_total_duration self;
        actual_duration := Some duration_;
        complexity_score := complexity_score self;
        parallel_groups := parallel_groups self;
        started_at := started_at self;
        completed_at := Some now;
        success_rate := success_rate_ |}).

(** [get_ready_tasks] (entities.py 160-169).  The tasks are objects shared
    with the plan; a ready task is given by its position in [plan.tasks]. *)
Definition ready_indices (ts : list TaskEntity.t) (completed_task_ids : list TaskId)
  : list nat :=
  map fst
    (List.filter (fun p : nat * TaskEntity.t =>
               status_eqb (TaskEntity.status (snd p)) PENDING
               && TaskEntity.can_start (snd p) completed_task_ids)
            (combine (seq 0 (length ts)) ts)).

Definition get_ready_tasks (self : t) (completed_task_ids : list TaskId) : list nat :=
  ready_indices (tasks self) completed_task_ids.

(** [get_completion_percentage] (entities.py 171-178) *)
Definition get_completion_percentage (self : t) : Q :=
  match tasks self with
  | [] => 0
  | _ =>
    let completed_tasks :=
      length (List.filter (fun tk => status_eqb (TaskEntity.status tk) COMPLETED
                                || status_eqb (TaskEntity.status tk) FAILED)
                     (tasks self)) in
    (nat_Q completed_tasks / nat_Q (length (tasks self)) * 100)%Q
  end.

(** [add_task] (entities.py 155-158) *)
Definition add_task (task : TaskEntity.t) (self : t) : t :=
  {| id := id self; original_request := original_request self;
     tasks := (tasks self ++ [task])%list;
     status := status self;
     estimated_total_duration :=
       (estimated_total_duration self + TaskEntity.estimated_duration task)%Q;
     actual_duration := actual_duration self;
     complexity_score := complexity_score self;
     parallel_groups := parallel_groups self;
     started_at := started_at self;
     completed_at := completed_at self;
     success_rate := success_rate self |}.

End ExecutionPlanEntity.

(** ** Text primitives ([str] methods and the [re] module) *)

Definition is_upper (c : ascii) : bool :=
  let n := nat_of_ascii c in (65 <=? n)%nat && (n <=? 90)%nat.
Definition is_lower (c : ascii) : bool :=
  let n := nat_of_ascii c in (97 <=? n)%nat && (n <=? 122)%nat.
Definition is_digit (c : ascii) : bool :=
  let n := nat_of_ascii c in (48 <=? n)%nat && (n <=? 57)%nat.

(** [\w]: letters, digits and the underscore. *)
Definition is_word (c : ascii) : bool :=
  is_upper c || is_lower c || is_digit c || (nat_of_ascii c =? 95)%nat.

(** [str.isspace] on one character: TAB..CR, FS..US and the blank. *)
Definition is_space (c : ascii) : bool :=
  let n := nat_of_ascii c in
  ((9 <=? n)%nat && (n <=? 13)%nat) || ((28 <=? n)%nat && (n <=? 32)%nat).

Definition newline : ascii := ascii_of_nat 10.

Definition lower_char (c : ascii) : ascii :=
  if is_upper c then ascii_of_nat (nat_of_ascii c + 32) else c.

(** [str.lower] *)
Fixpoint lower (s : string) : string :=
  match s with
  | EmptyString => EmptyString
  | String c s' => String (lower_char c) (lower s')
  end.

(** [s.startswith(p)] *)
Fixpoint starts_with (p s : string) : bool :=
  match p, s with
  | EmptyString, _ => true
  | String a p', String b s' => Ascii.eqb a b && starts_with p' s'
  | String _ _, EmptyString => false
  end.

(** [needle in hay] *)
Fixpoint contains (needle hay : string) : bool :=
  starts_with needle hay
  || match hay with
     | EmptyString => false
     | String _ hay' => contains needle hay'
     end.

Fixpoint lstrip (s : string) : string :=
  match s with
  | EmptyString => EmptyString
  | String c s' => if is_space c then lstrip s' else s
  end.

Fixpoint rstrip (s : string) : string :=
  match s with
  | EmptyString => EmptyString
  | String c s' =>
      match rstrip s' with
      | EmptyString => if is_space c then EmptyString else String c EmptyString
      | r => String c r
      end
  end.

(** [str.strip] *)
Definition strip (s : string) : string := rstrip (lstrip s).

(** [str.split()] without argument: maximal runs of non-space characters.
    [word] is the run being read, in reverse. *)
Fixpoint split_words (word : list ascii) (s : string) : list string :=
  let flush (rest : list string) :=
    match word with
    | [] => rest
    | _ => string_of_list_ascii (rev word) :: rest
    end in
  match s with
  | EmptyString => flush []
  | String c s' =>
      if is_space c then flush (split_words [] s')
      else split_words (c :: word) s'
  end.

Definition split_ws (s : string) : list string := split_words [] s.

(** The fragment of regular expressions used by the patterns of the
    repository. *)
Inductive regex :=
| Lit (s : string)          (* literal text *)
| DotStar                   (* [.*]: any run without a newline *)
| Digits1                   (* [\d+] *)
| WordB                     (* [\b] *)
| Seq (a b : regex)
| Alt (a b : regex).

Section Matcher.

(** [re.IGNORECASE]: the letters of the ASCII range are compared without
    regard to case. *)
Variable ignorecase : bool.

Definition char_matches (p c : ascii) : bool :=
  if ignorecase then Ascii.eqb (lower_char p) (lower_char c) else Ascii.eqb p c.

(** [\b] holds between a word character and a non-word character or an
    end of the text. *)
Definition at_boundary (prev : option ascii) (s : string) : bool :=
  let before := match prev with Some c => is_word c | None => false end in
  let after := match s with String c _ => is_word c | EmptyString => false end in
  xorb before after.

(** A backtracking matcher in continuation style.  [prev] is the character
    before the current position; the continuation receives the position
    after the match.  Alternatives are tried left to right and repetitions
    longest first, as [re] does. *)
Fixpoint match_lit (l : string) (k : option ascii -> string -> option string)
  (prev : option ascii) (s : string) : option string :=
  match l with
  | EmptyString => k prev s
  | String p l' =>
      match s with
      | String c s' => if char_matches p c then match_lit l' k (Some c) s' else None
      | EmptyString => None
      end
  end.

Fixpoint match_dotstar (k : option ascii -> string -> option string)
  (prev : option ascii) (s : string) : option string :=
  match s with
  | String c s' =>
      if Ascii.eqb c newline then k prev s
      else match match_dotstar k (Some c) s' with
           | Some r => Some r
           | None => k prev s
           end
  | EmptyString => k prev s
  end.

(** Zero or more digits, longest first. *)
Fixpoint match_digits (k : option ascii -> string -> option string)
  (prev : option ascii) (s : string) : option string :=
  match s with
  | String c s' =>
      if is_digit c then
        match match_digits k (Some c) s' with
        | Some r => Some r
        | None => k prev s
        end
      else k prev s
  | EmptyString => k prev s
  end.

Fixpoint match_re (r : regex) (k : option ascii -> string -> option string)
  (prev : option ascii) (s : string) : option string :=
  match r with
  | Lit l => match_lit l k prev s
  | DotStar => match_dotstar k prev s
  | Digits1 =>
      match s with
      | String c s' => if is_digit c then match_digits k (Some c) s' else None
      | EmptyString => None
      end
  | WordB => if at_boundary prev s then k prev s else None
  | Seq a b => match_re a (match_re b k) prev s
  | Alt a b =>
      match match_re a k prev s with
      | Some x => Some x
      | None => match_re b k prev s
      end
  end.

(** A match of [r] starting exactly here; the result is the text after it. *)
Definition match_here (r : regex) (prev : option ascii) (s : string) : option string :=
  match_re r (fun _ rest => Some rest) prev s.

(** [re.search(r, s) is not None] *)
Fixpoint search_from (r : regex) (prev : option ascii) (s : string) : bool :=
  match match_here r prev s with
  | Some _ => true
  | None =>
      match s with
      | String c s' => search_from r (Some c) s'
      | EmptyString => false
      end
  end.

Definition re_search (r : regex) (s : string) : bool := search_from r None s.

(** [re.split(r, s)] for a pattern without groups whose matches are never
    empty.  [skip] counts the characters of the current match still to be
    passed over, [piece] is the current piece in reverse. *)
Fixpoint split_from (r : regex) (skip : nat) (piece : list ascii)
  (prev : option ascii) (s : string) : list string :=
  match skip with
  | S n =>
      match s with
      | String c s' => split_from r n piece (Some c) s'
      | EmptyString => [string_of_list_ascii (rev piece)]
      end
  | O =>
      match s with
      | EmptyString => [string_of_list_ascii (rev piece)]
      | String c s' =>
          match match_here r prev s with
          | Some rest =>
              let n := (String.length s - String.length rest)%nat in
              match n with
              | O => split_from r 0 (c :: piece) (Some c) s'
              | S n' =>
                  string_of_list_ascii (rev piece)
                    :: split_from r n' [] (Some c) s'
              end
          | None => split_from r 0 (c :: piece) (Some c) s'
          end
      end
  end.

Definition re_split (r : regex) (s : string) : list string :=
  split_from r 0 [] None s.

End Matcher.

(** [(a|b|...)] *)
Fixpoint alts (rs : list regex) : regex :=
  match rs with
  | [] => Lit ""
  | [r] => r
  | r :: rs' => Alt r (alts rs')
  end.

(** [a.*b] *)
Definition then_ (a b : string) : regex := Seq (Lit a) (Seq DotStar (Lit b)).

(** ** Task analysis service ([task_analysis_service.py]) *)

Module Rule.
Record t := mk {
  pattern : regex;
  task_type : TaskType;
  priority : TaskPriority;
  keywords : list string;
  complexity_factor : Q;
  base_duration : Q
}.
End Rule.

Module TaskAnalysisResult.
Record t := mk {
  task_type : TaskType;
  priority : TaskPriority;
  complexity_factor : Q;
  keywords : list string;
  estimated_duration : Q
}.
End TaskAnalysisResult.

(** [_initialize_analysis_rules] (task_analysis_service.py 31-98) *)
Definition analysis_rules : list Rule.t :=
  [ Rule.mk
      (alts [Lit "screenshot"; Lit "capture"; then_ "analyze" "screen";
             then_ "what" "see"; Lit "visual"; Lit "image"])
      VISION_ANALYSIS HIGH
      ["screenshot"; "analyze"; "visual"; "see"; "screen"; "image"]
      0.8 2.0;
    Rule.mk
      (alts [then_ "write" "code"; then_ "create" "function"; Lit "implement";
             then_ "generate" "script"])
      CODE_GENERATION HIGH
      ["write"; "create"; "implement"; "generate"; "code"; "function"]
      1.2 5.0;
    Rule.mk
      (alts [then_ "create" "file"; then_ "edit" "file"; then_ "delete" "file";
             then_ "move" "file"; then_ "copy" "file"])
      FILE_OPERATIONS MEDIUM
      ["create"; "edit"; "delete"; "move"; "copy"; "file"]
      0.6 1.0;
    Rule.mk
      (alts [then_ "run" "command"; Lit "execute"; Lit "terminal"; Lit "bash";
             Lit "shell"; Lit "install"])
      TERMINAL_COMMANDS MEDIUM
      ["run"; "execute"; "terminal"; "command"; "bash"; "shell"]
      0.7 3.0;
    Rule.mk
      (alts [then_ "open" "browser"; then_ "navigate" "to"; then_ "click" "button";
             then_ "fill" "form"; Lit "web"])
      BROWSER_AUTOMATION MEDIUM
      ["browser"; "navigate"; "click"; "fill"; "web"; "url"]
      1.0 4.0;
    Rule.mk
      (alts [Lit "plan"; Lit "strategy"; then_ "how" "to"; then_ "steps" "for";
             then_ "break" "down"])
      PLANNING HIGH
      ["plan"; "strategy"; "how"; "steps"; "break"; "analyze"]
      1.5 3.0;
    Rule.mk
      (alts [Lit "test"; Lit "verify"; Lit "check"; Lit "validate"; Lit "debug";
             Lit "error"])
      TESTING HIGH
      ["test"; "verify"; "check"; "validate"; "debug"; "error"]
      1.1 6.0;
    Rule.mk
      (alts [Lit "optimize"; Lit "improve"; Lit "performance"; Lit "faster";
             Lit "efficient"])
      OPTIMIZATION LOW
      ["optimize"; "improve"; "performance"; "faster"; "efficient"]
      1.8 8.0 ].

(** The score of one rule: the body of the loop of [analyze_task]
    (task_analysis_service.py 110-123). *)
Definition rule_score (user_input : string) (rule : Rule.t) : Q :=
  let user_input_lower := lower user_input in
  let score := 0%Q in
  let score :=
    if re_search false (Rule.pattern rule) user_input_lower
    then (score + 3)%Q else score in
  let keyword_matches :=
    length (List.filter (fun keyword => contains keyword user_input_lower)
                   (Rule.keywords rule)) in
  let score := (score + nat_Q keyword_matches * 0.5)%Q in
  let score :=
    if (10 <? length (split_ws user_input))%nat
    then (score + 0.5)%Q else score in
  score.

(** One iteration of the loop over the rules: [(best_match, best_score)]. *)
Definition best_step (user_input : string) (acc : option Rule.t * Q) (rule : Rule.t)
  : option Rule.t * Q :=
  let score := rule_score user_input rule in
  if Qltb (snd acc) score then (Some rule, score) else acc.

Definition best_rule (rules : list Rule.t) (user_input : string) : option Rule.t * Q :=
  fold_left (best_step user_input) rules (None, 0%Q).

(** [TaskAnalysisService.analyze_task] (task_analysis_service.py 100-145) *)
Definition analyze_with (rules : list Rule.t) (user_input : string)
  : TaskAnalysisResult.t :=
  match fst (best_rule rules user_input) with
  | Some best_match =>
      TaskAnalysisResult.mk
        (Rule.task_type best_match) (Rule.priority best_match)
        (Rule.complexity_factor best_match) (Rule.keywords best_match)
        (Rule.base_duration best_match * Rule.complexity_factor best_match)%Q
  | None => TaskAnalysisResult.mk PLANNING MEDIUM 1.0 [] 3.0
  end.

Definition analyze_task (user_input : string) : TaskAnalysisResult.t :=
  analyze_with analysis_rules user_input.

(** [complexity_indicators] (task_analysis_service.py 149-152) *)
Definition complexity_indicators : list string :=
  [" and then "; " after "; " before "; " first "; " next ";
   " finally "; " step 1"; " step 2"; " then "; " afterwards "].

(** [TaskAnalysisService.is_complex_task] *)
Definition is_complex_task (user_input : string) : bool :=
  let user_input_lower := lower user_input in
  existsb (fun indicator => contains indicator user_input_lower) complexity_indicators.

Definition word_sep (w : string) : regex := Seq WordB (Seq (Lit w) WordB).

(** [separators] (task_analysis_service.py 163-166) *)
Definition separators : list regex :=
  [ word_sep "and then"; word_sep "after"; word_sep "next"; word_sep "then";
    Seq WordB (Seq (Lit "step ") Digits1); word_sep "finally";
    word_sep "afterwards" ].

(** The loop over the separators: every part is split again. *)
Definition split_all (parts : list string) : list string :=
  fold_left
    (fun parts separator => flat_map (re_split true separator) parts)
    separators parts.

Definition nonempty (s : string) : bool :=
  match s with EmptyString => false | _ => true end.

(** [TaskAnalysisService.extract_subtasks] (task_analysis_service.py 157-177) *)
Definition extract_subtasks (user_input : string) : list string :=
  if negb (is_complex_task user_input) then [user_input]
  else
    let parts := split_all [user_input] in
    let subtasks := map strip (List.filter (fun part => nonempty (strip part)) parts) in
    if (1 <? length subtasks)%nat then subtasks else [user_input].

(** ** Execution planning service ([execution_planning_service.py]) *)

(** [_create_task_entities] (execution_planning_service.py 62-89).
    [generate k] is the identifier returned by the [k]-th call of
    [TaskId.generate()]. *)
Definition create_step (generate : nat -> TaskId)
  (acc : res (list TaskEntity.t)) (p : nat * string) : res (list TaskEntity.t) :=
  match acc with
  | Raise e => Raise e
  | Ok tasks =>
      let (i, description) := p in
      let analysis := analyze_task description in
      let dependencies : res (list TaskId) :=
        if (0 <? i)%nat then
          match tasks !! (i - 1)%nat with
          | Some prev => Ok [TaskEntity.id prev]
          | None => Raise (IndexError "list index out of range")
          end
        else Ok [] in
      match dependencies with
      | Raise e => Raise e
      | Ok deps =>
          Ok (tasks ++
              [TaskEntity.mk (generate i) (strip description)
                 (TaskAnalysisResult.task_type analysis)
                 (TaskAnalysisResult.priority analysis)
                 PENDING deps
                 (TaskAnalysisResult.estimated_duration analysis)
                 None None None None None None])%list
      end
  end.

Definition _create_task_entities (generate : nat -> TaskId)
  (task_descriptions : list string) : res (list TaskEntity.t) :=
  fold_left (create_step generate)
    (combine (seq 0 (length task_descriptions)) task_descriptions) (Ok []).

(** [sum(...)] over floats *)
Definition Qsum (l : list Q) : Q := fold_left Qplus l 0%Q.

(** [type_complexity] (execution_planning_service.py 101-110) *)
Definition type_complexity (k : TaskType) : Q :=
  match k with
  | VISION_ANALYSIS => 0.8
  | CODE_GENERATION => 1.2
  | FILE_OPERATIONS => 0.6
  | TERMINAL_COMMANDS => 0.7
  | BROWSER_AUTOMATION => 1.0
  | PLANNING => 1.5
  | TESTING => 1.1
  | OPTIMIZATION => 1.8
  end.

(** [ExecutionPlanningService._calculate_complexity_score]
    (execution_planning_service.py 91-115) *)
Definition _calculate_complexity_score (tasks : list TaskEntity.t) : Q :=
  match tasks with
  | [] => 0
  | _ =>
      let base_score := (nat_Q (length tasks) * 0.3)%Q in
      let dependency_score :=
        (nat_Q (list_sum (map (fun task => length (TaskEntity.dependencies task)) tasks))
         * 0.2)%Q in
      let duration_score :=
        (Qsum (map TaskEntity.estimated_duration tasks) * 0.1)%Q in
      let type_score :=
        (Qsum (map (fun task => type_complexity (TaskEntity.task_type task)) tasks)
         * 0.1)%Q in
      (base_score + dependency_score + duration_score + type_score)%Q
  end.

(** [_identify_parallel_groups] (execution_planning_service.py 117-130) *)
Definition _identify_parallel_groups (tasks : list TaskEntity.t) : list (list string) :=
  let independent_tasks :=
    map TaskEntity.id
        (List.filter (fun task => match TaskEntity.dependencies task with
                             | [] => true | _ => false end) tasks) in
  if (1 <? length independent_tasks)%nat then [independent_tasks] else [].

(** [create_execution_plan] (execution_planning_service.py 23-60).
    [plan_id] is the value of [ExecutionPlanId.generate()]. *)
Definition create_execution_plan (generate : nat -> TaskId) (plan_id : string)
  (user_request : string) : res ExecutionPlanEntity.t :=
  let tasks : res (list TaskEntity.t) :=
    if is_complex_task user_request then
      let subtask_descriptions := extract_subtasks user_request in
      _create_task_entities generate subtask_descriptions
    else
      let analysis := analyze_task user_request in
      Ok [TaskEntity.mk (generate 0%nat) user_request
            (TaskAnalysisResult.task_type analysis)
            (TaskAnalysisResult.priority analysis)
            PENDING []
            (TaskAnalysisResult.estimated_duration analysis)
            None None None None None None] in
  match tasks with
  | Raise e => Raise e
  | Ok tasks =>
      Ok (ExecutionPlanEntity.mk plan_id user_request tasks "pending"
            (Qsum (map TaskEntity.estimated_duration tasks))
            None
            (_calculate_complexity_score tasks)
            (_identify_parallel_groups tasks)
            None None 0)
  end.

(** ** Agent orchestrator ([agent_orchestrator.py]) *)

(** What the model takes from outside: the clock read by [datetime.now()]
    (the [k]-th reading, in seconds) and the outcome of the awaited executor
    call of [_execute_task_with_agent] (agent_orchestrator.py 203-210), which
    returns a [TaskResult] or raises; the outcome may depend on the moment of
    the call. *)
Record World := mkWorld {
  clock : nat -> Q;
  executor : nat -> TaskEntity.t -> AgentEntity.t -> res TaskResult
}.

(** The objects [execute_plan] works on.  Tasks and agents are shared,
    mutable objects: a task is referred to by its position in [plan.tasks],
    an agent by its position among the values of [_active_agents] (a [dict],
    so in insertion order).  [ticks] counts the clock readings so far. *)
Record OState := mkO {
  plan : ExecutionPlanEntity.t;
  active_agents : list AgentEntity.t;
  completed_task_ids : list TaskId;
  failed_task_ids : list TaskId;
  task_results : gmap string TaskResult;
  ticks : nat
}.

Definition tasks_of (s : OState) : list TaskEntity.t :=
  ExecutionPlanEntity.tasks (plan s).

Definition now (w : World) (s : OState) : Q := clock w (ticks s).

Definition tick (s : OState) : OState :=
  mkO (plan s) (active_agents s) (completed_task_ids s) (failed_task_ids s)
      (task_results s) (S (ticks s)).

Definition set_plan (p : ExecutionPlanEntity.t) (s : OState) : OState :=
  mkO p (active_agents s) (completed_task_ids s) (failed_task_ids s)
      (task_results s) (ticks s).

Definition set_task (ti : nat) (t : TaskEntity.t) (s : OState) : OState :=
  set_plan (ExecutionPlanEntity.set_tasks (<[ti := t]> (tasks_of s)) (plan s)) s.

Definition set_agent (ai : nat) (a : AgentEntity.t) (s : OState) : OState :=
  mkO (plan s) (<[ai := a]> (active_agents s)) (completed_task_ids s)
      (failed_task_ids s) (task_results s) (ticks s).

Definition add_completed (tid : TaskId) (s : OState) : OState :=
  mkO (plan s) (active_agents s) (completed_task_ids s ++ [tid])%list
      (failed_task_ids s) (task_results s) (ticks s).

Definition add_failed (tid : TaskId) (s : OState) : OState :=
  mkO (plan s) (active_agents s) (completed_task_ids s)
      (failed_task_ids s ++ [tid])%list (task_results s) (ticks s).

Definition set_result (tid : TaskId) (r : TaskResult) (s : OState) : OState :=
  mkO (plan s) (active_agents s) (completed_task_ids s) (failed_task_ids s)
      (<[tid := r]> (task_results s)) (ticks s).

Definition bad_reference : exn := IndexError "list index out of range".

(** A call of a method of the task at position [ti] that reads the clock
    once when it does not raise. *)
Definition task_call (w : World)
  (method : Q -> TaskEntity.t -> res unit * TaskEntity.t)
  (ti : nat) (s : OState) : res unit * OState :=
  match tasks_of s !! ti with
  | None => (Raise bad_reference, s)
  | Some task =>
      match method (now w s) task with
      | (Ok _, task') => (Ok tt, tick (set_task ti task' s))
      | (Raise e, task') => (Raise e, set_task ti task' s)
      end
  end.

(** [_calculate_agent_score] (agent_orchestrator.py 160-189); [now_] is the
    clock reading taken for the recency bonus. *)
Definition _calculate_agent_score (now_ : Q) (agent : AgentEntity.t)
  (task : TaskEntity.t) : Q :=
  let score := 0%Q in
  let score :=
    match AgentEntity.performance_metrics agent !! "success_rate" with
    | Some sr => (score + sr * 50)%Q
    | None => score
    end in
  let queue_penalty := (nat_Q (length (AgentEntity.task_queue agent)) * 10)%Q in
  let score := (score - queue_penalty)%Q in
  let task_type_capability :=
    existsb (String.eqb (task_type_value (TaskEntity.task_type task)))
            (AgentEntity.capabilities agent) in
  let score := if task_type_capability then (score + 30)%Q else score in
  let score :=
    if (3 <=? priority_value (TaskEntity.priority task))%Z
    then (score + 20)%Q else score in
  let time_since_activity := (now_ - AgentEntity.last_activity agent)%Q in
  let score := if Qltb time_since_activity 60 then (score + 10)%Q else score in
  Qmax 0 score.

(** [list.sort(key=lambda x: x[1], reverse=True)]: a stable sort, largest
    score first, equal scores in their original order. *)
Fixpoint insert_desc (x : nat * Q) (l : list (nat * Q)) : list (nat * Q) :=
  match l with
  | [] => [x]
  | y :: l' => if Qltb (snd x) (snd y) then y :: insert_desc x l' else x :: l
  end.

Definition sort_desc (l : list (nat * Q)) : list (nat * Q) :=
  fold_right insert_desc [] l.

(** The loop of [_select_best_agent] that collects [(agent, score)] for the
    available agents declaring the task's type; each score reads the clock. *)
Fixpoint suitable_from (w : World) (task : TaskEntity.t) (i : nat)
  (agents : list AgentEntity.t) (k : nat) : list (nat * Q) * nat :=
  match agents with
  | [] => ([], k)
  | agent :: rest =>
      if String.eqb (AgentEntity.status agent) "available"
         && AgentEntity.can_handle_task agent (TaskEntity.task_type task)
      then
        let score := _calculate_agent_score (clock w k) agent task in
        let (l, k') := suitable_from w task (S i) rest (S k) in
        ((i, score) :: l, k')
      else suitable_from w task (S i) rest k
  end.

(** [_select_best_agent] (agent_orchestrator.py 138-158): the position of the
    selected agent, or [None]. *)
Definition _select_best_agent (w : World) (task : TaskEntity.t) (s : OState)
  : option nat * OState :=
  let (suitable_agents, k) := suitable_from w task 0 (active_agents s) (ticks s) in
  let s' := mkO (plan s) (active_agents s) (completed_task_ids s)
                (failed_task_ids s) (task_results s) k in
  match sort_desc suitable_agents with
  | [] => (None, s')
  | best :: _ => (Some (fst best), s')
  end.

(** The update of the agent's metrics at the end of the [try] block
    (agent_orchestrator.py 222-238). *)
Definition metric (m : gmap string Q) (key : string) (default : Q) : Q :=
  match m !! key with Some v => v | None => default end.

Definition update_agent_metrics (agent : AgentEntity.t) (r : TaskResult)
  : res AgentEntity.t :=
  let m := AgentEntity.performance_metrics agent in
  match m !! "success_rate" with
  | None => Ok agent
  | Some _ =>
      let current_metrics :=
        PerformanceMetrics.mk (metric m "success_rate" 0) (metric m "average_duration" 0)
          (metric m "total_tasks_completed" 0) (metric m "error_rate" 0) 0 in
      match PerformanceMetrics.update_with_result current_metrics r with
      | Raise e => Raise e
      | Ok u =>
          Ok (AgentEntity.set_performance_metrics
                (<["efficiency_score" := PerformanceMetrics.efficiency_score u]>
                 (<["error_rate" := PerformanceMetrics.error_rate u]>
                 (<["total_tasks_completed" := PerformanceMetrics.total_tasks_completed u]>
                 (<["average_duration" := PerformanceMetrics.average_duration u]>
                 (<["success_rate" := PerformanceMetrics.success_rate u]> m)))))
                agent)
      end
  end.

(** The [try] block of [_execute_task_with_agent]
    (agent_orchestrator.py 197-240). *)
Definition execute_try (w : World) (ti ai : nat) (start_time : Q) (s : OState)
  : res TaskResult * OState :=
  match tasks_of s !! ti, active_agents s !! ai with
  | Some task, Some agent =>
      (* agent.assign_task(task.id) *)
      match AgentEntity.assign_task (now w s) (TaskEntity.id task) agent with
      | (Raise e, _) => (Raise e, s)
      | (Ok _, agent1) =>
          let s := tick (set_agent ai agent1 s) in
          (* task.start(agent.id) *)
          match task_call w (fun n => TaskEntity.start n (AgentEntity.id agent1)) ti s with
          | (Raise e, s) => (Raise e, s)
          | (Ok _, s) =>
              let task1 := default task (tasks_of s !! ti) in
              (* the awaited executor call *)
              match executor w (ticks s) task1 agent1 with
              | Raise e => (Raise e, s)
              | Ok result_ =>
                  let duration_ := (now w s - start_time)%Q in
                  let s := tick s in
                  let finish :=
                    if success result_
                    then task_call w (fun n => TaskEntity.complete n (data result_) duration_) ti s
                    else task_call w (fun n => TaskEntity.fail n (error_message result_) duration_) ti s in
                  match finish with
                  | (Raise e, s) => (Raise e, s)
                  | (Ok _, s) =>
                      (* agent.complete_task() *)
                      let agent2 := AgentEntity.complete_task (now w s) agent1 in
                      let s := tick (set_agent ai agent2 s) in
                      match update_agent_metrics agent2 result_ with
                      | Raise e => (Raise e, s)
                      | Ok agent3 => (Ok result_, set_agent ai agent3 s)
                      end
                  end
              end
          end
      end
  | _, _ => (Raise bad_reference, s)
  end.

(** [_execute_task_with_agent] (agent_orchestrator.py 191-251): the [try]
    block and its [except Exception] handler, which itself raises when
    [task.fail] does. *)
Definition _execute_task_with_agent (w : World) (ti ai : nat) (s : OState)
  : res TaskResult * OState :=
  let start_time := now w s in
  let s := tick s in
  match execute_try w ti ai start_time s with
  | (Ok result_, s) => (Ok result_, s)
  | (Raise e, s) =>
      let duration_ := (now w s - start_time)%Q in
      let s := tick s in
      match task_call w (fun n => TaskEntity.fail n (Some (exn_str e)) duration_) ti s with
      | (Raise e', s) => (Raise e', s)
      | (Ok _, s) =>
          let s :=
            match active_agents s !! ai with
            | Some agent => tick (set_agent ai (AgentEntity.complete_task (now w s) agent) s)
            | None => s
            end in
          (Ok (mkTaskResult false None (Some (exn_str e)) duration_), s)
      end
  end.

(** *** Cycle detection ([_has_circular_dependencies], 321-354) *)

(** [{task.id: task for task in tasks}]: a later task replaces an earlier
    one with the same identifier. *)
Definition task_map_of (tasks : list TaskEntity.t) : gmap string TaskEntity.t :=
  fold_left (fun m task => <[TaskEntity.id task := task]> m) tasks ∅.

(** The two sets of the search: [visited] and [rec_stack]. *)
Definition dfs_state : Type := gset string * gset string.

(** A [for] loop whose body may return [True] early; [None] is inherited
    from the body. *)
Fixpoint for_until (body : string -> dfs_state -> option (bool * dfs_state))
  (l : list string) (st : dfs_state) : option (bool * dfs_state) :=
  match l with
  | [] => Some (false, st)
  | x :: l' =>
      match body x st with
      | None => None
      | Some (true, st') => Some (true, st')
      | Some (false, st') => for_until body l' st'
      end
  end.

(** The inner function [has_cycle].  [depth] bounds the depth of the
    recursion; the result is [None] when the bound is reached. *)
Fixpoint has_cycle (depth : nat) (task_map : gmap string TaskEntity.t)
  (task_id : TaskId) (st : dfs_state) : option (bool * dfs_state) :=
  match depth with
  | O => None
  | S depth' =>
      let (visited, rec_stack) := st in
      if decide (task_id ∈ rec_stack) then Some (true, st)
      else if decide (task_id ∈ visited) then Some (false, st)
      else
        let st1 : dfs_state := (visited ∪ {[task_id]}, rec_stack ∪ {[task_id]}) in
        let children :=
          match task_map !! task_id with
          | Some task =>
              for_until (has_cycle depth' task_map) (TaskEntity.dependencies task) st1
          | None => Some (false, st1)
          end in
        match children with
        | None => None
        | Some (true, st2) => Some (true, st2)
        | Some (false, (visited2, rec_stack2)) =>
            Some (false, (visited2, rec_stack2 ∖ {[task_id]}))
        end
  end.

(** The outer loop over the tasks. *)
Definition visit_root (depth : nat) (task_map : gmap string TaskEntity.t)
  (task_id : TaskId) (st : dfs_state) : option (bool * dfs_state) :=
  if decide (task_id ∈ st.1) then Some (false, st)
  else has_cycle depth task_map task_id st.

(** [_has_circular_dependencies] under an interpreter that still allows
    [frames] nested calls of [has_cycle]: the [RecursionError] of the
    interpreter leaves the function when the search needs more. *)
Definition _has_circular_dependencies_within (frames : nat)
  (tasks : list TaskEntity.t) : res bool :=
  let task_map := task_map_of tasks in
  match for_until (visit_root frames task_map) (map TaskEntity.id tasks) (∅, ∅) with
  | None => Raise RecursionError
  | Some (b, _) => Ok b
  end.

(** [_has_circular_dependencies] as the loop uses it; the recursion never
    goes deeper than the number of tasks plus one (lemma
    [has_circular_total] below), and the loop is followed under an
    interpreter that allows this depth. *)
Definition _has_circular_dependencies (tasks : list TaskEntity.t) : option bool :=
  let task_map := task_map_of tasks in
  match for_until (visit_root (S (S (length tasks))) task_map)
                  (map TaskEntity.id tasks) (∅, ∅) with
  | None => None
  | Some (b, _) => Some b
  end.

(** *** The driving loop ([execute_plan], 46-136) *)

(** The first loop of a cycle: an agent is selected for every ready task
    before anything is dispatched; [execution_tasks] pairs the tasks that got
    one with their agents. *)
Fixpoint select_all (w : World) (ready_tasks : list nat) (s : OState)
  : list (nat * nat) * OState :=
  match ready_tasks with
  | [] => ([], s)
  | ti :: rest =>
      match tasks_of s !! ti with
      | None => select_all w rest s
      | Some task =>
          let (agent, s1) := _select_best_agent w task s in
          let (l, s2) := select_all w rest s1 in
          match agent with
          | Some ai => ((ti, ai) :: l, s2)
          | None => (l, s2)
          end
      end
  end.

(** [asyncio.gather] with [return_exceptions=True]: the
    dispatched coroutines are run one after the other, in order, each to its
    end; an exception that leaves a coroutine becomes its result.  This is
    the schedule of the event loop when no coroutine is suspended at its
    executor call; a call that suspends would let the coroutines of the
    batch interleave. *)
Fixpoint gather (w : World) (execution_tasks : list (nat * nat)) (s : OState)
  : list (res TaskResult) * OState :=
  match execution_tasks with
  | [] => ([], s)
  | (ti, ai) :: rest =>
      let (r, s1) := _execute_task_with_agent w ti ai s in
      let (rs, s2) := gather w rest s1 in
      (r :: rs, s2)
  end.

(** The loop over [enumerate(results)] (agent_orchestrator.py 91-109): the
    [i]-th result is attributed to [ready_tasks[i]]. *)
Fixpoint process_results (w : World) (ready_tasks : list nat) (i : nat)
  (results : list (res TaskResult)) (s : OState) : res unit * OState :=
  match results with
  | [] => (Ok tt, s)
  | result_ :: rest =>
      match ready_tasks !! i with
      | None => (Raise bad_reference, s)
      | Some ti =>
          match tasks_of s !! ti with
          | None => (Raise bad_reference, s)
          | Some task =>
              match result_ with
              | Raise e =>
                  match task_call w (fun n => TaskEntity.fail n (Some (exn_str e)) 0) ti s with
                  | (Raise e', s) => (Raise e', s)
                  | (Ok _, s) =>
                      let s := add_failed (TaskEntity.id task) s in
                      let s := set_result (TaskEntity.id task)
                                 (mkTaskResult false None (Some (exn_str e)) 0) s in
                      process_results w ready_tasks (S i) rest s
                  end
              | Ok r =>
                  let s := if success r then add_completed (TaskEntity.id task) s
                           else add_failed (TaskEntity.id task) s in
                  let s := set_result (TaskEntity.id task) r s in
                  process_results w ready_tasks (S i) rest s
              end
          end
      end
  end.

(** How one pass through the body of [while True] ends. *)
Inductive step_result :=
| Break                     (* [break] *)
| Continue                  (* next iteration *)
| Raised (e : exn).         (* an exception leaves the loop *)

Definition is_pending (task : TaskEntity.t) : bool :=
  status_eqb (TaskEntity.status task) PENDING.

(** The body of [while True] (agent_orchestrator.py 60-109).  A bound of the
    recursion reached in the cycle detection is reported like the
    interpreter's [RecursionError]. *)
Definition loop_body (w : World) (s : OState) : step_result * OState :=
  let ready_tasks := ExecutionPlanEntity.get_ready_tasks (plan s) (completed_task_ids s) in
  match ready_tasks with
  | [] =>
      let pending_tasks := List.filter is_pending (tasks_of s) in
      match pending_tasks with
      | [] => (Break, s)
      | _ =>
          match _has_circular_dependencies pending_tasks with
          | None => (Raised RecursionError, s)
          | Some true => (Break, s)
          | Some false => (Continue, s)     (* asyncio.sleep(0.1); continue *)
          end
      end
  | _ =>
      let (execution_tasks, s1) := select_all w ready_tasks s in
      match execution_tasks with
      | [] => (Continue, s1)
      | _ =>
          let (results, s2) := gather w execution_tasks s1 in
          match process_results w ready_tasks 0 results s2 with
          | (Ok _, s3) => (Continue, s3)
          | (Raise e, s3) => (Raised e, s3)
          end
      end
  end.

(** [while True]: [None] when the loop is still running after [fuel]
    passes. *)
Fixpoint run_loop (w : World) (fuel : nat) (s : OState) : option (res unit * OState) :=
  match fuel with
  | O => None
  | S fuel' =>
      match loop_body w s with
      | (Break, s') => Some (Ok tt, s')
      | (Raised e, s') => Some (Raise e, s')
      | (Continue, s') => run_loop w fuel' s'
      end
  end.

(** The dictionary returned by [execute_plan]: the regular report, or the
    one built by the [except] handler. *)
Inductive Report :=
| ExecutionReport (plan_id : string) (success_ : bool)
    (completed_tasks failed_tasks : list string)
    (results : gmap string TaskResult)
    (success_rate_ duration_ completion_percentage : Q)
| ErrorReport (plan_id : string) (error_ : string)
    (completed_tasks failed_tasks : list string).

Definition report_completed (r : Report) : list string :=
  match r with
  | ExecutionReport _ _ c _ _ _ _ _ => c
  | ErrorReport _ _ c _ => c
  end.

Definition report_failed (r : Report) : list string :=
  match r with
  | ExecutionReport _ _ _ f _ _ _ _ => f
  | ErrorReport _ _ _ f => f
  end.

Definition error_report (e : exn) (s : OState) : Report :=
  ErrorReport (ExecutionPlanEntity.id (plan s)) (exn_str e)
    (completed_task_ids s) (failed_task_ids s).

(** The statements after the loop (agent_orchestrator.py 111-126) and the
    [except] handler (128-136). *)
Definition finish (w : World) (s : OState) : Report * OState :=
  let n := length (tasks_of s) in
  let success_rate_ :=
    match n with
    | O => 0%Q
    | _ => (nat_Q (length (completed_task_ids s)) / nat_Q n)%Q
    end in
  let total_duration :=
    (now w s - default 0%Q (ExecutionPlanEntity.started_at (plan s)))%Q in
  let s := tick s in
  match ExecutionPlanEntity.complete_execution (now w s) success_rate_ total_duration (plan s) with
  | (Raise e, _) => (error_report e s, s)
  | (Ok _, plan') =>
      let s := tick (set_plan plan' s) in
      (ExecutionReport (ExecutionPlanEntity.id plan') (Qltb 0.5 success_rate_)
         (completed_task_ids s) (failed_task_ids s) (task_results s)
         success_rate_ total_duration
         (ExecutionPlanEntity.get_completion_percentage plan'), s)
  end.

(** The [try] statement of [execute_plan], entered with the plan running. *)
Definition run_plan (w : World) (fuel : nat) (s : OState) : option (Report * OState) :=
  match run_loop w fuel s with
  | None => None
  | Some (Ok _, s') => Some (finish w s')
  | Some (Raise e, s') => Some (error_report e s', s')
  end.

(** [execute_plan] for a plan and the registered agents: [None] while the
    loop is still running after [fuel] passes, an exception when
    [plan.start_execution()] raises, a report otherwise. *)
Definition execute_plan (w : World) (fuel : nat) (agents : list AgentEntity.t)
  (k : nat) (p : ExecutionPlanEntity.t) : option (res Report * OState) :=
  let s := mkO p agents [] [] ∅ k in
  match ExecutionPlanEntity.start_execution (now w s) p with
  | (Raise e, _) => Some (Raise e, s)
  | (Ok _, p') =>
      match run_plan w fuel (tick (set_plan p' s)) with
      | None => None
      | Some (r, s') => Some (Ok r, s')
      end
  end.

(** *** Registration and the executor lookup *)

(** [self._active_agents[agent.id] = agent] on the values of the dictionary,
    which are kept under their own identifiers: an agent registered again
    takes the place of the earlier one, a new one goes to the end. *)
Fixpoint register_in (agent : AgentEntity.t) (agents : list AgentEntity.t)
  : list AgentEntity.t :=
  match agents with
  | [] => [agent]
  | a :: rest =>
      if String.eqb (AgentEntity.id a) (AgentEntity.id agent) then agent :: rest
      else a :: register_in agent rest
  end.

(** [register_agent] (agent_orchestrator.py 37-44), without the optional
    repository. *)
Definition register_agent (agent : AgentEntity.t) (s : OState) : OState :=
  mkO (plan s) (register_in agent (active_agents s)) (completed_task_ids s)
      (failed_task_ids s) (task_results s) (ticks s).

(** What [_get_real_agent_implementation] is given: its parameter is
    annotated as the agent type, a string; [_execute_task_with_agent] passes
    the agent entity itself. *)
Inductive lookup_argument :=
| ByType (agent_type : string)
| ByEntity (agent : AgentEntity.t).

(** [_get_real_agent_implementation] (agent_orchestrator.py 253-282): the
    class of the implementation.  An entity is equal to none of the type
    names. *)
Definition _get_real_agent_implementation (arg : lookup_argument) : option string :=
  match arg with
  | ByType agent_type =>
      if String.eqb agent_type "desktop" then Some "DesktopAgent"
      else if String.eqb agent_type "vision" then Some "VisionAgent"
      else if String.eqb agent_type "coding" then Some "CodingAgent"
      else if String.eqb agent_type "file" then Some "FileAgent"
      else if String.eqb agent_type "terminal" then Some "TerminalAgent"
      else if String.eqb agent_type "browser" then Some "BrowserAgent"
      else None
  | ByEntity _ => None
  end.

(** The executor call as the file has it (agent_orchestrator.py 203):
    [await self._get_real_agent_implementation(agent)].  The function is an
    ordinary one, so what is awaited is its value, an implementation object
    or [None], and neither can be awaited: the expression raises. *)
Definition repository_executor (k : nat) (task : TaskEntity.t) (agent : AgentEntity.t)
  : res TaskResult :=
  match _get_real_agent_implementation (ByEntity agent) with
  | None => Raise (ExecutorRaised "object NoneType can't be used in 'await' expression")
  | Some cls =>
      Raise (ExecutorRaised ("object " ++ cls ++ " can't be used in 'await' expression"))
  end.

Definition repository_world (clock_ : nat -> Q) : World :=
  mkWorld clock_ repository_executor.

(** ** Agents of [src/agents] ([base_agent.py], [task_router.py],
    [planner_agent.py])

    [base_agent.py] declares [TaskType] and [TaskPriority] once more, with
    the members and values of [value_objects.py]; the two types above serve
    for both. *)

(** [Task] (base_agent.py 34-46); [parameters], [parent_task_id] and
    [created_at] are read by no modelled operation. *)
Module Task.
Record t := mk {
  id : string;
  type : TaskType;
  description : string;
  priority : TaskPriority;
  estimated_duration : option Q;
  dependencies : list string;
  status : string
}.
End Task.

(** [AgentResult] (base_agent.py 61-69); [result] is an opaque payload. *)
Module AgentResult.
Record t := mk {
  success : bool;
  result : option string;
  error : option string;
  duration : Q
}.
End AgentResult.

(** [BaseAgent] (base_agent.py 71-177): the fields of [self.state] that the
    modelled methods use. *)
Module BaseAgent.

Record t := mk {
  agent_id : string;
  agent_type : string;
  task_queue : list Task.t;
  capabilities : list string;
  performance_metrics : gmap string Q
}.

Definition set_task_queue (q : list Task.t) (self : t) : t :=
  {| agent_id := agent_id self; agent_type := agent_type self;
     task_queue := q;
     capabilities := capabilities self;
     performance_metrics := performance_metrics self |}.

(** [list.sort(key=lambda t: t.priority.value, reverse=True)]: a stable
    sort, highest priority first, equal priorities in their original
    order. *)
Fixpoint insert_by_priority (x : Task.t) (l : list Task.t) : list Task.t :=
  match l with
  | [] => [x]
  | y :: l' =>
      if (priority_value (Task.priority x) <? priority_value (Task.priority y))%Z
      then y :: insert_by_priority x l'
      else x :: l
  end.

Definition sort_by_priority (l : list Task.t) : list Task.t :=
  fold_right insert_by_priority [] l.

(** [add_task_to_queue] (base_agent.py 136-140) *)
Definition add_task_to_queue (task : Task.t) (self : t) : t :=
  set_task_queue (sort_by_priority (task_queue self ++ [task])%list) self.

(** [get_next_task] (base_agent.py 142-146) *)
Definition get_next_task (self : t) : option Task.t * t :=
  match task_queue self with
  | [] => (None, self)
  | first :: rest => (Some first, set_task_queue rest self)
  end.

End BaseAgent.

(** [TaskRouter] (task_router.py) *)
Module RoutingRule.
Record t := mk {
  pattern : regex;
  task_type : TaskType;
  priority : TaskPriority;
  keywords : list string;
  complexity_factor : Q
}.
End RoutingRule.

Module TaskRouter.

(** [_initialize_routing_rules] (task_router.py 32-106) *)
Definition routing_rules : list RoutingRule.t :=
  [ RoutingRule.mk
      (alts [Lit "screenshot"; Lit "capture"; then_ "analyze" "screen";
             then_ "what" "see"; Lit "visual"; Lit "image"])
      VISION_ANALYSIS HIGH
      ["screenshot"; "analyze"; "visual"; "see"; "screen"; "image"; "detect"]
      0.8;
    RoutingRule.mk
      (alts [then_ "write" "code"; then_ "create" "function"; Lit "implement";
             then_ "generate" "script"; then_ "code" "for"])
      CODE_GENERATION HIGH
      ["write"; "create"; "implement"; "generate"; "code"; "function"; "script"]
      1.2;
    RoutingRule.mk
      (alts [then_ "create" "file"; then_ "edit" "file"; then_ "delete" "file";
             then_ "move" "file"; then_ "copy" "file"; then_ "read" "file"])
      FILE_OPERATIONS MEDIUM
      ["create"; "edit"; "delete"; "move"; "copy"; "read"; "file"]
      0.6;
    RoutingRule.mk
      (alts [then_ "run" "command"; Lit "execute"; Lit "terminal"; Lit "bash";
             Lit "shell"; Lit "install"; Lit "pip"; Lit "npm"])
      TERMINAL_COMMANDS MEDIUM
      ["run"; "execute"; "terminal"; "command"; "bash"; "shell"; "install"]
      0.7;
    RoutingRule.mk
      (alts [then_ "open" "browser"; then_ "navigate" "to"; then_ "click" "button";
             then_ "fill" "form"; Lit "scrape"; Lit "web"])
      BROWSER_AUTOMATION MEDIUM
      ["browser"; "navigate"; "click"; "fill"; "scrape"; "web"; "url"]
      1.0;
    RoutingRule.mk
      (alts [Lit "plan"; Lit "strategy"; then_ "how" "to"; then_ "steps" "for";
             then_ "break" "down"; then_ "analyze" "task"])
      PLANNING HIGH
      ["plan"; "strategy"; "how"; "steps"; "break"; "analyze"; "approach"]
      1.5;
    RoutingRule.mk
      (alts [Lit "test"; Lit "verify"; Lit "check"; Lit "validate"; Lit "debug";
             Lit "error"; Lit "fix"])
      TESTING HIGH
      ["test"; "verify"; "check"; "validate"; "debug"; "error"; "fix"]
      1.1;
    RoutingRule.mk
      (alts [Lit "optimize"; Lit "improve"; Lit "performance"; Lit "faster";
             Lit "efficient"; Lit "reduce"])
      OPTIMIZATION LOW
      ["optimize"; "improve"; "performance"; "faster"; "efficient"; "reduce"]
      1.8 ].

(** The score of one rule: the body of the loop of [analyze_task]
    (task_router.py 118-130). *)
Definition rule_score (user_input : string) (rule : RoutingRule.t) : Q :=
  let user_input_lower := lower user_input in
  let score := 0%Q in
  let score :=
    if re_search false (RoutingRule.pattern rule) user_input_lower
    then (score + 3)%Q else score in
  let keyword_matches :=
    length (List.filter (fun keyword => contains keyword user_input_lower)
                   (RoutingRule.keywords rule)) in
  let score := (score + nat_Q keyword_matches * 0.5)%Q in
  let score :=
    if (10 <? length (split_ws user_input))%nat
    then (score + 0.5)%Q else score in
  score.

Definition best_step (user_input : string) (acc : option RoutingRule.t * Q)
  (rule : RoutingRule.t) : option RoutingRule.t * Q :=
  let score := rule_score user_input rule in
  if Qltb (snd acc) score then (Some rule, score) else acc.

(** [TaskRouter.analyze_task] (task_router.py 108-140): type, priority and
    complexity factor. *)
Definition analyze_task (user_input : string) : TaskType * TaskPriority * Q :=
  match fst (fold_left (best_step user_input) routing_rules (None, 0%Q)) with
  | Some best_match =>
      (RoutingRule.task_type best_match, RoutingRule.priority best_match,
       RoutingRule.complexity_factor best_match)
  | None => (PLANNING, MEDIUM, 1.0%Q)
  end.

(** [_is_complex_task] (task_router.py 179-187) *)
Definition complexity_indicators : list string :=
  [" and then "; " after "; " before "; " first "; " next "; " finally ";
   " step 1"; " step 2"; " then "; " afterwards "; " subsequently "].

Definition _is_complex_task (user_input : string) : bool :=
  let user_input_lower := lower user_input in
  existsb (fun indicator => contains indicator user_input_lower) complexity_indicators.

(** [_extract_subtasks] (task_router.py 189-207); the separators are those
    of the analysis service. *)
Definition _extract_subtasks (user_input : string) : list string :=
  let parts := split_all [user_input] in
  let subtasks := map strip (List.filter (fun part => nonempty (strip part)) parts) in
  if (1 <? length subtasks)%nat then subtasks else [user_input].

(** [_estimate_duration] (task_router.py 209-212) *)
Definition _estimate_duration (complexity_factor : Q) : Q :=
  let base_duration := 3.0%Q in
  (base_duration * complexity_factor)%Q.

(** The format [{n:06d}]: the decimal digits of [n], with zeros in front up
    to a width of six. *)
Definition format_06d (n : nat) : string :=
  let digits := DecimalString.NilEmpty.string_of_uint (Nat.to_uint n) in
  string_of_list_ascii (repeat "0"%char (6 - String.length digits)) ++ digits.

(** [_generate_task_id] (task_router.py 214-217): the new value of
    [task_counter] and the identifier. *)
Definition _generate_task_id (task_counter : nat) : nat * string :=
  let task_counter := S task_counter in
  (task_counter, "task_" ++ format_06d task_counter).

(** One turn of the loop of [decompose_complex_task] over
    [enumerate(subtasks)]; the state is [(tasks, task_counter)]. *)
Definition decompose_step (acc : res (list Task.t) * nat) (p : nat * string)
  : res (list Task.t) * nat :=
  match acc with
  | (Raise e, task_counter) => (Raise e, task_counter)
  | (Ok tasks, task_counter) =>
      let (i, subtask_description) := p in
      let '(task_type, priority, complexity) := analyze_task subtask_description in
      let (task_counter, id) := _generate_task_id task_counter in
      let dependencies : res (list string) :=
        if (i =? 0)%nat then Ok []
        else match tasks !! (i - 1)%nat with
             | Some prev => Ok [Task.id prev]
             | None => Raise (IndexError "list index out of range")
             end in
      match dependencies with
      | Raise e => (Raise e, task_counter)
      | Ok deps =>
          (Ok (tasks ++ [Task.mk id task_type (strip subtask_description) priority
                           (Some (_estimate_duration complexity)) deps "pending"])%list,
           task_counter)
      end
  end.

(** [decompose_complex_task] (task_router.py 142-177), from a value of
    [task_counter]: the tasks, or the exception, and the counter
    afterwards. *)
Definition decompose_complex_task (task_counter : nat) (user_input : string)
  : res (list Task.t) * nat :=
  if _is_complex_task user_input then
    let subtasks := _extract_subtasks user_input in
    fold_left decompose_step (combine (seq 0 (length subtasks)) subtasks)
              (Ok [], task_counter)
  else
    let '(task_type, priority, complexity) := analyze_task user_input in
    let (task_counter, id) := _generate_task_id task_counter in
    (Ok [Task.mk id task_type (strip user_input) priority
           (Some (_estimate_duration complexity)) [] "pending"],
     task_counter).

End TaskRouter.

(** [ExecutionPlan] (planner_agent.py 17-30) *)
Module ExecutionPlan.
Record t := mk {
  plan_id : string;
  original_request : string;
  tasks : list Task.t;
  estimated_total_duration : Q;
  complexity_score : Q;
  parallel_groups : list (list string)
}.
End ExecutionPlan.

(** [PlannerAgent] (planner_agent.py) *)
Module PlannerAgent.

(** What the planner takes from the agents it coordinates, which are
    objects of subclasses of [BaseAgent]: the answer of the agent at a
    position of the registry to [can_handle_task], and the outcome of its
    awaited [execute_task], which returns a result or raises and may change
    the agents (not the task it is given, nor the plan); the outcome may
    depend on the number of calls made so far. *)
Record Agents := mkAgents {
  can_handle_task : nat -> BaseAgent.t -> Task.t -> bool;
  execute_task : nat -> nat -> Task.t -> list BaseAgent.t
                 -> res AgentResult.t * list BaseAgent.t
}.

(** [_calculate_agent_score] (planner_agent.py 211-228) *)
Definition _calculate_agent_score (agent : BaseAgent.t) (task : Task.t) : Q :=
  let score := 0%Q in
  let success_rate := metric (BaseAgent.performance_metrics agent) "success_rate" 0.5 in
  let score := (score + success_rate * 50)%Q in
  let queue_size := length (BaseAgent.task_queue agent) in
  let score := (score - nat_Q queue_size * 5)%Q in
  let task_type_match :=
    existsb (String.eqb (task_type_value (Task.type task)))
            (BaseAgent.capabilities agent) in
  let score := if task_type_match then (score + 30)%Q else score in
  score.

(** The loop of [_select_agent_for_task] that collects [(agent, score)]. *)
Fixpoint suitable_from (A : Agents) (task : Task.t) (i : nat)
  (agents : list BaseAgent.t) : list (nat * Q) :=
  match agents with
  | [] => []
  | agent :: rest =>
      if can_handle_task A i agent task
      then (i, _calculate_agent_score agent task) :: suitable_from A task (S i) rest
      else suitable_from A task (S i) rest
  end.

(** [_select_agent_for_task] (planner_agent.py 194-209): the position of
    the selected agent, or [None]. *)
Definition _select_agent_for_task (A : Agents) (available_agents : list BaseAgent.t)
  (task : Task.t) : option nat :=
  match sort_desc (suitable_from A task 0 available_agents) with
  | [] => None
  | best :: _ => Some (fst best)
  end.

(** [_dependencies_satisfied] (planner_agent.py 230-232) *)
Definition _dependencies_satisfied (task : Task.t) (completed_tasks : list string) : bool :=
  forallb (fun dep_id => id_in dep_id completed_tasks) (Task.dependencies task).

(** The variables of [_execute_plan]: [results], [completed_tasks],
    [failed_tasks], the agents, and the number of [execute_task] calls made
    so far. *)
Record Run := mkRun {
  results : gmap string AgentResult.t;
  completed_tasks : list string;
  failed_tasks : list string;
  available_agents : list BaseAgent.t;
  calls : nat
}.

(** The dictionary returned by [_execute_plan]: the regular one, or the one
    of the [except] handler. *)
Inductive Outcome :=
| ExecutionResult (plan_id : string) (completed failed : list string)
    (task_results : gmap string AgentResult.t) (success_rate : Q)
| ExecutionError (plan_id : string) (error_ : string) (completed failed : list string).

(** The body of the loop over [plan.tasks] (planner_agent.py 153-175). *)
Definition execute_step (A : Agents) (task : Task.t) (r : Run) : res unit * Run :=
  if _dependencies_satisfied task (completed_tasks r) then
    match _select_agent_for_task A (available_agents r) task with
    | Some agent =>
        match execute_task A (calls r) agent task (available_agents r) with
        | (Raise e, agents) =>
            (Raise e, mkRun (results r) (completed_tasks r) (failed_tasks r)
                            agents (S (calls r)))
        | (Ok result, agents) =>
            let results := <[Task.id task := result]> (results r) in
            if AgentResult.success result then
              (Ok tt, mkRun results (completed_tasks r ++ [Task.id task])%list
                            (failed_tasks r) agents (S (calls r)))
            else
              (Ok tt, mkRun results (completed_tasks r)
                            (failed_tasks r ++ [Task.id task])%list agents (S (calls r)))
        end
    | None =>
        (Ok tt, mkRun (results r) (completed_tasks r)
                      (failed_tasks r ++ [Task.id task])%list
                      (available_agents r) (calls r))
    end
  else
    (Ok tt, mkRun (results r) (completed_tasks r)
                  (failed_tasks r ++ [Task.id task])%list
                  (available_agents r) (calls r)).

Fixpoint execute_loop (A : Agents) (tasks : list Task.t) (r : Run) : res unit * Run :=
  match tasks with
  | [] => (Ok tt, r)
  | task :: rest =>
      match execute_step A task r with
      | (Raise e, r') => (Raise e, r')
      | (Ok _, r') => execute_loop A rest r'
      end
  end.

(** [_execute_plan] (planner_agent.py 144-192) *)
Definition _execute_plan (A : Agents) (plan : ExecutionPlan.t)
  (available_agents : list BaseAgent.t) (calls : nat) : Outcome * Run :=
  match execute_loop A (ExecutionPlan.tasks plan)
          (mkRun ∅ [] [] available_agents calls) with
  | (Ok _, r) =>
      (ExecutionResult (ExecutionPlan.plan_id plan)
         (completed_tasks r) (failed_tasks r) (results r)
         (match ExecutionPlan.tasks plan with
          | [] => 0
          | _ => nat_Q (length (completed_tasks r))
                 / nat_Q (length (ExecutionPlan.tasks plan))
          end)%Q, r)
  | (Raise e, r) =>
      (ExecutionError (ExecutionPlan.plan_id plan) (exn_str e)
         (completed_tasks r) (failed_tasks r), r)
  end.

(** [sum(task.estimated_duration for task in tasks)], from the left;
    [None] where Python raises [TypeError], on a task without estimate. *)
Fixpoint sum_estimates (tasks : list Task.t) (acc : Q) : option Q :=
  match tasks with
  | [] => Some acc
  | task :: rest =>
      match Task.estimated_duration task with
      | Some d => sum_estimates rest (acc + d)%Q
      | None => None
      end
  end.

(** [_calculate_complexity_score] (planner_agent.py 234-243) *)
Definition _calculate_complexity_score (tasks : list Task.t) : option Q :=
  match tasks with
  | [] => Some 0%Q
  | _ =>
      let base_score := (nat_Q (length tasks) * 0.2)%Q in
      let dependency_score :=
        (nat_Q (list_sum (map (fun task => length (Task.dependencies task)) tasks))
         * 0.1)%Q in
      match sum_estimates tasks 0 with
      | None => None
      | Some total =>
          let duration_score := (total * 0.05)%Q in
          Some (base_score + dependency_score + duration_score)%Q
      end
  end.

(** [_identify_parallel_groups] (planner_agent.py 245-258) *)
Definition _identify_parallel_groups (tasks : list Task.t) : list (list string) :=
  let independent_tasks :=
    map Task.id
        (List.filter (fun task => match Task.dependencies task with
                                  | [] => true | _ => false end) tasks) in
  if (1 <? length independent_tasks)%nat then [independent_tasks] else [].

(** [_generate_plan_id] (planner_agent.py 260-263) *)
Definition _generate_plan_id (plan_counter : nat) : nat * string :=
  let plan_counter := S plan_counter in
  (plan_counter, "plan_" ++ TaskRouter.format_06d plan_counter).

(** The state of a planner: the counters of the router and of the plans,
    the plans made so far, the registry and the number of [execute_task]
    calls made so far. *)
Record t := mk {
  task_counter : nat;
  plan_counter : nat;
  execution_plans : gmap string ExecutionPlan.t;
  registry : list BaseAgent.t;
  executed : nat
}.

(** How [_plan_execution] ends. *)
Inductive Planning :=
| Planned (plan : ExecutionPlan.t)
| PlanningRaised (e : exn)
| PlanningTypeError.        (* a sum over a task without estimate *)

(** [_plan_execution] (planner_agent.py 102-129) *)
Definition _plan_execution (user_request : string) (self : t) : Planning * t :=
  match TaskRouter.decompose_complex_task (task_counter self) user_request with
  | (Raise e, task_counter) =>
      (PlanningRaised e,
       mk task_counter (plan_counter self) (execution_plans self)
          (registry self) (executed self))
  | (Ok tasks, task_counter) =>
      let self := mk task_counter (plan_counter self) (execution_plans self)
                     (registry self) (executed self) in
      match sum_estimates tasks 0, _calculate_complexity_score tasks with
      | Some total_duration, Some complexity_score =>
          let parallel_groups := _identify_parallel_groups tasks in
          let (plan_counter, plan_id) := _generate_plan_id (plan_counter self) in
          let plan := ExecutionPlan.mk plan_id user_request tasks total_duration
                        complexity_score parallel_groups in
          (Planned plan,
           mk task_counter plan_counter
              (<[plan_id := plan]> (execution_plans self))
              (registry self) (executed self))
      | _, _ => (PlanningTypeError, self)
      end
  end.

(** [_create_and_execute_plan] (planner_agent.py 131-142): the plan and,
    when there is one, the execution result. *)
Definition _create_and_execute_plan (A : Agents) (user_request : string) (self : t)
  : Planning * option Outcome * t :=
  match _plan_execution user_request self with
  | (Planned plan, self) =>
      let (execution_result, r) := _execute_plan A plan (registry self) (executed self) in
      (Planned plan, Some execution_result,
       mk (task_counter self) (plan_counter self) (execution_plans self)
          (available_agents r) (calls r))
  | (failure, self) => (failure, None, self)
  end.

End PlannerAgent.

(** * Vocabulary of the properties

    Predicates, reference formulas and sample objects used by the statements
    below. *)

(** What the loop over the rules has found after a prefix of the table:
    nothing, with every score at most zero, or the first rule of maximal
    score. *)
Definition best_of (text : string) (seen : list Rule.t) (acc : option Rule.t * Q) : Prop :=
  match fst acc with
  | None => snd acc = 0%Q /\ forall x, In x seen -> (rule_score text x <= 0)%Q
  | Some r =>
      snd acc = rule_score text r /\ (0 < rule_score text r)%Q
      /\ exists l1 l2, seen = (l1 ++ r :: l2)%list
           /\ (forall x, In x l1 -> (rule_score text x < rule_score text r)%Q)
           /\ (forall x, In x l2 -> (rule_score text x <= rule_score text r)%Q)
  end.

(** The result built from a rule. *)
Definition result_of_rule (r : Rule.t) : TaskAnalysisResult.t :=
  TaskAnalysisResult.mk (Rule.task_type r) (Rule.priority r)
    (Rule.complexity_factor r) (Rule.keywords r)
    (Rule.base_duration r * Rule.complexity_factor r)%Q.

(** The rule that wins on a text: positive score, strictly above every
    earlier rule of the table, at least as high as every later one. *)
Definition wins (text : string) (r : Rule.t) : Prop :=
  (0 < rule_score text r)%Q
  /\ exists l1 l2, analysis_rules = (l1 ++ r :: l2)%list
       /\ (forall x, In x l1 -> (rule_score text x < rule_score text r)%Q)
       /\ (forall x, In x l2 -> (rule_score text x <= rule_score text r)%Q).

(** A text on which neither the pattern nor any keyword of the rule is
    found. *)
Definition matches_nothing (text : string) (r : Rule.t) : Prop :=
  re_search false (Rule.pattern r) (lower text) = false
  /\ forall kw, In kw (Rule.keywords r) -> contains kw (lower text) = false.

(** The planning/medium result that is only produced by the fallback. *)
Definition is_fallback (a : TaskAnalysisResult.t) : Prop :=
  TaskAnalysisResult.task_type a = PLANNING /\ TaskAnalysisResult.priority a = MEDIUM.

(** The four sums of the complexity score, by recursion on the task list. *)
Fixpoint total_dependencies (tasks : list TaskEntity.t) : nat :=
  match tasks with
  | [] => 0
  | t :: rest => length (TaskEntity.dependencies t) + total_dependencies rest
  end.

Fixpoint total_duration (tasks : list TaskEntity.t) : Q :=
  match tasks with
  | [] => 0
  | t :: rest => TaskEntity.estimated_duration t + total_duration rest
  end.

Fixpoint total_kind_weight (tasks : list TaskEntity.t) : Q :=
  match tasks with
  | [] => 0
  | t :: rest => type_complexity (TaskEntity.task_type t) + total_kind_weight rest
  end.

(** The complexity score with the weights of the specification:
    0.2, 0.1, 0.05 and 0.1. *)
Definition spec_complexity_score (tasks : list TaskEntity.t) : Q :=
  (0.2 * nat_Q (length tasks) + 0.1 * nat_Q (total_dependencies tasks)
   + 0.05 * total_duration tasks + 0.1 * total_kind_weight tasks)%Q.

(** A single planning task of three seconds without dependencies. *)
Definition lone_planning_task : TaskEntity.t :=
  TaskEntity.mk "task_1" "plan the work" PLANNING MEDIUM PENDING [] 3.0
    None None None None None None.

(** The task built for the [i]-th description. *)
Definition task_for (generate : nat -> TaskId) (i : nat) (description : string)
  : TaskEntity.t :=
  let analysis := analyze_task description in
  TaskEntity.mk (generate i) (strip description)
    (TaskAnalysisResult.task_type analysis) (TaskAnalysisResult.priority analysis)
    PENDING
    (match i with O => [] | S j => [generate j] end)
    (TaskAnalysisResult.estimated_duration analysis)
    None None None None None None.

Fixpoint tasks_from (generate : nat -> TaskId) (i : nat) (ds : list string)
  : list TaskEntity.t :=
  match ds with
  | [] => []
  | d :: rest => task_for generate i d :: tasks_from generate (S i) rest
  end.


(** The score of an agent with the weights of the specification:
    50 x success rate - 5 x queue length + 30 when the kind is declared
    + 20 when the priority is at least high, plus the recency bonus granted
    to the agent. *)
Definition spec_agent_score (bonus : Q) (agent : AgentEntity.t) (task : TaskEntity.t) : Q :=
  (50 * metric (AgentEntity.performance_metrics agent) "success_rate" 0
   - 5 * nat_Q (length (AgentEntity.task_queue agent))
   + (if AgentEntity.can_handle_task agent (TaskEntity.task_type task) then 30 else 0)
   + (if (3 <=? priority_value (TaskEntity.priority task))%Z then 20 else 0)
   + bonus)%Q.

(** The score as the code computes it, in one formula. *)
Definition code_agent_score (now_ : Q) (agent : AgentEntity.t) (task : TaskEntity.t) : Q :=
  Qmax 0
    ((match AgentEntity.performance_metrics agent !! "success_rate" with
      | Some sr => 50 * sr
      | None => 0
      end)
     - 10 * nat_Q (length (AgentEntity.task_queue agent))
     + (if AgentEntity.can_handle_task agent (TaskEntity.task_type task) then 30 else 0)
     + (if (3 <=? priority_value (TaskEntity.priority task))%Z then 20 else 0)
     + (if Qltb (now_ - AgentEntity.last_activity agent) 60 then 10 else 0))%Q.

(** The candidates of a selection: position in the registry and score. *)
Definition candidates (w : World) (task : TaskEntity.t) (s : OState) : list (nat * Q) :=
  fst (suitable_from w task 0 (active_agents s) (ticks s)).

Definition qualifies (agent : AgentEntity.t) (task : TaskEntity.t) : Prop :=
  AgentEntity.status agent = "available"
  /\ AgentEntity.can_handle_task agent (TaskEntity.task_type task) = true.

(** Two testing agents, idle for the same time: [steady] has a success rate
    of 0.7 and an empty queue, [loaded] a success rate of 1 and two queued
    tasks. *)
Definition steady_agent : AgentEntity.t :=
  AgentEntity.mk "steady" "tester" ["testing"] "available" None []
    (<["success_rate" := 0.7%Q]> ∅) 0.
Definition loaded_agent : AgentEntity.t :=
  AgentEntity.mk "loaded" "tester" ["testing"] "available" None ["q1"; "q2"]
    (<["success_rate" := 1%Q]> ∅) 0.
Definition testing_task : TaskEntity.t :=
  TaskEntity.mk "task_1" "check the build" TESTING MEDIUM PENDING [] 6.6
    None None None None None None.
Definition quiet_world : World :=
  mkWorld (fun _ => 1000%Q) (fun _ _ _ => Ok (mkTaskResult true None None 0)).
Definition two_testers : OState :=
  mkO (ExecutionPlanEntity.mk "plan_1" "check the build" [testing_task] "running"
         6.6 None 0 [] None None 0)
      [steady_agent; loaded_agent] [] [] ∅ 0.

(** The dependency graph the search walks: an edge from the identifier of a
    task of the map to each of its dependencies. *)
Definition edge (task_map : gmap string TaskEntity.t) (a b : TaskId) : Prop :=
  exists t, task_map !! a = Some t /\ In b (TaskEntity.dependencies t).

(** A dependency cycle: an identifier that reaches itself. *)
Definition has_dep_cycle (task_map : gmap string TaskEntity.t) : Prop :=
  exists a, tc (edge task_map) a a.

(** The invariant of the search on the finished identifiers (visited and
    no longer on the stack): every edge from a finished identifier leads to
    a finished one, and no finished identifier lies on a cycle. *)
Definition safe (task_map : gmap string TaskEntity.t) (B : gset string) : Prop :=
  (forall a b, a ∈ B -> edge task_map a b -> b ∈ B)
  /\ (forall a, a ∈ B -> ~ tc (edge task_map) a a).

(** What a loop body that answers "no cycle" guarantees, for a fixed
    stack. *)
Definition body_ok (task_map : gmap string TaskEntity.t) (stk : gset string)
  (body : string -> dfs_state -> option (bool * dfs_state)) : Prop :=
  forall x vis vis' stk',
    body x (vis, stk) = Some (false, (vis', stk')) ->
    safe task_map (vis ∖ stk) ->
    stk' = stk /\ vis ⊆ vis' /\ x ∈ vis' ∖ stk /\ safe task_map (vis' ∖ stk).


(** What a dispatch of the task at position [ti] leaves alone: the
    bookkeeping of the loop, the identity and status of the plan, the number
    of tasks and every task but the one at [ti]. *)
Definition task_frame (ti : nat) (s s' : OState) : Prop :=
  completed_task_ids s' = completed_task_ids s
  /\ failed_task_ids s' = failed_task_ids s
  /\ task_results s' = task_results s
  /\ ExecutionPlanEntity.status (plan s') = ExecutionPlanEntity.status (plan s)
  /\ ExecutionPlanEntity.id (plan s') = ExecutionPlanEntity.id (plan s)
  /\ length (tasks_of s') = length (tasks_of s)
  /\ forall j, j <> ti -> tasks_of s' !! j = tasks_of s !! j.

(** What a pass of the loop keeps of the registry: the number of agents,
    their capabilities, and the fact that an agent that was not available is
    not available afterwards. *)
Definition agents_kept (s s' : OState) : Prop :=
  length (active_agents s') = length (active_agents s)
  /\ forall j a', active_agents s' !! j = Some a' ->
       exists a, active_agents s !! j = Some a
                 /\ AgentEntity.capabilities a' = AgentEntity.capabilities a
                 /\ (AgentEntity.status a' = "available" ->
                     AgentEntity.status a = "available").

(** A state that differs from another one in the clock readings only. *)
Definition same_but_ticks (s s' : OState) : Prop :=
  plan s' = plan s /\ active_agents s' = active_agents s
  /\ completed_task_ids s' = completed_task_ids s
  /\ failed_task_ids s' = failed_task_ids s
  /\ task_results s' = task_results s.

(** Two independent tasks, started, and a registry whose only agent
    declares the kind of the second one. *)
Definition two_kinds_state : OState :=
  mkO (ExecutionPlanEntity.mk "plan_1" "plan it, check it"
         [ TaskEntity.mk "task_a" "plan it" PLANNING HIGH PENDING [] 4.5
             None None None None None None;
           TaskEntity.mk "task_b" "check it" TESTING HIGH PENDING [] 6.6
             None None None None None None ]
         "running" 11.1 None 2.0 [["task_a"; "task_b"]] (Some 1000%Q) None 0)
      [ AgentEntity.mk "agent_1" "tester" ["testing"] "available" None [] ∅ 0 ]
      [] [] ∅ 1.

(** A plan of one testing task, started, in front of an empty registry. *)
Definition lonely_plan : ExecutionPlanEntity.t :=
  ExecutionPlanEntity.mk "plan_1" "check the build" [testing_task] "pending"
    6.6 None 1.07 [] None None 0.

Definition lonely_state : OState :=
  mkO (snd (ExecutionPlanEntity.start_execution 1000 lonely_plan)) [] [] [] ∅ 1.

(** The dependency relation of a task list: [a] depends on [b] when some
    task named [a] lists [b] among its dependencies. *)
Definition depends (ts : list TaskEntity.t) (a b : TaskId) : Prop :=
  exists t, In t ts /\ TaskEntity.id t = a /\ In b (TaskEntity.dependencies t).

(** No identifier depends on itself, directly or through other tasks. *)
Definition acyclic (ts : list TaskEntity.t) : Prop :=
  forall a, ~ tc (depends ts) a a.

(** Every dependency names a task of the list. *)
Definition closed_deps (ts : list TaskEntity.t) : Prop :=
  forall t d, In t ts -> In d (TaskEntity.dependencies t) ->
    exists t', In t' ts /\ TaskEntity.id t' = d.

(** What stays fixed in a task: identifier, dependencies and kind. *)
Definition task_shape (t : TaskEntity.t) : TaskId * list TaskId * TaskType :=
  (TaskEntity.id t, TaskEntity.dependencies t, TaskEntity.task_type t).

(** A chain of two tasks and an agent for both kinds. *)
Definition chain_plan : ExecutionPlanEntity.t :=
  ExecutionPlanEntity.mk "plan_1" "plan it and then check it"
    [ TaskEntity.mk "task_a" "plan it" PLANNING HIGH PENDING [] 4.5
        None None None None None None;
      TaskEntity.mk "task_b" "check it" TESTING HIGH PENDING ["task_a"] 6.6
        None None None None None None ]
    "pending" 11.1 None 3.18 [] None None 0.

Definition all_round_agent : AgentEntity.t :=
  AgentEntity.mk "agent_1" "generalist" ["planning"; "testing"] "available" None []
    (<["success_rate" := 1%Q]> ∅) 0.

(** A plan without tasks. *)
Definition empty_plan : ExecutionPlanEntity.t :=
  ExecutionPlanEntity.mk "plan_0" "" [] "pending" 0 None 0 [] None None 0.

(** The identifiers of [l] queued one after the other, and [n] successive
    calls of [get_next_queued_task] with what they return. *)
Definition enqueue_all (l : list TaskId) (a : AgentEntity.t) : AgentEntity.t :=
  fold_left (fun a task_id => AgentEntity.add_to_queue task_id a) l a.

Fixpoint take_queued (n : nat) (a : AgentEntity.t)
  : list (option TaskId) * AgentEntity.t :=
  match n with
  | O => ([], a)
  | S n' =>
      let (r, a1) := AgentEntity.get_next_queued_task a in
      let (rs, a2) := take_queued n' a1 in
      (r :: rs, a2)
  end.

(** An agent with its queue replaced. *)
Definition with_queue (q : list TaskId) (a : AgentEntity.t) : AgentEntity.t :=
  AgentEntity.mk (AgentEntity.id a) (AgentEntity.agent_type a)
    (AgentEntity.capabilities a) (AgentEntity.status a)
    (AgentEntity.current_task_id a) q
    (AgentEntity.performance_metrics a) (AgentEntity.last_activity a).

(** What a pass of the loop keeps of the plan: its status, its identifier
    and the number of its tasks. *)
Definition plan_kept (s s' : OState) : Prop :=
  ExecutionPlanEntity.status (plan s') = ExecutionPlanEntity.status (plan s)
  /\ ExecutionPlanEntity.id (plan s') = ExecutionPlanEntity.id (plan s)
  /\ length (tasks_of s') = length (tasks_of s).

(** The two lists of the loop only grow. *)
Definition lists_grow (s s' : OState) : Prop :=
  (exists extra, completed_task_ids s' = (completed_task_ids s ++ extra)%list)
  /\ (exists extra, failed_task_ids s' = (failed_task_ids s ++ extra)%list).

(** No task is Completed and no identifier is listed as completed. *)
Definition nothing_completed (s : OState) : Prop :=
  completed_task_ids s = []
  /\ forall j t, tasks_of s !! j = Some t -> TaskEntity.status t <> COMPLETED.

(** A running plan of one Pending testing task in front of one idle agent
    that declares testing. *)
Definition tester_state : OState :=
  mkO (snd (ExecutionPlanEntity.start_execution 1000 lonely_plan))
      [steady_agent] [] [] ∅ 1.

(** Two independent tasks, the first one Completed before the plan is
    executed. *)
Definition resumed_plan : ExecutionPlanEntity.t :=
  ExecutionPlanEntity.mk "plan_1" "plan it, check it"
    [ TaskEntity.mk "task_a" "plan it" PLANNING HIGH COMPLETED [] 4.5
        (Some 1%Q) (Some 1000%Q) (Some 1000%Q) (Some "agent_1") (Some "done") None;
      TaskEntity.mk "task_b" "check it" TESTING HIGH PENDING [] 6.6
        None None None None None None ]
    "pending" 11.1 None 2.0 [] None None 0.

(** The tasks of [s'] carry, position by position, the identifiers of the
    tasks of [s]. *)
Definition ids_kept (s s' : OState) : Prop :=
  forall j t', tasks_of s' !! j = Some t' ->
    exists t, tasks_of s !! j = Some t /\ TaskEntity.id t = TaskEntity.id t'.

(** Two tasks that wait for each other and a third one that waits for an
    identifier no task carries. *)
Definition stuck_plan : ExecutionPlanEntity.t :=
  ExecutionPlanEntity.mk "plan_1" "a after b after a, c after nothing"
    [ TaskEntity.mk "task_a" "first" PLANNING MEDIUM PENDING ["task_b"] 3.0
        None None None None None None;
      TaskEntity.mk "task_b" "second" PLANNING MEDIUM PENDING ["task_a"] 3.0
        None None None None None None;
      TaskEntity.mk "task_c" "third" PLANNING MEDIUM PENDING ["task_0"] 3.0
        None None None None None None ]
    "pending" 9.0 None 1.95 [] None None 0.

(** A task counts as finished for the completion percentage when it is
    Completed or Failed. *)
Definition finished (t : TaskEntity.t) : Prop :=
  TaskEntity.status t = COMPLETED \/ TaskEntity.status t = FAILED.

(** Metrics after three tasks, two of them successful. *)
Definition sample_metrics : PerformanceMetrics.t :=
  PerformanceMetrics.mk (2 # 3) 4 3 (1 # 3) 0.5.

(** The position of the first occurrence of [a] in [l] ([length l] when
    there is none). *)
Fixpoint index_of (a : string) (l : list string) : nat :=
  match l with
  | [] => 0
  | x :: l' => if String.eqb x a then 0 else S (index_of a l')
  end.

(** An agent that declares every kind of task. *)
Definition universal_agent : AgentEntity.t :=
  AgentEntity.mk "agent_0" "generalist"
    (map task_type_value
       [VISION_ANALYSIS; CODE_GENERATION; FILE_OPERATIONS; TERMINAL_COMMANDS;
        BROWSER_AUTOMATION; PLANNING; TESTING; OPTIMIZATION])
    "available" None [] ∅ 0.

(** Two identifiers, for the first task and for all later ones. *)
Definition two_ids (k : nat) : TaskId :=
  if (k =? 0)%nat then "task_a" else "task_b".

(** [f] occurs in [s] as a run of consecutive characters. *)
Definition substring_of (f s : string) : Prop :=
  exists pre post, s = pre ++ f ++ post.

(** Two texts that differ in the case of their letters only, and the same
    for the character before the current position. *)
Definition same_folded (s s' : string) : Prop := lower s = lower s'.

Definition same_folded_char (p p' : option ascii) : Prop :=
  option_map lower_char p = option_map lower_char p'.

Definition same_folded_result (o o' : option string) : Prop :=
  option_map lower o = option_map lower o'.

(** The priority of a queued task, and a queue in which no task stands
    behind one of lower priority. *)
Definition task_priority (task : Task.t) : Z := priority_value (Task.priority task).

Definition by_priority (l : list Task.t) : Prop :=
  StronglySorted (fun a b => (task_priority b <= task_priority a)%Z) l.

(** The identifier that the router gives out as its [n]-th one. *)
Definition nth_task_id (n : nat) : string := "task_" ++ TaskRouter.format_06d n.

(** Agents that take every task; the executor fails on one description. *)
Definition picky_agents : PlannerAgent.Agents :=
  PlannerAgent.mkAgents
    (fun _ _ _ => true)
    (fun _ _ task agents =>
       (Ok (AgentResult.mk (negb (String.eqb (Task.description task) "read it"))
              None None 1), agents)).

Definition worker : BaseAgent.t := BaseAgent.mk "worker_1" "Worker" [] [] ∅.

Definition fresh_planner : PlannerAgent.t := PlannerAgent.mk 0 0 ∅ [worker] 0.

(** The task that the router builds for the [i]-th fragment [d] when its
    counter stood at [c] before, and the tasks for a list of fragments. *)
Definition router_task (c i : nat) (d : string) : Task.t :=
  let '(task_type, priority, complexity) := TaskRouter.analyze_task d in
  Task.mk (nth_task_id (c + S i)) task_type (strip d) priority
    (Some (TaskRouter._estimate_duration complexity))
    (match i with O => [] | S j => [nth_task_id (c + S j)] end)
    "pending".

Fixpoint router_tasks (c i : nat) (ds : list string) : list Task.t :=
  match ds with
  | [] => []
  | d :: rest => router_task c i d :: router_tasks c (S i) rest
  end.

(** Reading a decimal numeral. *)
Definition parse_decimal (s : string) : option nat :=
  option_map Nat.of_uint (DecimalString.NilEmpty.uint_of_string s).

(** A list of tasks in which every task waits for the one before it, and
    for nothing else. *)
Definition chained (tasks : list Task.t) : Prop :=
  forall i t, tasks !! i = Some t ->
    match i with
    | O => Task.dependencies t = []
    | S j => exists prev, tasks !! j = Some prev
                          /\ Task.dependencies t = [Task.id prev]
    end.


(** A text of ASCII characters only. *)
Fixpoint ascii_text (s : string) : bool :=
  match s with
  | EmptyString => true
  | String c s' => (nat_of_ascii c <? 128)%nat && ascii_text s'
  end.

(** The fragments for which the router builds its tasks. *)
Definition router_fragments (user_input : string) : list string :=
  if TaskRouter._is_complex_task user_input
  then TaskRouter._extract_subtasks user_input else [user_input].

(** The state after [n] passes of the loop that all end in [continue];
    [None] when one of them leaves the loop. *)
Fixpoint after_passes (w : World) (n : nat) (s : OState) : option OState :=
  match n with
  | O => Some s
  | S n' =>
      match loop_body w s with
      | (Continue, s') => after_passes w n' s'
      | _ => None
      end
  end.

(** The identifiers of the tasks at the positions [l]. *)
Definition ids_at (ts : list TaskEntity.t) (l : list nat) : list TaskId :=
  omap (fun ti => TaskEntity.id <$> ts !! ti) l.

(** Three tasks, each waiting for the next one in the list. *)
Definition waiting_chain : list TaskEntity.t :=
  [ TaskEntity.mk "task_a" "first" PLANNING MEDIUM PENDING ["task_b"] 3.0
      None None None None None None;
    TaskEntity.mk "task_b" "second" PLANNING MEDIUM PENDING ["task_c"] 3.0
      None None None None None None;
    TaskEntity.mk "task_c" "third" PLANNING MEDIUM PENDING [] 3.0
      None None None None None None ].

(** * Properties *)

(** ** Task life cycle *)

(** C9.  The three transitions of a task: [start] succeeds exactly from
    Pending, moves to Running and records the agent; [complete] and [fail]
    succeed exactly from Running, move to Completed, respectively Failed, and
    record the payload, respectively the error.  From every other status the
    call raises and the task is left as it was; in particular nothing leaves
    Completed or Failed. *)
Theorem task_status_transitions :
  forall (now_ : Q) (t : TaskEntity.t),
    (forall agent_id,
        match TaskEntity.status t with
        | PENDING =>
            exists t', TaskEntity.start now_ agent_id t = (Ok tt, t')
                       /\ TaskEntity.status t' = RUNNING
                       /\ TaskEntity.assigned_agent_id t' = Some agent_id
        | _ => exists e, TaskEntity.start now_ agent_id t = (Raise e, t)
        end)
    /\ (forall payload d,
        match TaskEntity.status t with
        | RUNNING =>
            exists t', TaskEntity.complete now_ payload d t = (Ok tt, t')
                       /\ TaskEntity.status t' = COMPLETED
                       /\ TaskEntity.result t' = payload
        | _ => exists e, TaskEntity.complete now_ payload d t = (Raise e, t)
        end)
    /\ (forall err d,
        match TaskEntity.status t with
        | RUNNING =>
            exists t', TaskEntity.fail now_ err d t = (Ok tt, t')
                       /\ TaskEntity.status t' = FAILED
                       /\ TaskEntity.error t' = err
        | _ => exists e, TaskEntity.fail now_ err d t = (Raise e, t)
        end).
Proof.
  intros now_ t; repeat split; intros;
    unfold TaskEntity.start, TaskEntity.complete, TaskEntity.fail;
    destruct (TaskEntity.status t); simpl; eauto.
Qed.

(** ** Classifier *)

Lemma Qltb_lt (a b : Q) : Qltb a b = true <-> (a < b)%Q.
Proof.
  unfold Qltb. rewrite negb_true_iff.
  split; intros H.
  - apply Qnot_le_lt. intros Hle. apply Qle_bool_iff in Hle. congruence.
  - destruct (Qle_bool b a) eqn:E; [|reflexivity].
    apply Qle_bool_iff in E. exfalso. exact (Qlt_not_le _ _ H E).
Qed.

Lemma Qltb_ge (a b : Q) : Qltb a b = false <-> (b <= a)%Q.
Proof.
  unfold Qltb. rewrite negb_false_iff. apply Qle_bool_iff.
Qed.

Lemma best_step_of text seen acc rule :
  best_of text seen acc -> best_of text (seen ++ [rule]) (best_step text acc rule).
Proof.
  unfold best_of, best_step. destruct acc as [[r|] sc]; simpl.
  - intros (Hsc & Hpos & l1 & l2 & Hseen & H1 & H2). subst sc.
    destruct (Qltb (rule_score text r) (rule_score text rule)) eqn:E; simpl.
    + apply Qltb_lt in E. split; [reflexivity|]. split; [eapply Qlt_trans; eauto|].
      exists seen, []. split; [reflexivity|]. split; [|intros x []].
      intros x Hx. subst seen. apply in_app_or in Hx as [Hx|[Hx|Hx]].
      * eapply Qlt_trans; [apply H1, Hx|exact E].
      * subst x; exact E.
      * eapply Qle_lt_trans; [apply H2, Hx|exact E].
    + apply Qltb_ge in E. split; [reflexivity|]. split; [exact Hpos|].
      exists l1, (l2 ++ [rule])%list. split.
      { subst seen. rewrite <- app_assoc. reflexivity. }
      split; [exact H1|]. intros x Hx. apply in_app_or in Hx as [Hx|[Hx|[]]].
      * apply H2, Hx.
      * subst x; exact E.
  - intros (Hsc & Hall). subst sc.
    destruct (Qltb 0 (rule_score text rule)) eqn:E; simpl.
    + apply Qltb_lt in E. split; [reflexivity|]. split; [exact E|].
      exists seen, []. split; [reflexivity|]. split; [|intros x []].
      intros x Hx. eapply Qle_lt_trans; [apply Hall, Hx|exact E].
    + apply Qltb_ge in E. split; [reflexivity|].
      intros x Hx. apply in_app_or in Hx as [Hx|[Hx|[]]]; [apply Hall, Hx|subst x; exact E].
Qed.

Lemma fold_best_of text rules : forall seen acc,
  best_of text seen acc ->
  best_of text (seen ++ rules) (fold_left (best_step text) rules acc).
Proof.
  induction rules as [|r rules IH]; intros seen acc H; simpl.
  - rewrite app_nil_r. exact H.
  - replace (seen ++ r :: rules)%list with ((seen ++ [r]) ++ rules)%list
      by (rewrite <- app_assoc; reflexivity).
    apply IH, best_step_of, H.
Qed.

Lemma best_rule_spec rules text : best_of text rules (best_rule rules text).
Proof.
  apply (fold_best_of text rules [] (None, 0%Q)).
  split; [reflexivity|intros x []].
Qed.

Lemma analyze_task_cases text :
  (exists r, wins text r /\ analyze_task text = result_of_rule r)
  \/ ((forall x, In x analysis_rules -> (rule_score text x <= 0)%Q)
      /\ analyze_task text = TaskAnalysisResult.mk PLANNING MEDIUM 1.0 [] 3.0).
Proof.
  pose proof (best_rule_spec analysis_rules text) as H.
  unfold analyze_task, analyze_with, best_of in *.
  destruct (fst (best_rule analysis_rules text)) as [r|].
  - left. exists r. destruct H as (_ & Hpos & Hrest). split; [split; assumption|reflexivity].
  - right. destruct H as (_ & Hall). split; [exact Hall|reflexivity].
Qed.

(** C6.  The estimated duration returned by [analyze_task] is the base
    duration of the winning rule times its complexity factor; when no rule
    scores above zero the result is the planning kind, medium priority and
    the fallback duration 3.0. *)
Theorem analyze_task_duration :
  forall text,
    (exists r, wins text r
               /\ TaskAnalysisResult.task_type (analyze_task text) = Rule.task_type r
               /\ TaskAnalysisResult.priority (analyze_task text) = Rule.priority r
               /\ TaskAnalysisResult.estimated_duration (analyze_task text)
                  = (Rule.base_duration r * Rule.complexity_factor r)%Q)
    \/ ((forall x, In x analysis_rules -> (rule_score text x <= 0)%Q)
        /\ TaskAnalysisResult.task_type (analyze_task text) = PLANNING
        /\ TaskAnalysisResult.priority (analyze_task text) = MEDIUM
        /\ TaskAnalysisResult.estimated_duration (analyze_task text) = 3.0%Q).
Proof.
  intros text. destruct (analyze_task_cases text) as [(r & Hw & E)|(Hall & E)].
  - left. exists r. rewrite E. simpl. auto.
  - right. rewrite E. simpl. auto.
Qed.

Lemma nat_Q_nonneg n : (0 <= nat_Q n)%Q.
Proof.
  unfold nat_Q. change 0%Q with (inject_Z 0). rewrite <- Zle_Qle. lia.
Qed.

Lemma nat_Q_pos n : (0 < n)%nat -> (1 <= nat_Q n)%Q.
Proof.
  intros H. unfold nat_Q. change 1%Q with (inject_Z 1). rewrite <- Zle_Qle. lia.
Qed.

Lemma filter_length_0 {A} (f : A -> bool) l :
  length (List.filter f l) = 0%nat -> forall x, In x l -> f x = false.
Proof.
  induction l as [|a l IH]; simpl; intros H x Hx; [contradiction|].
  destruct (f a) eqn:E; [discriminate|].
  destruct Hx as [->|Hx]; auto.
Qed.

Lemma filter_all_false {A} (f : A -> bool) l :
  (forall x, In x l -> f x = false) -> List.filter f l = [].
Proof.
  induction l as [|a l IH]; simpl; intros H; [reflexivity|].
  rewrite (H a) by auto. apply IH. intros x Hx. apply H. auto.
Qed.

(** The length bonus alone makes a score positive. *)
Lemma long_text_scores text r :
  (10 < length (split_ws text))%nat -> (0.5 <= rule_score text r)%Q.
Proof.
  intros H. apply Nat.ltb_lt in H. unfold rule_score. rewrite H.
  pose proof (nat_Q_nonneg
    (length (List.filter (fun keyword => contains keyword (lower text)) (Rule.keywords r)))) as Hk.
  destruct (re_search false (Rule.pattern r) (lower text)); lra.
Qed.

Lemma silent_long_score text r :
  (10 < length (split_ws text))%nat -> matches_nothing text r ->
  (rule_score text r == 0.5)%Q.
Proof.
  intros H [Hp Hk]. apply Nat.ltb_lt in H. unfold rule_score.
  rewrite H, Hp, (filter_all_false _ _ Hk). reflexivity.
Qed.

(** A score that is not positive: no pattern, no keyword, a short text. *)
Lemma zero_score text r :
  (rule_score text r <= 0)%Q ->
  (length (split_ws text) <= 10)%nat /\ matches_nothing text r.
Proof.
  unfold rule_score, matches_nothing. intros H.
  set (k := length (List.filter (fun keyword => contains keyword (lower text)) (Rule.keywords r))) in *.
  pose proof (nat_Q_nonneg k) as Hk0.
  destruct (10 <? length (split_ws text))%nat eqn:Hlen;
    destruct (re_search false (Rule.pattern r) (lower text)) eqn:Hp; try lra.
  apply Nat.ltb_ge in Hlen. split; [exact Hlen|]. split; [reflexivity|].
  apply filter_length_0. fold k.
  destruct k as [|k']; [reflexivity|].
  pose proof (nat_Q_pos (S k') ltac:(lia)) as Hk1. lra.
Qed.

Lemma rule_result_not_fallback r :
  In r analysis_rules -> ~ is_fallback (result_of_rule r).
Proof.
  unfold analysis_rules, is_fallback. simpl.
  intros H [Hk Hp].
  repeat (destruct H as [<-|H]; [simpl in *; congruence|]). contradiction.
Qed.

Lemma wins_in text r : wins text r -> In r analysis_rules.
Proof.
  intros (_ & l1 & l2 & E & _). rewrite E. apply in_or_app. right. left. reflexivity.
Qed.

Lemma long_text_some_score text :
  (10 < length (split_ws text))%nat ->
  ~ (forall x, In x analysis_rules -> (rule_score text x <= 0)%Q).
Proof.
  intros Hlong Hall.
  assert (Hr : exists r, In r analysis_rules) by (eexists; left; reflexivity).
  destruct Hr as [r Hr].
  pose proof (Hall r Hr). pose proof (long_text_scores text r Hlong). lra.
Qed.

Lemma first_rule_in : exists r, In r analysis_rules.
Proof. eexists; left; reflexivity. Qed.

(** C10.  On a text of more than ten words the length bonus gives every rule
    a positive score: the result is never the planning/medium fallback, and
    when no pattern and no keyword is found the first rule of the table
    (vision analysis, high priority) wins.  The fallback is only returned for
    a text of at most ten words on which no rule finds its pattern or a
    keyword. *)
Theorem long_text_never_falls_back :
  forall text,
    (10 < length (split_ws text))%nat ->
    ~ is_fallback (analyze_task text)
    /\ ((forall r, In r analysis_rules -> matches_nothing text r) ->
        TaskAnalysisResult.task_type (analyze_task text) = VISION_ANALYSIS
        /\ TaskAnalysisResult.priority (analyze_task text) = HIGH
        /\ Some (analyze_task text) = option_map result_of_rule (head analysis_rules))
    /\ (forall text',
          is_fallback (analyze_task text') ->
          (length (split_ws text') <= 10)%nat
          /\ forall r, In r analysis_rules -> matches_nothing text' r).
Proof.
  intros text Hlong. split; [|split].
  - destruct (analyze_task_cases text) as [(r & Hw & E)|(Hall & E)].
    + rewrite E. apply rule_result_not_fallback, (wins_in text), Hw.
    + exfalso. exact (long_text_some_score text Hlong Hall).
  - intros Hsilent.
    destruct (analyze_task_cases text) as [(r & Hw & E)|(Hall & E)].
    + destruct Hw as (_ & l1 & l2 & Hrules & Hless & _).
      destruct l1 as [|x l1].
      * simpl in Hrules. rewrite E.
        unfold analysis_rules in Hrules. injection Hrules as <- _.
        simpl. auto.
      * exfalso. simpl in Hrules.
        assert (Hx : In x analysis_rules) by (rewrite Hrules; left; reflexivity).
        assert (Hr : In r analysis_rules).
        { rewrite Hrules. right. apply in_or_app. right. left. reflexivity. }
        pose proof (Hless x (or_introl eq_refl)) as Hlt.
        rewrite (silent_long_score text x Hlong (Hsilent x Hx)) in Hlt.
        rewrite (silent_long_score text r Hlong (Hsilent r Hr)) in Hlt.
        exact (Qlt_irrefl _ Hlt).
    + exfalso. exact (long_text_some_score text Hlong Hall).
  - intros text' Hfb.
    destruct (analyze_task_cases text') as [(r & Hw & E)|(Hall & E)].
    + exfalso. rewrite E in Hfb.
      exact (rule_result_not_fallback r (wins_in text' r Hw) Hfb).
    + split.
      * destruct first_rule_in as [r Hr].
        exact (proj1 (zero_score text' r (Hall r Hr))).
      * intros r Hr. exact (proj2 (zero_score text' r (Hall r Hr))).
Qed.

Lemma long_text_never_falls_back_witness :
  (10 < length (split_ws "a b c d e f g h i j k"))%nat
  /\ ~ is_fallback (analyze_task "a b c d e f g h i j k").
Proof.
  split; [vm_compute; lia|].
  apply (long_text_never_falls_back "a b c d e f g h i j k"). vm_compute; lia.
Defined.

(** ** Plan builder *)

Lemma fold_left_Qplus l : forall a, (fold_left Qplus l a == a + fold_left Qplus l 0)%Q.
Proof.
  induction l as [|x l IH]; intros a; simpl.
  - lra.
  - rewrite (IH (a + x)%Q), (IH (0 + x)%Q). lra.
Qed.

Lemma Qsum_cons x l : (Qsum (x :: l) == x + Qsum l)%Q.
Proof.
  unfold Qsum. simpl. rewrite fold_left_Qplus. lra.
Qed.

Lemma Qsum_durations tasks :
  (Qsum (map TaskEntity.estimated_duration tasks) == total_duration tasks)%Q.
Proof.
  induction tasks as [|t rest IH]; [reflexivity|].
  simpl map. rewrite Qsum_cons, IH. reflexivity.
Qed.

Lemma Qsum_weights tasks :
  (Qsum (map (fun task => type_complexity (TaskEntity.task_type task)) tasks)
   == total_kind_weight tasks)%Q.
Proof.
  induction tasks as [|t rest IH]; [reflexivity|].
  simpl map. rewrite Qsum_cons, IH. reflexivity.
Qed.

Lemma list_sum_dependencies tasks :
  list_sum (map (fun task => length (TaskEntity.dependencies task)) tasks)
  = total_dependencies tasks.
Proof.
  induction tasks as [|t rest IH]; [reflexivity|]. simpl. rewrite IH. reflexivity.
Qed.

(** C8, as stated, fails: for one planning task of three seconds the code
    gives 0.3 + 0.3 + 0.15 = 0.75, the stated weights give 0.5. *)
Lemma complexity_score_not_spec_weights :
  ~ (_calculate_complexity_score [lone_planning_task]
     == spec_complexity_score [lone_planning_task])%Q.
Proof.
  vm_compute. discriminate.
Qed.

(** C8, amended.  The complexity score of a list of tasks is 0.3 times the
    task count, plus 0.2 times the total number of dependencies, plus 0.1
    times the sum of the estimated durations, plus 0.1 times the sum of the
    per-kind weights. *)
Theorem complexity_score_weights :
  forall tasks,
    (_calculate_complexity_score tasks
     == 0.3 * nat_Q (length tasks) + 0.2 * nat_Q (total_dependencies tasks)
        + 0.1 * total_duration tasks + 0.1 * total_kind_weight tasks)%Q.
Proof.
  intros [|t rest]; [reflexivity|].
  unfold _calculate_complexity_score.
  rewrite Qsum_durations, Qsum_weights, list_sum_dependencies. lra.
Qed.

Lemma tasks_from_length generate ds : forall i,
  length (tasks_from generate i ds) = length ds.
Proof.
  induction ds as [|d rest IH]; intros i; simpl; [reflexivity|]. rewrite IH. reflexivity.
Qed.

Lemma tasks_from_app generate ds1 ds2 : forall i,
  tasks_from generate i (ds1 ++ ds2)
  = (tasks_from generate i ds1 ++ tasks_from generate (i + length ds1) ds2)%list.
Proof.
  induction ds1 as [|d rest IH]; intros i; simpl.
  - rewrite Nat.add_0_r. reflexivity.
  - rewrite IH. replace (S i + length rest)%nat with (i + S (length rest))%nat by lia.
    reflexivity.
Qed.

Lemma tasks_from_lookup generate ds : forall i j d,
  ds !! j = Some d ->
  tasks_from generate i ds !! j = Some (task_for generate (i + j) d).
Proof.
  induction ds as [|x rest IH]; intros i j d H; [discriminate|].
  destruct j as [|j]; simpl in *.
  - injection H as ->. rewrite Nat.add_0_r. reflexivity.
  - rewrite (IH (S i) j d H). replace (S i + j)%nat with (i + S j)%nat by lia. reflexivity.
Qed.

(** The loop of [_create_task_entities] never indexes out of range and
    builds [tasks_from]. *)
Lemma create_loop generate rest : forall (done : list string),
  fold_left (create_step generate)
    (combine (seq (length done) (length rest)) rest)
    (Ok (tasks_from generate 0 done))
  = Ok (tasks_from generate 0 (done ++ rest)).
Proof.
  induction rest as [|d rest IH]; intros done; cbn [length seq combine fold_left].
  - rewrite app_nil_r. reflexivity.
  - assert (Hstep : create_step generate (Ok (tasks_from generate 0 done)) (length done, d)
                    = Ok (tasks_from generate 0 (done ++ [d]))).
    { unfold create_step. rewrite tasks_from_app. simpl.
      destruct (length done) as [|n] eqn:Hn.
      - reflexivity.
      - simpl. rewrite Nat.sub_0_r.
        assert (Hlast : exists x, done !! n = Some x).
        { apply lookup_lt_is_Some_2. lia. }
        destruct Hlast as [x Hx].
        rewrite (tasks_from_lookup generate done 0 n x Hx). reflexivity. }
    rewrite Hstep.
    replace (S (length done)) with (length (done ++ [d])) by (rewrite length_app; simpl; lia).
    rewrite IH. rewrite <- app_assoc. reflexivity.
Qed.

Lemma create_task_entities_spec generate ds :
  _create_task_entities generate ds = Ok (tasks_from generate 0 ds).
Proof.
  exact (create_loop generate ds []).
Qed.

Lemma tasks_from_no_independent generate ds : forall i,
  List.filter (fun task => match TaskEntity.dependencies task with
                           | [] => true | _ => false end)
              (tasks_from generate (S i) ds) = [].
Proof.
  induction ds as [|d rest IH]; intros i; simpl; [reflexivity|]. apply IH.
Qed.

(** C4.  A request decomposed into n >= 2 fragments yields one task per
    fragment, in order; the first task has no dependency, the task of every
    later fragment depends on exactly the task of the fragment before it, and
    the plan has no parallel group. *)
Theorem decomposed_plan_is_a_chain :
  forall (generate : nat -> TaskId) (plan_id request : string),
    (2 <= length (extract_subtasks request))%nat ->
    exists p,
      create_execution_plan generate plan_id request = Ok p
      /\ length (ExecutionPlanEntity.tasks p) = length (extract_subtasks request)
      /\ (forall i d, extract_subtasks request !! i = Some d ->
            exists t, ExecutionPlanEntity.tasks p !! i = Some t
                      /\ TaskEntity.description t = strip d
                      /\ TaskEntity.task_type t
                         = TaskAnalysisResult.task_type (analyze_task d))
      /\ (forall t, ExecutionPlanEntity.tasks p !! 0%nat = Some t ->
            TaskEntity.dependencies t = [])
      /\ (forall i t, ExecutionPlanEntity.tasks p !! S i = Some t ->
            exists prev, ExecutionPlanEntity.tasks p !! i = Some prev
                         /\ TaskEntity.dependencies t = [TaskEntity.id prev])
      /\ ExecutionPlanEntity.parallel_groups p = [].
Proof.
  intros generate plan_id request Hn.
  assert (Hc : is_complex_task request = true).
  { destruct (is_complex_task request) eqn:E; [reflexivity|].
    unfold extract_subtasks in Hn. rewrite E in Hn. simpl in Hn. lia. }
  unfold create_execution_plan. rewrite Hc, create_task_entities_spec.
  set (ds := extract_subtasks request) in *.
  eexists. split; [reflexivity|]. simpl.
  split; [apply tasks_from_length|].
  split.
  { intros i d Hd. rewrite (tasks_from_lookup generate ds 0 i d Hd).
    eexists. split; [reflexivity|]. simpl. auto. }
  split.
  { intros t Ht. destruct ds as [|d0 rest]; [discriminate|].
    simpl in Ht. injection Ht as <-. reflexivity. }
  split.
  { intros i t Ht.
    assert (Hd : exists d, ds !! S i = Some d).
    { apply lookup_lt_is_Some_2. apply lookup_lt_Some in Ht.
      rewrite tasks_from_length in Ht. exact Ht. }
    destruct Hd as [d Hd].
    assert (Hd' : exists d', ds !! i = Some d').
    { apply lookup_lt_is_Some_2. apply lookup_lt_Some in Hd. lia. }
    destruct Hd' as [d' Hd'].
    rewrite (tasks_from_lookup generate ds 0 (S i) d Hd) in Ht. injection Ht as <-.
    rewrite (tasks_from_lookup generate ds 0 i d' Hd').
    eexists. split; [reflexivity|]. reflexivity. }
  unfold _identify_parallel_groups.
  destruct ds as [|d0 rest]; [reflexivity|].
  simpl. rewrite tasks_from_no_independent. reflexivity.
Qed.

Lemma decomposed_plan_is_a_chain_witness :
  (2 <= length (extract_subtasks "create a file and then read it"))%nat
  /\ exists p,
      create_execution_plan (fun k => if (k =? 0)%nat then "task_a" else "task_b")
        "plan_1" "create a file and then read it" = Ok p
      /\ ExecutionPlanEntity.parallel_groups p = [].
Proof.
  split; [vm_compute; lia|].
  destruct (decomposed_plan_is_a_chain
              (fun k => if (k =? 0)%nat then "task_a" else "task_b")
              "plan_1" "create a file and then read it")
    as (p & Hp & _ & _ & _ & _ & Hg); [vm_compute; lia|].
  exists p. split; assumption.
Defined.

(** ** Decomposer *)








Lemma extract_subtasks_nonempty text : extract_subtasks text <> [].
Proof.
  unfold extract_subtasks. destruct (negb (is_complex_task text)); [discriminate|].
  match goal with |- (if ?c then ?l else _) <> [] => destruct c eqn:E; [|discriminate] end.
  intros H. rewrite H in E. discriminate.
Qed.

(** A text that is cut: two fragments, trimmed. *)
Example compound_text_two_fragments :
  extract_subtasks "Open the file and then  read it " = ["Open the file"; "read it"].
Proof. vm_compute. reflexivity. Qed.


(** ** Agent selection *)

Lemma Qmax_compat a b b' : (b == b')%Q -> (Qmax a b == Qmax a b')%Q.
Proof.
  intros H. unfold Qmax.
  destruct (Qltb a b) eqn:E1; destruct (Qltb a b') eqn:E2; try assumption; try reflexivity.
  - apply Qltb_lt in E1. apply Qltb_ge in E2. lra.
  - apply Qltb_lt in E2. apply Qltb_ge in E1. lra.
Qed.

Lemma calculate_agent_score_formula now_ agent task :
  (_calculate_agent_score now_ agent task == code_agent_score now_ agent task)%Q.
Proof.
  unfold _calculate_agent_score, code_agent_score, AgentEntity.can_handle_task.
  apply Qmax_compat.
  destruct (AgentEntity.performance_metrics agent !! "success_rate");
    destruct (existsb _ (AgentEntity.capabilities agent));
    destruct (3 <=? priority_value (TaskEntity.priority task))%Z;
    destruct (Qltb (now_ - AgentEntity.last_activity agent) 60); lra.
Qed.

(** The head of the sorted list is the first element of maximal score. *)
Lemma sort_desc_head l :
  match sort_desc l with
  | [] => l = []
  | b :: _ =>
      exists l1 l2, l = (l1 ++ b :: l2)%list
        /\ (forall x, In x l1 -> (snd x < snd b)%Q)
        /\ (forall x, In x l2 -> (snd x <= snd b)%Q)
  end.
Proof.
  induction l as [|x l IH]; [reflexivity|].
  simpl. destruct (sort_desc l) as [|y L].
  - subst l. simpl. exists [], []. repeat split; intros z [].
  - destruct IH as (l1 & l2 & -> & H1 & H2). simpl.
    destruct (Qltb (snd x) (snd y)) eqn:E.
    + apply Qltb_lt in E. exists (x :: l1), l2. split; [reflexivity|].
      split; [|exact H2]. intros z [<-|Hz]; [exact E|apply H1, Hz].
    + apply Qltb_ge in E. exists [], (l1 ++ y :: l2)%list. split; [reflexivity|].
      split; [intros z []|].
      intros z Hz. apply in_app_or in Hz as [Hz|[<-|Hz]].
      * apply Qlt_le_weak. eapply Qlt_le_trans; [apply H1, Hz|exact E].
      * exact E.
      * eapply Qle_trans; [apply H2, Hz|exact E].
Qed.

(** The candidates are exactly the qualifying agents, in registry order,
    each with the score computed at some clock reading. *)
Lemma suitable_from_spec w task agents : forall i k,
  let cands := fst (suitable_from w task i agents k) in
  (forall j sc, In (j, sc) cands ->
     exists a k', (i <= j)%nat /\ agents !! (j - i)%nat = Some a /\ qualifies a task
                  /\ sc = _calculate_agent_score (clock w k') a task)
  /\ (forall j a, agents !! j = Some a -> qualifies a task ->
        exists sc, In ((i + j)%nat, sc) cands)
  /\ StronglySorted lt (map fst cands).
Proof.
  induction agents as [|agent rest IH]; intros i k; simpl.
  - split; [intros j sc []|]. split; [intros j a H; discriminate|constructor].
  - destruct (IH (S i) (S k)) as (IH1 & IH2 & IH3).
    destruct (IH (S i) k) as (IH1' & IH2' & IH3').
    destruct (String.eqb (AgentEntity.status agent) "available"
              && AgentEntity.can_handle_task agent (TaskEntity.task_type task)) eqn:E.
    + apply andb_true_iff in E as [Ea Ec]. apply String.eqb_eq in Ea.
      destruct (suitable_from w task (S i) rest (S k)) as [l k'] eqn:El. simpl in *.
      split; [|split].
      * intros j sc [Hj|Hj].
        -- injection Hj as <- <-. exists agent, k. rewrite Nat.sub_diag.
           repeat split; auto.
        -- destruct (IH1 j sc Hj) as (a & k2 & Hle & Ha & Hq & Hsc).
           exists a, k2. split; [lia|]. split; [|auto].
           replace (j - i)%nat with (S (j - S i)) by lia. exact Ha.
      * intros [|j] a Ha Hq.
        -- injection Ha as <-. eexists. left. rewrite Nat.add_0_r. reflexivity.
        -- destruct (IH2 j a Ha Hq) as [sc Hsc]. exists sc. right.
           replace (i + S j)%nat with (S i + j)%nat by lia. exact Hsc.
      * constructor; [exact IH3|].
        apply List.Forall_forall. intros j Hj. apply in_map_iff in Hj as ([j' sc] & <- & Hin).
        destruct (IH1 j' sc Hin) as (_ & _ & Hle & _). simpl. lia.
    + split; [|split].
      * intros j sc Hj. destruct (IH1' j sc Hj) as (a & k2 & Hle & Ha & Hq & Hsc).
        exists a, k2. split; [lia|]. split; [|auto].
        replace (j - i)%nat with (S (j - S i)) by lia. exact Ha.
      * intros [|j] a Ha Hq.
        -- injection Ha as <-. destruct Hq as [Hq1 Hq2].
           rewrite Hq1, Hq2 in E. discriminate.
        -- destruct (IH2' j a Ha Hq) as [sc Hsc]. exists sc.
           replace (i + S j)%nat with (S i + j)%nat by lia. exact Hsc.
      * exact IH3'.
Qed.

(** C7, as stated, fails: with the weights of the code (10 per queued task)
    [steady] scores 65 and [loaded] 60, so [steady] is selected; with the
    stated weights (5 per queued task) [loaded] would score 5 more than
    [steady], whatever the recency bonus of two agents idle for the same
    time.  The selected agent is not a maximum of the stated score, and the
    score of [loaded] is not the stated one. *)
Lemma selection_not_spec_maximum :
  fst (_select_best_agent quiet_world testing_task two_testers) = Some 0%nat
  /\ ~ (exists bonus,
          (spec_agent_score bonus loaded_agent testing_task
           <= spec_agent_score bonus steady_agent testing_task)%Q)
  /\ ~ (exists bonus,
          (0 <= bonus)%Q
          /\ (_calculate_agent_score 1000 loaded_agent testing_task
              == spec_agent_score bonus loaded_agent testing_task)%Q).
Proof.
  split; [vm_compute; reflexivity|]. split.
  - intros [bonus H]. unfold spec_agent_score in H.
    replace (metric (AgentEntity.performance_metrics loaded_agent) "success_rate" 0)
      with 1%Q in H by (vm_compute; reflexivity).
    replace (metric (AgentEntity.performance_metrics steady_agent) "success_rate" 0)
      with 0.7%Q in H by (vm_compute; reflexivity).
    replace (nat_Q (length (AgentEntity.task_queue loaded_agent)))
      with 2%Q in H by (vm_compute; reflexivity).
    replace (nat_Q (length (AgentEntity.task_queue steady_agent)))
      with 0%Q in H by (vm_compute; reflexivity).
    simpl in H. lra.
  - intros (bonus & Hb & H).
    replace (_calculate_agent_score 1000 loaded_agent testing_task)
      with 60%Q in H by (vm_compute; reflexivity).
    unfold spec_agent_score in H.
    replace (metric (AgentEntity.performance_metrics loaded_agent) "success_rate" 0)
      with 1%Q in H by (vm_compute; reflexivity).
    replace (nat_Q (length (AgentEntity.task_queue loaded_agent)))
      with 2%Q in H by (vm_compute; reflexivity).
    simpl in H. lra.
Qed.

(** C7, amended.  [_select_best_agent] considers exactly the agents that are
    available and declare the kind of the task, in registry order.  A
    candidate's score is the larger of 0 and
    50 x success rate (when one is recorded) - 10 x queue length
    + 30 for the declared kind + 20 when the priority is at least high
    + 10 when the agent was active less than 60 seconds ago.
    The result is the first candidate, in registry order, of maximal score,
    and it is none exactly when no agent qualifies. *)
Theorem select_best_agent_first_maximum :
  forall (w : World) (task : TaskEntity.t) (s : OState),
    (forall j sc, In (j, sc) (candidates w task s) ->
       exists a k, active_agents s !! j = Some a /\ qualifies a task
                   /\ (sc == code_agent_score (clock w k) a task)%Q)
    /\ (forall j a, active_agents s !! j = Some a -> qualifies a task ->
          exists sc, In (j, sc) (candidates w task s))
    /\ StronglySorted lt (map fst (candidates w task s))
    /\ match fst (_select_best_agent w task s) with
       | None =>
           candidates w task s = []
           /\ forall j a, active_agents s !! j = Some a -> ~ qualifies a task
       | Some i =>
           exists sc l1 l2,
             candidates w task s = (l1 ++ (i, sc) :: l2)%list
             /\ (forall x, In x l1 -> (snd x < sc)%Q)
             /\ (forall x, In x l2 -> (snd x <= sc)%Q)
       end.
Proof.
  intros w task s.
  pose proof (suitable_from_spec w task (active_agents s) 0 (ticks s)) as (H1 & H2 & H3).
  fold (candidates w task s) in H1, H2, H3.
  split; [|split; [|split]].
  - intros j sc Hin. destruct (H1 j sc Hin) as (a & k & _ & Ha & Hq & ->).
    rewrite Nat.sub_0_r in Ha. exists a, k. split; [exact Ha|]. split; [exact Hq|].
    apply calculate_agent_score_formula.
  - intros j a Ha Hq. exact (H2 j a Ha Hq).
  - exact H3.
  - unfold _select_best_agent.
    pose proof (sort_desc_head (candidates w task s)) as Hs.
    unfold candidates in *.
    destruct (suitable_from w task 0 (active_agents s) (ticks s)) as [l k]. simpl in *.
    destruct (sort_desc l) as [|[i sc] L]; simpl.
    + split; [exact Hs|]. intros j a Ha Hq.
      destruct (H2 j a Ha Hq) as [sc Hsc]. rewrite Hs in Hsc. exact Hsc.
    + destruct Hs as (l1 & l2 & Hl & Hlt & Hle). exists sc, l1, l2. auto.
Qed.

(** ** Cycle detection *)

Section Search.

Variable task_map : gmap string TaskEntity.t.

Lemma safe_reach B a b : safe task_map B -> a ∈ B -> tc (edge task_map) a b -> b ∈ B.
Proof.
  intros [Hc _] Ha Hab. induction Hab as [x y H|x y z H _ IH]; eauto.
Qed.

Lemma safe_add B v :
  safe task_map B -> v ∉ B -> (forall b, edge task_map v b -> b ∈ B) -> safe task_map (B ∪ {[v]}).
Proof.
  intros HB Hv Hsucc. split.
  - intros a b Ha Hab. apply elem_of_union in Ha as [Ha|Ha].
    + apply elem_of_union_l. exact (proj1 HB a b Ha Hab).
    + apply elem_of_singleton in Ha. subst a. apply elem_of_union_l, Hsucc, Hab.
  - intros a Ha Hcyc. apply elem_of_union in Ha as [Ha|Ha].
    + exact (proj2 HB a Ha Hcyc).
    + apply elem_of_singleton in Ha. subst a.
      apply Hv. inversion Hcyc as [x y H|x y z H Hrest]; subst.
      * apply Hsucc, H.
      * exact (safe_reach B y v HB (Hsucc y H) Hrest).
Qed.

Lemma for_until_ok stk body l :
  body_ok task_map stk body ->
  forall vis vis' stk',
    for_until body l (vis, stk) = Some (false, (vis', stk')) ->
    safe task_map (vis ∖ stk) ->
    stk' = stk /\ vis ⊆ vis' /\ (forall x, In x l -> x ∈ vis' ∖ stk)
    /\ safe task_map (vis' ∖ stk).
Proof.
  intros Hbody. induction l as [|x l IH]; intros vis vis' stk' H Hsafe; simpl in H.
  - injection H as <- <-. split; [reflexivity|]. split; [reflexivity|].
    split; [intros x []|exact Hsafe].
  - destruct (body x (vis, stk)) as [[[|] [vis1 stk1]]|] eqn:E; try discriminate.
    destruct (Hbody x vis vis1 stk1 E Hsafe) as (-> & Hsub & Hx & Hsafe1).
    destruct (IH vis1 vis' stk' H Hsafe1) as (-> & Hsub' & Hl & Hsafe').
    split; [reflexivity|]. split; [set_solver|]. split; [|exact Hsafe'].
    intros y [<-|Hy]; [set_solver|apply Hl, Hy].
Qed.

Lemma has_cycle_ok depth : forall stk, body_ok task_map stk (has_cycle depth task_map).
Proof.
  induction depth as [|depth IH]; intros stk x vis vis' stk' H Hsafe; [discriminate|].
  simpl in H.
  destruct (decide (x ∈ stk)) as [|Hstk]; [discriminate|].
  destruct (decide (x ∈ vis)) as [Hvis|Hvis].
  { injection H as <- <-. split; [reflexivity|]. split; [reflexivity|].
    split; [set_solver|exact Hsafe]. }
  assert (Hblack : (vis ∪ {[x]}) ∖ (stk ∪ {[x]}) = vis ∖ stk) by set_solver.
  destruct (task_map !! x) as [task|] eqn:Hx.
  - destruct (for_until (has_cycle depth task_map) (TaskEntity.dependencies task)
                (vis ∪ {[x]}, stk ∪ {[x]})) as [[[|] [vis2 stk2]]|] eqn:E;
      try discriminate.
    injection H as <- <-.
    destruct (for_until_ok (stk ∪ {[x]}) _ _ (IH (stk ∪ {[x]})) _ _ _ E)
      as (-> & Hsub & Hdeps & Hsafe2).
    { rewrite Hblack. exact Hsafe. }
    split; [set_solver|]. split; [set_solver|]. split; [set_solver|].
    replace (vis2 ∖ stk) with (vis2 ∖ (stk ∪ {[x]}) ∪ {[x]}).
    + apply safe_add; [exact Hsafe2|set_solver|].
      intros b (t & Ht & Hb). rewrite Hx in Ht. injection Ht as <-.
      apply Hdeps, Hb.
    + apply set_eq. intros y. destruct (decide (y = x)); set_solver.
  - injection H as <- <-.
    split; [set_solver|]. split; [set_solver|]. split; [set_solver|].
    replace ((vis ∪ {[x]}) ∖ stk) with (vis ∖ stk ∪ {[x]}).
    + apply safe_add; [exact Hsafe|set_solver|].
      intros b (t & Ht & _). rewrite Hx in Ht. discriminate.
    + apply set_eq. intros y. destruct (decide (y = x)); set_solver.
Qed.

Lemma visit_root_ok depth : body_ok task_map ∅ (visit_root depth task_map).
Proof.
  intros x vis vis' stk' H Hsafe. unfold visit_root in H. simpl in H.
  destruct (decide (x ∈ vis)) as [Hvis|Hvis].
  - injection H as <- <-. split; [reflexivity|]. split; [reflexivity|].
    split; [set_solver|exact Hsafe].
  - exact (has_cycle_ok depth ∅ x vis vis' stk' H Hsafe).
Qed.

(** An answer "cycle" is right when every identifier on the stack reaches
    the identifier being visited. *)
Lemma for_until_true stk body l :
  body_ok task_map stk body ->
  (forall x vis st',
     body x (vis, stk) = Some (true, st') -> safe task_map (vis ∖ stk) ->
     (forall u, u ∈ stk -> tc (edge task_map) u x) -> has_dep_cycle task_map) ->
  forall vis st',
    for_until body l (vis, stk) = Some (true, st') ->
    safe task_map (vis ∖ stk) ->
    (forall x, In x l -> forall u, u ∈ stk -> tc (edge task_map) u x) ->
    has_dep_cycle task_map.
Proof.
  intros Hok Htrue. induction l as [|x l IH]; intros vis st' H Hsafe Hpath; simpl in H.
  - discriminate.
  - destruct (body x (vis, stk)) as [[[|] [vis1 stk1]]|] eqn:E; try discriminate.
    + exact (Htrue x vis _ E Hsafe (Hpath x (or_introl eq_refl))).
    + destruct (Hok x vis vis1 stk1 E Hsafe) as (-> & _ & _ & Hsafe1).
      apply (IH vis1 st' H Hsafe1). intros y Hy. apply Hpath. right. exact Hy.
Qed.

Lemma has_cycle_true depth : forall stk x vis st',
  has_cycle depth task_map x (vis, stk) = Some (true, st') ->
  safe task_map (vis ∖ stk) ->
  (forall u, u ∈ stk -> tc (edge task_map) u x) ->
  has_dep_cycle task_map.
Proof.
  induction depth as [|depth IH]; intros stk x vis st' H Hsafe Hpath; [discriminate|].
  simpl in H.
  destruct (decide (x ∈ stk)) as [Hstk|Hstk].
  { exists x. apply Hpath, Hstk. }
  destruct (decide (x ∈ vis)) as [Hvis|Hvis]; [discriminate|].
  destruct (task_map !! x) as [task|] eqn:Hx; [|discriminate].
  destruct (for_until (has_cycle depth task_map) (TaskEntity.dependencies task)
              (vis ∪ {[x]}, stk ∪ {[x]})) as [[[|] [vis2 stk2]]|] eqn:E;
    try discriminate.
  apply (for_until_true (stk ∪ {[x]}) _ _ (has_cycle_ok depth (stk ∪ {[x]}))
           (IH (stk ∪ {[x]})) _ _ E).
  - replace ((vis ∪ {[x]}) ∖ (stk ∪ {[x]})) with (vis ∖ stk) by set_solver. exact Hsafe.
  - intros d Hd u Hu.
    assert (Hxd : edge task_map x d) by (exists task; auto).
    apply elem_of_union in Hu as [Hu|Hu].
    + eapply tc_r; [apply Hpath, Hu|exact Hxd].
    + apply elem_of_singleton in Hu. subst u. apply tc_once, Hxd.
Qed.

Lemma visit_root_true depth x vis st' :
  visit_root depth task_map x (vis, ∅) = Some (true, st') ->
  safe task_map (vis ∖ ∅) ->
  (forall u, u ∈ (∅ : gset string) -> tc (edge task_map) u x) ->
  has_dep_cycle task_map.
Proof.
  unfold visit_root. simpl. destruct (decide (x ∈ vis)); [discriminate|].
  apply has_cycle_true.
Qed.

(** The search always answers when the depth bound exceeds the number of
    identifiers of the map not yet visited. *)
Lemma for_until_total body l :
  forall (bound : nat),
  (forall x vis stk, (size (dom task_map ∖ vis) < bound)%nat ->
     exists b vis' stk', body x (vis, stk) = Some (b, (vis', stk')) /\ vis ⊆ vis') ->
  forall vis stk, (size (dom task_map ∖ vis) < bound)%nat ->
    exists b vis' stk', for_until body l (vis, stk) = Some (b, (vis', stk')) /\ vis ⊆ vis'.
Proof.
  intros bound Hbody. induction l as [|x l IH]; intros vis stk Hsize; simpl.
  - exists false, vis, stk. split; reflexivity.
  - destruct (Hbody x vis stk Hsize) as (b & vis1 & stk1 & -> & Hsub).
    destruct b.
    + exists true, vis1, stk1. split; [reflexivity|exact Hsub].
    + destruct (IH vis1 stk1) as (b & vis2 & stk2 & E & Hsub2).
      { apply Nat.le_lt_trans with (size (dom task_map ∖ vis)); [|exact Hsize].
        apply subseteq_size. set_solver. }
      exists b, vis2, stk2. split; [exact E|set_solver].
Qed.

Lemma has_cycle_total depth :
  forall x vis stk, (size (dom task_map ∖ vis) < depth)%nat ->
    exists b vis' stk',
      has_cycle depth task_map x (vis, stk) = Some (b, (vis', stk')) /\ vis ⊆ vis'.
Proof.
  induction depth as [|depth IH]; intros x vis stk Hsize; [lia|].
  simpl.
  destruct (decide (x ∈ stk)); [exists true, vis, stk; split; reflexivity|].
  destruct (decide (x ∈ vis)) as [|Hvis]; [exists false, vis, stk; split; reflexivity|].
  destruct (task_map !! x) as [task|] eqn:Hx.
  - destruct (for_until_total (has_cycle depth task_map) (TaskEntity.dependencies task)
                depth IH (vis ∪ {[x]}) (stk ∪ {[x]}))
      as (b & vis2 & stk2 & -> & Hsub).
    { assert (Hlt : (size (dom task_map ∖ (vis ∪ {[x]})) < size (dom task_map ∖ vis))%nat).
      { apply subset_size. split; [set_solver|].
        intros Hsub. assert (Hin : x ∈ dom task_map ∖ vis).
        { apply elem_of_difference. split; [|exact Hvis].
          apply elem_of_dom. rewrite Hx. eauto. }
        apply Hsub in Hin. set_solver. }
      lia. }
    destruct b; eexists _, _, _; (split; [reflexivity|set_solver]).
  - eexists _, _, _. split; [reflexivity|set_solver].
Qed.

Lemma visit_root_total depth :
  forall x vis stk, (size (dom task_map ∖ vis) < depth)%nat ->
    exists b vis' stk',
      visit_root depth task_map x (vis, stk) = Some (b, (vis', stk')) /\ vis ⊆ vis'.
Proof.
  intros x vis stk Hsize. unfold visit_root. simpl.
  destruct (decide (x ∈ vis)).
  - exists false, vis, stk. split; reflexivity.
  - apply has_cycle_total, Hsize.
Qed.

End Search.

Lemma task_map_of_size tasks : forall m : gmap string TaskEntity.t,
  (size (fold_left (fun m task => <[TaskEntity.id task := task]> m) tasks m)
   <= size m + length tasks)%nat.
Proof.
  induction tasks as [|t rest IH]; intros m; simpl; [lia|].
  etransitivity; [apply IH|].
  rewrite map_size_insert. destruct (m !! TaskEntity.id t); simpl; lia.
Qed.

Lemma task_map_of_lookup tasks : forall (m : gmap string TaskEntity.t) a t,
  fold_left (fun m task => <[TaskEntity.id task := task]> m) tasks m !! a = Some t ->
  m !! a = Some t \/ (In t tasks /\ TaskEntity.id t = a).
Proof.
  induction tasks as [|x rest IH]; intros m a t H; simpl in H; [left; exact H|].
  destruct (IH _ a t H) as [H1|[H1 H2]].
  - destruct (decide (TaskEntity.id x = a)) as [<-|Hne].
    + rewrite lookup_insert_eq in H1. injection H1 as <-. right. split; [left|]; reflexivity.
    + rewrite lookup_insert_ne in H1 by exact Hne. left. exact H1.
  - right. split; [right; exact H1|exact H2].
Qed.

(** The search answers on every task list. *)
Lemma has_circular_total tasks : exists b, _has_circular_dependencies tasks = Some b.
Proof.
  unfold _has_circular_dependencies.
  destruct (for_until_total (task_map_of tasks)
              (visit_root (S (S (length tasks))) (task_map_of tasks))
              (map TaskEntity.id tasks) (S (S (length tasks)))
              (visit_root_total (task_map_of tasks) _) ∅ ∅)
    as (b & vis & stk & -> & _).
  - apply Nat.le_lt_trans with (size (dom (task_map_of tasks)));
      [apply subseteq_size; set_solver|].
    rewrite size_dom. pose proof (task_map_of_size tasks ∅) as H.
    rewrite map_size_empty in H. unfold task_map_of. lia.
  - exists b. reflexivity.
Qed.


(** When the search answers "cycle", the graph has one. *)
Lemma has_circular_true tasks :
  _has_circular_dependencies tasks = Some true -> has_dep_cycle (task_map_of tasks).
Proof.
  unfold _has_circular_dependencies. intros H.
  destruct (for_until _ _ _) as [[b st']|] eqn:E; [|discriminate].
  injection H as ->.
  apply (for_until_true (task_map_of tasks) ∅ _ _ (visit_root_ok _ _)
           (visit_root_true _ _) _ _ E).
  - split; intros x; set_solver.
  - intros x _ u Hu. set_solver.
Qed.


(** ** Driving loop: deadlock *)




(** ** Driving loop: frame properties *)

Lemma insert_lookup_cases {A} (l : list A) i j x y :
  l !! i = Some y ->
  <[i := x]> l !! j = if decide (j = i) then Some x else l !! j.
Proof.
  intros Hi. destruct (decide (j = i)) as [->|Hne].
  - apply list_lookup_insert_eq. apply lookup_lt_Some in Hi. exact Hi.
  - apply list_lookup_insert_ne. congruence.
Qed.

Lemma task_frame_refl ti s : task_frame ti s s.
Proof. repeat split; reflexivity. Qed.

Lemma task_frame_tick ti s x : task_frame ti s x -> task_frame ti s (tick x).
Proof. exact id. Qed.

Lemma task_frame_set_agent ti ai a s x :
  task_frame ti s x -> task_frame ti s (set_agent ai a x).
Proof. exact id. Qed.

Lemma task_frame_set_task ti t s x :
  task_frame ti s x -> task_frame ti s (set_task ti t x).
Proof.
  intros (H1 & H2 & H3 & H4 & H5 & H6 & H7).
  unfold task_frame, set_task, tasks_of in *. simpl.
  repeat split; try assumption.
  - rewrite length_insert. exact H6.
  - intros j Hj. rewrite list_lookup_insert_ne by congruence. apply H7, Hj.
Qed.

Lemma task_frame_task_call w m ti s x r y :
  task_call w m ti x = (r, y) -> task_frame ti s x -> task_frame ti s y.
Proof.
  unfold task_call. intros H Hf.
  destruct (tasks_of x !! ti); [|injection H as <- <-; exact Hf].
  destruct (m (now w x) t) as [[u|e] t']; injection H as <- <-.
  - apply task_frame_tick, task_frame_set_task, Hf.
  - apply task_frame_set_task, Hf.
Qed.

Create HintDb frame.
#[local] Hint Resolve task_frame_refl task_frame_tick task_frame_set_agent
  task_frame_set_task task_frame_task_call : frame.

Lemma execute_try_frame w ti ai start_time s0 s r s' :
  execute_try w ti ai start_time s = (r, s') ->
  task_frame ti s0 s -> task_frame ti s0 s'.
Proof.
  unfold execute_try. intros H Hf.
  repeat match type of H with
         | context [match ?x with _ => _ end] => destruct x eqn:?
         | context [if ?x then _ else _] => destruct x eqn:?
         end;
    injection H as <- <-;
    repeat match goal with
           | H' : (if ?x then _ else _) = _ |- _ => destruct x
           end;
    eauto 10 with frame.
Qed.

Lemma execute_task_frame w ti ai s r s' :
  _execute_task_with_agent w ti ai s = (r, s') -> task_frame ti s s'.
Proof.
  unfold _execute_task_with_agent. intros H.
  destruct (execute_try w ti ai (now w s) (tick s)) as [[result_|e] s1] eqn:E.
  - injection H as <- <-. eapply execute_try_frame; eauto with frame.
  - assert (Hf1 : task_frame ti s s1) by (eapply execute_try_frame; eauto with frame).
    repeat match type of H with
           | context [match ?x with _ => _ end] => destruct x eqn:?
           end;
      injection H as <- <-; eauto 10 with frame.
Qed.

Lemma gather_frame w exec : forall s rs s' ti,
  gather w exec s = (rs, s') ->
  ~ In ti (map fst exec) ->
  tasks_of s' !! ti = tasks_of s !! ti
  /\ completed_task_ids s' = completed_task_ids s.
Proof.
  induction exec as [|[tj aj] rest IH]; intros s rs s' ti H Hti; simpl in H.
  - injection H as <- <-. split; reflexivity.
  - destruct (_execute_task_with_agent w tj aj s) as [r s1] eqn:E1.
    destruct (gather w rest s1) as [rs' s2] eqn:E2. injection H as <- <-.
    simpl in Hti.
    destruct (IH s1 rs' s2 ti E2) as [Ht Hc]; [tauto|].
    destruct (execute_task_frame w tj aj s r s1 E1) as (Hc1 & _ & _ & _ & _ & _ & Ht1).
    split; [rewrite Ht; apply Ht1; intros ->; tauto|congruence].
Qed.

Lemma select_best_agent_frame w task s :
  same_but_ticks s (snd (_select_best_agent w task s)).
Proof.
  unfold _select_best_agent.
  destruct (suitable_from w task 0 (active_agents s) (ticks s)) as [l k].
  destruct (sort_desc l); repeat split.
Qed.

(** A selection depends on the registry alone: it finds an agent exactly
    when one qualifies, and the agent found qualifies. *)
Lemma select_none_iff w task s :
  fst (_select_best_agent w task s) = None
  <-> forall j a, active_agents s !! j = Some a -> ~ qualifies a task.
Proof.
  pose proof (suitable_from_spec w task (active_agents s) 0 (ticks s)) as (H1 & H2 & _).
  pose proof (sort_desc_head (fst (suitable_from w task 0 (active_agents s) (ticks s)))) as Hs.
  unfold _select_best_agent.
  destruct (suitable_from w task 0 (active_agents s) (ticks s)) as [l k]. simpl in *.
  destruct (sort_desc l) as [|[i sc] L]; simpl.
  - split; [|reflexivity]. intros _ j a Ha Hq.
    destruct (H2 j a Ha Hq) as [sc Hsc]. rewrite Hs in Hsc. exact Hsc.
  - split; [discriminate|]. intros Hno. exfalso.
    destruct Hs as (l1 & l2 & -> & _).
    destruct (H1 i sc) as (a & k' & _ & Ha & Hq & _).
    { apply in_or_app. right. left. reflexivity. }
    rewrite Nat.sub_0_r in Ha. exact (Hno i a Ha Hq).
Qed.

Lemma select_some_qualifies w task s ai :
  fst (_select_best_agent w task s) = Some ai ->
  exists a, active_agents s !! ai = Some a /\ qualifies a task.
Proof.
  pose proof (suitable_from_spec w task (active_agents s) 0 (ticks s)) as (H1 & _ & _).
  pose proof (sort_desc_head (fst (suitable_from w task 0 (active_agents s) (ticks s)))) as Hs.
  unfold _select_best_agent.
  destruct (suitable_from w task 0 (active_agents s) (ticks s)) as [l k]. simpl in *.
  destruct (sort_desc l) as [|[i sc] L]; simpl; [discriminate|].
  intros [= ->]. destruct Hs as (l1 & l2 & -> & _).
  destruct (H1 ai sc) as (a & k' & _ & Ha & Hq & _).
  { apply in_or_app. right. left. reflexivity. }
  rewrite Nat.sub_0_r in Ha. eauto.
Qed.

Lemma select_all_spec w ready : forall s exec s1,
  select_all w ready s = (exec, s1) ->
  same_but_ticks s s1
  /\ forall ti ai, In (ti, ai) exec ->
       In ti ready
       /\ exists task a, tasks_of s !! ti = Some task
                         /\ active_agents s !! ai = Some a /\ qualifies a task.
Proof.
  induction ready as [|ti ready IH]; intros s exec s1 H; simpl in H.
  - injection H as <- <-. split; [repeat split|intros ti ai []].
  - destruct (tasks_of s !! ti) as [task|] eqn:Ht.
    + pose proof (select_best_agent_frame w task s) as Hf.
      pose proof (select_some_qualifies w task s) as Hq.
      destruct (_select_best_agent w task s) as [agent s2]. simpl in Hf, Hq.
      destruct (select_all w ready s2) as [l s3] eqn:E.
      destruct (IH s2 l s3 E) as (Hf2 & Hl).
      destruct Hf as (F1 & F2 & F3 & F4 & F5), Hf2 as (G1 & G2 & G3 & G4 & G5).
      assert (Hrest : forall tj aj, In (tj, aj) l ->
                In tj (ti :: ready)
                /\ exists task a, tasks_of s !! tj = Some task
                     /\ active_agents s !! aj = Some a /\ qualifies a task).
      { intros tj aj Hin. destruct (Hl tj aj Hin) as (Hr & task' & a & T & A & Q).
        split; [right; exact Hr|]. exists task', a.
        unfold tasks_of in *. rewrite <- F1, <- F2. auto. }
      destruct agent as [ai|]; injection H as <- <-.
      * split; [repeat split; congruence|].
        intros tj aj [Hin|Hin]; [|apply Hrest, Hin].
        injection Hin as <- <-. split; [left; reflexivity|].
        destruct (Hq ai eq_refl) as (a & Ha & Hqa). eauto.
      * split; [repeat split; congruence|exact Hrest].
    + destruct (IH s exec s1 H) as (Hf & Hl). split; [exact Hf|].
      intros tj aj Hin. destruct (Hl tj aj Hin) as (Hr & Hrest).
      split; [right; exact Hr|exact Hrest].
Qed.

Lemma ready_from_spec (f : TaskEntity.t -> bool) ts : forall k i,
  In i (map fst (List.filter (fun p : nat * TaskEntity.t => f (snd p))
                             (combine (seq k (length ts)) ts)))
  <-> exists t, (k <= i)%nat /\ ts !! (i - k)%nat = Some t /\ f t = true.
Proof.
  induction ts as [|x ts IH]; intros k i; simpl.
  - split; [intros []|intros (t & _ & H & _); discriminate].
  - destruct (f x) eqn:Ex; simpl; rewrite IH.
    + split.
      * intros [<-|(t & Hle & Ht & Hf)].
        -- exists x. rewrite Nat.sub_diag. auto.
        -- exists t. split; [lia|]. split; [|exact Hf].
           replace (i - k)%nat with (S (i - S k)) by lia. exact Ht.
      * intros (t & Hle & Ht & Hf).
        destruct (decide (i = k)) as [->|Hne]; [left; reflexivity|right].
        exists t. split; [lia|]. split; [|exact Hf].
        replace (i - k)%nat with (S (i - S k)) in Ht by lia. exact Ht.
    + split.
      * intros (t & Hle & Ht & Hf). exists t. split; [lia|]. split; [|exact Hf].
        replace (i - k)%nat with (S (i - S k)) by lia. exact Ht.
      * intros (t & Hle & Ht & Hf).
        destruct (decide (i = k)) as [->|Hne].
        -- rewrite Nat.sub_diag in Ht. injection Ht as <-. congruence.
        -- exists t. split; [lia|]. split; [|exact Hf].
           replace (i - k)%nat with (S (i - S k)) in Ht by lia. exact Ht.
Qed.

(** The ready set: the positions of the Pending tasks all of whose
    dependencies are listed as completed. *)
Lemma ready_indices_spec ts c i :
  In i (ExecutionPlanEntity.ready_indices ts c)
  <-> exists t, ts !! i = Some t /\ is_pending t = true
                /\ TaskEntity.can_start t c = true.
Proof.
  unfold ExecutionPlanEntity.ready_indices.
  rewrite (ready_from_spec (fun t => is_pending t && TaskEntity.can_start t c) ts 0 i).
  rewrite Nat.sub_0_r. split.
  - intros (t & _ & Ht & Hf). apply andb_true_iff in Hf. eauto.
  - intros (t & Ht & Hp & Hc). exists t. split; [lia|]. split; [exact Ht|].
    rewrite Hp, Hc. reflexivity.
Qed.

Lemma ready_from_NoDup (f : TaskEntity.t -> bool) ts : forall k,
  NoDup (map fst (List.filter (fun p : nat * TaskEntity.t => f (snd p))
                              (combine (seq k (length ts)) ts))).
Proof.
  induction ts as [|x ts IH]; intros k; simpl; [constructor|].
  destruct (f x); simpl; [|apply IH].
  constructor; [|apply IH].
  intros Hin. apply list_elem_of_In in Hin.
  apply ready_from_spec in Hin as (t & Hle & _). lia.
Qed.

Lemma ready_indices_NoDup ts c : NoDup (ExecutionPlanEntity.ready_indices ts c).
Proof.
  exact (ready_from_NoDup (fun t => is_pending t && TaskEntity.can_start t c) ts 0).
Qed.

Lemma id_in_app x l l' : id_in x l = true -> id_in x (l ++ l')%list = true.
Proof.
  unfold id_in. rewrite existsb_app. intros ->. reflexivity.
Qed.

Lemma can_start_app t c extra :
  TaskEntity.can_start t c = true -> TaskEntity.can_start t (c ++ extra)%list = true.
Proof.
  unfold TaskEntity.can_start. rewrite !forallb_forall.
  intros H dep Hdep. apply id_in_app, H, Hdep.
Qed.

Lemma fail_pending now_ err d t :
  TaskEntity.status t = PENDING ->
  exists e, TaskEntity.fail now_ err d t = (Raise e, t).
Proof.
  intros H. unfold TaskEntity.fail. rewrite H. simpl. eauto.
Qed.

(** The loop over the results never touches a Pending task and only extends
    the list of completed identifiers. *)
Lemma process_results_pending w ready ti task results : forall i s r s',
  tasks_of s !! ti = Some task ->
  TaskEntity.status task = PENDING ->
  process_results w ready i results s = (r, s') ->
  tasks_of s' !! ti = Some task
  /\ exists extra, completed_task_ids s' = (completed_task_ids s ++ extra)%list.
Proof.
  induction results as [|result_ rest IH]; intros i s r s' Ht Hp H; simpl in H.
  - injection H as <- <-. split; [exact Ht|exists []; rewrite app_nil_r; reflexivity].
  - destruct (ready !! i) as [tj|];
      [|injection H as <- <-; split; [exact Ht|exists []; rewrite app_nil_r; reflexivity]].
    destruct (tasks_of s !! tj) as [taskj|] eqn:Htj;
      [|injection H as <- <-; split; [exact Ht|exists []; rewrite app_nil_r; reflexivity]].
    destruct result_ as [res_|e].
    + destruct (success res_).
      * edestruct (IH (S i)) as (Ht' & extra & Hc); [|exact Hp|exact H|]; [exact Ht|].
        split; [exact Ht'|]. simpl in Hc.
        exists ([TaskEntity.id taskj] ++ extra)%list. rewrite Hc, <- app_assoc. reflexivity.
      * edestruct (IH (S i)) as (Ht' & extra & Hc); [|exact Hp|exact H|]; [exact Ht|].
        split; [exact Ht'|]. exists extra. exact Hc.
    + destruct (task_call w _ tj s) as [[u|e'] s1] eqn:Ecall.
      * pose proof (task_frame_task_call w _ tj s s _ _ Ecall (task_frame_refl tj s))
          as (Hc1 & _ & _ & _ & _ & _ & Hother).
        destruct (decide (tj = ti)) as [->|Hne].
        { exfalso. unfold task_call in Ecall. rewrite Ht in Ecall.
          destruct (fail_pending (now w s) (Some (exn_str e)) 0 task Hp) as [e2 He2].
          rewrite He2 in Ecall. discriminate. }
        assert (Ht1 : tasks_of s1 !! ti = Some task) by (rewrite Hother by congruence; exact Ht).
        edestruct (IH (S i)) as (Ht' & extra & Hc); [|exact Hp|exact H|]; [exact Ht1|].
        split; [exact Ht'|]. exists extra. simpl in Hc. congruence.
      * injection H as <- <-.
        pose proof (task_frame_task_call w _ tj s s _ _ Ecall (task_frame_refl tj s))
          as (Hc1 & _ & _ & _ & _ & _ & Hother).
        split; [|exists []; rewrite app_nil_r; exact Hc1].
        destruct (decide (tj = ti)) as [->|Hne].
        -- unfold task_call in Ecall. rewrite Ht in Ecall.
           destruct (fail_pending (now w s) (Some (exn_str e)) 0 task Hp) as [e2 He2].
           rewrite He2 in Ecall. injection Ecall as _ <-.
           unfold set_task, tasks_of. simpl.
           apply list_lookup_insert_eq. apply lookup_lt_Some in Ht. exact Ht.
        -- rewrite Hother by congruence. exact Ht.
Qed.

Lemma agents_kept_refl s s' :
  active_agents s' = active_agents s -> agents_kept s s'.
Proof.
  intros E. split; [rewrite E; reflexivity|].
  intros j a' Ha. rewrite E in Ha. exists a'. auto.
Qed.

Lemma agents_kept_trans s1 s2 s3 :
  agents_kept s1 s2 -> agents_kept s2 s3 -> agents_kept s1 s3.
Proof.
  intros [L1 H1] [L2 H2]. split; [congruence|].
  intros j a3 Ha3. destruct (H2 j a3 Ha3) as (a2 & Ha2 & C2 & S2).
  destruct (H1 j a2 Ha2) as (a1 & Ha1 & C1 & S1).
  exists a1. split; [exact Ha1|]. split; [congruence|auto].
Qed.

Lemma agents_kept_insert s s' ai a x :
  active_agents s !! ai = Some a ->
  AgentEntity.status a = "available" ->
  AgentEntity.capabilities x = AgentEntity.capabilities a ->
  active_agents s' = <[ai := x]> (active_agents s) ->
  agents_kept s s'.
Proof.
  intros Ha Hav Hc E. split; [rewrite E, length_insert; reflexivity|].
  intros j a' Hj. rewrite E, (insert_lookup_cases _ ai j x a Ha) in Hj.
  destruct (decide (j = ai)) as [->|Hne].
  - injection Hj as <-. exists a. auto.
  - exists a'. auto.
Qed.

Lemma task_call_agents w m ti x r y :
  task_call w m ti x = (r, y) -> active_agents y = active_agents x.
Proof.
  unfold task_call. intros H.
  destruct (tasks_of x !! ti); [|injection H as <- <-; reflexivity].
  destruct (m (now w x) t) as [[u|e] t']; injection H as <- <-; reflexivity.
Qed.

Lemma update_agent_metrics_caps a r a' :
  update_agent_metrics a r = Ok a' ->
  AgentEntity.capabilities a' = AgentEntity.capabilities a.
Proof.
  unfold update_agent_metrics. intros H.
  destruct (AgentEntity.performance_metrics a !! "success_rate"); [|injection H as <-; reflexivity].
  destruct (PerformanceMetrics.update_with_result _ r); [|discriminate].
  injection H as <-. reflexivity.
Qed.

(** The [try] block either stops at [assign_task], when the agent is not
    available, and changes nothing, or rewrites the slot of the agent with
    an agent of the same capabilities. *)
Lemma execute_try_agents w ti ai st s r s' a :
  active_agents s !! ai = Some a ->
  execute_try w ti ai st s = (r, s') ->
  (AgentEntity.status a <> "available" /\ s' = s /\ exists e, r = Raise e)
  \/ (AgentEntity.status a = "available"
      /\ exists x, active_agents s' = <[ai := x]> (active_agents s)
                   /\ AgentEntity.capabilities x = AgentEntity.capabilities a).
Proof.
  intros Ha H. unfold execute_try in H. rewrite Ha in H.
  destruct (String.eqb (AgentEntity.status a) "available") eqn:Hav.
  - right. apply String.eqb_eq in Hav. split; [exact Hav|].
    destruct (tasks_of s !! ti) as [t|].
    2:{ injection H as <- <-. exists a. split; [|reflexivity].
        symmetry. apply list_insert_id, Ha. }
    unfold AgentEntity.assign_task in H. rewrite Hav in H. simpl negb in H. cbv iota in H.
    set (a1 := AgentEntity.mk _ _ _ "busy" _ _ _ _) in H.
    destruct (task_call w _ ti (tick (set_agent ai a1 s))) as [[u|e] s1] eqn:E1.
    2:{ injection H as <- <-. apply task_call_agents in E1. exists a1. split; [exact E1|reflexivity]. }
    apply task_call_agents in E1. simpl in E1.
    destruct (executor w (ticks s1) _ a1) as [res_|e].
    2:{ injection H as <- <-. exists a1. split; [exact E1|reflexivity]. }
    set (fin := if success res_ then _ else _) in H.
    assert (Hfin : active_agents (snd fin) = active_agents s1).
    { unfold fin. destruct (success res_).
      - destruct (task_call w _ ti (tick s1)) as [r2 s2] eqn:E2.
        apply task_call_agents in E2. exact E2.
      - destruct (task_call w _ ti (tick s1)) as [r2 s2] eqn:E2.
        apply task_call_agents in E2. exact E2. }
    destruct fin as [[u2|e2] s2]; simpl in Hfin.
    2:{ injection H as <- <-. exists a1. split; [congruence|reflexivity]. }
    destruct (update_agent_metrics (AgentEntity.complete_task (now w s2) a1) res_)
      as [a3|e3] eqn:E3.
    + injection H as <- <-. exists a3. split.
      * simpl. rewrite Hfin, E1, !list_insert_insert_eq. reflexivity.
      * rewrite (update_agent_metrics_caps _ _ _ E3). reflexivity.
    + injection H as <- <-. exists (AgentEntity.complete_task (now w s2) a1). split.
      * simpl. rewrite Hfin, E1, !list_insert_insert_eq. reflexivity.
      * reflexivity.
  - left. split; [intros Hs; rewrite Hs in Hav; discriminate|].
    destruct (tasks_of s !! ti) as [t|].
    + unfold AgentEntity.assign_task in H. rewrite Hav in H. simpl in H.
      injection H as <- <-. eauto.
    + injection H as <- <-. eauto.
Qed.

(** The dispatch of a Pending task keeps the registry. *)
Lemma execute_agents_kept w ti ai s r s' t :
  _execute_task_with_agent w ti ai s = (r, s') ->
  tasks_of s !! ti = Some t -> TaskEntity.status t = PENDING ->
  agents_kept s s'.
Proof.
  unfold _execute_task_with_agent. intros H Ht Hp.
  assert (Hraise : forall e d (x : OState),
            tasks_of x !! ti = Some t ->
            exists e', task_call w (fun n => TaskEntity.fail n (Some (exn_str e)) d) ti x
                       = (Raise e', set_task ti t x)).
  { intros e d x Hx. unfold task_call. rewrite Hx.
    destruct (fail_pending (now w x) (Some (exn_str e)) d t Hp) as [e' ->]. eauto. }
  destruct (active_agents s !! ai) as [a|] eqn:Ha.
  - destruct (execute_try w ti ai (now w s) (tick s)) as [[res_|e] s1] eqn:E.
    + injection H as <- <-.
      destruct (execute_try_agents w ti ai (now w s) (tick s) _ _ a Ha E)
        as [(_ & _ & e & He)|(Hav & x & Hx & Hc)];
        [discriminate|].
      exact (agents_kept_insert s s1 ai a x Ha Hav Hc Hx).
    + destruct (execute_try_agents w ti ai (now w s) (tick s) _ _ a Ha E)
        as [(Hnav & -> & _)|(Hav & x & Hx & Hc)].
      * destruct (Hraise e (now w (tick s) - now w s)%Q (tick (tick s)) Ht) as [e' He'].
        rewrite He' in H. injection H as <- <-. apply agents_kept_refl. reflexivity.
      * destruct (task_call w _ ti (tick s1)) as [[u|e'] s2] eqn:E2;
          pose proof (task_call_agents _ _ _ _ _ _ E2) as A2; simpl in A2.
        -- assert (Hx2 : active_agents s2 !! ai = Some x).
           { rewrite A2, Hx. apply list_lookup_insert_eq. apply lookup_lt_Some in Ha. exact Ha. }
           rewrite Hx2 in H. injection H as <- <-.
           apply (agents_kept_insert s _ ai a (AgentEntity.complete_task (now w s2) x) Ha Hav).
           ++ simpl. exact Hc.
           ++ simpl. rewrite A2, Hx, list_insert_insert_eq. reflexivity.
        -- injection H as <- <-.
           apply (agents_kept_insert s s2 ai a x Ha Hav Hc). rewrite A2. exact Hx.
  - assert (E : execute_try w ti ai (now w s) (tick s) = (Raise bad_reference, tick s)).
    { unfold execute_try. change (tasks_of (tick s)) with (tasks_of s).
      change (active_agents (tick s)) with (active_agents s). rewrite Ht, Ha. reflexivity. }
    rewrite E in H.
    destruct (Hraise bad_reference (now w (tick s) - now w s)%Q (tick (tick s)) Ht) as [e' He'].
    rewrite He' in H. injection H as <- <-. apply agents_kept_refl. reflexivity.
Qed.

Lemma gather_agents_kept w exec : forall s rs s',
  gather w exec s = (rs, s') ->
  NoDup (map fst exec) ->
  (forall ti, In ti (map fst exec) ->
     exists t, tasks_of s !! ti = Some t /\ TaskEntity.status t = PENDING) ->
  agents_kept s s'.
Proof.
  induction exec as [|[ti ai] rest IH]; intros s rs s' H Hnd Hpre; simpl in H.
  - injection H as <- <-. apply agents_kept_refl. reflexivity.
  - destruct (_execute_task_with_agent w ti ai s) as [r s1] eqn:E1.
    destruct (gather w rest s1) as [rs' s2] eqn:E2. injection H as <- <-.
    simpl in Hnd. apply NoDup_cons in Hnd as [Hti Hnd].
    destruct (Hpre ti (or_introl eq_refl)) as (t & Ht & Hp).
    apply (agents_kept_trans s s1 s2).
    + exact (execute_agents_kept w ti ai s r s1 t E1 Ht Hp).
    + apply (IH s1 rs' s2 E2 Hnd). intros tj Htj.
      destruct (Hpre tj (or_intror Htj)) as (tj_ & Htj_ & Hpj).
      exists tj_. split; [|exact Hpj].
      destruct (execute_task_frame w ti ai s r s1 E1) as (_ & _ & _ & _ & _ & _ & Hother).
      rewrite Hother; [exact Htj_|]. intros ->. apply Hti, list_elem_of_In, Htj.
Qed.

Lemma process_results_agents w ready results : forall i s r s',
  process_results w ready i results s = (r, s') ->
  active_agents s' = active_agents s.
Proof.
  induction results as [|result_ rest IH]; intros i s r s' H; simpl in H.
  - injection H as <- <-. reflexivity.
  - destruct (ready !! i) as [tj|]; [|injection H as <- <-; reflexivity].
    destruct (tasks_of s !! tj) as [taskj|]; [|injection H as <- <-; reflexivity].
    destruct result_ as [res_|e].
    + rewrite (IH _ _ _ _ H). destruct (success res_); reflexivity.
    + destruct (task_call w _ tj s) as [[u|e'] s1] eqn:Ecall;
        apply task_call_agents in Ecall.
      * rewrite (IH _ _ _ _ H). exact Ecall.
      * injection H as <- <-. exact Ecall.
Qed.

Lemma select_all_NoDup w ready : forall s exec s1,
  select_all w ready s = (exec, s1) -> NoDup ready -> NoDup (map fst exec).
Proof.
  induction ready as [|ti ready IH]; intros s exec s1 H Hnd; simpl in H.
  - injection H as <- <-. constructor.
  - apply NoDup_cons in Hnd as [Hti Hnd].
    destruct (tasks_of s !! ti) as [task|]; [|exact (IH s exec s1 H Hnd)].
    destruct (_select_best_agent w task s) as [agent s2].
    destruct (select_all w ready s2) as [l s3] eqn:E.
    pose proof (IH s2 l s3 E Hnd) as Hl.
    destruct (select_all_spec w ready s2 l s3 E) as (_ & Hin).
    destruct agent as [ai|]; injection H as <- <-; [|exact Hl].
    simpl. apply NoDup_cons. split; [|exact Hl].
    intros Hmem. apply Hti. apply list_elem_of_In in Hmem.
    apply in_map_iff in Hmem as ([tj aj] & Heq & Hmem). simpl in Heq. subst tj.
    apply list_elem_of_In. exact (proj1 (Hin ti aj Hmem)).
Qed.

(** ** Driving loop: a ready task without agent *)

Lemma run_loop_fixed w s :
  loop_body w s = (Continue, s) -> forall fuel, run_loop w fuel s = None.
Proof.
  intros H fuel. induction fuel as [|fuel IH]; simpl; [reflexivity|].
  rewrite H. exact IH.
Qed.

(** C3, as stated, fails: there is no retry bound.  With no agent for its
    only task, a pass of the loop leaves the whole state as it was, task
    Pending, so every later pass does the same: the task is never marked
    Failed and [execute_plan] never returns. *)
Lemma unassigned_task_never_failed :
  loop_body quiet_world lonely_state = (Continue, lonely_state)
  /\ map TaskEntity.status (tasks_of lonely_state) = [PENDING]
  /\ ~ (exists fuel r, execute_plan quiet_world fuel [] 0 lonely_plan = Some r).
Proof.
  assert (Hfix : loop_body quiet_world lonely_state = (Continue, lonely_state))
    by (vm_compute; reflexivity).
  split; [exact Hfix|]. split; [reflexivity|].
  intros (fuel & r & H).
  assert (Heq : execute_plan quiet_world fuel [] 0 lonely_plan
                = match run_plan quiet_world fuel lonely_state with
                  | None => None
                  | Some (r, s') => Some (Ok r, s')
                  end) by reflexivity.
  rewrite Heq in H.
  unfold run_plan in H. rewrite (run_loop_fixed _ _ Hfix fuel) in H. discriminate.
Qed.

(** One pass of the loop over a ready task for which the selection finds
    no agent: the task is not touched, the loop is not left by [break], and
    the premises hold again in the state after the pass. *)
Lemma unassigned_task_pass :
  forall (w : World) (s : OState) (ti : nat) (task : TaskEntity.t),
    In ti (ExecutionPlanEntity.get_ready_tasks (plan s) (completed_task_ids s)) ->
    tasks_of s !! ti = Some task ->
    fst (_select_best_agent w task s) = None ->
    forall outcome s',
      loop_body w s = (outcome, s') ->
      outcome <> Break
      /\ tasks_of s' !! ti = Some task
      /\ TaskEntity.status task = PENDING
      /\ In ti (ExecutionPlanEntity.get_ready_tasks (plan s') (completed_task_ids s'))
      /\ fst (_select_best_agent w task s') = None.
Proof.
  intros w s ti task Hready Ht Hnone outcome s' Hbody.
  pose proof Hready as Hr0.
  unfold ExecutionPlanEntity.get_ready_tasks in Hr0.
  apply ready_indices_spec in Hr0 as (t & Ht' & Hpend & Hstart).
  fold (tasks_of s) in Ht'. rewrite Ht in Ht'. injection Ht' as <-.
  assert (Hp : TaskEntity.status task = PENDING).
  { unfold is_pending in Hpend. destruct (TaskEntity.status task); try discriminate. reflexivity. }
  assert (Hno : forall j a, active_agents s !! j = Some a -> ~ qualifies a task)
    by (apply (select_none_iff w), Hnone).
  assert (Hgoal : forall s3 extra,
             tasks_of s3 !! ti = Some task ->
             completed_task_ids s3 = (completed_task_ids s ++ extra)%list ->
             In ti (ExecutionPlanEntity.get_ready_tasks (plan s3) (completed_task_ids s3))).
  { intros s3 extra H3 Hc. unfold ExecutionPlanEntity.get_ready_tasks.
    apply ready_indices_spec. exists task. split; [exact H3|]. split; [exact Hpend|].
    rewrite Hc. apply can_start_app, Hstart. }
  assert (Hagain : forall s3, agents_kept s s3 -> fst (_select_best_agent w task s3) = None).
  { intros s3 [_ Hk]. apply select_none_iff. intros j a' Ha' [Hav Hcan].
    destruct (Hk j a' Ha') as (a & Ha & Hcaps & Hst).
    apply (Hno j a Ha). split; [exact (Hst Hav)|].
    unfold AgentEntity.can_handle_task in *. rewrite <- Hcaps. exact Hcan. }
  unfold loop_body in Hbody.
  pose proof (ready_indices_NoDup (tasks_of s) (completed_task_ids s)) as Hnd.
  pose proof (fun i => proj1 (ready_indices_spec (tasks_of s) (completed_task_ids s) i)) as Hrs.
  unfold ExecutionPlanEntity.get_ready_tasks in Hbody, Hready. fold (tasks_of s) in Hbody, Hready.
  destruct (ExecutionPlanEntity.ready_indices (tasks_of s) (completed_task_ids s))
    as [|r0 ready'] eqn:Er; [contradiction|].
  destruct (select_all w (r0 :: ready') s) as [exec s1] eqn:Esel.
  destruct (select_all_spec w _ _ _ _ Esel) as ((F1 & F2 & F3 & F4 & F5) & Hexec).
  pose proof (select_all_NoDup w _ _ _ _ Esel Hnd) as Hnd'.
  assert (Hnotin : ~ In ti (map fst exec)).
  { intros Hin. apply in_map_iff in Hin as ([tj aj] & Heq & Hin). simpl in Heq. subst tj.
    destruct (Hexec ti aj Hin) as (_ & task' & a & T & A & Q).
    rewrite Ht in T. injection T as <-. exact (Hno aj a A Q). }
  assert (T1 : tasks_of s1 = tasks_of s) by (unfold tasks_of; rewrite F1; reflexivity).
  assert (Ht1 : tasks_of s1 !! ti = Some task) by (rewrite T1; exact Ht).
  destruct exec as [|e0 exec'].
  - injection Hbody as <- <-. split; [discriminate|]. split; [exact Ht1|]. split; [exact Hp|].
    split; [|apply Hagain, agents_kept_refl, F2].
    apply (Hgoal s1 []); [exact Ht1|]. rewrite app_nil_r. exact F3.
  - destruct (gather w (e0 :: exec') s1) as [results s2] eqn:Eg.
    destruct (gather_frame w _ _ _ _ ti Eg Hnotin) as (G1 & G2).
    assert (Hkept : agents_kept s s2).
    { apply (agents_kept_trans s s1 s2); [apply agents_kept_refl, F2|].
      apply (gather_agents_kept w _ _ _ _ Eg Hnd').
      intros tj Htj. apply in_map_iff in Htj as ([tj' aj] & Heq & Hin). simpl in Heq. subst tj'.
      destruct (Hexec tj aj Hin) as (Hr & _).
      destruct (Hrs tj Hr) as (tj_ & Htj_ & Hpj & _).
      exists tj_. rewrite T1. split; [exact Htj_|].
      unfold is_pending in Hpj. destruct (TaskEntity.status tj_); try discriminate. reflexivity. }
    destruct (process_results w (r0 :: ready') 0 results s2) as [[u|e] s3] eqn:Ep;
      injection Hbody as <- <-;
      pose proof (process_results_agents w _ _ _ _ _ _ Ep) as A3;
      (edestruct (process_results_pending w (r0 :: ready') ti task results 0 s2)
         as (P1 & extra & P2);
       [rewrite G1; exact Ht1|exact Hp|exact Ep|]);
      (split; [discriminate|]; split; [exact P1|]; split; [exact Hp|];
       split; [apply (Hgoal s3 extra); [exact P1|congruence]|];
       apply Hagain, (agents_kept_trans s s2 s3); [exact Hkept|apply agents_kept_refl, A3]).
Qed.

(** The loop over the results pairs the i-th result with the i-th ready
    task, although a ready task without agent has no result: here the first
    task gets no agent, the second one is dispatched and succeeds, and the
    identifier of the first, still Pending, is entered in the completed
    list. *)
Example result_paired_with_skipped_task :
  exists s',
    loop_body quiet_world two_kinds_state = (Continue, s')
    /\ map TaskEntity.status (tasks_of s') = [PENDING; COMPLETED]
    /\ completed_task_ids s' = ["task_a"].
Proof.
  eexists. split; [vm_compute; reflexivity|]. split; reflexivity.
Qed.

(** C3, amended.  A ready task for which the selection finds no agent is
    Pending and is never touched: after any number of passes of the loop it
    is the same task, still in the ready set, and the selection still finds
    no agent for it; no pass leaves the loop by [break].  There is no bound
    on the number of retries and nothing marks the task Failed: the loop
    never ends regularly, and when an exception raised in a pass ends it,
    [execute_plan] returns its error report and the task is as it was. *)
Theorem unassigned_task_retried :
  forall (w : World) (s : OState) (ti : nat) (task : TaskEntity.t),
    In ti (ExecutionPlanEntity.get_ready_tasks (plan s) (completed_task_ids s)) ->
    tasks_of s !! ti = Some task ->
    fst (_select_best_agent w task s) = None ->
    TaskEntity.status task = PENDING
    /\ (forall n s',
          after_passes w n s = Some s' ->
          tasks_of s' !! ti = Some task
          /\ In ti (ExecutionPlanEntity.get_ready_tasks (plan s') (completed_task_ids s'))
          /\ fst (_select_best_agent w task s') = None
          /\ forall outcome s'',
               loop_body w s' = (outcome, s'') ->
               outcome <> Break /\ tasks_of s'' !! ti = Some task)
    /\ (forall fuel r s',
          run_loop w fuel s = Some (r, s') ->
          (exists e, r = Raise e) /\ tasks_of s' !! ti = Some task)
    /\ (forall fuel report s',
          run_plan w fuel s = Some (report, s') ->
          (exists e, report = error_report e s')
          /\ tasks_of s' !! ti = Some task).
Proof.
  intros w s ti task Hready Ht Hnone.
  assert (Hloop : forall fuel r s',
             run_loop w fuel s = Some (r, s') ->
             (exists e, r = Raise e) /\ tasks_of s' !! ti = Some task).
  { intros fuel. revert s Hready Ht Hnone.
    induction fuel as [|fuel IH]; intros s Hready Ht Hnone r s' Hrun; [discriminate|].
    simpl in Hrun.
    destruct (loop_body w s) as [[| |e] s1] eqn:Hb;
      destruct (unassigned_task_pass w s ti task Hready Ht Hnone _ s1 Hb)
        as (H1 & H2 & _ & H4 & H5).
    - congruence.
    - exact (IH s1 H4 H2 H5 r s' Hrun).
    - injection Hrun as <- <-. split; [eauto|exact H2]. }
  split; [|split; [|split; [exact Hloop|]]].
  3: { intros fuel report s' Hrun. unfold run_plan in Hrun.
       destruct (run_loop w fuel s) as [[r s1]|] eqn:El; [|discriminate].
       destruct (Hloop fuel r s1 El) as ([e ->] & Hs1).
       injection Hrun as <- <-. split; [eauto|exact Hs1]. }
  - apply ready_indices_spec in Hready as (t & Ht' & Hpend & _).
    fold (tasks_of s) in Ht'. rewrite Ht in Ht'. injection Ht' as <-.
    unfold is_pending in Hpend. destruct (TaskEntity.status task); try discriminate.
    reflexivity.
  - clear Hloop. intros n. revert s Hready Ht Hnone.
    induction n as [|n IH]; intros s Hready Ht Hnone s' Hn; simpl in Hn.
    + injection Hn as <-. split; [exact Ht|]. split; [exact Hready|].
      split; [exact Hnone|]. intros outcome s'' Hb.
      destruct (unassigned_task_pass w s ti task Hready Ht Hnone outcome s'' Hb)
        as (H1 & H2 & _). split; assumption.
    + destruct (loop_body w s) as [[| |e] s1] eqn:Hb; try discriminate.
      destruct (unassigned_task_pass w s ti task Hready Ht Hnone Continue s1 Hb)
        as (_ & H2 & _ & H4 & H5).
      exact (IH s1 H4 H2 H5 s' Hn).
Qed.

Lemma unassigned_task_retried_witness :
  exists s2,
    after_passes (repository_world (fun _ => 1000%Q)) 2 two_kinds_state = Some s2
    /\ map TaskEntity.status (tasks_of s2) = [PENDING; FAILED]
    /\ In 0%nat (ExecutionPlanEntity.get_ready_tasks (plan s2) (completed_task_ids s2))
    /\ fst (_select_best_agent (repository_world (fun _ => 1000%Q))
              (TaskEntity.mk "task_a" "plan it" PLANNING HIGH PENDING [] 4.5
                 None None None None None None) s2) = None
    /\ run_loop (repository_world (fun _ => 1000%Q)) 5 two_kinds_state = None.
Proof.
  destruct (unassigned_task_retried (repository_world (fun _ => 1000%Q))
              two_kinds_state 0
              (TaskEntity.mk "task_a" "plan it" PLANNING HIGH PENDING [] 4.5
                 None None None None None None))
    as (_ & Hpass & _).
  - vm_compute. left. reflexivity.
  - reflexivity.
  - vm_compute. reflexivity.
  - eexists. split; [vm_compute; reflexivity|].
    split; [vm_compute; reflexivity|].
    match goal with |- In _ (ExecutionPlanEntity.get_ready_tasks (plan ?s2) _) /\ _ =>
      destruct (Hpass 2%nat s2) as (_ & H2 & H3 & _); [vm_compute; reflexivity|] end.
    split; [exact H2|]. split; [exact H3|].
    vm_compute. reflexivity.
Defined.

(** ** Driving loop: termination on acyclic plans *)

Lemma ranked_acyclic ts (rank : string -> nat) :
  (forall a b, depends ts a b -> (rank b < rank a)%nat) -> acyclic ts.
Proof.
  intros Hrank a Ha.
  assert (H : forall x y, tc (depends ts) x y -> (rank y < rank x)%nat).
  { intros x y Hxy. induction Hxy as [x y H|x y z H _ IH].
    - apply Hrank, H.
    - pose proof (Hrank x y H). lia. }
  specialize (H a a Ha). lia.
Qed.


Lemma Qdiv_nonneg a b : (0 <= a)%Q -> (0 < b)%Q -> (0 <= a / b)%Q.
Proof.
  intros Ha Hb. apply Qle_shift_div_l; [exact Hb|]. lra.
Qed.

Lemma task_call_ok w m ti s t t' :
  tasks_of s !! ti = Some t ->
  m (now w s) t = (Ok tt, t') ->
  task_call w m ti s = (Ok tt, tick (set_task ti t' s)).
Proof.
  intros Ht Hm. unfold task_call. rewrite Ht, Hm. reflexivity.
Qed.

Lemma select_all_full w ready : forall s exec s1,
  select_all w ready s = (exec, s1) ->
  (forall ti, In ti ready ->
     exists task j a, tasks_of s !! ti = Some task
                      /\ active_agents s !! j = Some a /\ qualifies a task) ->
  map fst exec = ready.
Proof.
  induction ready as [|ti ready IH]; intros s exec s1 H Hall; simpl in H.
  - injection H as <- <-. reflexivity.
  - destruct (Hall ti (or_introl eq_refl)) as (task & j & a & Ht & Ha & Hq).
    rewrite Ht in H.
    pose proof (select_best_agent_frame w task s) as (F1 & F2 & _).
    pose proof (proj1 (select_none_iff w task s)) as Hnone.
    destruct (_select_best_agent w task s) as [agent s2]. simpl in F1, F2, Hnone.
    destruct (select_all w ready s2) as [l s3] eqn:E.
    assert (Hl : map fst l = ready).
    { apply (IH s2 l s3 E). intros tj Htj.
      destruct (Hall tj (or_intror Htj)) as (task' & j' & a' & T & A & Q).
      exists task', j', a'. unfold tasks_of in *. rewrite F1, F2. auto. }
    destruct agent as [ai|].
    + injection H as <- <-. simpl. rewrite Hl. reflexivity.
    + exfalso. exact (Hnone eq_refl j a Ha Hq).
Qed.

Lemma id_in_In x l : id_in x l = true <-> In x l.
Proof.
  unfold id_in. rewrite existsb_exists. split.
  - intros (y & Hy & E). apply String.eqb_eq in E. subst y. exact Hy.
  - intros H. exists x. split; [exact H|apply String.eqb_refl].
Qed.

Lemma depends_shape l l' a b :
  map task_shape l = map task_shape l' -> depends l a b -> depends l' a b.
Proof.
  intros Hs (t & Hin & Hid & Hb).
  assert (Hin' : In (task_shape t) (map task_shape l')) by (rewrite <- Hs; apply in_map, Hin).
  apply in_map_iff in Hin' as (t' & Hsh & Hin').
  unfold task_shape in Hsh. injection Hsh as H1 H2 _.
  exists t'. split; [exact Hin'|]. split; congruence.
Qed.

Lemma acyclic_shape l l' :
  map task_shape l = map task_shape l' -> acyclic l -> acyclic l'.
Proof.
  intros Hs Hac a Ha. apply (Hac a).
  assert (H : forall x y, tc (depends l') x y -> tc (depends l) x y).
  { intros x y Hxy. induction Hxy as [x y H|x y z H _ IH].
    - apply tc_once. exact (depends_shape l' l x y (eq_sym Hs) H).
    - eapply tc_l; [exact (depends_shape l' l x y (eq_sym Hs) H)|exact IH]. }
  exact (H a a Ha).
Qed.

Lemma shapes_pointwise (l l' : list TaskEntity.t) :
  length l' = length l ->
  (forall i t, l !! i = Some t -> exists t', l' !! i = Some t' /\ task_shape t' = task_shape t) ->
  map task_shape l = map task_shape l'.
Proof.
  intros Hlen Hall. apply list_eq. intros i.
  change (map task_shape l) with (task_shape <$> l).
  change (map task_shape l') with (task_shape <$> l').
  rewrite !list_lookup_fmap.
  destruct (l !! i) as [t|] eqn:E.
  - destruct (Hall i t E) as (t' & -> & Hs). simpl. congruence.
  - apply lookup_ge_None in E. rewrite (proj2 (lookup_ge_None l' i)) by lia. reflexivity.
Qed.

Lemma insert_twice {A} (l : list A) i x y : <[i := y]> (<[i := x]> l) = <[i := y]> l.
Proof. apply list_insert_insert_eq. Qed.

Lemma finish_running w s :
  ExecutionPlanEntity.status (plan s) = "running" ->
  exists dur s',
    finish w s
    = (ExecutionReport (ExecutionPlanEntity.id (plan s))
         (Qltb 0.5 (match length (tasks_of s) with
                    | O => 0%Q
                    | S _ => (nat_Q (length (completed_task_ids s))
                              / nat_Q (length (tasks_of s)))%Q
                    end))
         (completed_task_ids s) (failed_task_ids s) (task_results s)
         (match length (tasks_of s) with
          | O => 0%Q
          | S _ => (nat_Q (length (completed_task_ids s))
                    / nat_Q (length (tasks_of s)))%Q
          end)
         dur
         (ExecutionPlanEntity.get_completion_percentage (plan s)), s')
    /\ ExecutionPlanEntity.status (plan s') = "completed"
    /\ ExecutionPlanEntity.id (plan s') = ExecutionPlanEntity.id (plan s)
    /\ tasks_of s' = tasks_of s
    /\ active_agents s' = active_agents s.
Proof.
  intros Hr. unfold finish, ExecutionPlanEntity.complete_execution.
  simpl. rewrite Hr. simpl.
  eexists _, _. split; [reflexivity|]. repeat split; reflexivity.
Qed.

Lemma repository_executor_raises clock_ k t a :
  exists e, executor (repository_world clock_) k t a = Raise e.
Proof. eexists. reflexivity. Qed.

Lemma edge_depends ts a b : edge (task_map_of ts) a b -> depends ts a b.
Proof.
  intros (t & Hm & Hb). unfold task_map_of in Hm.
  apply task_map_of_lookup in Hm as [Hm|[Hin Hid]]; [discriminate|].
  exists t. repeat split; assumption.
Qed.

Lemma acyclic_no_dep_cycle ts : acyclic ts -> ~ has_dep_cycle (task_map_of ts).
Proof.
  assert (Htc : forall x y, tc (edge (task_map_of ts)) x y -> tc (depends ts) x y).
  { intros x y Hxy. induction Hxy as [x y H|x y z H _ IH].
    - apply tc_once. apply edge_depends, H.
    - eapply tc_l; [apply edge_depends, H|exact IH]. }
  intros Hac [a Ha]. exact (Hac a (Htc a a Ha)).
Qed.

(** The dispatch of a Pending task to an available agent when the executor
    call raises: the exception is contained, the task ends Failed, the agent
    is available again, nothing else changes. *)
Lemma dispatch_raised w ti ai s t a :
  (forall k t' a', exists e, executor w k t' a' = Raise e) ->
  tasks_of s !! ti = Some t -> TaskEntity.status t = PENDING ->
  active_agents s !! ai = Some a -> AgentEntity.status a = "available" ->
  exists r s' t' a',
    _execute_task_with_agent w ti ai s = (Ok r, s')
    /\ success r = false
    /\ tasks_of s' = <[ti := t']> (tasks_of s)
    /\ active_agents s' = <[ai := a']> (active_agents s)
    /\ completed_task_ids s' = completed_task_ids s
    /\ failed_task_ids s' = failed_task_ids s
    /\ task_results s' = task_results s
    /\ ExecutionPlanEntity.status (plan s') = ExecutionPlanEntity.status (plan s)
    /\ ExecutionPlanEntity.id (plan s') = ExecutionPlanEntity.id (plan s)
    /\ TaskEntity.status t' = FAILED
    /\ task_shape t' = task_shape t
    /\ AgentEntity.status a' = "available"
    /\ AgentEntity.capabilities a' = AgentEntity.capabilities a.
Proof.
  intros Hex Ht Hp Ha Hav.
  pose proof (lookup_lt_Some _ _ _ Ht) as Hlt.
  pose proof (lookup_lt_Some _ _ _ Ha) as Hla.
  unfold _execute_task_with_agent, execute_try.
  change (tasks_of (tick s)) with (tasks_of s).
  change (active_agents (tick s)) with (active_agents s).
  rewrite Ht, Ha.
  unfold AgentEntity.assign_task at 1. rewrite Hav. simpl negb. cbv iota.
  set (a1 := AgentEntity.mk _ _ _ "busy" _ _ _ _).
  set (s1 := tick (set_agent ai a1 (tick s))).
  assert (Hstart : exists t1,
             TaskEntity.start (now w s1) (AgentEntity.id a1) t = (Ok tt, t1)
             /\ TaskEntity.status t1 = RUNNING /\ task_shape t1 = task_shape t).
  { unfold TaskEntity.start. rewrite Hp. simpl. eexists. repeat split. }
  destruct Hstart as (t1 & Hst & Hrun & Hshape1).
  rewrite (task_call_ok w _ ti s1 t t1 Ht Hst).
  set (s2 := tick (set_task ti t1 s1)).
  assert (Ht2 : tasks_of s2 !! ti = Some t1).
  { unfold s2, s1, set_task, tasks_of. simpl. apply list_lookup_insert_eq. exact Hlt. }
  rewrite Ht2. simpl default.
  destruct (Hex (ticks s2) t1 a1) as (e & ->).
  set (d := (now w s2 - now w s)%Q).
  assert (Hfail : exists t2,
             TaskEntity.fail (now w (tick s2)) (Some (exn_str e)) d t1 = (Ok tt, t2)
             /\ TaskEntity.status t2 = FAILED /\ task_shape t2 = task_shape t1).
  { unfold TaskEntity.fail. rewrite Hrun. simpl. eexists. repeat split. }
  destruct Hfail as (t2 & Hf & Hfailed & Hshape2).
  rewrite (task_call_ok w (fun n => TaskEntity.fail n (Some (exn_str e)) d) ti
             (tick s2) t1 t2 Ht2 Hf).
  set (s3 := tick (set_task ti t2 (tick s2))).
  assert (Ha3 : active_agents s3 !! ai = Some a1).
  { unfold s3, s2, s1, set_task, set_agent. simpl. apply list_lookup_insert_eq. exact Hla. }
  rewrite Ha3.
  eexists _, _, t2, _. split; [reflexivity|]. split; [reflexivity|].
  split.
  { unfold s3, s2, set_task, tasks_of. simpl. apply insert_twice. }
  split.
  { unfold s3, s2, s1, set_task, set_agent. simpl. apply insert_twice. }
  repeat (split; [reflexivity|]).
  split; [exact Hfailed|]. split; [congruence|]. split; reflexivity.
Qed.

(** The dispatch of a batch of distinct Pending tasks to available agents
    when the executor call raises: every result reports a failure, the tasks
    of the batch end Failed, the other tasks are untouched, every agent keeps
    its status and capabilities. *)
Lemma gather_raised w exec : forall s,
  (forall k t' a', exists e, executor w k t' a' = Raise e) ->
  NoDup (map fst exec) ->
  (forall ti ai, In (ti, ai) exec ->
     exists t a, tasks_of s !! ti = Some t /\ TaskEntity.status t = PENDING
                 /\ active_agents s !! ai = Some a
                 /\ AgentEntity.status a = "available") ->
  exists rs s',
    gather w exec s = (rs, s')
    /\ length rs = length exec
    /\ (forall r, In r rs -> exists x, r = Ok x /\ success x = false)
    /\ completed_task_ids s' = completed_task_ids s
    /\ failed_task_ids s' = failed_task_ids s
    /\ task_results s' = task_results s
    /\ ExecutionPlanEntity.status (plan s') = ExecutionPlanEntity.status (plan s)
    /\ ExecutionPlanEntity.id (plan s') = ExecutionPlanEntity.id (plan s)
    /\ length (tasks_of s') = length (tasks_of s)
    /\ (forall i t, tasks_of s !! i = Some t ->
          exists t', tasks_of s' !! i = Some t' /\ task_shape t' = task_shape t
                     /\ (In i (map fst exec) -> TaskEntity.status t' = FAILED)
                     /\ (~ In i (map fst exec) -> t' = t))
    /\ length (active_agents s') = length (active_agents s)
    /\ (forall j a, active_agents s !! j = Some a ->
          exists a', active_agents s' !! j = Some a'
                     /\ AgentEntity.status a' = AgentEntity.status a
                     /\ AgentEntity.capabilities a' = AgentEntity.capabilities a).
Proof.
  induction exec as [|[ti ai] rest IH]; intros s Hw Hnd Hpre.
  - exists [], s. simpl. repeat (split; [reflexivity|]).
    split; [intros r []|]. repeat (split; [reflexivity|]).
    split; [|split; [reflexivity|]].
    + intros i t Ht. exists t. repeat split; [exact Ht|contradiction].
    + intros j a Ha. exists a. repeat split. exact Ha.
  - simpl in Hnd. apply NoDup_cons in Hnd as [Hti Hnd].
    destruct (Hpre ti ai (or_introl eq_refl)) as (t & a & Ht & Hp & Ha & Hav).
    destruct (dispatch_raised w ti ai s t a Hw Ht Hp Ha Hav)
      as (r & s1 & t' & a' & E & Hsucc & T1 & A1 & C1 & F1 & R1 & S1 & I1
          & Hdone & Hshape & Hav' & Hcap').
    destruct (IH s1 Hw Hnd) as (rs & s2 & E2 & Hlen & Hall & C2 & F2 & R2 & S2 & I2
                                  & L2 & Htasks & LA2 & Hagents).
    { intros tj aj Hin.
      destruct (Hpre tj aj (or_intror Hin)) as (tj_ & aj_ & Htj & Hpj & Haj & Havj).
      assert (Hne : tj <> ti).
      { intros ->. apply Hti. apply list_elem_of_In.
        change ti with (fst (ti, aj)). apply in_map, Hin. }
      rewrite T1, A1.
      rewrite (insert_lookup_cases _ ti tj _ _ Ht), (insert_lookup_cases _ ai aj _ _ Ha).
      destruct (decide (tj = ti)); [contradiction|].
      destruct (decide (aj = ai)); eauto 10. }
    exists (Ok r :: rs), s2. simpl. rewrite E, E2.
    split; [reflexivity|]. split; [rewrite Hlen; reflexivity|].
    split.
    { intros x [<-|Hx]; [eauto|apply Hall, Hx]. }
    split; [congruence|]. split; [congruence|]. split; [congruence|].
    split; [congruence|]. split; [congruence|].
    split; [rewrite L2, T1, length_insert; reflexivity|].
    split.
    { intros i ti_ Hi.
      assert (H1 : exists t1, tasks_of s1 !! i = Some t1 /\ task_shape t1 = task_shape ti_
                              /\ (i = ti -> TaskEntity.status t1 = FAILED)
                              /\ (i <> ti -> t1 = ti_)).
      { rewrite T1, (insert_lookup_cases _ ti i _ _ Ht).
        destruct (decide (i = ti)) as [->|Hne].
        - rewrite Ht in Hi. injection Hi as <-. exists t'. repeat split; auto. contradiction.
        - exists ti_. repeat split; auto. contradiction. }
      destruct H1 as (t1 & Ht1 & Hs1 & Hd1 & Hu1).
      destruct (Htasks i t1 Ht1) as (t2 & Ht2 & Hs2 & Hd2 & Hu2).
      exists t2. split; [exact Ht2|]. split; [congruence|]. split.
      - intros [->|Hin]; [|apply Hd2, Hin].
        rewrite Hu2; [apply Hd1; reflexivity|].
        intros Hin. apply Hti, list_elem_of_In, Hin.
      - intros Hnot. rewrite Hu2 by tauto. apply Hu1. intros ->. tauto. }
    split; [rewrite LA2, A1, length_insert; reflexivity|].
    intros j aj Hj.
    assert (H1 : exists a1, active_agents s1 !! j = Some a1
                            /\ AgentEntity.status a1 = AgentEntity.status aj
                            /\ AgentEntity.capabilities a1 = AgentEntity.capabilities aj).
    { rewrite A1, (insert_lookup_cases _ ai j _ _ Ha).
      destruct (decide (j = ai)) as [->|Hne].
      - rewrite Ha in Hj. injection Hj as <-. exists a'. repeat split; congruence.
      - exists aj. repeat split; auto. }
    destruct H1 as (a1 & Ha1 & Hs1 & Hc1).
    destruct (Hagents j a1 Ha1) as (a2 & Ha2 & Hs2 & Hc2).
    exists a2. repeat split; congruence.
Qed.

Lemma ids_at_cons ts ti l t :
  ts !! ti = Some t -> ids_at ts (ti :: l) = TaskEntity.id t :: ids_at ts l.
Proof. intros H. unfold ids_at. simpl. rewrite H. reflexivity. Qed.

(** The loop over the results of a batch in which every dispatch failed:
    the identifiers of the ready tasks the results are attributed to are
    appended to the failed list, nothing else changes. *)
Lemma process_failed w ready results : forall i s,
  (forall r, In r results -> exists x, r = Ok x /\ success x = false) ->
  (forall k, (k < length results)%nat ->
     exists ti t, ready !! (i + k)%nat = Some ti /\ tasks_of s !! ti = Some t) ->
  exists s',
    process_results w ready i results s = (Ok tt, s')
    /\ plan s' = plan s /\ active_agents s' = active_agents s
    /\ completed_task_ids s' = completed_task_ids s
    /\ failed_task_ids s'
       = (failed_task_ids s
          ++ ids_at (tasks_of s) (take (length results) (drop i ready)))%list.
Proof.
  induction results as [|r rest IH]; intros i s Hall Hidx.
  - exists s. simpl. rewrite app_nil_r. repeat split.
  - destruct (Hall r (or_introl eq_refl)) as (x & -> & Hx).
    destruct (Hidx 0%nat ltac:(simpl; lia)) as (ti & t & Hti & Ht).
    rewrite Nat.add_0_r in Hti. simpl. rewrite Hti, Ht, Hx.
    destruct (IH (S i) (set_result (TaskEntity.id t) x (add_failed (TaskEntity.id t) s)))
      as (s' & E & P & A & C & F).
    { intros y Hy. apply Hall. right. exact Hy. }
    { intros k Hk. destruct (Hidx (S k) ltac:(simpl; lia)) as (tj & tj_ & H1 & H2).
      exists tj, tj_. replace (S i + k)%nat with (i + S k)%nat by lia. auto. }
    exists s'.
    split; [exact E|]. split; [exact P|]. split; [exact A|]. split; [exact C|].
    rewrite F. simpl failed_task_ids.
    change (tasks_of (set_result (TaskEntity.id t) x (add_failed (TaskEntity.id t) s)))
      with (tasks_of s).
    rewrite (drop_S ready ti i Hti). simpl take.
    rewrite (ids_at_cons _ _ _ _ Ht). rewrite <- app_assoc. reflexivity.
Qed.

Lemma ids_at_step ts i l :
  ids_at ts (i :: l)
  = match ts !! i with
    | Some t => TaskEntity.id t :: ids_at ts l
    | None => ids_at ts l
    end.
Proof. unfold ids_at. simpl. destruct (ts !! i); reflexivity. Qed.

Lemma ids_at_shape ts ts' l :
  length ts' = length ts ->
  (forall i t, ts !! i = Some t ->
     exists t', ts' !! i = Some t' /\ task_shape t' = task_shape t) ->
  ids_at ts' l = ids_at ts l.
Proof.
  intros Hlen Hs. induction l as [|i l IH]; [reflexivity|].
  rewrite !ids_at_step, IH.
  destruct (ts !! i) as [t|] eqn:E.
  - destruct (Hs i t E) as (t' & -> & Hsh).
    unfold task_shape in Hsh. injection Hsh as -> _ _. reflexivity.
  - apply lookup_ge_None in E. rewrite (proj2 (lookup_ge_None ts' i)) by lia. reflexivity.
Qed.

Lemma ids_at_seq pre ts :
  ids_at (pre ++ ts) (seq (length pre) (length ts)) = map TaskEntity.id ts.
Proof.
  revert pre. induction ts as [|t ts IH]; intros pre; [reflexivity|].
  simpl seq. rewrite (ids_at_cons _ _ _ t).
  - simpl. f_equal.
    replace (pre ++ t :: ts)%list with ((pre ++ [t]) ++ ts)%list
      by (rewrite <- app_assoc; reflexivity).
    replace (S (length pre)) with (length (pre ++ [t]))
      by (rewrite length_app; simpl; lia).
    apply IH.
  - rewrite lookup_app_r by lia. rewrite Nat.sub_diag. reflexivity.
Qed.

Lemma ready_from_all (f : TaskEntity.t -> bool) ts : forall k,
  (forall t, In t ts -> f t = true) ->
  map fst (List.filter (fun p : nat * TaskEntity.t => f (snd p))
             (combine (seq k (length ts)) ts))
  = seq k (length ts).
Proof.
  induction ts as [|x ts IH]; intros k H; [reflexivity|].
  simpl. rewrite (H x (or_introl eq_refl)). simpl. f_equal.
  apply IH. intros t Ht. apply H. right. exact Ht.
Qed.

Lemma can_start_nil t :
  TaskEntity.can_start t [] = true <-> TaskEntity.dependencies t = [].
Proof.
  unfold TaskEntity.can_start. destruct (TaskEntity.dependencies t); simpl.
  - tauto.
  - split; discriminate.
Qed.

Lemma acyclic_filter (f : TaskEntity.t -> bool) ts :
  acyclic ts -> acyclic (List.filter f ts).
Proof.
  intros Hac a Ha. apply (Hac a).
  assert (H : forall x y, tc (depends (List.filter f ts)) x y -> tc (depends ts) x y).
  { intros x y Hxy. induction Hxy as [x y (t & Hin & Hid & Hb)|x y z (t & Hin & Hid & Hb) _ IH].
    - apply tc_once. exists t. apply filter_In in Hin as [Hin _]. auto.
    - eapply tc_l; [|exact IH]. exists t. apply filter_In in Hin as [Hin _]. auto. }
  exact (H a a Ha).
Qed.

Lemma acyclic_not_circular ts :
  acyclic ts -> _has_circular_dependencies ts = Some false.
Proof.
  intros Hac. destruct (has_circular_total ts) as [[|] Hb]; [|exact Hb].
  exfalso. exact (acyclic_no_dep_cycle ts Hac (has_circular_true ts Hb)).
Qed.

(** A pass of the loop in which every ready task finds an agent, when the
    executor call raises: every ready task is dispatched and ends Failed,
    its identifier is entered in the failed list, and the pass ends in
    [continue]. *)
Lemma raising_pass w s r0 ready' :
  (forall k t' a', exists e, executor w k t' a' = Raise e) ->
  ExecutionPlanEntity.get_ready_tasks (plan s) (completed_task_ids s) = r0 :: ready' ->
  (forall ti task, In ti (r0 :: ready') -> tasks_of s !! ti = Some task ->
     exists j a, active_agents s !! j = Some a /\ qualifies a task) ->
  exists s',
    loop_body w s = (Continue, s')
    /\ ExecutionPlanEntity.status (plan s') = ExecutionPlanEntity.status (plan s)
    /\ ExecutionPlanEntity.id (plan s') = ExecutionPlanEntity.id (plan s)
    /\ completed_task_ids s' = completed_task_ids s
    /\ failed_task_ids s'
       = (failed_task_ids s ++ ids_at (tasks_of s) (r0 :: ready'))%list
    /\ length (tasks_of s') = length (tasks_of s)
    /\ (forall i t, tasks_of s !! i = Some t ->
          exists t', tasks_of s' !! i = Some t' /\ task_shape t' = task_shape t
                     /\ (In i (r0 :: ready') -> TaskEntity.status t' = FAILED)
                     /\ (~ In i (r0 :: ready') -> t' = t))
    /\ length (active_agents s') = length (active_agents s)
    /\ (forall j a, active_agents s !! j = Some a ->
          exists a', active_agents s' !! j = Some a'
                     /\ AgentEntity.status a' = AgentEntity.status a
                     /\ AgentEntity.capabilities a' = AgentEntity.capabilities a).
Proof.
  intros Hex Hready Hag.
  pose proof (ready_indices_NoDup (tasks_of s) (completed_task_ids s)) as Hnd.
  pose proof (fun i => proj1 (ready_indices_spec (tasks_of s) (completed_task_ids s) i)) as Hrs.
  unfold ExecutionPlanEntity.get_ready_tasks in Hready. fold (tasks_of s) in Hready.
  rewrite Hready in Hnd, Hrs.
  unfold loop_body, ExecutionPlanEntity.get_ready_tasks. fold (tasks_of s). rewrite Hready.
  destruct (select_all w (r0 :: ready') s) as [exec s1] eqn:Esel.
  destruct (select_all_spec w _ _ _ _ Esel) as ((F1 & F2 & F3 & F4 & F5) & Hexec).
  assert (T1 : tasks_of s1 = tasks_of s) by (unfold tasks_of; rewrite F1; reflexivity).
  assert (Hfull : map fst exec = r0 :: ready').
  { apply (select_all_full w _ _ _ _ Esel). intros ti Hti.
    destruct (Hrs ti Hti) as (task & Ht & _).
    destruct (Hag ti task Hti Ht) as (j & a & Ha & Hq). eauto 10. }
  destruct exec as [|e0 exec']; [discriminate|].
  destruct (gather_raised w (e0 :: exec') s1 Hex) as
    (rs & s2 & Eg & Hlen & Hall & C2 & Fl2 & R2 & S2 & I2 & L2 & Htasks & LA2 & Hagents).
  { rewrite Hfull. exact Hnd. }
  { intros ti ai Hin. destruct (Hexec ti ai Hin) as (Hr & task & a & Ht & Ha & Hav & _).
    destruct (Hrs ti Hr) as (task' & Ht' & Hp & _).
    rewrite Ht in Ht'. injection Ht' as <-.
    exists task, a. rewrite T1, F2. split; [exact Ht|]. split; [|split; assumption].
    unfold is_pending in Hp. destruct (TaskEntity.status task); try discriminate.
    reflexivity. }
  rewrite Eg.
  assert (Hlr : length rs = length (r0 :: ready')).
  { rewrite Hlen, <- Hfull, length_map. reflexivity. }
  destruct (process_failed w (r0 :: ready') rs 0 s2 Hall) as (s3 & Ep & P3 & A3 & C3 & Fl3).
  { intros k Hk. rewrite Hlr in Hk.
    destruct (lookup_lt_is_Some_2 (r0 :: ready') k Hk) as [ti Hti].
    assert (Hin : In ti (r0 :: ready')).
    { apply list_elem_of_In. eapply list_elem_of_lookup_2. exact Hti. }
    destruct (Hrs ti Hin) as (task & Ht & _).
    rewrite <- T1 in Ht. destruct (Htasks ti task Ht) as (t' & Ht' & _).
    exists ti, t'. split; [exact Hti|exact Ht']. }
  rewrite Ep. exists s3. split; [reflexivity|].
  assert (T3 : tasks_of s3 = tasks_of s2) by (unfold tasks_of; rewrite P3; reflexivity).
  split; [rewrite P3; congruence|]. split; [rewrite P3; congruence|].
  split; [congruence|].
  split.
  { rewrite Fl3, Fl2, F4. f_equal. rewrite Hlr. rewrite drop_0.
    rewrite firstn_all. apply ids_at_shape; [congruence|].
    intros i t Hi. rewrite <- T1 in Hi.
    destruct (Htasks i t Hi) as (t' & Ht' & Hsh & _). eauto. }
  split; [rewrite T3, L2, T1; reflexivity|].
  split.
  { intros i t Hi. rewrite <- T1 in Hi. rewrite T3, <- Hfull. apply Htasks, Hi. }
  split; [rewrite A3, LA2, F2; reflexivity|].
  intros j a Ha. rewrite A3. apply Hagents. rewrite F2. exact Ha.
Qed.

(** After such a pass nothing is ready. *)
Lemma nothing_ready_after s s' ready :
  ExecutionPlanEntity.get_ready_tasks (plan s) (completed_task_ids s) = ready ->
  completed_task_ids s' = completed_task_ids s ->
  length (tasks_of s') = length (tasks_of s) ->
  (forall i t, tasks_of s !! i = Some t ->
     exists t', tasks_of s' !! i = Some t'
                /\ (In i ready -> TaskEntity.status t' = FAILED)
                /\ (~ In i ready -> t' = t)) ->
  ExecutionPlanEntity.get_ready_tasks (plan s') (completed_task_ids s') = [].
Proof.
  intros Hready Hc Hlen Hts.
  destruct (ExecutionPlanEntity.get_ready_tasks (plan s') (completed_task_ids s'))
    as [|i rest] eqn:E; [reflexivity|exfalso].
  assert (Hin : In i (ExecutionPlanEntity.get_ready_tasks (plan s') (completed_task_ids s')))
    by (rewrite E; left; reflexivity).
  unfold ExecutionPlanEntity.get_ready_tasks in Hin.
  apply ready_indices_spec in Hin as (t' & Ht' & Hp & Hs).
  fold (tasks_of s') in Ht'.
  assert (Hlt : (i < length (tasks_of s))%nat).
  { rewrite <- Hlen. eapply lookup_lt_Some. exact Ht'. }
  destruct (lookup_lt_is_Some_2 _ _ Hlt) as [t Ht].
  destruct (Hts i t Ht) as (t'' & Ht'' & Hf & Hu).
  rewrite Ht' in Ht''. injection Ht'' as <-.
  destruct (in_dec Nat.eq_dec i ready) as [Hi|Hi].
  - unfold is_pending in Hp. rewrite (Hf Hi) in Hp. discriminate.
  - rewrite (Hu Hi) in Hp, Hs. apply Hi. rewrite <- Hready.
    unfold ExecutionPlanEntity.get_ready_tasks. apply ready_indices_spec.
    exists t. fold (tasks_of s). rewrite <- Hc. auto.
Qed.

(** The first pass on a plan whose tasks are all Pending, with nothing
    completed, when the executor call raises and every task without
    dependency finds an agent: the tasks without dependency end Failed, the
    others are untouched, and nothing is ready any more. *)
Lemma raising_first_pass w s :
  (forall k t' a', exists e, executor w k t' a' = Raise e) ->
  completed_task_ids s = [] ->
  (forall t, In t (tasks_of s) -> TaskEntity.status t = PENDING) ->
  (forall t, In t (tasks_of s) -> TaskEntity.dependencies t = [] ->
     exists j a, active_agents s !! j = Some a /\ qualifies a t) ->
  exists s1,
    (loop_body w s = (Continue, s1)
     \/ (ExecutionPlanEntity.get_ready_tasks (plan s) (completed_task_ids s) = []
         /\ s1 = s))
    /\ ExecutionPlanEntity.get_ready_tasks (plan s1) (completed_task_ids s1) = []
    /\ ExecutionPlanEntity.status (plan s1) = ExecutionPlanEntity.status (plan s)
    /\ ExecutionPlanEntity.id (plan s1) = ExecutionPlanEntity.id (plan s)
    /\ completed_task_ids s1 = []
    /\ failed_task_ids s1
       = (failed_task_ids s
          ++ ids_at (tasks_of s)
               (ExecutionPlanEntity.get_ready_tasks (plan s) (completed_task_ids s)))%list
    /\ length (tasks_of s1) = length (tasks_of s)
    /\ (forall i t, tasks_of s !! i = Some t ->
          exists t', tasks_of s1 !! i = Some t' /\ task_shape t' = task_shape t
                     /\ (TaskEntity.dependencies t = [] -> TaskEntity.status t' = FAILED)
                     /\ (TaskEntity.dependencies t <> [] -> t' = t)).
Proof.
  intros Hex Hc Hpend Hag.
  assert (Hiff : forall i t, tasks_of s !! i = Some t ->
            (In i (ExecutionPlanEntity.get_ready_tasks (plan s) (completed_task_ids s))
             <-> TaskEntity.dependencies t = [])).
  { intros i t Ht. unfold ExecutionPlanEntity.get_ready_tasks.
    rewrite ready_indices_spec. fold (tasks_of s). rewrite Hc. split.
    - intros (t' & Ht' & _ & Hs). rewrite Ht in Ht'. injection Ht' as <-.
      apply can_start_nil, Hs.
    - intros Hd. exists t. split; [exact Ht|]. split; [|apply can_start_nil, Hd].
      unfold is_pending. rewrite (Hpend t); [reflexivity|].
      apply list_elem_of_In. eapply list_elem_of_lookup_2. exact Ht. }
  destruct (ExecutionPlanEntity.get_ready_tasks (plan s) (completed_task_ids s))
    as [|r0 ready'] eqn:Er.
  - exists s. split; [right; split; reflexivity|]. split; [exact Er|].
    split; [reflexivity|]. split; [reflexivity|]. split; [exact Hc|].
    split; [simpl; rewrite app_nil_r; reflexivity|]. split; [reflexivity|].
    intros i t Ht. exists t. split; [exact Ht|]. split; [reflexivity|].
    split; [|reflexivity]. intros Hd. destruct (proj2 (Hiff i t Ht) Hd).
  - destruct (raising_pass w s r0 ready' Hex Er) as
      (s1 & Hb & S1 & I1 & C1 & F1 & L1 & Hts & _).
    { intros ti task Hti Ht. apply Hag.
      - apply list_elem_of_In. eapply list_elem_of_lookup_2. exact Ht.
      - apply (Hiff ti task Ht), Hti. }
    exists s1. split; [left; exact Hb|].
    split.
    { apply (nothing_ready_after s s1 (r0 :: ready') Er C1 L1).
      intros i t Ht. destruct (Hts i t Ht) as (t' & Ht' & _ & Hf & Hu). eauto. }
    split; [exact S1|]. split; [exact I1|]. split; [congruence|].
    split; [exact F1|]. split; [exact L1|].
    intros i t Ht. destruct (Hts i t Ht) as (t' & Ht' & Hsh & Hf & Hu).
    exists t'. split; [exact Ht'|]. split; [exact Hsh|]. split.
    + intros Hd. apply Hf, (Hiff i t Ht), Hd.
    + intros Hd. apply Hu. intros Hin. apply Hd, (Hiff i t Ht), Hin.
Qed.

(** The loop on a plan whose tasks are all Pending, with nothing completed,
    when the executor call raises and every task without dependency finds
    an agent.  Without dependencies two passes end it, every task Failed;
    with a dependency in an acyclic plan it does not end. *)
Lemma raising_run w s :
  (forall k t' a', exists e, executor w k t' a' = Raise e) ->
  completed_task_ids s = [] ->
  acyclic (tasks_of s) ->
  (forall t, In t (tasks_of s) -> TaskEntity.status t = PENDING) ->
  (forall t, In t (tasks_of s) -> TaskEntity.dependencies t = [] ->
     exists j a, active_agents s !! j = Some a /\ qualifies a t) ->
  ((forall t, In t (tasks_of s) -> TaskEntity.dependencies t = []) ->
   exists s1,
     run_loop w 2 s = Some (Ok tt, s1)
     /\ ExecutionPlanEntity.status (plan s1) = ExecutionPlanEntity.status (plan s)
     /\ ExecutionPlanEntity.id (plan s1) = ExecutionPlanEntity.id (plan s)
     /\ completed_task_ids s1 = []
     /\ failed_task_ids s1
        = (failed_task_ids s ++ map TaskEntity.id (tasks_of s))%list
     /\ map task_shape (tasks_of s1) = map task_shape (tasks_of s)
     /\ forall t, In t (tasks_of s1) -> TaskEntity.status t = FAILED)
  /\ ((exists t, In t (tasks_of s) /\ TaskEntity.dependencies t <> []) ->
      forall fuel, run_loop w fuel s = None).
Proof.
  intros Hex Hc Hac Hpend Hag.
  destruct (raising_first_pass w s Hex Hc Hpend Hag)
    as (s1 & Hfirst & Hr1 & S1 & I1 & C1 & F1 & L1 & Hts).
  assert (Hshape : map task_shape (tasks_of s1) = map task_shape (tasks_of s)).
  { symmetry. apply shapes_pointwise; [exact L1|].
    intros i t Ht. destruct (Hts i t Ht) as (t' & Ht' & Hsh & _). eauto. }
  split.
  - intros Hfree. exists s1.
    assert (Hall : forall t, In t (tasks_of s1) -> TaskEntity.status t = FAILED).
    { intros t' Hin. apply list_elem_of_In in Hin.
      apply list_elem_of_lookup_1 in Hin as [i Hi].
      assert (Hlt : (i < length (tasks_of s))%nat).
      { rewrite <- L1. eapply lookup_lt_Some. exact Hi. }
      destruct (lookup_lt_is_Some_2 _ _ Hlt) as [t Ht].
      destruct (Hts i t Ht) as (t'' & Ht'' & _ & Hf & _).
      rewrite Hi in Ht''. injection Ht'' as <-. apply Hf, Hfree.
      apply list_elem_of_In. eapply list_elem_of_lookup_2. exact Ht. }
    assert (Hbreak : loop_body w s1 = (Break, s1)).
    { unfold loop_body. rewrite Hr1.
      rewrite (filter_all_false is_pending (tasks_of s1)); [reflexivity|].
      intros t Hin. unfold is_pending. rewrite (Hall t Hin). reflexivity. }
    assert (Hready : ExecutionPlanEntity.get_ready_tasks (plan s) (completed_task_ids s)
                     = seq 0 (length (tasks_of s))).
    { unfold ExecutionPlanEntity.get_ready_tasks, ExecutionPlanEntity.ready_indices.
      fold (tasks_of s).
      apply (ready_from_all (fun t => is_pending t && TaskEntity.can_start t
                                                       (completed_task_ids s))).
      intros t Hin. unfold is_pending. rewrite (Hpend t Hin). simpl.
      rewrite Hc. apply can_start_nil, Hfree, Hin. }
    split.
    { destruct Hfirst as [Hb|[_ ->]].
      - simpl. rewrite Hb, Hbreak. reflexivity.
      - simpl. rewrite Hbreak. reflexivity. }
    split; [exact S1|]. split; [exact I1|]. split; [exact C1|].
    split; [|split; [exact Hshape|exact Hall]].
    rewrite F1, Hready. f_equal. exact (ids_at_seq [] (tasks_of s)).
  - intros (t & Hin & Hdep).
    assert (Hstay : exists t', In t' (List.filter is_pending (tasks_of s1))).
    { apply list_elem_of_In in Hin. apply list_elem_of_lookup_1 in Hin as [i Hi].
      destruct (Hts i t Hi) as (t' & Ht' & _ & _ & Hu).
      rewrite (Hu Hdep) in Ht'. exists t. apply filter_In. split.
      - apply list_elem_of_In. eapply list_elem_of_lookup_2. exact Ht'.
      - unfold is_pending. rewrite (Hpend t); [reflexivity|].
        apply list_elem_of_In. eapply list_elem_of_lookup_2. exact Hi. }
    assert (Hfix : loop_body w s1 = (Continue, s1)).
    { unfold loop_body. rewrite Hr1.
      destruct (List.filter is_pending (tasks_of s1)) as [|x rest] eqn:E.
      - destruct Hstay as [t' []].
      - rewrite <- E.
        rewrite (acyclic_not_circular (List.filter is_pending (tasks_of s1)));
          [reflexivity|].
        apply acyclic_filter. apply (acyclic_shape (tasks_of s)); [|exact Hac].
        symmetry. exact Hshape. }
    intros [|fuel]; [reflexivity|].
    destruct Hfirst as [Hb|[_ ->]].
    + simpl. rewrite Hb. apply run_loop_fixed, Hfix.
    + apply run_loop_fixed, Hfix.
Qed.

(** The same for [execute_plan]. *)
Lemma raising_execute w agents k p :
  (forall k t' a', exists e, executor w k t' a' = Raise e) ->
  ExecutionPlanEntity.status p = "pending" ->
  acyclic (ExecutionPlanEntity.tasks p) ->
  (forall t, In t (ExecutionPlanEntity.tasks p) -> TaskEntity.status t = PENDING) ->
  (forall t, In t (ExecutionPlanEntity.tasks p) -> TaskEntity.dependencies t = [] ->
     exists j a, agents !! j = Some a /\ qualifies a t) ->
  ((forall t, In t (ExecutionPlanEntity.tasks p) -> TaskEntity.dependencies t = []) ->
   exists r s',
     execute_plan w 2 agents k p = Some (Ok r, s')
     /\ (exists ok results rate dur pct,
            r = ExecutionReport (ExecutionPlanEntity.id p) ok []
                  (map TaskEntity.id (ExecutionPlanEntity.tasks p)) results rate dur pct
            /\ ok = false /\ (rate == 0)%Q)
     /\ map task_shape (tasks_of s') = map task_shape (ExecutionPlanEntity.tasks p)
     /\ (forall t, In t (tasks_of s') -> TaskEntity.status t = FAILED)
     /\ ExecutionPlanEntity.status (plan s') = "completed")
  /\ ((exists t, In t (ExecutionPlanEntity.tasks p) /\ TaskEntity.dependencies t <> []) ->
      forall fuel, execute_plan w fuel agents k p = None).
Proof.
  intros Hex Hstat Hac Hpend Hag.
  unfold execute_plan, ExecutionPlanEntity.start_execution. rewrite Hstat. simpl negb. cbv iota.
  set (p' := ExecutionPlanEntity.mk _ _ _ "running" _ _ _ _ _ _ _).
  set (s0 := tick (set_plan p' (mkO p agents [] [] ∅ k))).
  destruct (raising_run w s0 Hex eq_refl Hac Hpend Hag) as [Ha Hb].
  split.
  - intros Hfree. destruct (Ha Hfree) as (s1 & Hrun & S1 & I1 & C1 & F1 & Hsh & Hall).
    destruct (finish_running w s1) as (dur & s2 & Hf & G1 & G2 & G3 & G4);
      [rewrite S1; reflexivity|].
    unfold run_plan. rewrite Hrun, Hf. eexists _, s2. split; [reflexivity|].
    split.
    { rewrite C1, F1, I1. simpl. eexists _, _, _, _, _. split; [reflexivity|].
      destruct (length (tasks_of s1)); split; reflexivity. }
    split; [rewrite G3; exact Hsh|]. split; [rewrite G3; exact Hall|exact G1].
  - intros Hdep fuel. unfold run_plan. rewrite (Hb Hdep fuel). reflexivity.
Qed.




(** * Further properties of the code *)

(** ** Cycle detection, in full *)

(** X1.  The answer of [_has_circular_dependencies] is exact, and the
    search needs a recursion no deeper than the number of tasks.  Under an
    interpreter that allows [frames] nested calls of [has_cycle], the
    function either raises [RecursionError], which happens only when
    [frames] does not exceed the number of tasks, or returns, and then it
    returns [True] exactly when some identifier reaches itself along the
    dependencies of the tasks of the list (a task given twice counts with
    its last occurrence; a dependency that names no task of the list leads
    nowhere).  The function the loop is followed with is the one with two
    frames more than there are tasks. *)
Theorem circular_dependencies_exact :
  forall (frames : nat) (tasks : list TaskEntity.t),
    match _has_circular_dependencies_within frames tasks with
    | Ok b => b = true <-> has_dep_cycle (task_map_of tasks)
    | Raise e => e = RecursionError /\ (frames <= length tasks)%nat
    end
    /\ ((length tasks < frames)%nat ->
        exists b, _has_circular_dependencies_within frames tasks = Ok b)
    /\ _has_circular_dependencies tasks
       = match _has_circular_dependencies_within (S (S (length tasks))) tasks with
         | Ok b => Some b
         | Raise _ => None
         end.
Proof.
  intros frames tasks.
  assert (Htot : (length tasks < frames)%nat ->
                 exists b, _has_circular_dependencies_within frames tasks = Ok b).
  { intros Hlt. unfold _has_circular_dependencies_within.
    destruct (for_until_total (task_map_of tasks)
                (visit_root frames (task_map_of tasks))
                (map TaskEntity.id tasks) frames
                (visit_root_total (task_map_of tasks) _) ∅ ∅)
      as (b & vis & stk & -> & _).
    - apply Nat.le_lt_trans with (size (dom (task_map_of tasks)));
        [apply subseteq_size; set_solver|].
      rewrite size_dom. pose proof (task_map_of_size tasks ∅) as H.
      rewrite map_size_empty in H. unfold task_map_of. lia.
    - exists b. reflexivity. }
  split; [|split; [exact Htot|]].
  - unfold _has_circular_dependencies_within in *.
    destruct (for_until _ _ _) as [[b [vis stk]]|] eqn:E.
    + destruct b.
      * split; [intros _|reflexivity].
        apply (for_until_true (task_map_of tasks) ∅ _ _ (visit_root_ok _ _)
                 (visit_root_true _ _) _ _ E).
        -- split; intros x; set_solver.
        -- intros x _ u Hu. set_solver.
      * split; [discriminate|]. intros [a Ha]. exfalso.
        destruct (for_until_ok (task_map_of tasks) ∅ _ _ (visit_root_ok _ _) _ _ _ E)
          as (_ & _ & Hall & Hsafe).
        { split; intros x; set_solver. }
        apply (proj2 Hsafe a); [|exact Ha].
        apply Hall.
        inversion Ha as [x y (t & Ht & _)|x y z (t & Ht & _) _]; subst;
          (apply task_map_of_lookup in Ht as [Ht|[Hin <-]];
           [rewrite lookup_empty in Ht; discriminate|apply in_map, Hin]).
    + split; [reflexivity|].
      destruct (le_lt_dec frames (length tasks)) as [Hle|Hlt]; [exact Hle|].
      destruct (Htot Hlt) as [b Hb]. discriminate.
  - unfold _has_circular_dependencies, _has_circular_dependencies_within.
    destruct (for_until _ _ _) as [[b st]|]; reflexivity.
Qed.

(** The error is real: on three tasks that wait for each other in a row
    the search needs three frames. *)
Example deep_chain_overflows :
  _has_circular_dependencies_within 2 waiting_chain = Raise RecursionError
  /\ _has_circular_dependencies_within 3 waiting_chain = Ok false.
Proof. split; vm_compute; reflexivity. Qed.

(** ** Life cycle of plans and agents *)

(** X2.  The two transitions of a plan: [start_execution] succeeds exactly
    on a plan in status pending, [complete_execution] exactly on a running
    one, recording the success rate and the duration; every other call
    raises and leaves the plan as it was.  After both have succeeded neither
    succeeds again. *)
Theorem plan_status_transitions :
  forall (now_ : Q) (p : ExecutionPlanEntity.t),
    (if String.eqb (ExecutionPlanEntity.status p) "pending"
     then exists p', ExecutionPlanEntity.start_execution now_ p = (Ok tt, p')
                     /\ ExecutionPlanEntity.status p' = "running"
                     /\ ExecutionPlanEntity.started_at p' = Some now_
                     /\ ExecutionPlanEntity.tasks p' = ExecutionPlanEntity.tasks p
     else ExecutionPlanEntity.start_execution now_ p
          = (Raise (ValueError ("Cannot start plan in status: "
                                ++ ExecutionPlanEntity.status p)), p))
    /\ (forall rate d,
          if String.eqb (ExecutionPlanEntity.status p) "running"
          then exists p', ExecutionPlanEntity.complete_execution now_ rate d p = (Ok tt, p')
                          /\ ExecutionPlanEntity.status p' = "completed"
                          /\ ExecutionPlanEntity.success_rate p' = rate
                          /\ ExecutionPlanEntity.actual_duration p' = Some d
                          /\ ExecutionPlanEntity.tasks p' = ExecutionPlanEntity.tasks p
          else ExecutionPlanEntity.complete_execution now_ rate d p
               = (Raise (ValueError ("Cannot complete plan in status: "
                                     ++ ExecutionPlanEntity.status p)), p))
    /\ (forall n1 n2 rate d p1 p2,
          ExecutionPlanEntity.start_execution n1 p = (Ok tt, p1) ->
          ExecutionPlanEntity.complete_execution n2 rate d p1 = (Ok tt, p2) ->
          (exists e, ExecutionPlanEntity.start_execution now_ p2 = (Raise e, p2))
          /\ (exists e, ExecutionPlanEntity.complete_execution now_ rate d p2
                        = (Raise e, p2))).
Proof.
  intros now_ p. split; [|split].
  - unfold ExecutionPlanEntity.start_execution.
    destruct (String.eqb (ExecutionPlanEntity.status p) "pending"); simpl.
    + eexists. split; [reflexivity|]. repeat split; reflexivity.
    + reflexivity.
  - intros rate d. unfold ExecutionPlanEntity.complete_execution.
    destruct (String.eqb (ExecutionPlanEntity.status p) "running"); simpl.
    + eexists. split; [reflexivity|]. repeat split; reflexivity.
    + reflexivity.
  - intros n1 n2 rate d p1 p2 H1 H2.
    unfold ExecutionPlanEntity.start_execution in H1.
    destruct (String.eqb (ExecutionPlanEntity.status p) "pending"); simpl in H1;
      [|discriminate].
    injection H1 as <-.
    unfold ExecutionPlanEntity.complete_execution in H2. simpl in H2.
    injection H2 as <-.
    split; eexists; reflexivity.
Qed.

(** X3.  An agent holds one task at a time: [assign_task] succeeds exactly
    on an available agent, which it makes busy with the task, and raises on
    any other agent, leaving it as it was; [complete_task] makes the agent
    available again whatever its status was, so the next assignment
    succeeds. *)
Theorem agent_holds_one_task :
  forall (now_ now2 : Q) (a : AgentEntity.t) (task_id other : TaskId),
    (if String.eqb (AgentEntity.status a) "available"
     then exists a', AgentEntity.assign_task now_ task_id a = (Ok tt, a')
                     /\ AgentEntity.status a' = "busy"
                     /\ AgentEntity.current_task_id a' = Some task_id
                     /\ AgentEntity.task_queue a' = AgentEntity.task_queue a
                     /\ exists e, AgentEntity.assign_task now2 other a' = (Raise e, a')
     else exists e, AgentEntity.assign_task now_ task_id a = (Raise e, a))
    /\ AgentEntity.current_task_id (AgentEntity.complete_task now_ a) = None
    /\ exists a'',
         AgentEntity.assign_task now2 other (AgentEntity.complete_task now_ a)
         = (Ok tt, a'')
         /\ AgentEntity.current_task_id a'' = Some other.
Proof.
  intros now_ now2 a task_id other. split; [|split].
  - unfold AgentEntity.assign_task at 1 3.
    destruct (String.eqb (AgentEntity.status a) "available"); simpl.
    + eexists. split; [reflexivity|]. repeat split; try reflexivity.
      eexists. reflexivity.
    + eexists. reflexivity.
  - reflexivity.
  - eexists. split; reflexivity.
Qed.

(** X4.  The queue of an agent is first in, first out: after the
    identifiers of [l] have been queued behind those already waiting,
    successive calls of [get_next_queued_task] return the waiting
    identifiers, then those of [l], in order, and [None] from then on; the
    agent ends with an empty queue and is otherwise unchanged. *)
Theorem agent_queue_fifo :
  forall (a : AgentEntity.t) (l : list TaskId) (extra : nat),
    take_queued (length (AgentEntity.task_queue a) + length l + extra)
                (enqueue_all l a)
    = ((map Some (AgentEntity.task_queue a ++ l) ++ repeat None extra)%list,
       with_queue [] a).
Proof.
  intros a l extra.
  assert (Hq : forall l a, enqueue_all l a
                           = with_queue (AgentEntity.task_queue a ++ l)%list a).
  { clear. induction l as [|x l IH]; intros a.
    - simpl. rewrite app_nil_r. destruct a; reflexivity.
    - unfold enqueue_all in *. simpl. rewrite IH. unfold with_queue. simpl.
      rewrite <- app_assoc. reflexivity. }
  rewrite Hq, <- length_app.
  generalize (AgentEntity.task_queue a ++ l)%list. clear Hq l.
  intros q. induction q as [|x q IH].
  - simpl. induction extra as [|n IHn]; [reflexivity|].
    simpl. simpl in IHn. rewrite IHn. reflexivity.
  - simpl. simpl in IH. unfold with_queue in IH. rewrite IH. reflexivity.
Qed.

(** ** One dispatch *)

(** X5.  An exception of the executor call does not leave
    [_execute_task_with_agent].  For a Pending task and an available agent,
    when the executor raises, the call returns a result with [success] false
    and the text of the exception as error message; the task is Failed with
    that text as error and the agent recorded on it; the agent is available
    again, holds no task, and its metrics are as before (a failure by
    exception is not counted); the lists of the loop are untouched.  The
    duration is the time between the readings of the clock at entry and in
    the handler. *)
Theorem executor_exception_contained :
  forall (w : World) (ti ai : nat) (s : OState)
         (t : TaskEntity.t) (a : AgentEntity.t) (e : exn),
    tasks_of s !! ti = Some t -> TaskEntity.status t = PENDING ->
    active_agents s !! ai = Some a -> AgentEntity.status a = "available" ->
    (forall t' a', executor w (3 + ticks s) t' a' = Raise e) ->
    exists t' a' s',
      _execute_task_with_agent w ti ai s
      = (Ok (mkTaskResult false None (Some (exn_str e))
               (clock w (3 + ticks s) - clock w (ticks s))), s')
      /\ tasks_of s' = <[ti := t']> (tasks_of s)
      /\ TaskEntity.status t' = FAILED
      /\ TaskEntity.error t' = Some (exn_str e)
      /\ TaskEntity.assigned_agent_id t' = Some (AgentEntity.id a)
      /\ active_agents s' = <[ai := a']> (active_agents s)
      /\ AgentEntity.status a' = "available"
      /\ AgentEntity.current_task_id a' = None
      /\ AgentEntity.performance_metrics a' = AgentEntity.performance_metrics a
      /\ completed_task_ids s' = completed_task_ids s
      /\ failed_task_ids s' = failed_task_ids s
      /\ task_results s' = task_results s.
Proof.
  intros w ti ai s t a e Ht Hp Ha Hav Hex.
  pose proof (lookup_lt_Some _ _ _ Ht) as Hlt.
  pose proof (lookup_lt_Some _ _ _ Ha) as Hla.
  unfold _execute_task_with_agent, execute_try.
  replace (tasks_of (tick s) !! ti) with (Some t) by (symmetry; exact Ht).
  replace (active_agents (tick s) !! ai) with (Some a) by (symmetry; exact Ha).
  unfold AgentEntity.assign_task. rewrite Hav. simpl negb. cbv iota.
  set (a1 := AgentEntity.mk _ _ _ "busy" _ _ _ _).
  set (s1 := tick (set_agent ai a1 (tick s))).
  assert (Ht1 : tasks_of s1 !! ti = Some t) by exact Ht.
  set (t1 := snd (TaskEntity.start (now w s1) (AgentEntity.id a1) t)).
  assert (Hs1 : TaskEntity.start (now w s1) (AgentEntity.id a1) t = (Ok tt, t1)).
  { unfold t1, TaskEntity.start. rewrite Hp. reflexivity. }
  rewrite (task_call_ok w _ ti s1 t t1 Ht1 Hs1).
  set (s2 := tick (set_task ti t1 s1)).
  assert (Hk : ticks s2 = (3 + ticks s)%nat) by reflexivity.
  rewrite Hk, Hex.
  assert (Ht2 : tasks_of s2 !! ti = Some t1).
  { unfold s2, set_task, tasks_of. simpl. apply list_lookup_insert_eq. exact Hlt. }
  set (d := (now w s2 - now w s)%Q).
  set (t2 := snd (TaskEntity.fail (now w (tick s2)) (Some (exn_str e)) d t1)).
  assert (Hf : TaskEntity.fail (now w (tick s2)) (Some (exn_str e)) d t1 = (Ok tt, t2)).
  { unfold t2, TaskEntity.fail, t1, TaskEntity.start. rewrite Hp. reflexivity. }
  rewrite (task_call_ok w (fun n => TaskEntity.fail n (Some (exn_str e)) d) ti
             (tick s2) t1 t2 Ht2 Hf).
  set (s3 := tick (set_task ti t2 (tick s2))).
  assert (Ha3 : active_agents s3 !! ai = Some a1).
  { unfold s3, s2, s1, set_task, set_agent. simpl. apply list_lookup_insert_eq. exact Hla. }
  rewrite Ha3.
  eexists t2, _, _. split; [reflexivity|].
  assert (Hts : tasks_of s3 = <[ti := t2]> (tasks_of s)).
  { unfold s3, s2, set_task, tasks_of. simpl. apply insert_twice. }
  assert (Has : forall x, <[ai := x]> (active_agents s3) = <[ai := x]> (active_agents s)).
  { intros x. unfold s3, s2, s1, set_task, set_agent. simpl. apply insert_twice. }
  split; [exact Hts|].
  split; [unfold t2, TaskEntity.fail, t1, TaskEntity.start; rewrite Hp; reflexivity|].
  split; [unfold t2, TaskEntity.fail, t1, TaskEntity.start; rewrite Hp; reflexivity|].
  split; [unfold t2, TaskEntity.fail, t1, TaskEntity.start; rewrite Hp; reflexivity|].
  split; [apply Has|].
  repeat split; reflexivity.
Qed.

Lemma executor_exception_contained_witness :
  exists t' a' s',
    _execute_task_with_agent (repository_world (fun k => nat_Q k)) 0 0 tester_state
    = (Ok (mkTaskResult false None
             (Some "object NoneType can't be used in 'await' expression")
             (nat_Q 4 - nat_Q 1)), s')
    /\ tasks_of s' = <[0%nat := t']> (tasks_of tester_state)
    /\ TaskEntity.status t' = FAILED
    /\ TaskEntity.error t'
       = Some "object NoneType can't be used in 'await' expression"
    /\ TaskEntity.assigned_agent_id t' = Some "steady"
    /\ active_agents s' = <[0%nat := a']> (active_agents tester_state)
    /\ AgentEntity.status a' = "available"
    /\ AgentEntity.current_task_id a' = None
    /\ AgentEntity.performance_metrics a' = AgentEntity.performance_metrics steady_agent
    /\ completed_task_ids s' = completed_task_ids tester_state
    /\ failed_task_ids s' = failed_task_ids tester_state
    /\ task_results s' = task_results tester_state.
Proof.
  apply (executor_exception_contained (repository_world (fun k => nat_Q k)) 0 0
           tester_state testing_task steady_agent
           (ExecutorRaised "object NoneType can't be used in 'await' expression"));
    try reflexivity.
Defined.

(** ** What a pass of the loop leaves alone *)

Lemma plan_kept_refl s : plan_kept s s.
Proof. repeat split; reflexivity. Qed.

Lemma plan_kept_trans s1 s2 s3 : plan_kept s1 s2 -> plan_kept s2 s3 -> plan_kept s1 s3.
Proof.
  intros (A1 & A2 & A3) (B1 & B2 & B3). repeat split; congruence.
Qed.

Lemma task_frame_plan_kept ti s s' : task_frame ti s s' -> plan_kept s s'.
Proof. intros (_ & _ & _ & H4 & H5 & H6 & _). repeat split; assumption. Qed.

Lemma same_but_ticks_plan_kept s s' : same_but_ticks s s' -> plan_kept s s'.
Proof.
  intros (H1 & _). unfold plan_kept, tasks_of. rewrite H1. repeat split; reflexivity.
Qed.

Lemma lists_grow_refl s s' :
  completed_task_ids s' = completed_task_ids s ->
  failed_task_ids s' = failed_task_ids s -> lists_grow s s'.
Proof.
  intros H1 H2. split; exists []; rewrite app_nil_r; assumption.
Qed.

Lemma lists_grow_trans s1 s2 s3 : lists_grow s1 s2 -> lists_grow s2 s3 -> lists_grow s1 s3.
Proof.
  intros ([c1 C1] & [f1 F1]) ([c2 C2] & [f2 F2]). split.
  - exists (c1 ++ c2)%list. rewrite C2, C1, app_assoc. reflexivity.
  - exists (f1 ++ f2)%list. rewrite F2, F1, app_assoc. reflexivity.
Qed.

Lemma gather_kept w exec : forall s rs s',
  gather w exec s = (rs, s') ->
  plan_kept s s'
  /\ completed_task_ids s' = completed_task_ids s
  /\ failed_task_ids s' = failed_task_ids s
  /\ task_results s' = task_results s
  /\ forall ti, ~ In ti (map fst exec) -> tasks_of s' !! ti = tasks_of s !! ti.
Proof.
  induction exec as [|[tj aj] rest IH]; intros s rs s' H; simpl in H.
  - injection H as <- <-. split; [apply plan_kept_refl|]. repeat split; reflexivity.
  - destruct (_execute_task_with_agent w tj aj s) as [r s1] eqn:E1.
    destruct (gather w rest s1) as [rs' s2] eqn:E2. injection H as <- <-.
    destruct (IH s1 rs' s2 E2) as (K & C & F & R & T).
    pose proof (execute_task_frame w tj aj s r s1 E1) as Hf.
    pose proof (task_frame_plan_kept _ _ _ Hf) as K1.
    destruct Hf as (C1 & F1 & R1 & _ & _ & _ & T1).
    split; [eapply plan_kept_trans; eassumption|].
    split; [congruence|]. split; [congruence|]. split; [congruence|].
    intros ti Hti. simpl in Hti.
    rewrite T by tauto. apply T1. intros ->. tauto.
Qed.

Lemma process_results_kept w ready results : forall i s r s',
  process_results w ready i results s = (r, s') ->
  plan_kept s s' /\ lists_grow s s'
  /\ forall ti, ~ In ti ready -> tasks_of s' !! ti = tasks_of s !! ti.
Proof.
  induction results as [|result_ rest IH]; intros i s r s' H; simpl in H.
  - injection H as <- <-.
    split; [apply plan_kept_refl|]. split; [apply lists_grow_refl; reflexivity|].
    reflexivity.
  - destruct (ready !! i) as [tj|] eqn:Hi;
      [|injection H as <- <-; split; [apply plan_kept_refl|];
        split; [apply lists_grow_refl; reflexivity|reflexivity]].
    assert (Hin : In tj ready).
    { apply list_elem_of_In. eapply list_elem_of_lookup_2. exact Hi. }
    destruct (tasks_of s !! tj) as [taskj|] eqn:Htj;
      [|injection H as <- <-; split; [apply plan_kept_refl|];
        split; [apply lists_grow_refl; reflexivity|reflexivity]].
    destruct result_ as [res_|e].
    + destruct (IH _ _ _ _ H) as (K & G & T).
      split; [|split].
      * destruct (success res_); exact K.
      * eapply lists_grow_trans; [|exact G].
        destruct (success res_); split; simpl;
          solve [eexists; reflexivity | exists []; rewrite app_nil_r; reflexivity].
      * intros ti Hti. rewrite (T ti Hti). destruct (success res_); reflexivity.
    + destruct (task_call w _ tj s) as [[u|e'] s1] eqn:Ecall;
        pose proof (task_frame_task_call w _ tj s s _ _ Ecall (task_frame_refl tj s)) as Hf;
        pose proof (task_frame_plan_kept _ _ _ Hf) as K1;
        destruct Hf as (C1 & F1 & R1 & _ & _ & _ & T1).
      * destruct (IH _ _ _ _ H) as (K & G & T).
        split; [|split].
        -- eapply plan_kept_trans; [exact K1|exact K].
        -- eapply lists_grow_trans; [|exact G]. split; simpl.
           ++ exists []. rewrite app_nil_r. exact C1.
           ++ eexists. rewrite F1. reflexivity.
        -- intros ti Hti. rewrite (T ti Hti). simpl. apply T1. intros ->. tauto.
      * injection H as <- <-. split; [exact K1|].
        split; [apply lists_grow_refl; assumption|].
        intros ti Hti. apply T1. intros ->. tauto.
Qed.

Lemma loop_body_kept w s :
  plan_kept s (snd (loop_body w s))
  /\ lists_grow s (snd (loop_body w s))
  /\ forall i,
       ~ In i (ExecutionPlanEntity.get_ready_tasks (plan s) (completed_task_ids s)) ->
       tasks_of (snd (loop_body w s)) !! i = tasks_of s !! i.
Proof.
  unfold loop_body.
  destruct (ExecutionPlanEntity.get_ready_tasks (plan s) (completed_task_ids s))
    as [|r0 rest] eqn:Hr.
  - assert (Hs : plan_kept s s /\ lists_grow s s
                 /\ forall i : nat, ~ In i [] -> tasks_of s !! i = tasks_of s !! i).
    { split; [apply plan_kept_refl|].
      split; [apply lists_grow_refl; reflexivity|reflexivity]. }
    destruct (List.filter is_pending (tasks_of s)); [exact Hs|].
    destruct (_has_circular_dependencies _) as [[|]|]; exact Hs.
  - destruct (select_all w (r0 :: rest) s) as [exec s1] eqn:Es.
    destruct (select_all_spec w _ _ _ _ Es) as [Hsame Hin].
    pose proof (same_but_ticks_plan_kept _ _ Hsame) as K1.
    destruct Hsame as (P1 & A1 & C1 & F1 & R1).
    destruct exec as [|e0 exec'].
    + simpl. split; [exact K1|]. split; [apply lists_grow_refl; assumption|].
      intros i _. unfold tasks_of. rewrite P1. reflexivity.
    + destruct (gather w (e0 :: exec') s1) as [results s2] eqn:Eg.
      destruct (gather_kept w _ _ _ _ Eg) as (K2 & C2 & F2 & R2 & T2).
      destruct (process_results w (r0 :: rest) 0 results s2) as [u s3] eqn:Ep.
      destruct (process_results_kept w _ _ _ _ _ _ Ep) as (K3 & G3 & T3).
      assert (Hgoal : plan_kept s s3 /\ lists_grow s s3
                      /\ forall i, ~ In i (r0 :: rest) -> tasks_of s3 !! i = tasks_of s !! i).
      { split; [eapply plan_kept_trans; [exact K1|];
                eapply plan_kept_trans; eassumption|].
        split.
        - eapply lists_grow_trans; [|exact G3].
          apply lists_grow_refl; congruence.
        - intros i Hi. rewrite (T3 i Hi). rewrite T2.
          + unfold tasks_of. rewrite P1. reflexivity.
          + intros Hin'. apply in_map_iff in Hin' as [[ti ai] [<- Hx]].
            apply Hi. apply (Hin ti ai Hx). }
      destruct u; exact Hgoal.
Qed.

(** X6.  One pass of the loop of [execute_plan] changes ready tasks
    only: every task that is not ready at the start of the pass (finished,
    running, or waiting for a dependency) is the same object afterwards.
    The pass keeps the number of tasks and the status of the plan, and the
    lists of completed and failed identifiers are only extended at their
    end. *)
Theorem pass_touches_ready_tasks_only :
  forall (w : World) (s : OState),
    let s' := snd (loop_body w s) in
    (forall i,
        ~ In i (ExecutionPlanEntity.get_ready_tasks (plan s) (completed_task_ids s)) ->
        tasks_of s' !! i = tasks_of s !! i)
    /\ length (tasks_of s') = length (tasks_of s)
    /\ ExecutionPlanEntity.status (plan s') = ExecutionPlanEntity.status (plan s)
    /\ (exists extra, completed_task_ids s' = (completed_task_ids s ++ extra)%list)
    /\ (exists extra, failed_task_ids s' = (failed_task_ids s ++ extra)%list).
Proof.
  intros w s s'. destruct (loop_body_kept w s) as ((K1 & K2 & K3) & (G1 & G2) & T).
  repeat split; assumption.
Qed.

Lemma run_loop_kept w : forall fuel s r s',
  run_loop w fuel s = Some (r, s') ->
  plan_kept s s' /\ lists_grow s s'
  /\ forall i t, tasks_of s !! i = Some t -> TaskEntity.status t <> PENDING ->
       tasks_of s' !! i = Some t.
Proof.
  induction fuel as [|fuel IH]; intros s r s' H; [discriminate|].
  simpl in H.
  destruct (loop_body_kept w s) as (K & G & T).
  assert (Tf : forall i t, tasks_of s !! i = Some t -> TaskEntity.status t <> PENDING ->
                 tasks_of (snd (loop_body w s)) !! i = Some t).
  { intros i t Ht Hn. rewrite T; [exact Ht|].
    intros Hin. apply ready_indices_spec in Hin as (t' & Ht' & Hp & _).
    assert (E : Some t' = Some t) by exact (eq_trans (eq_sym Ht') Ht).
    injection E as ->. unfold is_pending in Hp.
    destruct (TaskEntity.status t); try discriminate. apply Hn. reflexivity. }
  destruct (loop_body w s) as [[| |e] s1]; simpl in K, G, T, Tf.
  - injection H as <- <-. split; [exact K|]. split; [exact G|exact Tf].
  - destruct (IH _ _ _ H) as (K' & G' & T').
    split; [eapply plan_kept_trans; eassumption|].
    split; [eapply lists_grow_trans; eassumption|].
    intros i t Ht Hn. apply T'; [apply Tf; assumption|exact Hn].
  - injection H as <- <-. split; [exact K|]. split; [exact G|exact Tf].
Qed.

(** ** [execute_plan] as a whole *)

(** X7.  [execute_plan] raises exactly when the plan is not in status
    pending: then it raises the [ValueError] of [start_execution] at once,
    whatever the agents and the executor are, and plan, tasks and registry
    are as before.  On a pending plan no exception leaves it. *)
Theorem execute_plan_needs_pending :
  forall (w : World) (fuel : nat) (agents : list AgentEntity.t) (k : nat)
         (p : ExecutionPlanEntity.t),
    (if String.eqb (ExecutionPlanEntity.status p) "pending"
     then forall e s', execute_plan w fuel agents k p <> Some (Raise e, s')
     else execute_plan w fuel agents k p
          = Some (Raise (ValueError ("Cannot start plan in status: "
                                     ++ ExecutionPlanEntity.status p)),
                  mkO p agents [] [] ∅ k)).
Proof.
  intros w fuel agents k p. unfold execute_plan, ExecutionPlanEntity.start_execution.
  simpl. destruct (String.eqb (ExecutionPlanEntity.status p) "pending"); simpl.
  - intros e s'. destruct (run_plan _ _ _) as [[r s1]|]; discriminate.
  - reflexivity.
Qed.

Lemma execute_plan_inv w fuel agents k p r s' :
  execute_plan w fuel agents k p = Some (Ok r, s') ->
  ExecutionPlanEntity.status p = "pending"
  /\ exists s0,
       s0 = tick (set_plan (snd (ExecutionPlanEntity.start_execution (clock w k) p))
                           (mkO p agents [] [] ∅ k))
       /\ ExecutionPlanEntity.status (plan s0) = "running"
       /\ tasks_of s0 = ExecutionPlanEntity.tasks p
       /\ ExecutionPlanEntity.id (plan s0) = ExecutionPlanEntity.id p
       /\ run_plan w fuel s0 = Some (r, s').
Proof.
  unfold execute_plan, ExecutionPlanEntity.start_execution. simpl.
  destruct (String.eqb (ExecutionPlanEntity.status p) "pending") eqn:E; simpl;
    [|discriminate].
  intros H. apply String.eqb_eq in E. split; [exact E|].
  eexists. split; [reflexivity|]. simpl.
  split; [reflexivity|]. split; [reflexivity|]. split; [reflexivity|].
  match type of H with
  | match ?x with _ => _ end = _ => destruct x as [[r1 s1]|] eqn:Er; [|discriminate]
  end.
  injection H as <- <-. unfold now. simpl. exact Er.
Qed.

Lemma run_plan_kept w fuel s r s' :
  ExecutionPlanEntity.status (plan s) = "running" ->
  run_plan w fuel s = Some (r, s') ->
  ExecutionPlanEntity.status (plan s')
  = match r with
    | ExecutionReport _ _ _ _ _ _ _ _ => "completed"
    | ErrorReport _ _ _ _ => "running"
    end
  /\ ExecutionPlanEntity.id (plan s') = ExecutionPlanEntity.id (plan s)
  /\ (forall i t, tasks_of s !! i = Some t -> TaskEntity.status t <> PENDING ->
        tasks_of s' !! i = Some t)
  /\ (exists extra, report_completed r = (completed_task_ids s ++ extra)%list)
  /\ length (tasks_of s') = length (tasks_of s).
Proof.
  intros Hr H. unfold run_plan in H.
  destruct (run_loop w fuel s) as [[[u|e] s1]|] eqn:El; [| |discriminate].
  - destruct (run_loop_kept w _ _ _ _ El) as ((K1 & K2 & K3) & (G & _) & T).
    destruct (finish_running w s1) as (dur & s2 & Hf & F1 & F2 & F3 & F4);
      [congruence|].
    rewrite Hf in H. injection H as <- <-.
    split; [exact F1|]. split; [congruence|]. split.
    + intros i t Ht Hn. rewrite F3. apply T; assumption.
    + split; [exact G|]. rewrite F3. exact K3.
  - injection H as <- <-.
    destruct (run_loop_kept w _ _ _ _ El) as ((K1 & K2 & K3) & (G & _) & T).
    split; [simpl; congruence|]. split; [exact K2|]. split; [exact T|].
    split; [exact G|exact K3].
Qed.

(** X8.  A plan is executed at most once.  When [execute_plan] returns a
    report, the plan was pending before; afterwards it is completed when the
    report is the regular one and still running when it is the error report
    (the completion after the loop never raises), under the same identifier;
    so every later [execute_plan] on this plan raises without touching
    it. *)
Theorem plan_runs_once :
  forall (w : World) (fuel : nat) (agents : list AgentEntity.t) (k : nat)
         (p : ExecutionPlanEntity.t) (r : Report) (s' : OState),
    execute_plan w fuel agents k p = Some (Ok r, s') ->
    ExecutionPlanEntity.status p = "pending"
    /\ ExecutionPlanEntity.status (plan s')
       = match r with
         | ExecutionReport _ _ _ _ _ _ _ _ => "completed"
         | ErrorReport _ _ _ _ => "running"
         end
    /\ ExecutionPlanEntity.id (plan s') = ExecutionPlanEntity.id p
    /\ forall w' fuel' agents' k',
         exists e, execute_plan w' fuel' agents' k' (plan s')
                   = Some (Raise e, mkO (plan s') agents' [] [] ∅ k').
Proof.
  intros w fuel agents k p r s' H.
  destruct (execute_plan_inv _ _ _ _ _ _ _ H) as (Hp & s0 & -> & Hr & Ht & Hi & Hrun).
  destruct (run_plan_kept _ _ _ _ _ Hr Hrun) as (Hs & Hid & _).
  split; [exact Hp|]. split; [exact Hs|]. split; [congruence|].
  intros w' fuel' agents' k'.
  unfold execute_plan, ExecutionPlanEntity.start_execution. simpl.
  rewrite Hs. destruct r; simpl; eexists; reflexivity.
Qed.

Lemma plan_runs_once_witness :
  exists r s',
    execute_plan quiet_world 3 [all_round_agent] 0 chain_plan = Some (Ok r, s')
    /\ ExecutionPlanEntity.status (plan s') = "completed"
    /\ exists e, execute_plan quiet_world 3 [all_round_agent] 0 (plan s')
                 = Some (Raise e, mkO (plan s') [all_round_agent] [] [] ∅ 0).
Proof.
  eexists _, _. split; [vm_compute; reflexivity|].
  edestruct (plan_runs_once quiet_world 3 [all_round_agent] 0 chain_plan)
    as (_ & H2 & _ & H4); [vm_compute; reflexivity|].
  split; [exact H2|]. apply H4.
Defined.

(** X9.  [execute_plan] works on Pending tasks only: a task of the plan
    that is not Pending when the call starts (Completed, Failed, Running or
    Cancelled) is unchanged when the call returns. *)
Theorem finished_tasks_are_final :
  forall (w : World) (fuel : nat) (agents : list AgentEntity.t) (k : nat)
         (p : ExecutionPlanEntity.t) (r : Report) (s' : OState)
         (i : nat) (t : TaskEntity.t),
    execute_plan w fuel agents k p = Some (Ok r, s') ->
    ExecutionPlanEntity.tasks p !! i = Some t ->
    TaskEntity.status t <> PENDING ->
    tasks_of s' !! i = Some t.
Proof.
  intros w fuel agents k p r s' i t H Ht Hn.
  destruct (execute_plan_inv _ _ _ _ _ _ _ H) as (Hp & s0 & -> & Hr & Hts & Hi & Hrun).
  destruct (run_plan_kept _ _ _ _ _ Hr Hrun) as (_ & _ & T & _).
  apply T; [rewrite Hts; exact Ht|exact Hn].
Qed.

Lemma finished_tasks_are_final_witness :
  exists r s',
    execute_plan quiet_world 2 [all_round_agent] 0 resumed_plan = Some (Ok r, s')
    /\ tasks_of s' !! 0%nat = ExecutionPlanEntity.tasks resumed_plan !! 0%nat
    /\ report_completed r = ["task_b"].
Proof.
  eexists _, _. split; [vm_compute; reflexivity|]. split; [|reflexivity].
  eapply (finished_tasks_are_final quiet_world 2 [all_round_agent] 0 resumed_plan).
  - vm_compute. reflexivity.
  - reflexivity.
  - discriminate.
Defined.

(** X10.  A pending plan without tasks: [execute_plan] leaves the loop
    in its first pass and returns the regular report with [success] false,
    success rate 0 and completion 0 (no division by the number of tasks),
    the plan is completed, and the registry is not touched. *)
Theorem empty_plan_report :
  forall (w : World) (fuel : nat) (agents : list AgentEntity.t) (k : nat)
         (p : ExecutionPlanEntity.t),
    ExecutionPlanEntity.status p = "pending" ->
    ExecutionPlanEntity.tasks p = [] ->
    exists s',
      execute_plan w (S fuel) agents k p
      = Some (Ok (ExecutionReport (ExecutionPlanEntity.id p) false [] [] ∅ 0
                    (clock w (S k) - clock w k) 0), s')
      /\ ExecutionPlanEntity.status (plan s') = "completed"
      /\ active_agents s' = agents.
Proof.
  intros w fuel agents k p Hp Ht.
  destruct p as [pid req ts st etd ad cs pg sa ca sr]. simpl in Hp, Ht. subst ts st.
  eexists. split; [reflexivity|]. split; reflexivity.
Qed.

Lemma empty_plan_report_witness :
  exists s',
    execute_plan quiet_world 1 [steady_agent] 0 empty_plan
    = Some (Ok (ExecutionReport "plan_0" false [] [] ∅ 0 (1000 - 1000) 0), s')
    /\ ExecutionPlanEntity.status (plan s') = "completed"
    /\ active_agents s' = [steady_agent].
Proof.
  apply (empty_plan_report quiet_world 0 [steady_agent] 0 empty_plan); reflexivity.
Defined.

(** ** The executor call of the repository *)

Lemma set_task_lookup ti x s j t :
  tasks_of (set_task ti x s) !! j = Some t ->
  (j = ti /\ t = x /\ is_Some (tasks_of s !! ti)) \/ tasks_of s !! j = Some t.
Proof.
  unfold set_task, tasks_of. simpl. intros H.
  destruct (decide (j = ti)) as [->|Hne].
  - destruct (decide (ti < length (ExecutionPlanEntity.tasks (plan s)))%nat) as [Hlt|Hge].
    + rewrite list_lookup_insert_eq in H by exact Hlt. injection H as <-. left.
      split; [reflexivity|]. split; [reflexivity|]. apply lookup_lt_is_Some_2, Hlt.
    + rewrite list_insert_ge in H by lia. right. exact H.
  - rewrite list_lookup_insert_ne in H by congruence. right. exact H.
Qed.

Lemma task_call_not_completed w m ti s r s' :
  task_call w m ti s = (r, s') ->
  (forall n t r' t', m n t = (r', t') ->
     TaskEntity.status t <> COMPLETED -> TaskEntity.status t' <> COMPLETED) ->
  (forall j t, tasks_of s !! j = Some t -> TaskEntity.status t <> COMPLETED) ->
  forall j t, tasks_of s' !! j = Some t -> TaskEntity.status t <> COMPLETED.
Proof.
  unfold task_call. intros H Hm Hs j t Hj.
  destruct (tasks_of s !! ti) as [t0|] eqn:E; [|injection H as <- <-; eauto].
  destruct (m (now w s) t0) as [[u|e] t'] eqn:Em; injection H as <- <-;
    (apply set_task_lookup in Hj as [(_ & -> & _)|Hj];
       [eapply Hm; [exact Em|eapply Hs; exact E]|eauto]).
Qed.

Lemma start_not_completed n agent_id t r t' :
  TaskEntity.start n agent_id t = (r, t') ->
  TaskEntity.status t <> COMPLETED -> TaskEntity.status t' <> COMPLETED.
Proof.
  unfold TaskEntity.start. destruct (TaskEntity.status t) eqn:E; simpl;
    intros H; injection H as <- <-; simpl; congruence.
Qed.

Lemma fail_not_completed n err d t r t' :
  TaskEntity.fail n err d t = (r, t') ->
  TaskEntity.status t <> COMPLETED -> TaskEntity.status t' <> COMPLETED.
Proof.
  unfold TaskEntity.fail. destruct (TaskEntity.status t) eqn:E; simpl;
    intros H; injection H as <- <-; simpl; congruence.
Qed.

Lemma execute_try_raising w ti ai st s r s' :
  (forall k t a, exists e, executor w k t a = Raise e) ->
  execute_try w ti ai st s = (r, s') ->
  (exists e, r = Raise e)
  /\ ((forall j t, tasks_of s !! j = Some t -> TaskEntity.status t <> COMPLETED) ->
      forall j t, tasks_of s' !! j = Some t -> TaskEntity.status t <> COMPLETED).
Proof.
  intros Hex. unfold execute_try. intros H.
  destruct (tasks_of s !! ti) as [task|]; [|injection H as <- <-; eauto].
  destruct (active_agents s !! ai) as [agent|]; [|injection H as <- <-; eauto].
  destruct (AgentEntity.assign_task (now w s) (TaskEntity.id task) agent)
    as [[u|e] agent1]; [|injection H as <- <-; eauto].
  destruct (task_call w _ ti (tick (set_agent ai agent1 s))) as [[u1|e1] s1] eqn:Ec.
  - destruct (Hex (ticks s1) (default task (tasks_of s1 !! ti)) agent1) as [e He].
    rewrite He in H. injection H as <- <-. split; [eauto|].
    intros Hs. eapply task_call_not_completed; [exact Ec| |exact Hs].
    intros n t r' t'. apply start_not_completed.
  - injection H as <- <-. split; [eauto|].
    intros Hs. eapply task_call_not_completed; [exact Ec| |exact Hs].
    intros n t r' t'. apply start_not_completed.
Qed.

Lemma execute_raising w ti ai s r s' :
  (forall k t a, exists e, executor w k t a = Raise e) ->
  _execute_task_with_agent w ti ai s = (r, s') ->
  (forall x, r = Ok x -> success x = false)
  /\ ((forall j t, tasks_of s !! j = Some t -> TaskEntity.status t <> COMPLETED) ->
      forall j t, tasks_of s' !! j = Some t -> TaskEntity.status t <> COMPLETED).
Proof.
  intros Hex. unfold _execute_task_with_agent. intros H.
  destruct (execute_try w ti ai (now w s) (tick s)) as [r1 s1] eqn:E.
  destruct (execute_try_raising _ _ _ _ _ _ _ Hex E) as ([e ->] & Hk).
  destruct (task_call w _ ti (tick s1)) as [[u|e'] s2] eqn:Ec.
  - assert (Hk2 : (forall j t, tasks_of s !! j = Some t -> TaskEntity.status t <> COMPLETED) ->
                  forall j t, tasks_of s2 !! j = Some t -> TaskEntity.status t <> COMPLETED).
    { intros Hs. eapply task_call_not_completed; [exact Ec| |exact (Hk Hs)].
      intros n t r' t'. apply fail_not_completed. }
    destruct (active_agents s2 !! ai); injection H as <- <-;
      (split; [intros x Hx; injection Hx as <-; reflexivity|exact Hk2]).
  - injection H as <- <-. split; [discriminate|].
    intros Hs. eapply task_call_not_completed; [exact Ec| |exact (Hk Hs)].
    intros n t r' t'. apply fail_not_completed.
Qed.

Lemma gather_raising w exec : forall s rs s',
  (forall k t a, exists e, executor w k t a = Raise e) ->
  gather w exec s = (rs, s') ->
  (forall x, In (Ok x) rs -> success x = false)
  /\ ((forall j t, tasks_of s !! j = Some t -> TaskEntity.status t <> COMPLETED) ->
      forall j t, tasks_of s' !! j = Some t -> TaskEntity.status t <> COMPLETED).
Proof.
  induction exec as [|[tj aj] rest IH]; intros s rs s' Hex H; simpl in H.
  - injection H as <- <-. split; [intros x []|auto].
  - destruct (_execute_task_with_agent w tj aj s) as [r s1] eqn:E1.
    destruct (gather w rest s1) as [rs' s2] eqn:E2. injection H as <- <-.
    destruct (execute_raising _ _ _ _ _ _ Hex E1) as [R1 K1].
    destruct (IH _ _ _ Hex E2) as [R2 K2].
    split.
    + intros x [->|Hin]; [apply R1; reflexivity|apply R2; exact Hin].
    + intros Hs. apply K2, K1, Hs.
Qed.

Lemma process_results_no_success w ready results : forall i s r s',
  (forall x, In (Ok x) results -> success x = false) ->
  process_results w ready i results s = (r, s') ->
  completed_task_ids s' = completed_task_ids s
  /\ ((forall j t, tasks_of s !! j = Some t -> TaskEntity.status t <> COMPLETED) ->
      forall j t, tasks_of s' !! j = Some t -> TaskEntity.status t <> COMPLETED).
Proof.
  induction results as [|result_ rest IH]; intros i s r s' Hno H; simpl in H.
  - injection H as <- <-. split; [reflexivity|auto].
  - destruct (ready !! i) as [tj|]; [|injection H as <- <-; split; [reflexivity|auto]].
    destruct (tasks_of s !! tj) as [taskj|];
      [|injection H as <- <-; split; [reflexivity|auto]].
    assert (Hno' : forall x, In (Ok x) rest -> success x = false)
      by (intros x Hx; apply Hno; right; exact Hx).
    destruct result_ as [res_|e].
    + rewrite (Hno res_) in H by (left; reflexivity).
      destruct (IH _ _ _ _ Hno' H) as [C K]. split; [exact C|exact K].
    + destruct (task_call w _ tj s) as [[u|e'] s1] eqn:Ec.
      * destruct (IH _ _ _ _ Hno' H) as [C K].
        pose proof (task_frame_task_call w _ tj s s _ _ Ec (task_frame_refl tj s))
          as (C1 & _).
        split; [simpl in C; congruence|].
        intros Hs. apply K. intros j t Hj.
        change (tasks_of s1 !! j = Some t) in Hj. revert j t Hj.
        eapply task_call_not_completed; [exact Ec| |exact Hs].
        intros n t r' t'. apply fail_not_completed.
      * injection H as <- <-.
        pose proof (task_frame_task_call w _ tj s s _ _ Ec (task_frame_refl tj s))
          as (C1 & _).
        split; [exact C1|].
        intros Hs. eapply task_call_not_completed; [exact Ec| |exact Hs].
        intros n t r' t'. apply fail_not_completed.
Qed.

Lemma loop_body_raising w s :
  (forall k t a, exists e, executor w k t a = Raise e) ->
  nothing_completed s -> nothing_completed (snd (loop_body w s)).
Proof.
  intros Hex [Hc Hs]. unfold loop_body.
  destruct (ExecutionPlanEntity.get_ready_tasks (plan s) (completed_task_ids s))
    as [|r0 rest].
  - destruct (List.filter is_pending (tasks_of s)); [split; assumption|].
    destruct (_has_circular_dependencies _) as [[|]|]; split; assumption.
  - destruct (select_all w (r0 :: rest) s) as [exec s1] eqn:Es.
    destruct (select_all_spec w _ _ _ _ Es) as [(P1 & A1 & C1 & F1 & R1) _].
    assert (N1 : nothing_completed s1).
    { split; [congruence|]. unfold tasks_of. rewrite P1. exact Hs. }
    destruct exec as [|e0 exec']; [exact N1|].
    destruct (gather w (e0 :: exec') s1) as [results s2] eqn:Eg.
    destruct (gather_raising _ _ _ _ _ Hex Eg) as [Rg Kg].
    destruct (gather_kept w _ _ _ _ Eg) as (_ & C2 & _).
    destruct (process_results w (r0 :: rest) 0 results s2) as [u s3] eqn:Ep.
    destruct (process_results_no_success _ _ _ _ _ _ _ Rg Ep) as [C3 K3].
    destruct N1 as [Hc1 Hs1].
    assert (N3 : nothing_completed s3).
    { split; [congruence|]. apply K3, Kg, Hs1. }
    destruct u; exact N3.
Qed.

Lemma run_loop_raising w : forall fuel s r s',
  (forall k t a, exists e, executor w k t a = Raise e) ->
  run_loop w fuel s = Some (r, s') ->
  nothing_completed s -> nothing_completed s'.
Proof.
  induction fuel as [|fuel IH]; intros s r s' Hex H Hn; [discriminate|].
  simpl in H. pose proof (loop_body_raising w s Hex Hn) as Hn1.
  destruct (loop_body w s) as [[| |e] s1]; simpl in Hn1.
  - injection H as <- <-. exact Hn1.
  - eapply IH; eassumption.
  - injection H as <- <-. exact Hn1.
Qed.

(** X11.  With the executor call as the file has it, which awaits the
    value of the ordinary function [_get_real_agent_implementation] and so
    raises in every dispatch, [execute_plan] completes nothing: for a plan
    without Completed tasks, whatever the agents and the clock, when it
    returns, no identifier is reported as completed, no task is Completed,
    and the regular report has [success] false and success rate 0. *)
Theorem repository_executor_completes_nothing :
  forall (clock_ : nat -> Q) (fuel : nat) (agents : list AgentEntity.t) (k : nat)
         (p : ExecutionPlanEntity.t) (r : Report) (s' : OState),
    (forall t, In t (ExecutionPlanEntity.tasks p) -> TaskEntity.status t <> COMPLETED) ->
    execute_plan (repository_world clock_) fuel agents k p = Some (Ok r, s') ->
    report_completed r = []
    /\ (forall t, In t (tasks_of s') -> TaskEntity.status t <> COMPLETED)
    /\ match r with
       | ExecutionReport _ ok _ _ _ rate _ _ => ok = false /\ (rate == 0)%Q
       | ErrorReport _ _ _ _ => True
       end.
Proof.
  intros clock_ fuel agents k p r s' Hp H.
  destruct (execute_plan_inv _ _ _ _ _ _ _ H) as (Hst & s0 & -> & Hr & Hts & Hi & Hrun).
  set (w := repository_world clock_) in *.
  set (s0 := tick _) in *.
  assert (N0 : nothing_completed s0).
  { split; [reflexivity|]. intros j t Hj. apply Hp. rewrite <- Hts.
    apply list_elem_of_In. eapply list_elem_of_lookup_2. exact Hj. }
  unfold run_plan in Hrun.
  destruct (run_loop w fuel s0) as [[[u|e] s1]|] eqn:El; [| |discriminate].
  - destruct (run_loop_raising w _ _ _ _ (repository_executor_raises clock_) El N0)
      as [C1 S1].
    destruct (run_loop_kept w _ _ _ _ El) as ((K1 & _) & _).
    destruct (finish_running w s1) as (dur & s2 & Hf & F1 & F2 & F3 & F4);
      [congruence|].
    rewrite Hf in Hrun. injection Hrun as <- <-.
    split; [exact C1|]. split.
    + intros t Hin. rewrite F3 in Hin. apply list_elem_of_In in Hin.
      apply list_elem_of_lookup_1 in Hin as [j Hj]. eapply S1. exact Hj.
    + rewrite C1. simpl. destruct (length (tasks_of s1)); [split; reflexivity|].
      split; reflexivity.
  - injection Hrun as <- <-.
    destruct (run_loop_raising w _ _ _ _ (repository_executor_raises clock_) El N0)
      as [C1 S1].
    split; [exact C1|]. split; [|exact I].
    intros t Hin. apply list_elem_of_In in Hin.
    apply list_elem_of_lookup_1 in Hin as [j Hj]. eapply S1. exact Hj.
Qed.

Lemma repository_executor_completes_nothing_witness :
  exists r s',
    execute_plan (repository_world (fun k => nat_Q k)) 2 [steady_agent] 0 lonely_plan
    = Some (Ok r, s')
    /\ report_completed r = []
    /\ report_failed r = ["task_1"]
    /\ map TaskEntity.status (tasks_of s') = [FAILED]
    /\ map TaskEntity.error (tasks_of s')
       = [Some "object NoneType can't be used in 'await' expression"].
Proof.
  eexists _, _. split; [vm_compute; reflexivity|].
  split; [|repeat split; reflexivity].
  eapply (repository_executor_completes_nothing (fun k => nat_Q k) 2 [steady_agent] 0
            lonely_plan).
  - intros t [<-|[]]. discriminate.
  - vm_compute. reflexivity.
Defined.

(** ** The registry *)

Lemma register_in_ids a l :
  map AgentEntity.id (register_in a l)
  = if id_in (AgentEntity.id a) (map AgentEntity.id l)
    then map AgentEntity.id l
    else (map AgentEntity.id l ++ [AgentEntity.id a])%list.
Proof.
  induction l as [|x l IH]; [reflexivity|].
  simpl. unfold id_in in *. simpl.
  rewrite (String.eqb_sym (AgentEntity.id a) (AgentEntity.id x)).
  destruct (String.eqb (AgentEntity.id x) (AgentEntity.id a)) eqn:E; simpl.
  - apply String.eqb_eq in E. rewrite E. reflexivity.
  - rewrite IH. destruct (existsb _ _); reflexivity.
Qed.

Lemma register_in_found a l :
  exists j, register_in a l !! j = Some a
            /\ forall j' x, j' <> j -> l !! j' = Some x -> register_in a l !! j' = Some x.
Proof.
  induction l as [|y l (j & Hj & Ho)].
  - exists 0%nat. split; [reflexivity|]. intros j' x _ H. destruct j'; discriminate.
  - simpl. destruct (String.eqb (AgentEntity.id y) (AgentEntity.id a)).
    + exists 0%nat. split; [reflexivity|]. intros [|j'] x Hne H; [congruence|exact H].
    + exists (S j). split; [exact Hj|]. intros [|j'] x Hne H; [exact H|].
      apply Ho; [congruence|exact H].
Qed.

Lemma register_in_idem a l : register_in a (register_in a l) = register_in a l.
Proof.
  induction l as [|y l IH]; simpl.
  - rewrite String.eqb_refl. reflexivity.
  - destruct (String.eqb (AgentEntity.id y) (AgentEntity.id a)) eqn:E; simpl.
    + rewrite String.eqb_refl. reflexivity.
    + rewrite E, IH. reflexivity.
Qed.

(** X12.  [register_agent] keeps one agent per identifier.  An agent
    whose identifier is new goes to the end of the registry; otherwise it
    takes the place of the agent registered under its identifier, and the
    identifiers stay as they were.  Distinct identifiers stay distinct, the
    registered agent is found in the registry, every other position keeps
    its agent, registering the same agent again changes nothing, and the
    plan is not touched. *)
Theorem register_agent_by_identifier :
  forall (a : AgentEntity.t) (s : OState),
    let ids := map AgentEntity.id (active_agents s) in
    let s' := register_agent a s in
    map AgentEntity.id (active_agents s')
    = (if id_in (AgentEntity.id a) ids then ids else (ids ++ [AgentEntity.id a])%list)
    /\ (NoDup ids -> NoDup (map AgentEntity.id (active_agents s')))
    /\ (exists j, active_agents s' !! j = Some a
                  /\ forall j' x, j' <> j -> active_agents s !! j' = Some x ->
                       active_agents s' !! j' = Some x)
    /\ register_agent a s' = s'
    /\ plan s' = plan s.
Proof.
  intros a s ids s'. split; [apply register_in_ids|]. split; [|split; [|split]].
  - intros Hnd. unfold s', register_agent. simpl. rewrite register_in_ids.
    fold ids. destruct (id_in (AgentEntity.id a) ids) eqn:E; [exact Hnd|].
    apply NoDup_app. split; [exact Hnd|]. split; [|apply NoDup_singleton].
    intros x Hx Hx'. apply list_elem_of_singleton in Hx'. subst x.
    apply list_elem_of_In, id_in_In in Hx. congruence.
  - apply register_in_found.
  - unfold s', register_agent. simpl. rewrite register_in_idem. reflexivity.
  - reflexivity.
Qed.

(** X13.  Registration and selection together: once an available agent
    that declares the kind of a task is registered, [_select_best_agent]
    finds an agent for this task, and the agent it returns is available and
    declares the kind. *)
Theorem registered_agent_is_selectable :
  forall (w : World) (task : TaskEntity.t) (a : AgentEntity.t) (s : OState),
    qualifies a task ->
    exists j x,
      fst (_select_best_agent w task (register_agent a s)) = Some j
      /\ active_agents (register_agent a s) !! j = Some x
      /\ qualifies x task.
Proof.
  intros w task a s Hq.
  destruct (fst (_select_best_agent w task (register_agent a s))) as [j|] eqn:E.
  - destruct (select_some_qualifies w task _ j E) as (x & Hx & Hqx).
    exists j, x. repeat split; try assumption; apply Hqx.
  - exfalso. destruct (register_in_found a (active_agents s)) as (j & Hj & _).
    exact (proj1 (select_none_iff w task (register_agent a s)) E j a Hj Hq).
Qed.

Lemma registered_agent_is_selectable_witness :
  exists j x,
    fst (_select_best_agent quiet_world testing_task (register_agent steady_agent lonely_state))
    = Some j
    /\ active_agents (register_agent steady_agent lonely_state) !! j = Some x
    /\ qualifies x testing_task.
Proof.
  apply (registered_agent_is_selectable quiet_world testing_task steady_agent lonely_state).
  split; reflexivity.
Defined.

(** ** The score of an agent *)

Lemma nat_Q_le n m : (n <= m)%nat -> (nat_Q n <= nat_Q m)%Q.
Proof.
  intros H. unfold nat_Q. rewrite <- Zle_Qle. lia.
Qed.

Lemma Qmax_lower a b : (a <= Qmax a b)%Q.
Proof.
  unfold Qmax. destruct (Qltb a b) eqn:E; [apply Qltb_lt in E; lra|lra].
Qed.

Lemma Qmax_mono a b b' : (b <= b')%Q -> (Qmax a b <= Qmax a b')%Q.
Proof.
  intros H. unfold Qmax.
  destruct (Qltb a b) eqn:E; destruct (Qltb a b') eqn:E';
    try apply Qltb_lt in E; try apply Qltb_lt in E';
    try apply Qltb_ge in E; try apply Qltb_ge in E'; lra.
Qed.

Lemma Qmax_upper a b c : (a <= c)%Q -> (b <= c)%Q -> (Qmax a b <= c)%Q.
Proof.
  intros Ha Hb. unfold Qmax. destruct (Qltb a b); assumption.
Qed.

(** X14.  The score of an agent is never negative; it is at most 110
    when the recorded success rate is at most 1; and queueing one more task
    at the agent never raises its score. *)
Theorem agent_score_bounds :
  forall (now_ : Q) (a : AgentEntity.t) (task : TaskEntity.t),
    (0 <= _calculate_agent_score now_ a task)%Q
    /\ ((metric (AgentEntity.performance_metrics a) "success_rate" 0 <= 1)%Q ->
        (_calculate_agent_score now_ a task <= 110)%Q)
    /\ (forall task_id,
          (_calculate_agent_score now_ (AgentEntity.add_to_queue task_id a) task
           <= _calculate_agent_score now_ a task)%Q).
Proof.
  intros now_ a task. split; [apply Qmax_lower|]. split.
  - intros Hsr. rewrite calculate_agent_score_formula. unfold code_agent_score.
    apply Qmax_upper; [lra|].
    pose proof (nat_Q_nonneg (length (AgentEntity.task_queue a))) as Hq.
    unfold metric in Hsr.
    destruct (AgentEntity.performance_metrics a !! "success_rate");
      destruct (AgentEntity.can_handle_task a (TaskEntity.task_type task));
      destruct (3 <=? priority_value (TaskEntity.priority task))%Z;
      destruct (Qltb (now_ - AgentEntity.last_activity a) 60); lra.
  - intros task_id. rewrite !calculate_agent_score_formula. unfold code_agent_score.
    apply Qmax_mono.
    assert (Hq : (nat_Q (length (AgentEntity.task_queue a))
                  <= nat_Q (length (AgentEntity.task_queue
                                      (AgentEntity.add_to_queue task_id a))))%Q).
    { apply nat_Q_le. simpl. rewrite length_app. lia. }
    change (AgentEntity.performance_metrics (AgentEntity.add_to_queue task_id a))
      with (AgentEntity.performance_metrics a).
    change (AgentEntity.can_handle_task (AgentEntity.add_to_queue task_id a))
      with (AgentEntity.can_handle_task a).
    change (AgentEntity.last_activity (AgentEntity.add_to_queue task_id a))
      with (AgentEntity.last_activity a).
    destruct (AgentEntity.performance_metrics a !! "success_rate");
      destruct (AgentEntity.can_handle_task a (TaskEntity.task_type task));
      destruct (3 <=? priority_value (TaskEntity.priority task))%Z;
      destruct (Qltb (now_ - AgentEntity.last_activity a) 60); lra.
Qed.

(** ** Dependencies that nothing can satisfy *)

Lemma ids_kept_refl s s' : tasks_of s' = tasks_of s -> ids_kept s s'.
Proof. intros H j t' Hj. rewrite H in Hj. eauto. Qed.

Lemma ids_kept_trans s1 s2 s3 : ids_kept s1 s2 -> ids_kept s2 s3 -> ids_kept s1 s3.
Proof.
  intros H1 H2 j t3 Hj. destruct (H2 j t3 Hj) as (t2 & Hj2 & E2).
  destruct (H1 j t2 Hj2) as (t1 & Hj1 & E1). exists t1. split; [exact Hj1|congruence].
Qed.

Lemma task_call_ids w m ti s r s' :
  (forall n t, TaskEntity.id (snd (m n t)) = TaskEntity.id t) ->
  task_call w m ti s = (r, s') -> ids_kept s s'.
Proof.
  intros Hm. unfold task_call. intros H.
  destruct (tasks_of s !! ti) as [t0|] eqn:E;
    [|injection H as <- <-; apply ids_kept_refl; reflexivity].
  pose proof (Hm (now w s) t0) as Hid.
  assert (Hset : ids_kept s (set_task ti (snd (m (now w s) t0)) s)).
  { intros j t' Hj. apply set_task_lookup in Hj as [(-> & -> & _)|Hj]; eauto. }
  destruct (m (now w s) t0) as [[u|e] t']; injection H as <- <-; exact Hset.
Qed.

Lemma start_id n agent_id t :
  TaskEntity.id (snd (TaskEntity.start n agent_id t)) = TaskEntity.id t.
Proof. unfold TaskEntity.start. destruct (negb _); reflexivity. Qed.

Lemma complete_id n payload d t :
  TaskEntity.id (snd (TaskEntity.complete n payload d t)) = TaskEntity.id t.
Proof. unfold TaskEntity.complete. destruct (negb _); reflexivity. Qed.

Lemma fail_id n err d t :
  TaskEntity.id (snd (TaskEntity.fail n err d t)) = TaskEntity.id t.
Proof. unfold TaskEntity.fail. destruct (negb _); reflexivity. Qed.

Lemma execute_try_ids w ti ai st s r s' :
  execute_try w ti ai st s = (r, s') -> ids_kept s s'.
Proof.
  unfold execute_try. intros H.
  destruct (tasks_of s !! ti) as [task|];
    [|injection H as <- <-; apply ids_kept_refl; reflexivity].
  destruct (active_agents s !! ai) as [agent|];
    [|injection H as <- <-; apply ids_kept_refl; reflexivity].
  destruct (AgentEntity.assign_task (now w s) (TaskEntity.id task) agent)
    as [[u|e] agent1]; [|injection H as <- <-; apply ids_kept_refl; reflexivity].
  destruct (task_call w _ ti (tick (set_agent ai agent1 s))) as [[u1|e1] s1] eqn:Ec;
    pose proof (task_call_ids w _ ti _ _ _ (fun n t => start_id n _ t) Ec) as K1;
    [|injection H as <- <-; exact K1].
  destruct (executor w (ticks s1) _ agent1) as [result_|e];
    [|injection H as <- <-; exact K1].
  match type of H with
  | match ?c with _ => _ end = _ => destruct c as [[u2|e2] s2] eqn:Ef
  end;
    (assert (K3 : ids_kept s s2);
     [eapply ids_kept_trans; [exact K1|]; destruct (success result_);
      [exact (task_call_ids w _ ti _ _ _ (fun n t => complete_id n _ _ t) Ef)
      |exact (task_call_ids w _ ti _ _ _ (fun n t => fail_id n _ _ t) Ef)]|]);
    [|injection H as <- <-; exact K3].
  destruct (update_agent_metrics _ result_); injection H as <- <-; exact K3.
Qed.

Lemma execute_ids w ti ai s r s' :
  _execute_task_with_agent w ti ai s = (r, s') -> ids_kept s s'.
Proof.
  unfold _execute_task_with_agent. intros H.
  destruct (execute_try w ti ai (now w s) (tick s)) as [[result_|e] s1] eqn:E;
    pose proof (execute_try_ids _ _ _ _ _ _ _ E) as K1.
  - injection H as <- <-. exact K1.
  - destruct (task_call w _ ti (tick s1)) as [[u|e'] s2] eqn:Ec;
      pose proof (task_call_ids w _ ti _ _ _ (fun n t => fail_id n _ _ t) Ec) as K2.
    + destruct (active_agents s2 !! ai); injection H as <- <-;
        eapply ids_kept_trans; [exact K1|exact K2|exact K1|exact K2].
    + injection H as <- <-. eapply ids_kept_trans; [exact K1|exact K2].
Qed.

Lemma gather_ids w exec : forall s rs s',
  gather w exec s = (rs, s') -> ids_kept s s'.
Proof.
  induction exec as [|[tj aj] rest IH]; intros s rs s' H; simpl in H.
  - injection H as <- <-. apply ids_kept_refl. reflexivity.
  - destruct (_execute_task_with_agent w tj aj s) as [r s1] eqn:E1.
    destruct (gather w rest s1) as [rs' s2] eqn:E2. injection H as <- <-.
    eapply ids_kept_trans; [eapply execute_ids; exact E1|eapply IH; exact E2].
Qed.

(** What [process_results] adds to the list of completed identifiers are
    identifiers of tasks at ready positions. *)
Lemma process_results_ids w ready results : forall i s r s',
  process_results w ready i results s = (r, s') ->
  ids_kept s s'
  /\ exists extra,
       completed_task_ids s' = (completed_task_ids s ++ extra)%list
       /\ forall x, In x extra ->
            exists ti t, In ti ready /\ tasks_of s !! ti = Some t /\ TaskEntity.id t = x.
Proof.
  induction results as [|result_ rest IH]; intros i s r s' H; simpl in H.
  - injection H as <- <-. split; [apply ids_kept_refl; reflexivity|].
    exists []. rewrite app_nil_r. split; [reflexivity|intros x []].
  - destruct (ready !! i) as [tj|] eqn:Hi;
      [|injection H as <- <-; split; [apply ids_kept_refl; reflexivity|];
        exists []; rewrite app_nil_r; split; [reflexivity|intros x []]].
    assert (Hin : In tj ready).
    { apply list_elem_of_In. eapply list_elem_of_lookup_2. exact Hi. }
    destruct (tasks_of s !! tj) as [taskj|] eqn:Htj;
      [|injection H as <- <-; split; [apply ids_kept_refl; reflexivity|];
        exists []; rewrite app_nil_r; split; [reflexivity|intros x []]].
    destruct result_ as [res_|e].
    + destruct (IH _ _ _ _ H) as (K & extra & C & Hx).
      assert (Kt : forall x, In x extra ->
                     exists ti t, In ti ready /\ tasks_of s !! ti = Some t
                                  /\ TaskEntity.id t = x).
      { intros x Hxin. destruct (Hx x Hxin) as (ti & t & H1 & H2 & H3).
        exists ti, t. split; [exact H1|]. split; [|exact H3].
        destruct (success res_); exact H2. }
      split; [destruct (success res_); exact K|].
      destruct (success res_); simpl in C.
      * exists (TaskEntity.id taskj :: extra). split.
        { rewrite C, <- app_assoc. reflexivity. }
        intros x [<-|Hxin]; [exists tj, taskj; auto|apply Kt, Hxin].
      * exists extra. split; [exact C|exact Kt].
    + destruct (task_call w _ tj s) as [[u|e'] s1] eqn:Ec;
        pose proof (task_call_ids w _ tj _ _ _ (fun n t => fail_id n _ _ t) Ec) as K1;
        pose proof (task_frame_task_call w _ tj s s _ _ Ec (task_frame_refl tj s))
          as (C1 & _).
      * destruct (IH _ _ _ _ H) as (K & extra & C & Hx).
        split; [eapply ids_kept_trans; [exact K1|exact K]|].
        exists extra. split; [simpl in C; congruence|].
        intros x Hxin. destruct (Hx x Hxin) as (ti & t & H1 & H2 & H3).
        destruct (K1 ti t H2) as (t0 & H4 & H5).
        exists ti, t0. split; [exact H1|]. split; [exact H4|congruence].
      * injection H as <- <-. split; [exact K1|].
        exists []. rewrite app_nil_r. split; [exact C1|intros x []].
Qed.

(** The invariant: position [i] holds [t], the identifier [d] is not listed
    as completed, and no Pending task carries it. *)
Lemma loop_body_dangling w s i t d :
  tasks_of s !! i = Some t -> In d (TaskEntity.dependencies t) ->
  ~ In d (completed_task_ids s) ->
  (forall j t', tasks_of s !! j = Some t' -> TaskEntity.id t' = d ->
     TaskEntity.status t' <> PENDING) ->
  let s' := snd (loop_body w s) in
  tasks_of s' !! i = Some t
  /\ ~ In d (completed_task_ids s')
  /\ (forall j t', tasks_of s' !! j = Some t' -> TaskEntity.id t' = d ->
        TaskEntity.status t' <> PENDING).
Proof.
  intros Ht Hd Hc Hp s'.
  assert (Hready : forall j, In j (ExecutionPlanEntity.get_ready_tasks (plan s)
                                     (completed_task_ids s)) ->
                     exists tj, tasks_of s !! j = Some tj
                                /\ TaskEntity.status tj = PENDING
                                /\ TaskEntity.can_start tj (completed_task_ids s) = true).
  { intros j Hj. apply ready_indices_spec in Hj as (tj & H1 & H2 & H3).
    exists tj. split; [exact H1|]. split; [|exact H3].
    unfold is_pending in H2. destruct (TaskEntity.status tj); try discriminate.
    reflexivity. }
  assert (Hni : ~ In i (ExecutionPlanEntity.get_ready_tasks (plan s)
                          (completed_task_ids s))).
  { intros Hin. destruct (Hready i Hin) as (ti & H1 & _ & H3).
    assert (E : Some ti = Some t) by exact (eq_trans (eq_sym H1) Ht).
    injection E as ->. unfold TaskEntity.can_start in H3.
    rewrite forallb_forall in H3. apply Hc, id_in_In, H3, Hd. }
  assert (Hids : ids_kept s s'
                 /\ exists extra,
                      completed_task_ids s' = (completed_task_ids s ++ extra)%list
                      /\ forall x, In x extra ->
                           exists ti tk, In ti (ExecutionPlanEntity.get_ready_tasks
                                                  (plan s) (completed_task_ids s))
                                         /\ tasks_of s !! ti = Some tk
                                         /\ TaskEntity.id tk = x).
  { unfold s', loop_body.
    assert (Hsame : ids_kept s s
                    /\ exists extra,
                         completed_task_ids s = (completed_task_ids s ++ extra)%list
                         /\ forall x, In x extra ->
                              exists ti tk, In ti (ExecutionPlanEntity.get_ready_tasks
                                                     (plan s) (completed_task_ids s))
                                            /\ tasks_of s !! ti = Some tk
                                            /\ TaskEntity.id tk = x).
    { split; [apply ids_kept_refl; reflexivity|].
      exists []. rewrite app_nil_r. split; [reflexivity|intros x []]. }
    destruct (ExecutionPlanEntity.get_ready_tasks (plan s) (completed_task_ids s))
      as [|r0 rest] eqn:Hr.
    - destruct (List.filter is_pending (tasks_of s)); [exact Hsame|].
      destruct (_has_circular_dependencies _) as [[|]|]; exact Hsame.
    - destruct (select_all w (r0 :: rest) s) as [exec s1] eqn:Es.
      destruct (select_all_spec w _ _ _ _ Es) as [(P1 & A1 & C1 & F1 & R1) _].
      assert (T1 : tasks_of s1 = tasks_of s) by (unfold tasks_of; rewrite P1; reflexivity).
      destruct exec as [|e0 exec'].
      + simpl. split; [apply ids_kept_refl; exact T1|].
        exists []. rewrite app_nil_r. split; [exact C1|intros x []].
      + destruct (gather w (e0 :: exec') s1) as [results s2] eqn:Eg.
        pose proof (gather_ids w _ _ _ _ Eg) as K2.
        destruct (gather_kept w _ _ _ _ Eg) as (_ & C2 & _).
        destruct (process_results w (r0 :: rest) 0 results s2) as [u s3] eqn:Ep.
        destruct (process_results_ids w _ _ _ _ _ _ Ep) as (K3 & extra & C3 & Hx).
        assert (K12 : ids_kept s s2).
        { eapply ids_kept_trans; [apply ids_kept_refl; exact T1|exact K2]. }
        assert (Hres : ids_kept s s3
                       /\ exists extra,
                            completed_task_ids s3 = (completed_task_ids s ++ extra)%list
                            /\ forall x, In x extra ->
                                 exists ti tk, In ti (r0 :: rest)
                                               /\ tasks_of s !! ti = Some tk
                                               /\ TaskEntity.id tk = x).
        { split; [eapply ids_kept_trans; [exact K12|exact K3]|].
          exists extra. split; [congruence|].
          intros x Hxin. destruct (Hx x Hxin) as (ti & tk & H1 & H2 & H3).
          destruct (K12 ti tk H2) as (t0 & H4 & H5).
          exists ti, t0. split; [exact H1|]. split; [exact H4|congruence]. }
        destruct u; exact Hres. }
  destruct Hids as (K & extra & C & Hx).
  destruct (loop_body_kept w s) as (_ & _ & T).
  fold s' in T.
  split; [rewrite T; [exact Ht|exact Hni]|]. split.
  - rewrite C. intros Hin. apply in_app_or in Hin as [Hin|Hin]; [exact (Hc Hin)|].
    destruct (Hx d Hin) as (ti & tk & H1 & H2 & H3).
    destruct (Hready ti H1) as (tk' & H4 & H5 & _).
    assert (E : Some tk' = Some tk) by exact (eq_trans (eq_sym H4) H2).
    injection E as ->. exact (Hp ti tk H2 H3 H5).
  - intros j t' Hj Hid.
    destruct (K j t' Hj) as (t0 & Hj0 & E0).
    assert (Hn0 : TaskEntity.status t0 <> PENDING) by (apply (Hp j t0 Hj0); congruence).
    assert (Hnj : ~ In j (ExecutionPlanEntity.get_ready_tasks (plan s)
                            (completed_task_ids s))).
    { intros Hin. destruct (Hready j Hin) as (tj & H1 & H2 & _).
      assert (E : Some tj = Some t0) by exact (eq_trans (eq_sym H1) Hj0).
      injection E as ->. exact (Hn0 H2). }
    rewrite (T j Hnj) in Hj.
    assert (E : Some t' = Some t0) by exact (eq_trans (eq_sym Hj) Hj0).
    injection E as ->. exact Hn0.
Qed.

Lemma run_loop_dangling w i t d : forall fuel s r s',
  run_loop w fuel s = Some (r, s') ->
  tasks_of s !! i = Some t -> In d (TaskEntity.dependencies t) ->
  ~ In d (completed_task_ids s) ->
  (forall j t', tasks_of s !! j = Some t' -> TaskEntity.id t' = d ->
     TaskEntity.status t' <> PENDING) ->
  tasks_of s' !! i = Some t /\ ~ In d (completed_task_ids s').
Proof.
  induction fuel as [|fuel IH]; intros s r s' H Ht Hd Hc Hp; [discriminate|].
  simpl in H.
  destruct (loop_body_dangling w s i t d Ht Hd Hc Hp) as (Ht1 & Hc1 & Hp1).
  destruct (loop_body w s) as [[| |e] s1]; simpl in Ht1, Hc1, Hp1.
  - injection H as <- <-. split; assumption.
  - eapply IH; eassumption.
  - injection H as <- <-. split; assumption.
Qed.

(** X15.  Only tasks completed during the call satisfy a dependency.  A
    task with a dependency that is not the identifier of a Pending task of
    the plan (the identifier of a task finished before the call, or of no
    task at all) is never started: when [execute_plan] returns, the task is
    unchanged and the dependency is not among the completed identifiers. *)
Theorem dangling_dependency_never_starts :
  forall (w : World) (fuel : nat) (agents : list AgentEntity.t) (k : nat)
         (p : ExecutionPlanEntity.t) (r : Report) (s' : OState)
         (i : nat) (t : TaskEntity.t) (d : TaskId),
    execute_plan w fuel agents k p = Some (Ok r, s') ->
    ExecutionPlanEntity.tasks p !! i = Some t ->
    In d (TaskEntity.dependencies t) ->
    (forall t', In t' (ExecutionPlanEntity.tasks p) ->
       TaskEntity.id t' = d -> TaskEntity.status t' <> PENDING) ->
    tasks_of s' !! i = Some t /\ ~ In d (report_completed r).
Proof.
  intros w fuel agents k p r s' i t d H Ht Hd Hp.
  destruct (execute_plan_inv _ _ _ _ _ _ _ H) as (Hst & s0 & -> & Hr & Hts & Hi & Hrun).
  set (s0 := tick _) in *.
  assert (Ht0 : tasks_of s0 !! i = Some t) by (rewrite Hts; exact Ht).
  assert (Hc0 : ~ In d (completed_task_ids s0)) by (intros []).
  assert (Hp0 : forall j t', tasks_of s0 !! j = Some t' -> TaskEntity.id t' = d ->
                  TaskEntity.status t' <> PENDING).
  { intros j t' Hj. apply Hp. rewrite <- Hts. apply list_elem_of_In.
    eapply list_elem_of_lookup_2. exact Hj. }
  unfold run_plan in Hrun.
  destruct (run_loop w fuel s0) as [[[u|e] s1]|] eqn:El; [| |discriminate].
  - destruct (run_loop_dangling w i t d _ _ _ _ El Ht0 Hd Hc0 Hp0) as [T C].
    destruct (run_loop_kept w _ _ _ _ El) as ((K1 & _) & _).
    destruct (finish_running w s1) as (dur & s2 & Hf & F1 & F2 & F3 & F4);
      [congruence|].
    rewrite Hf in Hrun. injection Hrun as <- <-.
    split; [rewrite F3; exact T|exact C].
  - injection Hrun as <- <-.
    exact (run_loop_dangling w i t d _ _ _ _ El Ht0 Hd Hc0 Hp0).
Qed.

Lemma dangling_dependency_never_starts_witness :
  exists r s',
    execute_plan quiet_world 1 [all_round_agent] 0 stuck_plan = Some (Ok r, s')
    /\ tasks_of s' !! 2%nat = ExecutionPlanEntity.tasks stuck_plan !! 2%nat
    /\ ~ In "task_0" (report_completed r).
Proof.
  eexists _, _. split; [vm_compute; reflexivity|].
  eapply (dangling_dependency_never_starts quiet_world 1 [all_round_agent] 0 stuck_plan).
  - vm_compute. reflexivity.
  - reflexivity.
  - left. reflexivity.
  - intros t' [<-|[<-|[<-|[]]]]; discriminate.
Defined.

(** ** Progress and growth of a plan *)

Lemma filter_length_le {A} (f : A -> bool) l :
  (length (List.filter f l) <= length l)%nat.
Proof.
  induction l as [|x l IH]; simpl; [lia|]. destruct (f x); simpl; lia.
Qed.

Lemma filter_length_all {A} (f : A -> bool) l :
  length (List.filter f l) = length l <-> forall x, In x l -> f x = true.
Proof.
  induction l as [|x l IH]; simpl.
  - split; [intros _ x []|reflexivity].
  - pose proof (filter_length_le f l) as Hle. destruct (f x) eqn:E; simpl.
    + split.
      * intros H y [<-|Hy]; [exact E|]. apply IH; [lia|exact Hy].
      * intros H. f_equal. apply IH. intros y Hy. apply H. right. exact Hy.
    + split; [lia|]. intros H. specialize (H x (or_introl eq_refl)). congruence.
Qed.

Lemma nat_Q_inj n m : (nat_Q n == nat_Q m)%Q -> n = m.
Proof.
  unfold nat_Q, Qeq. simpl. lia.
Qed.

(** X16.  The completion percentage of a plan lies between 0 and 100; it
    is 0 for a plan without tasks (no division by zero); and for a plan with
    tasks it is 100 exactly when every task is Completed or Failed
    (Cancelled tasks do not count as finished). *)
Theorem completion_percentage_range :
  forall p : ExecutionPlanEntity.t,
    (0 <= ExecutionPlanEntity.get_completion_percentage p)%Q
    /\ (ExecutionPlanEntity.get_completion_percentage p <= 100)%Q
    /\ (ExecutionPlanEntity.tasks p = [] ->
        ExecutionPlanEntity.get_completion_percentage p = 0%Q)
    /\ (ExecutionPlanEntity.tasks p <> [] ->
        ((ExecutionPlanEntity.get_completion_percentage p == 100)%Q
         <-> forall t, In t (ExecutionPlanEntity.tasks p) -> finished t)).
Proof.
  intros p. unfold ExecutionPlanEntity.get_completion_percentage.
  destruct (ExecutionPlanEntity.tasks p) as [|t0 ts] eqn:Et.
  - split; [lra|]. split; [lra|]. split; [reflexivity|]. intros H. contradiction.
  - set (f := fun tk => status_eqb (TaskEntity.status tk) COMPLETED
                        || status_eqb (TaskEntity.status tk) FAILED).
    set (l := t0 :: ts).
    pose proof (filter_length_le f l) as Hle.
    assert (Hn : (1 <= nat_Q (length l))%Q) by (apply nat_Q_pos; simpl; lia).
    pose proof (nat_Q_nonneg (length (List.filter f l))) as Hc.
    pose proof (nat_Q_le _ _ Hle) as Hcn.
    set (c := nat_Q (length (List.filter f l))) in *.
    set (n := nat_Q (length l)) in *.
    assert (H0 : (0 <= c / n)%Q) by (apply Qdiv_nonneg; lra).
    assert (H1 : (c / n <= 1)%Q) by (apply Qle_shift_div_r; lra).
    split; [lra|]. split; [lra|]. split; [discriminate|]. intros _.
    assert (Hf : forall t, f t = true <-> finished t).
    { intros t. unfold f, finished. destruct (TaskEntity.status t); simpl;
        split; intros H; try discriminate; try tauto;
        destruct H; discriminate. }
    split.
    + intros H t Hin. apply Hf.
      apply (proj1 (filter_length_all f l)); [|exact Hin].
      apply nat_Q_inj. fold c n.
      assert (E : (c == c / n * n)%Q).
      { rewrite Qmult_comm, Qmult_div_r; [reflexivity|lra]. }
      assert (E1 : (c / n == 1)%Q) by lra.
      rewrite E, E1. lra.
    + intros H.
      assert (E : length (List.filter f l) = length l).
      { apply filter_length_all. intros t Hin. apply Hf, H, Hin. }
      unfold c. rewrite E. fold n.
      assert (E1 : (n / n == 1)%Q) by (apply Qmult_inv_r; lra).
      rewrite E1. lra.
Qed.

Lemma ready_from_app (f : TaskEntity.t -> bool) ts t : forall k,
  map fst (List.filter (fun p : nat * TaskEntity.t => f (snd p))
             (combine (seq k (length (ts ++ [t]))) (ts ++ [t])))
  = (map fst (List.filter (fun p : nat * TaskEntity.t => f (snd p))
                (combine (seq k (length ts)) ts))
     ++ (if f t then [(k + length ts)%nat] else []))%list.
Proof.
  induction ts as [|x ts IH]; intros k; simpl.
  - rewrite Nat.add_0_r. destruct (f t); reflexivity.
  - replace (k + S (length ts))%nat with (S k + length ts)%nat by lia.
    destruct (f x); simpl; rewrite IH; reflexivity.
Qed.

(** X17.  [add_task] puts the task behind the others: the tasks that
    were ready stay ready at their positions, and the new one is ready, at
    the last position, exactly when it is Pending with all its dependencies
    completed.  A total duration that is the sum of the tasks' estimates
    stays so; status and complexity score of the plan are not touched (the
    score is not recomputed). *)
Theorem add_task_extends_plan :
  forall (p : ExecutionPlanEntity.t) (t : TaskEntity.t) (completed : list TaskId),
    ExecutionPlanEntity.get_ready_tasks (ExecutionPlanEntity.add_task t p) completed
    = (ExecutionPlanEntity.get_ready_tasks p completed
       ++ (if is_pending t && TaskEntity.can_start t completed
           then [length (ExecutionPlanEntity.tasks p)] else []))%list
    /\ ((ExecutionPlanEntity.estimated_total_duration p
         == Qsum (map TaskEntity.estimated_duration (ExecutionPlanEntity.tasks p)))%Q ->
        (ExecutionPlanEntity.estimated_total_duration (ExecutionPlanEntity.add_task t p)
         == Qsum (map TaskEntity.estimated_duration
                    (ExecutionPlanEntity.tasks (ExecutionPlanEntity.add_task t p))))%Q)
    /\ ExecutionPlanEntity.status (ExecutionPlanEntity.add_task t p)
       = ExecutionPlanEntity.status p
    /\ ExecutionPlanEntity.complexity_score (ExecutionPlanEntity.add_task t p)
       = ExecutionPlanEntity.complexity_score p.
Proof.
  intros p t completed. split; [|split; [|split; reflexivity]].
  - unfold ExecutionPlanEntity.get_ready_tasks, ExecutionPlanEntity.ready_indices.
    simpl.
    exact (ready_from_app
             (fun tk => status_eqb (TaskEntity.status tk) PENDING
                        && TaskEntity.can_start tk completed)
             (ExecutionPlanEntity.tasks p) t 0).
  - intros H.
    change (ExecutionPlanEntity.estimated_total_duration p
            + TaskEntity.estimated_duration t
            == Qsum (map TaskEntity.estimated_duration
                       (ExecutionPlanEntity.tasks p ++ [t])%list))%Q.
    rewrite map_app. unfold Qsum in *. rewrite fold_left_app. simpl.
    set (q := fold_left Qplus _ 0%Q) in *. lra.
Qed.

(** ** Performance metrics *)

Lemma Qmin_upper a b : (Qmin a b <= a)%Q.
Proof.
  unfold Qmin. destruct (Qltb b a) eqn:E; [apply Qltb_lt in E; lra|lra].
Qed.

Lemma Qmin_lower a b c : (c <= a)%Q -> (c <= b)%Q -> (c <= Qmin a b)%Q.
Proof.
  intros Ha Hb. unfold Qmin. destruct (Qltb b a); assumption.
Qed.

Lemma py_div_cases a b :
  (b == 0 /\ py_div a b = Raise ZeroDivisionError)%Q
  \/ (~ (b == 0)%Q /\ py_div a b = Ok (a / b)%Q).
Proof.
  unfold py_div. destruct (Qeq_bool b 0) eqn:E.
  - left. split; [apply Qeq_bool_iff, E|reflexivity].
  - right. split; [|reflexivity]. intros H. apply Qeq_bool_iff in H. congruence.
Qed.

Lemma Qdiv_times a b : ~ (b == 0)%Q -> (a / b * b == a)%Q.
Proof.
  intros Hb. rewrite Qmult_comm. apply Qmult_div_r. exact Hb.
Qed.

Lemma efficiency_score_by_cases (self : PerformanceMetrics.t) :
  ((PerformanceMetrics.total_tasks_completed self == 0)%Q
   /\ PerformanceMetrics.calculate_efficiency_score self = Ok 0%Q)
  \/ (~ (PerformanceMetrics.total_tasks_completed self == 0)%Q
      /\ (PerformanceMetrics.average_duration self + 0.1 == 0)%Q
      /\ PerformanceMetrics.calculate_efficiency_score self = Raise ZeroDivisionError)
  \/ (~ (PerformanceMetrics.total_tasks_completed self == 0)%Q
      /\ ~ (PerformanceMetrics.average_duration self + 0.1 == 0)%Q
      /\ exists q,
           PerformanceMetrics.calculate_efficiency_score self = Ok q
           /\ (q <= 1)%Q
           /\ ((0 <= PerformanceMetrics.success_rate self)%Q -> (0.03 <= q)%Q)).
Proof.
  unfold PerformanceMetrics.calculate_efficiency_score.
  destruct (Qeq_bool (PerformanceMetrics.total_tasks_completed self) 0) eqn:E.
  - left. apply Qeq_bool_iff in E. split; [exact E|reflexivity].
  - right.
    assert (Hn : ~ (PerformanceMetrics.total_tasks_completed self == 0)%Q).
    { intros H. apply Qeq_bool_iff in H. congruence. }
    destruct (py_div_cases 1 (PerformanceMetrics.average_duration self + 0.1))
      as [[Hz ->]|[Hnz ->]].
    + left. split; [exact Hn|]. split; [exact Hz|reflexivity].
    + right. split; [exact Hn|]. split; [exact Hnz|].
      eexists. split; [reflexivity|]. split; [apply Qmin_upper|].
      pose proof (Qmax_lower 0.1 (1 / (PerformanceMetrics.average_duration self + 0.1)))
        as Hs.
      set (sf := Qmax 0.1 _) in *.
      intros Hsr. apply Qmin_lower; lra.
Qed.

(** X18.  [calculate_efficiency_score], case by case: it is 0 when no task
    was completed; otherwise it raises [ZeroDivisionError] exactly when the
    average duration is -0.1, and else returns a score of at most 1, which
    is at least 0.03 when the success rate is not negative. *)
Theorem efficiency_score_cases :
  forall self : PerformanceMetrics.t,
    match PerformanceMetrics.calculate_efficiency_score self with
    | Raise e =>
        e = ZeroDivisionError
        /\ ~ (PerformanceMetrics.total_tasks_completed self == 0)%Q
        /\ (PerformanceMetrics.average_duration self + 0.1 == 0)%Q
    | Ok q =>
        (q <= 1)%Q
        /\ ((PerformanceMetrics.total_tasks_completed self == 0)%Q -> q = 0%Q)
        /\ (~ (PerformanceMetrics.total_tasks_completed self == 0)%Q ->
            ~ (PerformanceMetrics.average_duration self + 0.1 == 0)%Q
            /\ ((0 <= PerformanceMetrics.success_rate self)%Q -> (0.03 <= q)%Q))
    end.
Proof.
  intros self.
  destruct (efficiency_score_by_cases self)
    as [[Hz ->]|[(Hn & Hz & ->)|(Hn & Hnz & q & -> & Hq & Hlow)]].
  - split; [lra|]. split; [reflexivity|]. intros H. contradiction.
  - split; [reflexivity|]. split; assumption.
  - split; [exact Hq|]. split; [intros H; contradiction|].
    intros _. split; assumption.
Qed.

(** The update, unfolded: where it raises and what it returns. *)
Lemma update_with_result_by_cases (self : PerformanceMetrics.t) (r : TaskResult) :
  let n := PerformanceMetrics.total_tasks_completed self in
  let sr := ((PerformanceMetrics.success_rate self * n + (if success r then 1 else 0))
             / (n + 1))%Q in
  let avg := ((PerformanceMetrics.average_duration self * n + duration r) / (n + 1))%Q in
  let er := ((PerformanceMetrics.error_rate self * n + (if success r then 0 else 1))
             / (n + 1))%Q in
  (((n + 1 == 0)%Q \/ (avg + 0.1 == 0)%Q)
   /\ PerformanceMetrics.update_with_result self r = Raise ZeroDivisionError)
  \/ (~ (n + 1 == 0)%Q /\ ~ (avg + 0.1 == 0)%Q
      /\ exists q,
           PerformanceMetrics.update_with_result self r
           = Ok (PerformanceMetrics.mk sr avg (n + 1) er q)
           /\ (q <= 1)%Q /\ ((0 <= sr)%Q -> (0.03 <= q)%Q)).
Proof.
  intros n sr avg er. unfold PerformanceMetrics.update_with_result. fold n.
  destruct (py_div_cases (PerformanceMetrics.success_rate self * n
                          + (if success r then 1 else 0)) (n + 1))
    as [[Hz E1]|[Hnz E1]]; rewrite E1.
  { left. split; [left; exact Hz|reflexivity]. }
  destruct (py_div_cases (PerformanceMetrics.average_duration self * n + duration r)
                         (n + 1)) as [[Hz E2]|[_ E2]]; [contradiction|rewrite E2].
  destruct (py_div_cases (PerformanceMetrics.error_rate self * n
                          + (if success r then 0 else 1)) (n + 1))
    as [[Hz E3]|[_ E3]]; [contradiction|rewrite E3].
  fold sr avg er.
  destruct (efficiency_score_by_cases (PerformanceMetrics.mk sr avg (n + 1) er 0))
    as [[Hz _]|[(_ & Hz & ->)|(_ & Hnz2 & q & -> & Hq & Hlow)]]; simpl in *.
  - contradiction.
  - left. split; [right; exact Hz|reflexivity].
  - right. split; [exact Hnz|]. split; [exact Hnz2|].
    exists q. split; [reflexivity|]. split; assumption.
Qed.

(** X19.  [update_with_result], case by case: it raises exactly when the
    new count of tasks is 0 or the new average duration is -0.1, and then
    the exception is [ZeroDivisionError]; otherwise the new count is the old
    one plus one, success rate, average duration and error rate are the
    running means of the old values and the new result, and the efficiency
    score is at most 1. *)
Theorem update_with_result_cases :
  forall (self : PerformanceMetrics.t) (r : TaskResult),
    let n := PerformanceMetrics.total_tasks_completed self in
    let avg := ((PerformanceMetrics.average_duration self * n + duration r) / (n + 1))%Q in
    match PerformanceMetrics.update_with_result self r with
    | Raise e =>
        e = ZeroDivisionError /\ ((n + 1 == 0)%Q \/ (avg + 0.1 == 0)%Q)
    | Ok u =>
        ~ (n + 1 == 0)%Q /\ ~ (avg + 0.1 == 0)%Q
        /\ PerformanceMetrics.total_tasks_completed u = (n + 1)%Q
        /\ (PerformanceMetrics.success_rate u * (n + 1)
            == PerformanceMetrics.success_rate self * n
               + (if success r then 1 else 0))%Q
        /\ (PerformanceMetrics.average_duration u * (n + 1)
            == PerformanceMetrics.average_duration self * n + duration r)%Q
        /\ (PerformanceMetrics.error_rate u * (n + 1)
            == PerformanceMetrics.error_rate self * n
               + (if success r then 0 else 1))%Q
        /\ (PerformanceMetrics.efficiency_score u <= 1)%Q
    end.
Proof.
  intros self r. cbv zeta.
  pose proof (update_with_result_by_cases self r) as Hc. cbv zeta in Hc.
  destruct Hc as [[Hz ->]|(Hnz & Hnz2 & q & -> & Hq & _)].
  - split; [reflexivity|exact Hz].
  - split; [exact Hnz|]. split; [exact Hnz2|]. split; [reflexivity|]. simpl.
    split; [apply Qdiv_times, Hnz|]. split; [apply Qdiv_times, Hnz|].
    split; [apply Qdiv_times, Hnz|exact Hq].
Qed.

(** X20.  On metrics with a count and an average duration that are not
    negative, and a result whose duration is not negative,
    [update_with_result] does not raise and the new average duration is not
    negative; a success rate between 0 and 1 stays between 0 and 1, with an
    efficiency score between 0.03 and 1; and from the first result on
    (initially no task counted, or success rate and error rate adding up to
    1) success rate and error rate add up to 1. *)
Theorem update_with_result_running_average :
  forall (self : PerformanceMetrics.t) (r : TaskResult),
    (0 <= PerformanceMetrics.total_tasks_completed self)%Q ->
    (0 <= PerformanceMetrics.average_duration self)%Q ->
    (0 <= duration r)%Q ->
    exists u,
      PerformanceMetrics.update_with_result self r = Ok u
      /\ (0 <= PerformanceMetrics.average_duration u)%Q
      /\ ((0 <= PerformanceMetrics.success_rate self <= 1)%Q ->
          (0 <= PerformanceMetrics.success_rate u <= 1)%Q
          /\ (0.03 <= PerformanceMetrics.efficiency_score u <= 1)%Q)
      /\ ((PerformanceMetrics.total_tasks_completed self == 0)%Q
          \/ (PerformanceMetrics.success_rate self
              + PerformanceMetrics.error_rate self == 1)%Q ->
          (PerformanceMetrics.success_rate u + PerformanceMetrics.error_rate u == 1)%Q).
Proof.
  intros self r Hn Havg Hd.
  pose proof (update_with_result_by_cases self r) as Hc. simpl in Hc.
  set (n := PerformanceMetrics.total_tasks_completed self) in *.
  assert (Hpos : (0 < n + 1)%Q) by lra.
  assert (Havg1 : (0 <= (PerformanceMetrics.average_duration self * n + duration r)
                        / (n + 1))%Q).
  { apply Qdiv_nonneg; [|exact Hpos].
    pose proof (Qmult_le_0_compat _ _ Havg Hn). lra. }
  destruct Hc as [[[Hz|Hz] _]|(_ & _ & q & -> & Hq & Hlow)]; [lra|lra|].
  eexists. split; [reflexivity|]. simpl.
  split; [exact Havg1|]. split.
  - intros [Hs0 Hs1].
    pose proof (Qmult_le_0_compat _ _ Hs0 Hn) as Hm.
    assert (Hm1 : (PerformanceMetrics.success_rate self * n <= n)%Q).
    { pose proof (Qmult_le_compat_r _ _ n Hs1 Hn) as Hm1. lra. }
    assert (Hsr : (0 <= (PerformanceMetrics.success_rate self * n
                         + (if success r then 1 else 0)) / (n + 1) <= 1)%Q).
    { split.
      - apply Qdiv_nonneg; [destruct (success r); lra|exact Hpos].
      - apply Qle_shift_div_r; [exact Hpos|]. destruct (success r); lra. }
    split; [exact Hsr|]. split; [apply Hlow, Hsr|exact Hq].
  - intros Hsum.
    assert (Hadd : forall a b c : Q, ~ (c == 0)%Q -> (a / c + b / c == (a + b) / c)%Q).
    { intros a b c Hc. field. exact Hc. }
    rewrite Hadd by lra.
    assert (Htot : (PerformanceMetrics.success_rate self * n
                    + (if success r then 1 else 0)
                    + (PerformanceMetrics.error_rate self * n
                       + (if success r then 0 else 1)) == n + 1)%Q).
    { destruct Hsum as [H0|H1].
      - rewrite H0. destruct (success r); ring.
      - assert (E : (PerformanceMetrics.success_rate self * n
                     + (if success r then 1 else 0)
                     + (PerformanceMetrics.error_rate self * n
                        + (if success r then 0 else 1))
                     == (PerformanceMetrics.success_rate self
                         + PerformanceMetrics.error_rate self) * n + 1)%Q)
          by (destruct (success r); ring).
        rewrite E, H1. ring. }
    rewrite Htot. apply Qmult_inv_r. lra.
Qed.

Lemma update_with_result_running_average_witness :
  exists u,
    PerformanceMetrics.update_with_result sample_metrics
      (mkTaskResult true None None 8) = Ok u
    /\ (0 <= PerformanceMetrics.average_duration u)%Q
    /\ ((0 <= 2 # 3 <= 1)%Q ->
        (0 <= PerformanceMetrics.success_rate u <= 1)%Q
        /\ (0.03 <= PerformanceMetrics.efficiency_score u <= 1)%Q)
    /\ ((3 == 0)%Q \/ ((2 # 3) + (1 # 3) == 1)%Q ->
        (PerformanceMetrics.success_rate u + PerformanceMetrics.error_rate u == 1)%Q).
Proof.
  apply (update_with_result_running_average sample_metrics
           (mkTaskResult true None None 8)); simpl; lra.
Defined.

(** ** Plans as the builder makes them *)

Lemma analyze_task_duration_pos text :
  (0 < TaskAnalysisResult.estimated_duration (analyze_task text))%Q.
Proof.
  destruct (analyze_task_cases text) as [(r & Hw & ->)|[_ ->]]; [|reflexivity].
  apply wins_in in Hw. simpl in Hw.
  repeat (destruct Hw as [<-|Hw]; [reflexivity|]). contradiction.
Qed.

Lemma Qsum_pos l :
  l <> [] -> (forall x, In x l -> (0 < x)%Q) -> (0 < Qsum l)%Q.
Proof.
  intros Hne Hl.
  assert (H0 : forall l, (forall x, In x l -> (0 < x)%Q) -> (0 <= Qsum l)%Q).
  { clear. induction l as [|x l IH]; intros H; [unfold Qsum; simpl; lra|].
    rewrite Qsum_cons. pose proof (H x (or_introl eq_refl)).
    pose proof (IH (fun y Hy => H y (or_intror Hy))). lra. }
  destruct l as [|x l]; [contradiction|].
  rewrite Qsum_cons. pose proof (Hl x (or_introl eq_refl)).
  pose proof (H0 l (fun y Hy => Hl y (or_intror Hy))). lra.
Qed.

(** The tasks of a built plan, position by position. *)
Lemma create_execution_plan_shape generate plan_id request :
  exists ts,
    create_execution_plan generate plan_id request
    = Ok (ExecutionPlanEntity.mk plan_id request ts "pending"
            (Qsum (map TaskEntity.estimated_duration ts)) None
            (_calculate_complexity_score ts) (_identify_parallel_groups ts)
            None None 0)
    /\ length ts = length (extract_subtasks request)
    /\ forall i t, ts !! i = Some t ->
         TaskEntity.id t = generate i
         /\ TaskEntity.status t = PENDING
         /\ TaskEntity.dependencies t = match i with O => [] | S j => [generate j] end
         /\ (0 < TaskEntity.estimated_duration t)%Q
         /\ TaskEntity.result t = None /\ TaskEntity.error t = None
         /\ TaskEntity.assigned_agent_id t = None.
Proof.
  unfold create_execution_plan.
  destruct (is_complex_task request) eqn:Hc.
  - rewrite create_task_entities_spec.
    exists (tasks_from generate 0 (extract_subtasks request)).
    split; [reflexivity|]. split; [apply tasks_from_length|].
    intros i t Ht.
    assert (Hd : exists d, extract_subtasks request !! i = Some d).
    { apply lookup_lt_is_Some_2. apply lookup_lt_Some in Ht.
      rewrite tasks_from_length in Ht. exact Ht. }
    destruct Hd as [d Hd].
    rewrite (tasks_from_lookup generate _ 0 i d Hd) in Ht. injection Ht as <-.
    simpl. repeat split; try reflexivity. apply analyze_task_duration_pos.
  - eexists. split; [reflexivity|]. split.
    + unfold extract_subtasks. rewrite Hc. reflexivity.
    + intros [|i] t Ht; [|destruct i; discriminate].
      injection Ht as <-. simpl. repeat split; try reflexivity.
      apply analyze_task_duration_pos.
Qed.

Lemma chain_no_parallel_groups generate ts :
  ts <> [] ->
  (forall i t, ts !! i = Some t ->
     TaskEntity.dependencies t = match i with O => [] | S j => [generate j] end) ->
  _identify_parallel_groups ts = [].
Proof.
  intros Hne Hd. unfold _identify_parallel_groups.
  destruct ts as [|t0 rest]; [contradiction|].
  simpl. rewrite (Hd 0%nat t0 eq_refl).
  assert (Hrest : List.filter (fun task => match TaskEntity.dependencies task with
                                           | [] => true | _ => false end) rest = []).
  { apply filter_all_false. intros x Hx. apply list_elem_of_In in Hx.
    apply list_elem_of_lookup_1 in Hx as [j Hj].
    rewrite (Hd (S j) x Hj). reflexivity. }
  rewrite Hrest. reflexivity.
Qed.

(** X21.  [create_execution_plan] never raises.  For every request it
    returns a pending plan for this request with one task per fragment of
    the decomposition, at least one; the task at position [i] carries the
    [i]-th generated identifier, is Pending, depends on the task before it
    and on nothing else (the first one on nothing), has a positive estimated
    duration and no result, error or agent; the plan has no parallel groups
    and a positive total duration. *)
Theorem create_execution_plan_well_formed :
  forall (generate : nat -> TaskId) (plan_id request : string),
    exists p,
      create_execution_plan generate plan_id request = Ok p
      /\ ExecutionPlanEntity.id p = plan_id
      /\ ExecutionPlanEntity.original_request p = request
      /\ ExecutionPlanEntity.status p = "pending"
      /\ length (ExecutionPlanEntity.tasks p) = length (extract_subtasks request)
      /\ ExecutionPlanEntity.tasks p <> []
      /\ (forall i t, ExecutionPlanEntity.tasks p !! i = Some t ->
            TaskEntity.id t = generate i
            /\ TaskEntity.status t = PENDING
            /\ TaskEntity.dependencies t
               = match i with O => [] | S j => [generate j] end
            /\ (0 < TaskEntity.estimated_duration t)%Q
            /\ TaskEntity.result t = None /\ TaskEntity.error t = None
            /\ TaskEntity.assigned_agent_id t = None)
      /\ ExecutionPlanEntity.parallel_groups p = []
      /\ (0 < ExecutionPlanEntity.estimated_total_duration p)%Q.
Proof.
  intros generate plan_id request.
  destruct (create_execution_plan_shape generate plan_id request) as (ts & -> & Hlen & Hts).
  assert (Hne : ts <> []).
  { intros ->. apply (extract_subtasks_nonempty request).
    destruct (extract_subtasks request); [reflexivity|discriminate]. }
  eexists. split; [reflexivity|]. simpl.
  repeat (split; [first [reflexivity|assumption]|]).
  split; [eapply chain_no_parallel_groups; [exact Hne|]; intros i t Ht; apply Hts, Ht|].
  apply Qsum_pos.
  - destruct ts; [contradiction|discriminate].
  - intros x Hx. apply in_map_iff in Hx as (t & <- & Ht).
    apply list_elem_of_In in Ht. apply list_elem_of_lookup_1 in Ht as [i Hi].
    apply (Hts i t Hi).
Qed.

Lemma index_of_lookup l : forall i a,
  NoDup l -> l !! i = Some a -> index_of a l = i.
Proof.
  induction l as [|x l IH]; intros i a Hnd Hi; [discriminate|].
  apply NoDup_cons in Hnd as [Hx Hnd]. simpl.
  destruct i as [|i]; simpl in Hi.
  - injection Hi as ->. rewrite String.eqb_refl. reflexivity.
  - destruct (String.eqb x a) eqn:E.
    + apply String.eqb_eq in E. subst x. exfalso. apply Hx.
      eapply list_elem_of_lookup_2. exact Hi.
    + f_equal. apply IH; assumption.
Qed.

Lemma chain_acyclic_closed generate ts :
  NoDup (map generate (seq 0 (length ts))) ->
  (forall i t, ts !! i = Some t ->
     TaskEntity.id t = generate i
     /\ TaskEntity.dependencies t = match i with O => [] | S j => [generate j] end) ->
  acyclic ts /\ closed_deps ts /\ NoDup (map TaskEntity.id ts).
Proof.
  intros Hnd Hts.
  assert (Hgen : forall i, (i < length ts)%nat ->
                   map generate (seq 0 (length ts)) !! i = Some (generate i)).
  { intros i Hi. change (map generate (seq 0 (length ts)))
      with (generate <$> seq 0 (length ts)).
    rewrite list_lookup_fmap, lookup_seq_lt by exact Hi. reflexivity. }
  split; [|split].
  - apply (ranked_acyclic ts (fun a => index_of a (map generate (seq 0 (length ts))))).
    intros a b (t & Hin & <- & Hb).
    apply list_elem_of_In in Hin. apply list_elem_of_lookup_1 in Hin as [i Hi].
    pose proof (lookup_lt_Some _ _ _ Hi) as Hlt.
    destruct (Hts i t Hi) as [Hid Hdep]. rewrite Hdep in Hb.
    destruct i as [|j]; [contradiction|]. destruct Hb as [<-|[]].
    rewrite Hid.
    rewrite (index_of_lookup _ (S j) (generate (S j)) Hnd (Hgen (S j) Hlt)).
    rewrite (index_of_lookup _ j (generate j) Hnd (Hgen j ltac:(lia))). lia.
  - intros t d Hin Hd.
    apply list_elem_of_In in Hin. apply list_elem_of_lookup_1 in Hin as [i Hi].
    pose proof (lookup_lt_Some _ _ _ Hi) as Hlt.
    destruct (Hts i t Hi) as [Hid Hdep]. rewrite Hdep in Hd.
    destruct i as [|j]; [contradiction|]. destruct Hd as [<-|[]].
    destruct (lookup_lt_is_Some_2 ts j ltac:(lia)) as [t' Ht'].
    exists t'. split.
    + apply list_elem_of_In. eapply list_elem_of_lookup_2. exact Ht'.
    + apply (Hts j t' Ht').
  - assert (E : map TaskEntity.id ts = map generate (seq 0 (length ts))).
    { apply list_eq. intros i.
      change (map TaskEntity.id ts) with (TaskEntity.id <$> ts).
      rewrite list_lookup_fmap.
      destruct (ts !! i) as [t|] eqn:Hi; simpl.
      - rewrite (Hgen i (lookup_lt_Some _ _ _ Hi)).
        f_equal. apply (Hts i t Hi).
      - symmetry. apply lookup_ge_None. rewrite length_map, length_seq.
        apply lookup_ge_None in Hi. exact Hi. }
    rewrite E. exact Hnd.
Qed.

(** X22.  When the generated identifiers are distinct, the plan built
    for a request has distinct task identifiers, every dependency names a
    task of the plan, no task depends on itself directly or indirectly, and
    the orchestrator's [_has_circular_dependencies] answers [False] on its
    tasks. *)
Theorem built_plan_is_acyclic :
  forall (generate : nat -> TaskId) (plan_id request : string),
    NoDup (map generate (seq 0 (length (extract_subtasks request)))) ->
    exists p,
      create_execution_plan generate plan_id request = Ok p
      /\ NoDup (map TaskEntity.id (ExecutionPlanEntity.tasks p))
      /\ acyclic (ExecutionPlanEntity.tasks p)
      /\ closed_deps (ExecutionPlanEntity.tasks p)
      /\ _has_circular_dependencies (ExecutionPlanEntity.tasks p) = Some false.
Proof.
  intros generate plan_id request Hnd.
  destruct (create_execution_plan_shape generate plan_id request) as (ts & -> & Hlen & Hts).
  rewrite <- Hlen in Hnd.
  destruct (chain_acyclic_closed generate ts Hnd) as (Hac & Hcl & Hids).
  { intros i t Ht. destruct (Hts i t Ht) as (H1 & _ & H3 & _). split; assumption. }
  eexists. split; [reflexivity|]. simpl.
  split; [exact Hids|]. split; [exact Hac|]. split; [exact Hcl|].
  destruct (has_circular_total ts) as [[|] Hb]; [|exact Hb].
  exfalso. exact (acyclic_no_dep_cycle ts Hac (has_circular_true ts Hb)).
Qed.

Lemma built_plan_is_acyclic_witness :
  exists p,
    create_execution_plan two_ids "plan_1" "create a file and then read it" = Ok p
    /\ NoDup (map TaskEntity.id (ExecutionPlanEntity.tasks p))
    /\ acyclic (ExecutionPlanEntity.tasks p)
    /\ closed_deps (ExecutionPlanEntity.tasks p)
    /\ _has_circular_dependencies (ExecutionPlanEntity.tasks p) = Some false.
Proof.
  apply (built_plan_is_acyclic two_ids "plan_1" "create a file and then read it").
  vm_compute. apply NoDup_cons. split.
  - intros H. apply list_elem_of_In in H. destruct H as [H|[]]. discriminate.
  - apply NoDup_singleton.
Defined.

(** X23.  Planning and execution together, with the executor call as
    the file has it: when the generated identifiers are distinct and every
    kind of task has an available agent in the registry, the plan built by
    [create_execution_plan] for a request of one fragment is executed within
    two passes of the loop, its task Failed and reported failed, the plan
    completed; for a request of two or more fragments [execute_plan] does
    not return: the first task fails, the task after it waits for it for
    ever. *)
Theorem planned_request_outcome :
  forall (clock_ : nat -> Q) (agents : list AgentEntity.t) (k : nat)
         (generate : nat -> TaskId) (plan_id request : string),
    NoDup (map generate (seq 0 (length (extract_subtasks request)))) ->
    (forall kind, exists j a,
        agents !! j = Some a /\ AgentEntity.status a = "available"
        /\ AgentEntity.can_handle_task a kind = true) ->
    exists p,
      create_execution_plan generate plan_id request = Ok p
      /\ (length (extract_subtasks request) = 1%nat ->
          exists r s',
            execute_plan (repository_world clock_) 2 agents k p = Some (Ok r, s')
            /\ (exists ok results rate dur pct,
                   r = ExecutionReport plan_id ok [] [generate 0%nat]
                         results rate dur pct
                   /\ ok = false /\ (rate == 0)%Q)
            /\ map TaskEntity.status (tasks_of s') = [FAILED]
            /\ ExecutionPlanEntity.status (plan s') = "completed")
      /\ ((2 <= length (extract_subtasks request))%nat ->
          forall fuel, execute_plan (repository_world clock_) fuel agents k p = None).
Proof.
  intros clock_ agents k generate plan_id request Hnd Hag.
  destruct (create_execution_plan_shape generate plan_id request) as (ts & Hp & Hlen & Hts).
  rewrite <- Hlen in Hnd |- *.
  destruct (chain_acyclic_closed generate ts Hnd) as (Hac & _ & _).
  { intros i t Ht. destruct (Hts i t Ht) as (H1 & _ & H3 & _). split; assumption. }
  eexists. split; [exact Hp|].
  set (p := ExecutionPlanEntity.mk plan_id request ts "pending" _ _ _ _ _ _ _).
  destruct (raising_execute (repository_world clock_) agents k p
              (repository_executor_raises clock_) eq_refl Hac) as [Ha Hb].
  { intros t Ht. apply list_elem_of_In in Ht.
    apply list_elem_of_lookup_1 in Ht as [i Hi]. apply (Hts i t Hi). }
  { intros t _ _. destruct (Hag (TaskEntity.task_type t)) as (j & a & Hj & Hs & Hc).
    exists j, a. split; [exact Hj|]. split; assumption. }
  split.
  - intros H1. destruct ts as [|t0 [|t1 rest]]; try discriminate.
    destruct (Hts 0%nat t0 eq_refl) as (Hid & _ & Hdep & _).
    destruct Ha as (r & s' & Hrun & (ok & results & rate & dur & pct & Hr & Hok & Hrate)
                    & Hsh & Hall & Hdone).
    { intros t [<-|[]]. exact Hdep. }
    exists r, s'. split; [exact Hrun|]. split.
    { exists ok, results, rate, dur, pct. rewrite Hr. simpl. rewrite Hid.
      split; [reflexivity|]. split; assumption. }
    split; [|exact Hdone].
    simpl in Hsh. destruct (tasks_of s') as [|t0' [|t1' rest']]; try discriminate.
    simpl. rewrite (Hall t0' (or_introl eq_refl)). reflexivity.
  - intros H2. apply Hb.
    destruct ts as [|t0 [|t1 rest]]; simpl in H2; try lia.
    exists t1. split; [right; left; reflexivity|].
    destruct (Hts 1%nat t1 eq_refl) as (_ & _ & Hdep & _). rewrite Hdep. discriminate.
Qed.

Lemma planned_request_outcome_witness :
  exists p,
    create_execution_plan two_ids "plan_1" "create a file and then read it" = Ok p
    /\ (length (extract_subtasks "create a file and then read it") = 1%nat ->
        exists r s',
          execute_plan (repository_world (fun k => nat_Q k)) 2 [universal_agent] 0 p
          = Some (Ok r, s')
          /\ (exists ok results rate dur pct,
                 r = ExecutionReport "plan_1" ok [] [two_ids 0%nat]
                       results rate dur pct
                 /\ ok = false /\ (rate == 0)%Q)
          /\ map TaskEntity.status (tasks_of s') = [FAILED]
          /\ ExecutionPlanEntity.status (plan s') = "completed")
    /\ ((2 <= length (extract_subtasks "create a file and then read it"))%nat ->
        forall fuel,
          execute_plan (repository_world (fun k => nat_Q k)) fuel [universal_agent] 0 p
          = None).
Proof.
  apply (planned_request_outcome (fun k => nat_Q k) [universal_agent] 0 two_ids "plan_1"
           "create a file and then read it").
  - vm_compute. apply NoDup_cons. split.
    + intros H. apply list_elem_of_In in H. destruct H as [H|[]]. discriminate.
    + apply NoDup_singleton.
  - intros kind. exists 0%nat, universal_agent. split; [reflexivity|].
    split; [reflexivity|]. destruct kind; reflexivity.
Defined.

(** ** Classifier and decomposer on the text *)

Lemma is_space_lower_char c : is_space (lower_char c) = is_space c.
Proof.
  destruct c as [[] [] [] [] [] [] [] []]; reflexivity.
Qed.

Lemma split_words_length_lower s : forall w w',
  (w = [] <-> w' = []) ->
  length (split_words w (lower s)) = length (split_words w' s).
Proof.
  induction s as [|c s IH]; intros w w' Hw; simpl.
  - destruct w, w'; simpl; try reflexivity.
    + destruct Hw as [Hw _]. specialize (Hw eq_refl). discriminate.
    + destruct Hw as [_ Hw]. specialize (Hw eq_refl). discriminate.
  - rewrite is_space_lower_char. destruct (is_space c).
    + pose proof (IH [] [] ltac:(tauto)) as E.
      destruct w, w'; simpl; try (rewrite E; reflexivity).
      * destruct Hw as [Hw _]. specialize (Hw eq_refl). discriminate.
      * destruct Hw as [_ Hw]. specialize (Hw eq_refl). discriminate.
    + apply IH. split; discriminate.
Qed.

Lemma split_ws_length_lower s : length (split_ws (lower s)) = length (split_ws s).
Proof. apply split_words_length_lower. tauto. Qed.

Lemma rule_score_lower a b rule :
  lower a = lower b -> rule_score a rule = rule_score b rule.
Proof.
  intros H. unfold rule_score. rewrite H.
  rewrite <- (split_ws_length_lower a), <- (split_ws_length_lower b), H.
  reflexivity.
Qed.

(** X24.  The classifier ignores the case of letters: two inputs that
    are equal after lowering get the same score from every rule, hence the
    same classification, and the same answer from [is_complex_task]. *)
Theorem classification_ignores_case :
  forall a b : string,
    lower a = lower b ->
    analyze_task a = analyze_task b
    /\ is_complex_task a = is_complex_task b
    /\ (forall rule, rule_score a rule = rule_score b rule).
Proof.
  intros a b H. split; [|split].
  - unfold analyze_task, analyze_with, best_rule.
    assert (E : forall rules acc,
               fold_left (best_step a) rules acc = fold_left (best_step b) rules acc).
    { induction rules as [|r rules IH]; intros acc; [reflexivity|].
      simpl. unfold best_step at 2 4. rewrite (rule_score_lower a b r H). apply IH. }
    rewrite E. reflexivity.
  - unfold is_complex_task. rewrite H. reflexivity.
  - intros rule. apply rule_score_lower, H.
Qed.

Lemma classification_ignores_case_witness :
  analyze_task "Take a SCREENSHOT" = analyze_task "take a screenshot"
  /\ is_complex_task "Take a SCREENSHOT" = is_complex_task "take a screenshot"
  /\ (forall rule, rule_score "Take a SCREENSHOT" rule
                   = rule_score "take a screenshot" rule).
Proof.
  apply (classification_ignores_case "Take a SCREENSHOT" "take a screenshot").
  reflexivity.
Defined.

Lemma string_app_cons x (a b : string) : String x a ++ b = String x (a ++ b).
Proof. reflexivity. Qed.

Lemma string_app_assoc (a b c : string) : (a ++ b) ++ c = a ++ (b ++ c).
Proof.
  induction a as [|x a IH]; [reflexivity|]. rewrite !string_app_cons, IH. reflexivity.
Qed.

Lemma string_app_nil_r (a : string) : a ++ "" = a.
Proof.
  induction a as [|x a IH]; [reflexivity|]. rewrite string_app_cons, IH. reflexivity.
Qed.

Lemma substring_refl s : substring_of s s.
Proof. exists "", "". simpl. rewrite string_app_nil_r. reflexivity. Qed.

Lemma substring_trans a b c : substring_of a b -> substring_of b c -> substring_of a c.
Proof.
  intros (p1 & q1 & ->) (p2 & q2 & ->).
  exists (p2 ++ p1), (q1 ++ q2). rewrite !string_app_assoc. reflexivity.
Qed.

Lemma substring_cons c f s : substring_of f s -> substring_of f (String c s).
Proof. intros (p & q & ->). exists (String c p), q. reflexivity. Qed.

Lemma string_of_rev_cons c piece s :
  string_of_list_ascii (rev (c :: piece)) ++ s
  = string_of_list_ascii (rev piece) ++ String c s.
Proof.
  simpl. generalize (rev piece). intros l.
  induction l as [|x l IH]; [reflexivity|].
  change (String x (string_of_list_ascii (l ++ [c])%list) ++ s
          = String x (string_of_list_ascii l) ++ String c s).
  rewrite !string_app_cons, IH. reflexivity.
Qed.

Lemma split_from_substrings ic r s : forall skip piece prev f,
  skip = 0%nat \/ piece = [] ->
  In f (split_from ic r skip piece prev s) ->
  substring_of f (string_of_list_ascii (rev piece) ++ s).
Proof.
  induction s as [|c s IH]; intros skip piece prev f Hsp Hin.
  - assert (E : f = string_of_list_ascii (rev piece)).
    { destruct skip; simpl in Hin; destruct Hin as [<-|[]]; reflexivity. }
    subst f. exists "", "". reflexivity.
  - destruct skip as [|n].
    + simpl in Hin.
      assert (Hnext : In f (split_from ic r 0 (c :: piece) (Some c) s) ->
                      substring_of f (string_of_list_ascii (rev piece) ++ String c s)).
      { intros H. rewrite <- string_of_rev_cons. eapply IH; [left; reflexivity|exact H]. }
      destruct (match_here ic r prev (String c s)) as [rest|]; [|exact (Hnext Hin)].
      match type of Hin with
      | context [match ?n with O => _ | S _ => _ end] => destruct n as [|n']
      end; [exact (Hnext Hin)|].
      destruct Hin as [<-|Hin].
      * exists "", (String c s). reflexivity.
      * apply (IH n' [] (Some c) f (or_intror eq_refl)) in Hin.
        change (substring_of f s) in Hin.
        destruct Hin as (p & q & ->).
        exists (string_of_list_ascii (rev piece) ++ String c p), q.
        rewrite string_app_assoc. reflexivity.
    + destruct Hsp as [Hsp| ->]; [discriminate|]. simpl in Hin.
      change (substring_of f (String c s)).
      apply substring_cons. exact (IH n [] (Some c) f (or_intror eq_refl) Hin).
Qed.

Lemma re_split_substrings ic r s f : In f (re_split ic r s) -> substring_of f s.
Proof.
  intros H. exact (split_from_substrings ic r s 0 [] None f (or_introl eq_refl) H).
Qed.

Lemma split_all_substrings text f : In f (split_all [text]) -> substring_of f text.
Proof.
  unfold split_all.
  assert (H : forall seps parts,
             (forall p, In p parts -> substring_of p text) ->
             forall f, In f (fold_left (fun parts separator =>
                                          flat_map (re_split true separator) parts)
                                       seps parts) ->
                       substring_of f text).
  { induction seps as [|sep seps IH]; intros parts Hp f0 Hf; [exact (Hp f0 Hf)|].
    simpl in Hf. eapply IH; [|exact Hf].
    intros p Hin. apply in_flat_map in Hin as (q & Hq & Hpq).
    eapply substring_trans; [eapply re_split_substrings; exact Hpq|exact (Hp q Hq)]. }
  apply H. intros p [<-|[]]. apply substring_refl.
Qed.

Lemma lstrip_substring s : substring_of (lstrip s) s.
Proof.
  induction s as [|c s IH]; simpl; [apply substring_refl|].
  destruct (is_space c); [apply substring_cons, IH|apply substring_refl].
Qed.

Lemma rstrip_substring s : substring_of (rstrip s) s.
Proof.
  induction s as [|c s (p & q & E)]; simpl; [apply substring_refl|].
  destruct (rstrip s) as [|x r] eqn:Er.
  - destruct (is_space c).
    + exists "", (String c s). reflexivity.
    + exists "", s. reflexivity.
  - assert (Hpre : exists q', s = String x r ++ q').
    { clear p q E. revert x r Er. induction s as [|d s IHs]; intros x r Er; [discriminate|].
      simpl in Er. destruct (rstrip s) as [|y r'] eqn:Es.
      - destruct (is_space d); [discriminate|]. injection Er as <- <-.
        exists s. reflexivity.
      - injection Er as <- <-. destruct (IHs y r' eq_refl) as [q' ->].
        exists q'. reflexivity. }
    destruct Hpre as [q' ->]. exists "", q'. reflexivity.
Qed.

Lemma strip_substring s : substring_of (strip s) s.
Proof.
  unfold strip. eapply substring_trans; [apply rstrip_substring|apply lstrip_substring].
Qed.

(** X25.  The decomposer invents no text: every fragment returned by
    [extract_subtasks] is a run of consecutive characters of the input. *)
Theorem fragments_are_substrings :
  forall (text f : string),
    In f (extract_subtasks text) -> substring_of f text.
Proof.
  intros text f. unfold extract_subtasks.
  destruct (negb (is_complex_task text)).
  { intros [<-|[]]. apply substring_refl. }
  match goal with
  | |- In f (if ?c then _ else _) -> _ => destruct c
  end.
  - intros Hin. apply in_map_iff in Hin as (part & <- & Hpart).
    apply filter_In in Hpart as [Hpart _].
    eapply substring_trans; [apply strip_substring|apply split_all_substrings, Hpart].
  - intros [<-|[]]. apply substring_refl.
Qed.

Lemma fragments_are_substrings_witness :
  In "read it" (extract_subtasks "create a file and then read it")
  /\ substring_of "read it" "create a file and then read it".
Proof.
  assert (H : In "read it" (extract_subtasks "create a file and then read it")).
  { vm_compute. right. left. reflexivity. }
  split; [exact H|].
  exact (fragments_are_substrings "create a file and then read it" "read it" H).
Defined.

(** ** The decomposer and the case of letters *)

Lemma same_folded_nil s : same_folded "" s -> s = "".
Proof. destruct s; [reflexivity|discriminate]. Qed.

Lemma same_folded_cons c s t :
  same_folded (String c s) t ->
  exists c' s', t = String c' s' /\ lower_char c = lower_char c' /\ same_folded s s'.
Proof.
  destruct t as [|c' s']; [discriminate|]. unfold same_folded. simpl.
  intros H. injection H as H1 H2. eauto.
Qed.

Lemma same_folded_length s : forall s', same_folded s s' -> String.length s = String.length s'.
Proof.
  induction s as [|c s IH]; intros s' H.
  - apply same_folded_nil in H. subst. reflexivity.
  - apply same_folded_cons in H as (c' & t & -> & _ & H). simpl. f_equal. apply IH, H.
Qed.

Lemma is_word_lower_char c : is_word (lower_char c) = is_word c.
Proof. destruct c as [[] [] [] [] [] [] [] []]; reflexivity. Qed.

Lemma is_digit_lower_char c : is_digit (lower_char c) = is_digit c.
Proof. destruct c as [[] [] [] [] [] [] [] []]; reflexivity. Qed.

Lemma is_newline_lower_char c : Ascii.eqb (lower_char c) newline = Ascii.eqb c newline.
Proof. destruct c as [[] [] [] [] [] [] [] []]; reflexivity. Qed.

Lemma folded_pred (f : ascii -> bool) c c' :
  (forall x, f (lower_char x) = f x) -> lower_char c = lower_char c' -> f c = f c'.
Proof. intros Hf H. rewrite <- (Hf c), <- (Hf c'), H. reflexivity. Qed.

Lemma same_folded_result_cases o o' :
  same_folded_result o o' ->
  (o = None /\ o' = None) \/ (exists r r', o = Some r /\ o' = Some r' /\ same_folded r r').
Proof.
  destruct o as [r|], o' as [r'|]; unfold same_folded_result; simpl; intros H;
    try discriminate; [right|left; tauto].
  injection H as H. eauto.
Qed.

Lemma at_boundary_folded p p' s s' :
  same_folded_char p p' -> same_folded s s' -> at_boundary p s = at_boundary p' s'.
Proof.
  intros Hp Hs. unfold at_boundary. f_equal.
  - destruct p as [c|], p' as [c'|]; try discriminate; [|reflexivity].
    injection Hp as Hp. exact (folded_pred is_word c c' is_word_lower_char Hp).
  - destruct s as [|c s].
    + apply same_folded_nil in Hs. subst. reflexivity.
    + apply same_folded_cons in Hs as (c' & t & -> & Hc & _).
      exact (folded_pred is_word c c' is_word_lower_char Hc).
Qed.

Section Folded.

Variables k k' : option ascii -> string -> option string.
Hypothesis Hk : forall p p' t t',
  same_folded_char p p' -> same_folded t t' -> same_folded_result (k p t) (k' p' t').

Lemma match_lit_folded l : forall p p' s s',
  same_folded_char p p' -> same_folded s s' ->
  same_folded_result (match_lit true l k p s) (match_lit true l k' p' s').
Proof.
  induction l as [|x l IH]; intros p p' s s' Hp Hs; simpl; [apply Hk; assumption|].
  destruct s as [|c s].
  - apply same_folded_nil in Hs. subst. reflexivity.
  - apply same_folded_cons in Hs as (c' & t & -> & Hc & Hs).
    unfold char_matches. rewrite Hc.
    destruct (Ascii.eqb (lower_char x) (lower_char c')); [|reflexivity].
    apply IH; [unfold same_folded_char; simpl; rewrite Hc; reflexivity|exact Hs].
Qed.

Lemma match_dotstar_folded s : forall p p' s',
  same_folded_char p p' -> same_folded s s' ->
  same_folded_result (match_dotstar k p s) (match_dotstar k' p' s').
Proof.
  induction s as [|c s IH]; intros p p' s' Hp Hs.
  - pose proof (same_folded_nil _ Hs) as ->. simpl. apply Hk; assumption.
  - pose proof Hs as Hs0.
    apply same_folded_cons in Hs as (c' & t & -> & Hc & Hs). simpl.
    rewrite (folded_pred (fun x => Ascii.eqb x newline) c c' is_newline_lower_char Hc).
    destruct (Ascii.eqb c' newline); [apply Hk; assumption|].
    assert (Hin : same_folded_result (match_dotstar k (Some c) s)
                                     (match_dotstar k' (Some c') t)).
    { apply IH; [unfold same_folded_char; simpl; rewrite Hc; reflexivity|exact Hs]. }
    destruct (same_folded_result_cases _ _ Hin) as [[-> ->]|(r & r' & -> & -> & Hr)].
    + apply Hk; assumption.
    + unfold same_folded_result. simpl. f_equal. exact Hr.
Qed.

Lemma match_digits_folded s : forall p p' s',
  same_folded_char p p' -> same_folded s s' ->
  same_folded_result (match_digits k p s) (match_digits k' p' s').
Proof.
  induction s as [|c s IH]; intros p p' s' Hp Hs.
  - pose proof (same_folded_nil _ Hs) as ->. simpl. apply Hk; assumption.
  - pose proof Hs as Hs0.
    apply same_folded_cons in Hs as (c' & t & -> & Hc & Hs). simpl.
    rewrite (folded_pred is_digit c c' is_digit_lower_char Hc).
    destruct (is_digit c'); [|apply Hk; assumption].
    assert (Hin : same_folded_result (match_digits k (Some c) s)
                                     (match_digits k' (Some c') t)).
    { apply IH; [unfold same_folded_char; simpl; rewrite Hc; reflexivity|exact Hs]. }
    destruct (same_folded_result_cases _ _ Hin) as [[-> ->]|(r & r' & -> & -> & Hr)].
    + apply Hk; assumption.
    + unfold same_folded_result. simpl. f_equal. exact Hr.
Qed.

End Folded.

Lemma match_re_folded r : forall k k' p p' s s',
  (forall p p' t t',
     same_folded_char p p' -> same_folded t t' -> same_folded_result (k p t) (k' p' t')) ->
  same_folded_char p p' -> same_folded s s' ->
  same_folded_result (match_re true r k p s) (match_re true r k' p' s').
Proof.
  induction r as [l| | | |a IHa b IHb|a IHa b IHb]; intros k k' p p' s s' Hk Hp Hs; simpl.
  - apply match_lit_folded; assumption.
  - apply match_dotstar_folded; assumption.
  - destruct s as [|c s].
    + pose proof (same_folded_nil _ Hs) as ->. reflexivity.
    + apply same_folded_cons in Hs as (c' & t & -> & Hc & Hs).
      rewrite (folded_pred is_digit c c' is_digit_lower_char Hc).
      destruct (is_digit c'); [|reflexivity].
      apply match_digits_folded;
        [exact Hk|unfold same_folded_char; simpl; rewrite Hc; reflexivity|exact Hs].
  - rewrite (at_boundary_folded p p' s s' Hp Hs).
    destruct (at_boundary p' s'); [apply Hk; assumption|reflexivity].
  - apply IHa; [|assumption|assumption].
    intros q q' t t' Hq Ht. apply IHb; assumption.
  - pose proof (IHa k k' p p' s s' Hk Hp Hs) as Ha.
    destruct (same_folded_result_cases _ _ Ha) as [[-> ->]|(x & x' & -> & -> & Hx)].
    + apply IHb; assumption.
    + unfold same_folded_result. simpl. f_equal. exact Hx.
Qed.

Lemma match_here_folded r p p' s s' :
  same_folded_char p p' -> same_folded s s' ->
  same_folded_result (match_here true r p s) (match_here true r p' s').
Proof.
  intros Hp Hs. unfold match_here. apply match_re_folded; [|assumption|assumption].
  intros q q' t t' _ Ht. unfold same_folded_result. simpl. f_equal. exact Ht.
Qed.

Lemma lower_string_of_list l :
  lower (string_of_list_ascii l) = string_of_list_ascii (map lower_char l).
Proof. induction l as [|c l IH]; simpl; [reflexivity|]. f_equal. exact IH. Qed.

Lemma split_from_folded r s : forall s' skip piece piece' p p',
  same_folded s s' -> map lower_char piece = map lower_char piece' ->
  same_folded_char p p' ->
  map lower (split_from true r skip piece p s)
  = map lower (split_from true r skip piece' p' s').
Proof.
  induction s as [|c s IH]; intros s' skip piece piece' p p' Hs Hpc Hp.
  - pose proof (same_folded_nil _ Hs) as ->.
    assert (E : lower (string_of_list_ascii (rev piece))
                = lower (string_of_list_ascii (rev piece'))).
    { rewrite !lower_string_of_list, !map_rev, Hpc. reflexivity. }
    destruct skip; simpl; rewrite E; reflexivity.
  - pose proof (same_folded_length _ _ Hs) as Hlen.
    pose proof Hs as Hs0.
    apply same_folded_cons in Hs as (c' & t & -> & Hc & Hs).
    assert (Hpc' : map lower_char (c :: piece) = map lower_char (c' :: piece'))
      by (simpl; rewrite Hc, Hpc; reflexivity).
    assert (Hp' : same_folded_char (Some c) (Some c'))
      by (unfold same_folded_char; simpl; rewrite Hc; reflexivity).
    destruct skip as [|n]; [|simpl; apply IH; assumption].
    assert (E : lower (string_of_list_ascii (rev piece))
                = lower (string_of_list_ascii (rev piece'))).
    { rewrite !lower_string_of_list, !map_rev, Hpc. reflexivity. }
    cbn [split_from].
    pose proof (match_here_folded r p p' _ _ Hp Hs0) as Hm.
    destruct (same_folded_result_cases _ _ Hm) as [[-> ->]|(x & x' & -> & -> & Hx)].
    + apply IH; assumption.
    + rewrite <- Hlen, <- (same_folded_length _ _ Hx).
      destruct (String.length (String c s) - String.length x)%nat as [|n'].
      * apply IH; assumption.
      * cbn [map]. rewrite E. f_equal.
        apply IH; [exact Hs|reflexivity|exact Hp'].
Qed.

Lemma flat_map_folded (f : string -> list string) :
  (forall s s', same_folded s s' -> map lower (f s) = map lower (f s')) ->
  forall l l', map lower l = map lower l' ->
    map lower (flat_map f l) = map lower (flat_map f l').
Proof.
  intros Hf. induction l as [|x l IH]; intros l' H.
  - destruct l'; [reflexivity|discriminate].
  - destruct l' as [|x' l']; [discriminate|]. simpl in H. injection H as Hx Hl.
    simpl. rewrite !map_app. f_equal; [apply Hf, Hx|apply IH, Hl].
Qed.

Lemma split_all_folded l l' :
  map lower l = map lower l' -> map lower (split_all l) = map lower (split_all l').
Proof.
  unfold split_all. generalize separators. intros seps. revert l l'.
  induction seps as [|sep seps IH]; intros l l' H; [exact H|].
  simpl. apply IH. apply flat_map_folded; [|exact H].
  intros s s' Hs. unfold re_split.
  apply split_from_folded; [exact Hs|reflexivity|reflexivity].
Qed.

Lemma lstrip_lower s : lstrip (lower s) = lower (lstrip s).
Proof.
  induction s as [|c s IH]; [reflexivity|]. simpl.
  rewrite is_space_lower_char. destruct (is_space c); [exact IH|reflexivity].
Qed.

Lemma rstrip_lower s : rstrip (lower s) = lower (rstrip s).
Proof.
  induction s as [|c s IH]; [reflexivity|]. simpl.
  rewrite IH, is_space_lower_char.
  destruct (rstrip s); simpl; [destruct (is_space c); reflexivity|reflexivity].
Qed.

Lemma strip_lower s : strip (lower s) = lower (strip s).
Proof. unfold strip. rewrite lstrip_lower, rstrip_lower. reflexivity. Qed.

Lemma nonempty_lower s : nonempty (lower s) = nonempty s.
Proof. destruct s; reflexivity. Qed.

Lemma clean_folded l : forall l',
  map lower l = map lower l' ->
  map lower (map strip (List.filter (fun part => nonempty (strip part)) l))
  = map lower (map strip (List.filter (fun part => nonempty (strip part)) l')).
Proof.
  induction l as [|x l IH]; intros l' H.
  - destruct l'; [reflexivity|discriminate].
  - destruct l' as [|x' l']; [discriminate|]. simpl in H. injection H as Hx Hl.
    assert (Es : lower (strip x) = lower (strip x')).
    { rewrite <- !strip_lower, Hx. reflexivity. }
    assert (En : nonempty (strip x) = nonempty (strip x')).
    { rewrite <- (nonempty_lower (strip x)), <- (nonempty_lower (strip x')), Es.
      reflexivity. }
    simpl. rewrite En. destruct (nonempty (strip x')); simpl.
    + rewrite Es. f_equal. apply IH, Hl.
    + apply IH, Hl.
Qed.

(** X26.  On ASCII texts the decomposer splits without regard to case:
    two inputs of ASCII characters that are equal after lowering are cut at
    the same places, so their fragments are equal after lowering, one by
    one. *)
Theorem decomposition_ignores_case :
  forall a b : string,
    ascii_text a = true -> ascii_text b = true ->
    lower a = lower b ->
    map lower (extract_subtasks a) = map lower (extract_subtasks b).
Proof.
  intros a b _ _ H. unfold extract_subtasks, is_complex_task. rewrite H.
  destruct (negb _); [simpl; rewrite H; reflexivity|].
  assert (E : map lower (map strip (List.filter (fun part => nonempty (strip part))
                                                (split_all [a])))
              = map lower (map strip (List.filter (fun part => nonempty (strip part))
                                                  (split_all [b])))).
  { apply clean_folded, split_all_folded. simpl. rewrite H. reflexivity. }
  assert (El : length (map strip (List.filter (fun part => nonempty (strip part))
                                              (split_all [a])))
               = length (map strip (List.filter (fun part => nonempty (strip part))
                                                (split_all [b])))).
  { rewrite <- (length_map lower), E, length_map. reflexivity. }
  rewrite El. destruct (1 <? _)%nat; [exact E|simpl; rewrite H; reflexivity].
Qed.

Lemma decomposition_ignores_case_witness :
  map lower (extract_subtasks "Open the file AND THEN Run it")
  = map lower (extract_subtasks "open the file and then run it").
Proof.
  apply (decomposition_ignores_case "Open the file AND THEN Run it"
           "open the file and then run it"); reflexivity.
Defined.

(** ** The priority queue of an agent ([src/agents]) *)

Lemma insert_by_priority_perm x l :
  Permutation (BaseAgent.insert_by_priority x l) (x :: l).
Proof.
  induction l as [|y l IH]; simpl; [reflexivity|].
  destruct (_ <? _)%Z; [|reflexivity].
  rewrite IH. apply perm_swap.
Qed.

Lemma insert_by_priority_sorted x l :
  by_priority l -> by_priority (BaseAgent.insert_by_priority x l).
Proof.
  unfold by_priority. induction l as [|y l IH]; intros Hs; simpl.
  - constructor; constructor.
  - apply StronglySorted_inv in Hs as [Hl Hy].
    destruct (task_priority x <? task_priority y)%Z eqn:E;
      fold (task_priority x) (task_priority y); rewrite E.
    + apply Z.ltb_lt in E. constructor; [apply IH, Hl|].
      apply List.Forall_forall. intros z Hz.
      apply (Permutation_in _ (insert_by_priority_perm x l)) in Hz.
      destruct Hz as [<-|Hz]; [lia|].
      rewrite List.Forall_forall in Hy. apply Hy, Hz.
    + apply Z.ltb_ge in E. constructor; [constructor; assumption|].
      constructor; [exact E|].
      rewrite List.Forall_forall in *. intros z Hz. specialize (Hy z Hz). lia.
Qed.

Lemma sort_by_priority_spec l :
  by_priority (BaseAgent.sort_by_priority l)
  /\ Permutation (BaseAgent.sort_by_priority l) l.
Proof.
  induction l as [|x l [Hs Hp]]; simpl.
  - split; [constructor|reflexivity].
  - split; [apply insert_by_priority_sorted, Hs|].
    rewrite insert_by_priority_perm, Hp. reflexivity.
Qed.

Lemma insert_front x l :
  (forall y, In y l -> (task_priority y <= task_priority x)%Z) ->
  BaseAgent.insert_by_priority x l = x :: l.
Proof.
  destruct l as [|y l]; intros H; simpl; [reflexivity|].
  specialize (H y (or_introl eq_refl)).
  fold (task_priority x) (task_priority y).
  destruct (task_priority x <? task_priority y)%Z eqn:E; [|reflexivity].
  apply Z.ltb_lt in E. lia.
Qed.

Lemma sorted_queue_insert task q :
  by_priority q ->
  exists l1 l2,
    q = (l1 ++ l2)%list
    /\ fold_right BaseAgent.insert_by_priority [task] q = (l1 ++ task :: l2)%list
    /\ (forall y, In y l1 -> (task_priority task <= task_priority y)%Z)
    /\ (forall y, In y l2 -> (task_priority y < task_priority task)%Z).
Proof.
  unfold by_priority. induction q as [|y q IH]; intros Hs.
  - exists [], []. repeat split; try reflexivity; intros z [].
  - apply StronglySorted_inv in Hs as [Hq Hy]. rewrite List.Forall_forall in Hy.
    destruct (IH Hq) as (l1 & l2 & -> & E & H1 & H2).
    simpl. rewrite E.
    destruct l1 as [|z l1].
    + simpl. fold (task_priority y) (task_priority task).
      destruct (task_priority y <? task_priority task)%Z eqn:Ey.
      * apply Z.ltb_lt in Ey. exists [], (y :: l2).
        split; [reflexivity|]. split.
        { simpl. f_equal. apply insert_front. intros u Hu. apply Hy, Hu. }
        split; [intros u []|]. intros u [<-|Hu]; [exact Ey|apply H2, Hu].
      * apply Z.ltb_ge in Ey. exists [y], l2.
        split; [reflexivity|]. split; [reflexivity|].
        split; [intros u [<-|[]]; exact Ey|exact H2].
    + exists (y :: z :: l1), l2.
      split; [reflexivity|]. split.
      { apply (insert_front y ((z :: l1) ++ task :: l2)%list).
        intros u Hu. apply in_app_or in Hu as [Hu|[<-|Hu]].
        - apply Hy. apply in_or_app. left. exact Hu.
        - pose proof (H1 z (or_introl eq_refl)).
          pose proof (Hy z (or_introl eq_refl)). lia.
        - apply Hy. apply in_or_app. right. exact Hu. }
      split; [|exact H2].
      intros u [<-|Hu]; [|apply H1, Hu].
      pose proof (H1 z (or_introl eq_refl)).
      pose proof (Hy z (or_introl eq_refl)). lia.
Qed.

(** X27.  The queue of a [BaseAgent] is a priority queue.  After
    [add_task_to_queue] the queue holds the tasks it held and the new one,
    with no task behind one of lower priority; when the queue was already in
    this order, the tasks keep their places and the new task stands behind
    those of its own or a higher priority and before those of a lower one.
    [get_next_task] then returns the first task of the queue and leaves the
    others. *)
Theorem agent_queue_by_priority :
  forall (task : Task.t) (self : BaseAgent.t),
    let q := BaseAgent.task_queue self in
    let q' := BaseAgent.task_queue (BaseAgent.add_task_to_queue task self) in
    by_priority q'
    /\ Permutation q' (q ++ [task])
    /\ (by_priority q ->
        exists l1 l2,
          q = (l1 ++ l2)%list /\ q' = (l1 ++ task :: l2)%list
          /\ (forall y, In y l1 -> (task_priority task <= task_priority y)%Z)
          /\ (forall y, In y l2 -> (task_priority y < task_priority task)%Z))
    /\ fst (BaseAgent.get_next_task (BaseAgent.add_task_to_queue task self))
       = head q'
    /\ BaseAgent.task_queue
         (snd (BaseAgent.get_next_task (BaseAgent.add_task_to_queue task self)))
       = tail q'.
Proof.
  intros task self q q'.
  destruct (sort_by_priority_spec (q ++ [task])) as [Hs Hp].
  split; [exact Hs|]. split; [exact Hp|]. split.
  - intros Hq. destruct (sorted_queue_insert task q Hq) as (l1 & l2 & E1 & E2 & H1 & H2).
    exists l1, l2. split; [exact E1|]. split; [|split; assumption].
    unfold q'. simpl. unfold BaseAgent.sort_by_priority.
    rewrite fold_right_app. exact E2.
  - unfold q'. generalize (BaseAgent.add_task_to_queue task self). intros a.
    unfold BaseAgent.get_next_task.
    destruct (BaseAgent.task_queue a) eqn:E; simpl; rewrite ?E; split; reflexivity.
Qed.

(** ** The router of [src/agents] *)

Lemma parse_zeros k s :
  parse_decimal (string_of_list_ascii (repeat "0"%char k) ++ s) = parse_decimal s.
Proof.
  induction k as [|k IH]; [reflexivity|].
  change (parse_decimal (String "0" (string_of_list_ascii (repeat "0"%char k) ++ s))
          = parse_decimal s).
  rewrite <- IH. unfold parse_decimal.
  change (DecimalString.NilEmpty.uint_of_string
            (String "0" (string_of_list_ascii (repeat "0"%char k) ++ s)))
    with (option_map Decimal.D0
            (DecimalString.NilEmpty.uint_of_string
               (string_of_list_ascii (repeat "0"%char k) ++ s))).
  destruct (DecimalString.NilEmpty.uint_of_string _); reflexivity.
Qed.

Lemma parse_format n : parse_decimal (TaskRouter.format_06d n) = Some n.
Proof.
  unfold TaskRouter.format_06d. rewrite parse_zeros. unfold parse_decimal.
  rewrite DecimalString.NilEmpty.usu. simpl. f_equal. apply DecimalNat.Unsigned.of_to.
Qed.

Lemma nth_task_id_inj n m : nth_task_id n = nth_task_id m -> n = m.
Proof.
  unfold nth_task_id. intros H.
  assert (E : TaskRouter.format_06d n = TaskRouter.format_06d m).
  { change ("task_" ++ TaskRouter.format_06d n)
      with (String "t" (String "a" (String "s" (String "k" (String "_"
              (TaskRouter.format_06d n)))))) in H.
    change ("task_" ++ TaskRouter.format_06d m)
      with (String "t" (String "a" (String "s" (String "k" (String "_"
              (TaskRouter.format_06d m)))))) in H.
    injection H as H. exact H. }
  pose proof (parse_format n) as Hn. rewrite E, parse_format in Hn.
  injection Hn as ->. reflexivity.
Qed.

Lemma router_tasks_length c ds : forall i, length (router_tasks c i ds) = length ds.
Proof.
  induction ds as [|d rest IH]; intros i; simpl; [reflexivity|]. rewrite IH. reflexivity.
Qed.

Lemma router_tasks_app c ds1 ds2 : forall i,
  router_tasks c i (ds1 ++ ds2)
  = (router_tasks c i ds1 ++ router_tasks c (i + length ds1) ds2)%list.
Proof.
  induction ds1 as [|d rest IH]; intros i; simpl.
  - rewrite Nat.add_0_r. reflexivity.
  - rewrite IH. replace (S i + length rest)%nat with (i + S (length rest))%nat by lia.
    reflexivity.
Qed.

Lemma router_tasks_lookup c ds : forall i j d,
  ds !! j = Some d -> router_tasks c i ds !! j = Some (router_task c (i + j) d).
Proof.
  induction ds as [|x rest IH]; intros i j d H; [discriminate|].
  destruct j as [|j]; simpl in *.
  - injection H as ->. rewrite Nat.add_0_r. reflexivity.
  - rewrite (IH (S i) j d H). replace (S i + j)%nat with (i + S j)%nat by lia. reflexivity.
Qed.

Lemma router_task_id c i d : Task.id (router_task c i d) = nth_task_id (c + S i).
Proof.
  unfold router_task. destruct (TaskRouter.analyze_task d) as [[ty pr] cx]. reflexivity.
Qed.

Lemma router_task_dependencies c i d :
  Task.dependencies (router_task c i d)
  = match i with O => [] | S j => [nth_task_id (c + S j)] end.
Proof.
  unfold router_task. destruct (TaskRouter.analyze_task d) as [[ty pr] cx]. reflexivity.
Qed.

(** The loop of [decompose_complex_task] never indexes out of range. *)
Lemma decompose_loop c rest : forall (done : list string),
  fold_left TaskRouter.decompose_step
    (combine (seq (length done) (length rest)) rest)
    (Ok (router_tasks c 0 done), (c + length done)%nat)
  = (Ok (router_tasks c 0 (done ++ rest)), (c + length done + length rest)%nat).
Proof.
  induction rest as [|d rest IH]; intros done; cbn [length seq combine fold_left].
  - rewrite app_nil_r, Nat.add_0_r. reflexivity.
  - assert (Hstep : TaskRouter.decompose_step
                      (Ok (router_tasks c 0 done), (c + length done)%nat) (length done, d)
                    = (Ok (router_tasks c 0 (done ++ [d])), (c + length (done ++ [d]))%nat)).
    { unfold TaskRouter.decompose_step, TaskRouter._generate_task_id.
      rewrite router_tasks_app. simpl. unfold router_task.
      destruct (TaskRouter.analyze_task d) as [[ty pr] cx].
      rewrite length_app. simpl.
      replace (c + (length done + 1))%nat with (S (c + length done)) by lia.
      destruct (length done) as [|n] eqn:Hn.
      - simpl. rewrite Nat.add_0_r, Nat.add_1_r. reflexivity.
      - simpl. rewrite Nat.sub_0_r.
        assert (Hlast : exists x, done !! n = Some x).
        { apply lookup_lt_is_Some_2. lia. }
        destruct Hlast as [x Hx].
        rewrite (router_tasks_lookup c done 0 n x Hx), router_task_id. simpl.
        replace (c + S (S n))%nat with (S (c + S n)) by lia.
        reflexivity. }
    rewrite Hstep.
    replace (S (length done)) with (length (done ++ [d])) by (rewrite length_app; simpl; lia).
    rewrite IH. rewrite <- app_assoc.
    rewrite length_app. simpl. f_equal. lia.
Qed.

Lemma router_extract_nonempty text : TaskRouter._extract_subtasks text <> [].
Proof.
  unfold TaskRouter._extract_subtasks.
  match goal with |- (if ?c then ?l else _) <> [] => destruct c eqn:E; [|discriminate] end.
  intros H. rewrite H in E. discriminate.
Qed.

Lemma decompose_complex_task_spec :
  forall (task_counter : nat) (user_input : string),
    exists tasks,
      TaskRouter.decompose_complex_task task_counter user_input
      = (Ok tasks, (task_counter + length tasks)%nat)
      /\ tasks <> []
      /\ (forall i t, tasks !! i = Some t ->
            Task.id t = nth_task_id (task_counter + S i)
            /\ Task.dependencies t
               = match i with O => [] | S j => [nth_task_id (task_counter + S j)] end
            /\ Task.status t = "pending"
            /\ exists d, Task.description t = strip d
                         /\ Task.type t = fst (fst (TaskRouter.analyze_task d))
                         /\ Task.estimated_duration t
                            = Some (3.0 * snd (TaskRouter.analyze_task d))%Q)
      /\ chained tasks
      /\ NoDup (map Task.id tasks).
Proof.
  intros c text.
  assert (Hshape : exists ds,
             ds <> []
             /\ TaskRouter.decompose_complex_task c text
                = (Ok (router_tasks c 0 ds), (c + length ds)%nat)).
  { unfold TaskRouter.decompose_complex_task.
    destruct (TaskRouter._is_complex_task text).
    - exists (TaskRouter._extract_subtasks text).
      split; [apply router_extract_nonempty|].
      pose proof (decompose_loop c (TaskRouter._extract_subtasks text) []) as H.
      simpl in H. rewrite Nat.add_0_r in H. exact H.
    - exists [text]. split; [discriminate|].
      unfold TaskRouter._generate_task_id. simpl. unfold router_task.
      destruct (TaskRouter.analyze_task text) as [[ty pr] cx].
      replace (c + 1)%nat with (S c) by lia. reflexivity. }
  destruct Hshape as (ds & Hne & ->).
  exists (router_tasks c 0 ds).
  rewrite router_tasks_length. split; [reflexivity|].
  split; [destruct ds; [contradiction|discriminate]|].
  assert (Hlk : forall i t, router_tasks c 0 ds !! i = Some t ->
                  exists d, ds !! i = Some d /\ t = router_task c i d).
  { intros i t Ht.
    assert (Hd : exists d, ds !! i = Some d).
    { apply lookup_lt_is_Some_2. apply lookup_lt_Some in Ht.
      rewrite router_tasks_length in Ht. exact Ht. }
    destruct Hd as [d Hd]. exists d. split; [exact Hd|].
    rewrite (router_tasks_lookup c ds 0 i d Hd) in Ht. injection Ht as <-. reflexivity. }
  split; [|split].
  - intros i t Ht. destruct (Hlk i t Ht) as (d & Hd & ->).
    split; [apply router_task_id|]. split; [apply router_task_dependencies|].
    unfold router_task. destruct (TaskRouter.analyze_task d) as [[ty pr] cx] eqn:Ea.
    split; [reflexivity|]. exists d. rewrite Ea. repeat split; reflexivity.
  - intros i t Ht. destruct (Hlk i t Ht) as (d & Hd & ->).
    rewrite router_task_dependencies. destruct i as [|j]; [reflexivity|].
    assert (Hd' : exists d', ds !! j = Some d').
    { apply lookup_lt_is_Some_2. apply lookup_lt_Some in Hd. lia. }
    destruct Hd' as [d' Hd'].
    exists (router_task c j d'). split; [apply (router_tasks_lookup c ds 0 j d' Hd')|].
    rewrite router_task_id. reflexivity.
  - apply NoDup_alt. intros i j x Hi Hj.
    change (map Task.id (router_tasks c 0 ds)) with (Task.id <$> router_tasks c 0 ds) in *.
    rewrite list_lookup_fmap in Hi, Hj.
    destruct (router_tasks c 0 ds !! i) as [ti|] eqn:Ei; [|discriminate].
    destruct (router_tasks c 0 ds !! j) as [tj|] eqn:Ej; [|discriminate].
    destruct (Hlk i ti Ei) as (di & _ & ->). destruct (Hlk j tj Ej) as (dj & _ & ->).
    simpl in Hi, Hj. rewrite router_task_id in Hi, Hj.
    assert (E : nth_task_id (c + S j) = nth_task_id (c + S i)) by congruence.
    apply nth_task_id_inj in E. lia.
Qed.

Lemma decompose_complex_task_exact c text :
  TaskRouter.decompose_complex_task c text
  = (Ok (router_tasks c 0 (router_fragments text)),
     (c + length (router_fragments text))%nat).
Proof.
  unfold TaskRouter.decompose_complex_task, router_fragments.
  destruct (TaskRouter._is_complex_task text).
  - pose proof (decompose_loop c (TaskRouter._extract_subtasks text) []) as H.
    simpl in H. rewrite Nat.add_0_r in H. exact H.
  - unfold TaskRouter._generate_task_id. simpl. unfold router_task.
    destruct (TaskRouter.analyze_task text) as [[ty pr] cx].
    replace (c + 1)%nat with (S c) by lia. reflexivity.
Qed.

(** X28.  [decompose_complex_task] never raises and returns one task
    for every fragment of the request, in order: the fragments of
    [_extract_subtasks] when the request is complex, the request itself
    otherwise, so at least one.  The task at position [i] carries the
    identifier made from the counter, [task_] and the number in six digits,
    one more for every task; it is pending, waits for the task before it and
    for nothing else (the first one for nothing), and has the [i]-th
    fragment, trimmed, as description, with the kind and the priority the
    router finds for this fragment and three seconds times its complexity
    factor as estimate.  The identifiers are distinct and the counter
    advances by the number of tasks. *)
Theorem router_decomposition :
  forall (task_counter : nat) (user_input : string),
    exists tasks,
      TaskRouter.decompose_complex_task task_counter user_input
      = (Ok tasks, (task_counter + length tasks)%nat)
      /\ length tasks = length (router_fragments user_input)
      /\ tasks <> []
      /\ (forall i t, tasks !! i = Some t ->
            exists d,
              router_fragments user_input !! i = Some d
              /\ Task.id t = nth_task_id (task_counter + S i)
              /\ Task.dependencies t
                 = match i with O => [] | S j => [nth_task_id (task_counter + S j)] end
              /\ Task.status t = "pending"
              /\ Task.description t = strip d
              /\ Task.type t = fst (fst (TaskRouter.analyze_task d))
              /\ Task.priority t = snd (fst (TaskRouter.analyze_task d))
              /\ Task.estimated_duration t
                 = Some (3.0 * snd (TaskRouter.analyze_task d))%Q)
      /\ chained tasks
      /\ NoDup (map Task.id tasks).
Proof.
  intros c text.
  destruct (decompose_complex_task_spec c text) as (tasks & H1 & H2 & _ & H4 & H5).
  pose proof (decompose_complex_task_exact c text) as He.
  rewrite He in H1. injection H1 as Ht _.
  exists tasks. rewrite He, <- Ht, router_tasks_length.
  split; [reflexivity|]. split; [reflexivity|].
  split; [rewrite Ht; exact H2|].
  split; [|split; [rewrite Ht; exact H4|rewrite Ht; exact H5]].
  intros i t Hi.
  assert (Hd : exists d, router_fragments text !! i = Some d).
  { apply lookup_lt_is_Some_2. apply lookup_lt_Some in Hi.
    rewrite router_tasks_length in Hi. exact Hi. }
  destruct Hd as [d Hd]. exists d. split; [exact Hd|].
  rewrite (router_tasks_lookup c _ 0 i d Hd) in Hi. injection Hi as <-.
  split; [apply router_task_id|]. split; [apply router_task_dependencies|].
  unfold router_task. destruct (TaskRouter.analyze_task d) as [[ty pr] cx].
  repeat split; reflexivity.
Qed.

(** ** The planner of [src/agents] *)

Lemma execute_step_cases A task r :
  let out := PlannerAgent.execute_step A task r in
  (* the task is completed *)
  (fst out = Ok tt
   /\ PlannerAgent._dependencies_satisfied task (PlannerAgent.completed_tasks r) = true
   /\ PlannerAgent.completed_tasks (snd out)
      = (PlannerAgent.completed_tasks r ++ [Task.id task])%list
   /\ PlannerAgent.failed_tasks (snd out) = PlannerAgent.failed_tasks r
   /\ PlannerAgent.calls (snd out) = S (PlannerAgent.calls r))
  \/ (* the task is failed *)
  (fst out = Ok tt
   /\ PlannerAgent.completed_tasks (snd out) = PlannerAgent.completed_tasks r
   /\ PlannerAgent.failed_tasks (snd out)
      = (PlannerAgent.failed_tasks r ++ [Task.id task])%list
   /\ (PlannerAgent.calls (snd out) = PlannerAgent.calls r
       \/ (PlannerAgent._dependencies_satisfied task (PlannerAgent.completed_tasks r) = true
           /\ PlannerAgent.calls (snd out) = S (PlannerAgent.calls r))))
  \/ (* the agent raises *)
  ((exists e, fst out = Raise e)
   /\ PlannerAgent._dependencies_satisfied task (PlannerAgent.completed_tasks r) = true
   /\ PlannerAgent.completed_tasks (snd out) = PlannerAgent.completed_tasks r
   /\ PlannerAgent.failed_tasks (snd out) = PlannerAgent.failed_tasks r
   /\ PlannerAgent.calls (snd out) = S (PlannerAgent.calls r)).
Proof.
  unfold PlannerAgent.execute_step.
  destruct (PlannerAgent._dependencies_satisfied task (PlannerAgent.completed_tasks r));
    [|right; left; simpl; auto].
  destruct (PlannerAgent._select_agent_for_task A (PlannerAgent.available_agents r) task)
    as [agent|]; [|right; left; simpl; auto].
  destruct (PlannerAgent.execute_task A (PlannerAgent.calls r) agent task
              (PlannerAgent.available_agents r)) as [[result|e] agents].
  - destruct (AgentResult.success result); simpl.
    + left. auto.
    + right. left. auto 10.
  - right. right. simpl. eauto 10.
Qed.

(** The loop accounts for every task it has passed, and completes a task
    only behind its dependencies. *)
Lemma execute_loop_accounts A tasks : forall done r out r',
  PlannerAgent.execute_loop A tasks r = (out, r') ->
  Permutation (PlannerAgent.completed_tasks r ++ PlannerAgent.failed_tasks r)
              (map Task.id done) ->
  exists passed rest,
    (match out with
     | Ok _ => passed = tasks /\ rest = []
     | Raise _ => exists t rest', tasks = (passed ++ t :: rest')%list /\ rest = t :: rest'
     end)
    /\ Permutation (PlannerAgent.completed_tasks r' ++ PlannerAgent.failed_tasks r')
                   (map Task.id (done ++ passed)).
Proof.
  induction tasks as [|t tasks IH]; intros done r out r' H Hp; simpl in H.
  - injection H as <- <-. exists [], []. split; [auto|]. rewrite app_nil_r. exact Hp.
  - pose proof (execute_step_cases A t r) as Hc. simpl in Hc.
    destruct (PlannerAgent.execute_step A t r) as [[u|e] r1]; simpl in Hc.
    + assert (Hp1 : Permutation (PlannerAgent.completed_tasks r1
                                 ++ PlannerAgent.failed_tasks r1)
                                (map Task.id (done ++ [t]))).
      { rewrite map_app. simpl.
        destruct Hc as [(_ & _ & -> & -> & _)|[(_ & -> & -> & _)|([e He] & _)]];
          [| |discriminate].
        - rewrite <- Hp. rewrite <- !app_assoc. apply Permutation_app_head.
          apply Permutation_app_comm.
        - rewrite <- Hp. rewrite app_assoc. reflexivity. }
      destruct (IH (done ++ [t])%list r1 out r' H Hp1) as (passed & rest & Hm & Hperm).
      exists (t :: passed), rest. split.
      * destruct out as [u'|e'].
        -- destruct Hm as [-> ->]. auto.
        -- destruct Hm as (t' & rest' & -> & ->). exists t', rest'. auto.
      * rewrite <- app_assoc in Hperm. exact Hperm.
    + injection H as <- <-. exists [], (t :: tasks). split; [eauto|].
      rewrite app_nil_r.
      destruct Hc as [(Hf & _)|[(Hf & _)|(_ & _ & -> & -> & _)]]; try discriminate.
      exact Hp.
Qed.

Lemma dependencies_satisfied_spec task completed :
  PlannerAgent._dependencies_satisfied task completed = true
  <-> forall d, In d (Task.dependencies task) -> In d completed.
Proof.
  unfold PlannerAgent._dependencies_satisfied. rewrite forallb_forall.
  split; intros H d Hd; apply id_in_In, H, Hd.
Qed.

Lemma execute_loop_gate A tasks : forall done r out r',
  PlannerAgent.execute_loop A tasks r = (out, r') ->
  NoDup (map Task.id (done ++ tasks)) ->
  (forall x, In x (PlannerAgent.completed_tasks r) -> In x (map Task.id done)) ->
  (forall t, In t done -> In (Task.id t) (PlannerAgent.completed_tasks r) ->
     forall d, In d (Task.dependencies t) -> In d (PlannerAgent.completed_tasks r)) ->
  forall t, In t (done ++ tasks) -> In (Task.id t) (PlannerAgent.completed_tasks r') ->
    forall d, In d (Task.dependencies t) -> In d (PlannerAgent.completed_tasks r').
Proof.
  induction tasks as [|t0 tasks IH]; intros done r out r' H Hnd Hsub Hinv; simpl in H.
  - injection H as <- <-. rewrite app_nil_r. exact Hinv.
  - pose proof (execute_step_cases A t0 r) as Hc. simpl in Hc.
    assert (Hfresh : ~ In (Task.id t0) (map Task.id done)).
    { rewrite map_app in Hnd. apply NoDup_app in Hnd as (_ & Hd & _).
      intros Hin. apply list_elem_of_In in Hin.
      apply (Hd _ Hin). simpl. left. }
    destruct (PlannerAgent.execute_step A t0 r) as [[u|e] r1]; simpl in Hc.
    + replace (done ++ t0 :: tasks)%list with ((done ++ [t0]) ++ tasks)%list in *
        by (rewrite <- app_assoc; reflexivity).
      apply (IH (done ++ [t0])%list r1 out r' H Hnd).
      * intros x Hx. rewrite map_app. apply in_or_app.
        destruct Hc as [(_ & _ & Ec & _)|[(_ & Ec & _)|([e He] & _)]]; [| |discriminate];
          rewrite Ec in Hx.
        -- apply in_app_or in Hx as [Hx|[<-|[]]]; [left; apply Hsub, Hx|right; left; reflexivity].
        -- left. apply Hsub, Hx.
      * intros t Ht Hid d Hd.
        destruct Hc as [(_ & Hsat & Ec & _)|[(_ & Ec & _)|([e He] & _)]]; [| |discriminate];
          rewrite Ec in *.
        -- apply in_or_app. left.
           apply in_app_or in Ht as [Ht|[<-|[]]].
           ++ apply in_app_or in Hid as [Hid|[Hid|[]]]; [exact (Hinv t Ht Hid d Hd)|].
              exfalso. apply Hfresh. rewrite Hid. apply in_map, Ht.
           ++ apply (proj1 (dependencies_satisfied_spec _ _) Hsat d Hd).
        -- apply in_app_or in Ht as [Ht|[<-|[]]]; [exact (Hinv t Ht Hid d Hd)|].
           exfalso. apply Hfresh, Hsub, Hid.
    + injection H as <- <-.
      destruct Hc as [(Hf & _)|[(Hf & _)|(_ & _ & Ec & _)]]; try discriminate.
      rewrite Ec. intros t Ht Hid d Hd.
      apply in_app_or in Ht as [Ht|Ht]; [exact (Hinv t Ht Hid d Hd)|].
      exfalso. specialize (Hsub _ Hid).
      rewrite map_app in Hnd. apply NoDup_app in Hnd as (_ & Hdis & _).
      apply list_elem_of_In in Hsub. apply (Hdis _ Hsub).
      apply list_elem_of_In. apply in_map, Ht.
Qed.

(** X29.  [_execute_plan] of the planner accounts for every task.  In the
    regular result the identifiers of the tasks of the plan are spread over
    the completed and the failed list, each task in one of them, and the
    success rate of a plan without tasks is 0; when the identifiers are
    distinct, all dependencies of a completed task are completed.  When an
    agent raises, the lists of the error result cover the tasks before the
    one at which the exception arose. *)
Theorem planner_accounts_for_every_task :
  forall (A : PlannerAgent.Agents) (plan : ExecutionPlan.t)
         (agents : list BaseAgent.t) (calls : nat),
    match fst (PlannerAgent._execute_plan A plan agents calls) with
    | PlannerAgent.ExecutionResult plan_id completed failed _ rate =>
        plan_id = ExecutionPlan.plan_id plan
        /\ Permutation (completed ++ failed) (map Task.id (ExecutionPlan.tasks plan))
        /\ (ExecutionPlan.tasks plan = [] -> rate = 0%Q)
        /\ (NoDup (map Task.id (ExecutionPlan.tasks plan)) ->
            forall t, In t (ExecutionPlan.tasks plan) -> In (Task.id t) completed ->
              forall d, In d (Task.dependencies t) -> In d completed)
    | PlannerAgent.ExecutionError plan_id _ completed failed =>
        plan_id = ExecutionPlan.plan_id plan
        /\ exists passed t rest,
             ExecutionPlan.tasks plan = (passed ++ t :: rest)%list
             /\ Permutation (completed ++ failed) (map Task.id passed)
    end.
Proof.
  intros A plan agents calls. unfold PlannerAgent._execute_plan.
  destruct (PlannerAgent.execute_loop A (ExecutionPlan.tasks plan)
              (PlannerAgent.mkRun ∅ [] [] agents calls)) as [[u|e] r] eqn:El; simpl.
  - split; [reflexivity|].
    destruct (execute_loop_accounts A _ [] _ _ _ El (Permutation_refl _))
      as (passed & rest & [-> ->] & Hp).
    split; [exact Hp|]. split.
    + intros ->. reflexivity.
    + intros Hnd. apply (execute_loop_gate A _ [] _ _ _ El Hnd).
      * intros x [].
      * intros t [].
  - split; [reflexivity|].
    destruct (execute_loop_accounts A _ [] _ _ _ El (Permutation_refl _))
      as (passed & rest & (t & rest' & Ht & ->) & Hp).
    exists passed, t, rest'. split; [exact Ht|exact Hp].
Qed.

Lemma ids_lookup_inj (all : list Task.t) i j a b :
  NoDup (map Task.id all) -> all !! i = Some a -> all !! j = Some b ->
  Task.id a = Task.id b -> i = j.
Proof.
  intros Hnd Hi Hj E.
  apply (proj1 (NoDup_alt (map Task.id all)) Hnd i j (Task.id a)).
  - change (map Task.id all) with (Task.id <$> all).
    rewrite list_lookup_fmap, Hi. reflexivity.
  - change (map Task.id all) with (Task.id <$> all).
    rewrite list_lookup_fmap, Hj, E. reflexivity.
Qed.

Lemma in_ids_take (all : list Task.t) n x :
  In x (map Task.id (take n all)) ->
  exists i a, (i < n)%nat /\ all !! i = Some a /\ Task.id a = x.
Proof.
  intros H. apply in_map_iff in H as (a & <- & Ha).
  apply list_elem_of_In in Ha. apply list_elem_of_lookup_1 in Ha as [i Hi].
  apply lookup_take_Some in Hi as [Hi Hlt]. eauto.
Qed.

(** In a chain with distinct identifiers the loop completes a first run of
    tasks and fails all the others without executing them. *)
Lemma execute_loop_chain A all calls0 :
  chained all -> NoDup (map Task.id all) ->
  forall rest k r out r',
    drop k all = rest -> (k <= length all)%nat ->
    PlannerAgent.execute_loop A rest r = (out, r') ->
    (exists n, (n <= k)%nat
               /\ PlannerAgent.completed_tasks r = map Task.id (take n all)
               /\ PlannerAgent.failed_tasks r = map Task.id (drop n (take k all))
               /\ (calls0 + n <= PlannerAgent.calls r <= calls0 + n + 1)%nat
               /\ (n = k -> PlannerAgent.calls r = (calls0 + n)%nat)) ->
    exists n, (n <= length all)%nat
              /\ PlannerAgent.completed_tasks r' = map Task.id (take n all)
              /\ match out with
                 | Ok _ =>
                     PlannerAgent.failed_tasks r' = map Task.id (drop n all)
                     /\ (PlannerAgent.calls r' <= calls0 + n + 1)%nat
                 | Raise _ =>
                     PlannerAgent.failed_tasks r' = []
                     /\ (n < length all)%nat
                     /\ PlannerAgent.calls r' = (calls0 + n + 1)%nat
                 end.
Proof.
  intros Hch Hnd. induction rest as [|t rest IH]; intros k r out r' Hk Hkl H Hinv; simpl in H.
  - injection H as <- <-. destruct Hinv as (n & Hn & Hc & Hf & Hcalls & _).
    assert (Hlen : (length all <= k)%nat).
    { destruct (decide (length all <= k)%nat) as [|Hlt]; [assumption|].
      exfalso. assert (Hl : length (drop k all) = 0%nat) by (rewrite Hk; reflexivity).
      rewrite length_drop in Hl. lia. }
    assert (Ek : k = length all) by lia. subst k.
    exists n. split; [exact Hn|]. split; [exact Hc|]. split.
    + rewrite Hf, take_ge by lia. reflexivity.
    + lia.
  - assert (Htk : all !! k = Some t).
    { pose proof (lookup_drop all k 0) as E. rewrite Hk, Nat.add_0_r in E.
      symmetry. exact E. }
    assert (Hrest : drop (S k) all = rest).
    { pose proof (drop_drop all 1 k) as E. rewrite Hk in E. simpl in E.
      rewrite Nat.add_1_r in E. symmetry. exact E. }
    pose proof (lookup_lt_Some _ _ _ Htk) as Hklt.
    destruct Hinv as (n & Hn & Hc & Hf & Hcalls & Hcalls').
    assert (Hsat : PlannerAgent._dependencies_satisfied t (PlannerAgent.completed_tasks r)
                   = true -> n = k).
    { intros Hs. destruct (decide (n = k)) as [|Hne]; [assumption|]. exfalso.
      specialize (Hch k t Htk). destruct k as [|j]; [lia|].
      destruct Hch as (prev & Hprev & Hdeps).
      pose proof (proj1 (dependencies_satisfied_spec _ _) Hs (Task.id prev)) as Hin.
      rewrite Hdeps in Hin. specialize (Hin (or_introl eq_refl)).
      rewrite Hc in Hin. apply in_ids_take in Hin as (i & a & Hi & Ha & Hid).
      pose proof (ids_lookup_inj all i j a prev Hnd Ha Hprev Hid). lia. }
    assert (Htake : take (S k) all = (take k all ++ [t])%list)
      by (apply take_S_r, Htk).
    pose proof (execute_step_cases A t r) as Hcase. simpl in Hcase.
    destruct (PlannerAgent.execute_step A t r) as [[u|e] r1]; simpl in Hcase.
    + apply (IH (S k) r1 out r' Hrest ltac:(lia) H).
      destruct Hcase as [(_ & Hs & Ec & Ef & Ecalls)
                        |[(_ & Ec & Ef & Ecalls)|([e He] & _)]]; [| |discriminate].
      * specialize (Hsat Hs). subst n. exists (S k).
        split; [lia|]. split.
        { rewrite Ec, Hc, Htake, map_app. reflexivity. }
        split.
        { rewrite Ef, Hf. rewrite !drop_ge; [reflexivity| |];
            rewrite length_take; lia. }
        rewrite Ecalls, (Hcalls' eq_refl). split; lia.
      * exists n. split; [lia|]. split; [rewrite Ec; exact Hc|]. split.
        { rewrite Ef, Hf, Htake.
          rewrite drop_app_le by (rewrite length_take; lia).
          rewrite map_app. reflexivity. }
        split; [|lia].
        destruct Ecalls as [Ecalls|[Hs Ecalls]].
        -- rewrite Ecalls. exact Hcalls.
        -- specialize (Hsat Hs). subst n. rewrite Ecalls, (Hcalls' eq_refl). lia.
    + injection H as <- <-.
      destruct Hcase as [(Hx & _)|[(Hx & _)|(_ & Hs & Ec & Ef & Ecalls)]];
        try discriminate.
      specialize (Hsat Hs). subst n. exists k. split; [lia|].
      split; [rewrite Ec; exact Hc|]. split.
      { rewrite Ef, Hf. rewrite drop_ge by (rewrite length_take; lia). reflexivity. }
      split; [exact Hklt|]. rewrite Ecalls, (Hcalls' eq_refl). lia.
Qed.

Lemma sum_estimates_some tasks : forall acc,
  (forall t, In t tasks -> Task.estimated_duration t <> None) ->
  exists q, PlannerAgent.sum_estimates tasks acc = Some q.
Proof.
  induction tasks as [|t tasks IH]; intros acc H; simpl; [eauto|].
  destruct (Task.estimated_duration t) as [d|] eqn:E.
  - apply IH. intros x Hx. apply H. right. exact Hx.
  - exfalso. apply (H t (or_introl eq_refl)). exact E.
Qed.

(** X30.  The planner stops at the first task that is not completed.
    [_create_and_execute_plan] always makes a plan, stores it under its
    identifier, and executes it; in the regular result the completed tasks
    are the first [n] tasks of the plan and the failed ones all the others,
    of which at most the first was given to an agent; when an agent raises,
    the first [n] tasks are completed, none is failed, and the exception
    arose at the task behind them. *)
Theorem planner_stops_at_first_failure :
  forall (A : PlannerAgent.Agents) (user_request : string) (self : PlannerAgent.t),
    exists plan outcome self',
      PlannerAgent._create_and_execute_plan A user_request self
      = (PlannerAgent.Planned plan, Some outcome, self')
      /\ ExecutionPlan.original_request plan = user_request
      /\ PlannerAgent.execution_plans self' !! ExecutionPlan.plan_id plan = Some plan
      /\ PlannerAgent.task_counter self'
         = (PlannerAgent.task_counter self + length (ExecutionPlan.tasks plan))%nat
      /\ exists n,
           (n <= length (ExecutionPlan.tasks plan))%nat
           /\ match outcome with
              | PlannerAgent.ExecutionResult _ completed failed _ _ =>
                  completed = map Task.id (take n (ExecutionPlan.tasks plan))
                  /\ failed = map Task.id (drop n (ExecutionPlan.tasks plan))
                  /\ (PlannerAgent.executed self'
                      <= PlannerAgent.executed self + n + 1)%nat
              | PlannerAgent.ExecutionError _ _ completed failed =>
                  completed = map Task.id (take n (ExecutionPlan.tasks plan))
                  /\ failed = []
                  /\ (n < length (ExecutionPlan.tasks plan))%nat
                  /\ PlannerAgent.executed self'
                     = (PlannerAgent.executed self + n + 1)%nat
              end.
Proof.
  intros A request self.
  destruct (decompose_complex_task_spec (PlannerAgent.task_counter self) request)
    as (tasks & Hd & Hne & Hts & Hch & Hnd).
  assert (Hest : forall t, In t tasks -> Task.estimated_duration t <> None).
  { intros t Ht. apply list_elem_of_In in Ht. apply list_elem_of_lookup_1 in Ht as [i Hi].
    destruct (Hts i t Hi) as (_ & _ & _ & d & _ & _ & ->). discriminate. }
  destruct (sum_estimates_some tasks 0 Hest) as [total Htotal].
  unfold PlannerAgent._create_and_execute_plan, PlannerAgent._plan_execution.
  rewrite Hd. rewrite Htotal.
  unfold PlannerAgent._calculate_complexity_score. rewrite Htotal.
  destruct tasks as [|t0 tasks']; [contradiction|].
  set (tasks := t0 :: tasks') in *.
  cbn [PlannerAgent._generate_plan_id].
  set (plan := ExecutionPlan.mk _ request tasks _ _ _).
  unfold PlannerAgent._execute_plan.
  cbn [PlannerAgent.registry PlannerAgent.executed PlannerAgent.task_counter
       PlannerAgent.plan_counter PlannerAgent.execution_plans].
  destruct (PlannerAgent.execute_loop A (ExecutionPlan.tasks plan)
              (PlannerAgent.mkRun ∅ [] [] (PlannerAgent.registry self)
                 (PlannerAgent.executed self))) as [out r] eqn:El.
  destruct (execute_loop_chain A tasks (PlannerAgent.executed self) Hch Hnd
              tasks 0 _ out r eq_refl ltac:(lia) El) as (n & Hn & Hc & Hout).
  { exists 0%nat. split; [lia|]. split; [reflexivity|]. split; [reflexivity|].
    simpl. split; lia. }
  destruct out as [u|e].
  - eexists plan, _, _. split; [reflexivity|]. split; [reflexivity|].
    split; [apply lookup_insert_eq|]. split; [reflexivity|].
    exists n. split; [exact Hn|]. destruct Hout as [Hf Hcalls].
    split; [exact Hc|]. split; [exact Hf|exact Hcalls].
  - eexists plan, _, _. split; [reflexivity|]. split; [reflexivity|].
    split; [apply lookup_insert_eq|]. split; [reflexivity|].
    exists n. split; [exact Hn|]. destruct Hout as (Hf & Hlt & Hcalls).
    split; [exact Hc|]. split; [exact Hf|]. split; [exact Hlt|exact Hcalls].
Qed.

(** A run of the planner on three fragments, with an agent that fails on
    the second one: the third is reported failed and was not executed. *)
Example planner_cascade :
  exists plan results rate self',
    PlannerAgent._create_and_execute_plan picky_agents
      "create a file and then read it and then delete it" fresh_planner
    = (PlannerAgent.Planned plan,
       Some (PlannerAgent.ExecutionResult "plan_000001" ["task_000001"]
               ["task_000002"; "task_000003"] results rate), self')
    /\ map Task.description (ExecutionPlan.tasks plan)
       = ["create a file"; "read it"; "delete it"]
    /\ PlannerAgent.executed self' = 2%nat.
Proof.
  eexists _, _, _, _. split; [vm_compute; reflexivity|]. split; reflexivity.
Qed.
